(* ===== verification/_CoqProject ===== *)
-Q . S2P
Prelude.v
Machine.v
CLib.v
CNumber.v
Ieee.v
Posix.v
Config.v
Logger.v
IpcProtocol.v
SharedMemory.v
SharedQueue.v
Resources.v
Sqlite.v
SqliteDatabase.v
SqliteRules.v
ParkingDatabase.v
SqliteExample.v
Database.v
DatabaseProofs.v
DatabaseLife.v
DatabaseExample.v
TcpServer.v
TcpSockets.v
TcpLife.v
TcpMessages.v
System.v
TcpExample.v
GpsSimulator.v
HalI2c.v
HalI2cProofs.v
HalI2cExample.v
BbgClient.v
BbgProofs.v
BbgLife.v
Scanf.v
PriceUpdater.v
PriceUpdaterProofs.v
PriceUpdaterExample.v
Signalling.v
Ledger.v
Fleet.v
EndToEnd.v
EndToEndExample.v
