(* ===== verification/Prelude.v ===== *)
(** * Parking-System: a verification development (root file)

    ** The program

    The repository holds a parking service.  A board with GPS coordinates
    (src/STM32GpsSimulator) answers I2C reads; a client on a BeagleBone Green
    (src/BbgClient) turns the coordinates into requests to start or end parking
    and sends them over TCP; the TcpServer (src/TcpServer) passes them through a
    System V shared segment to Database (src/Database), which keeps cities and
    parking sessions in an SQLite file and answers through the same segment; and
    PriceUpdater (src/PriceUpdater) lets an operator change the cities and
    signals Database.  Five libraries (src/Libraries) are shared: Config,
    Logger, SharedMemory, Queue and SQLiteDatabase, with the message layout of
    IpcProtocol.

    ** The files

    Foundations
    - Prelude: outcomes and the state monad, record update, [wp] (the program
      returns and the postcondition holds), [wdp] (it is defined; it returns with
      the postcondition, or waits for ever) and [wlp] (if it returns the
      postcondition holds), their rules, the tactic [wp_step] and
      the hint databases.
    - Machine: integers of a width, bytes, little-endian images, memories.
    - CLib, CNumber, Ieee, Scanf: what the sources use of the C library
      (buffers and strings, [snprintf], [strtol], [fgets], [scanf]) and of
      IEEE 754, with memory images of [float] and [double].
    - Posix: the calls to the operating system and the [Environment] that
      answers them.

    Libraries
    - Config: Config/Src/config.c.  Logger: Logger/Src/logger.c.
    - IpcProtocol: the two messages of ipc_protocol.hpp, byte for byte, and the
      layout of the segment.
    - SharedMemory: the class of shared_memory.cpp.
    - SharedQueue: the class of shared_queue.cpp on the bytes of the segment,
      and its refinement of an abstract bounded queue.
    - Resources: what a process holds (mappings, segments, semaphores, mutexes,
      condition variables) by the account of its calls.
    - Sqlite: the interface of the SQLite library ([Sqlite]), its documented
      behaviour ([SqliteLaws]) and the SQL texts of the sources.
      SqliteDatabase: sqlite_database.c.  SqliteRules: one proof rule per call
      and statement.  ParkingDatabase: what each function promises, and the
      parking sessions over sequences of calls.  SqliteExample: an executable
      instance of the laws, which the witnesses run on.

    Programs
    - Database: database.cpp and its main.  DatabaseProofs: request processing
      and the two worker threads.  DatabaseLife: start-up and shutdown,
      and what the process holds.  DatabaseExample: witnesses.
    - TcpServer: tcp_server.cpp and its main.  TcpSockets: the select loop and
      its descriptors.  TcpLife: the process from start to end, what it
      holds, and when it ends.  TcpMessages: requests and responses.  TcpExample:
      witnesses.
    - GpsSimulator: Core/Src/main.c of the firmware, with the branch of the
      HAL's slave interrupt that hands out bytes.
    - HalI2c: the I2C slave of the HAL (stm32f7xx_hal_i2c.c), registers and
      interrupt routines, and the board, that is the firmware on this driver.
      HalI2cProofs: the board for legal sequences of interrupts, and for a
      master that writes.  HalI2cExample: witnesses.
    - BbgClient: bbg_client.c and main.c.  BbgProofs: its requests.  BbgLife:
      its descriptors and termination.
    - PriceUpdater: Test/main.c, the whole program.  PriceUpdaterProofs,
      PriceUpdaterExample.

    Composition
    - System: the two servers on one segment, as a step relation over the
      rounds of their threads.
    - Signalling: the PID file from Database to PriceUpdater.
    - Ledger: a reference service without a database, and the equivalence of
      Database with it.
    - Fleet: the client's requests are of the kind the reference grants.
    - EndToEnd: the two servers against the reference, and the client with
      both.  EndToEndExample: witnesses.

    ** How code becomes definitions

    A C or C++ function is a Definition in the monad [M S], over a record [S]
    of what the process keeps: its object or statics (field by field), the
    bytes of the shared segment where it has mapped one, the state of the
    SQLite library, and the [world], the history of calls to the operating
    system with their answers.  A function has the name it has in the source.
    Undefined behaviour (an access through a null pointer, an overflow of
    [int64_t], a string that is not terminated) is the outcome [Undefined], and
    a [wp] excludes it.  A method of a nested object runs on its own state
    through [zoom] (the [in_logger], [in_ipc], [in_sqlite], ... of each file).

    The operating system is an arbitrary function of the history of calls
    ([Environment]), so that a theorem without a hypothesis on it holds for
    every answer and failure of every call.  Other threads and processes are an
    arbitrary function on the state ([OtherThreads] of Database and TcpServer),
    applied wherever the thread can block; the theorems that need less than
    all of these behaviours say so with a named predicate.  A [pthread_join] of
    the TcpServer returns only when the thread it joins ends, which is
    arbitrary as well ([Threads]).  The segment's
    header and the bytes of each queue are real bytes, so that two processes
    share it in System by handing the same bytes to each other.

    ** The theorems

    - Sessions (ParkingDatabase): every outcome of starting and stopping; at
      most one active session per vehicle, an append-only history; the charge
      is by the minute rounded up, at the price of the start; where
      [int64_t] overflows; cities; connections and statements are given back.
    - Queues (SharedQueue, IpcProtocol, SharedMemory): the ring of bytes
      refines a FIFO, with failing semaphores too; the two queues of the
      segment do not interfere; mappings.
    - Database: the reply to each request with its reason (a start of parking
      is refused only for a reason [start_reply] lists); the interleaved worker
      threads refine a pipeline; announcing the queues, or what a failure to do
      so leaves; shutdown, with an account of what has been given back.
    - TcpServer: one request is read from a socket whatever pieces it comes in;
      it is forwarded in order; a response goes to the socket of its request;
      every socket is closed; a process that ends has joined its threads and
      given back what it obtained, nothing twice; it ends when threads end that
      are told to, and never after a start of the threads that failed half way.
    - The firmware: the bytes sent over any sequence of interrupts, reads that
      are not torn by the timer, start-up.  The board: the same through the
      driver's registers, for the sequences of flags the peripheral can show
      ([legal]), as a refinement of the firmware's model; a write to its
      address disables its interrupts for ever.
    - The client: requests that are numbered, carry what was read, and never
      park a parked vehicle; descriptors.
    - PriceUpdater: sessions at the keyboard, end of the menu, resources; the
      process it signals is the one that wrote the PID file.
    - Libraries: settings load, trimmed and cut to their buffers, and are found
      again; what the logger writes and
      where; no descriptor is lost.
    - The system: in every reachable state of the two servers each request is
      in exactly one place and each socket has been sent a prefix of its
      responses; from every such state all are delivered; Database alone, and
      both servers together, give the same responses as the reference; and all
      requests of the client are answered with success.

    ** Hypotheses, fuel and bounds

    - [SqliteLaws] is the documented behaviour of SQLite for the statements
      the sources prepare.  Its [rely] is what other processes may do to the
      file between two calls; [sessions_private] says they leave the sessions
      alone (PriceUpdater only writes cities), and the equivalences with the
      reference assume [rely] is equality.  [~ sqlite_failure] excludes errors
      that no constraint of the schema explains.
    - [transfers], [pthreads_work], [semaphore_works], [kernel_ok], [detaches],
      [obliging], [threads_listen] state what the manual pages promise of a call, and where a loop depends
      on the peer (a socket interrupted, a process that stays attached) how
      often; each has a concrete instance in an Example file.
    - Loops of the sources that end by themselves are structural.  Loops that
      depend on the system take [fuel], and a theorem that says the program
      returns gives the fuel that is enough: the bytes of a message and the
      number of interruptions for the transfer loops, the calls of [select]
      until the stop for the server loop, ten seconds of pauses for the wait
      for the segment, the characters of the input for the
      menu.
    - In System the other threads of a process are the rounds of System
      themselves, so [OtherThreads] is the identity there; a round is one turn
      of a thread's loop, and rounds of the threads interleave freely.  The
      clients in a run respect the protocol: whole, well-formed requests,
      identifiers not in use, at most as many requests outstanding as the
      queues hold.

    ** Not modelled

    - The HAL drivers of STMicroelectronics apart from the I2C slave (clocks,
      pins, timer, serial port; of the I2C driver the master, the transfers by
      DMA and the reception of a slave, which the firmware never starts), CMSIS
      and the start-up code STM32CubeMX generated: vendor code the firmware
      calls, a parameter of its model (of [HAL_I2C_MspInit] HalI2c keeps that a
      clock which cannot be configured ends in [Error_Handler]).  Flags that change while an interrupt
      routine runs are seen by the next one: HalI2c takes the status register
      as it is on entry, changed only by the routine itself.
    - SQLite, the C library's formatting beyond what the sources pass to it,
      and the kernel: parameters, as above.
    - In the models of the programs a call of a LOG macro is one event with the
      level and the format string; Logger models what such a call does.  The
      error messages of config.c are left out: they come before [logger_init],
      where [logger_write] returns at once.
    - The Test directories of the libraries, Makefiles, the systemd unit, the
      start script and the documents.
*)

From Stdlib Require Export ZArith Lia.
From Stdlib Require Strings.Byte.
From Stdlib Require Import Strings.String.
From stdpp Require Export base list strings gmap.
From stdpp Require Import numbers.

#[export] Set Default Proof Using "Type".
#[export] Set Warnings "-clear-no-such-hyp".
Open Scope Z_scope.

Create HintDb parking.
Create Rewrite HintDb bytes.

(** ** Outcomes and the state monad of the model

    A C or C++ function is a state transformer.  It may return, run into
    behaviour the language leaves undefined, or still be waiting when the
    number of loop iterations given to the model is used up. *)
Inductive outcome (A : Type) : Type :=
| Ret (a : A)
| Undefined
| OutOfFuel.
Arguments Ret {A} a.
Arguments Undefined {A}.
Arguments OutOfFuel {A}.

Definition M (S A : Type) : Type := S -> outcome (A * S).

#[export] Instance M_ret S : MRet (M S) := fun A a s => Ret (a, s).
#[export] Instance M_bind S : MBind (M S) := fun A B f m s =>
  match m s with
  | Ret (a, s') => f a s'
  | Undefined => Undefined
  | OutOfFuel => OutOfFuel
  end.

Definition undef {S A} : M S A := fun _ => Undefined.
Definition out_of_fuel {S A} : M S A := fun _ => OutOfFuel.
Definition get {S} : M S S := fun s => Ret (s, s).
Definition gets {S A} (f : S -> A) : M S A := fun s => Ret (f s, s).
Definition modify {S} (f : S -> S) : M S unit := fun s => Ret (tt, f s).

(** An undefined access is an option that is [None]. *)
Definition from_option_undef {S A} (o : option A) : M S A :=
  match o with Some a => mret a | None => undef end.

(** Run a computation on a component of the state. *)
Definition zoom {S T A} (proj : S -> T) (upd : T -> S -> S) (m : M T A) : M S A :=
  fun s => match m (proj s) with
           | Ret (a, t) => Ret (a, upd t s)
           | Undefined => Undefined
           | OutOfFuel => OutOfFuel
           end.

(** ** Record update

    [s <| f := v |>] is [s] with field [f] replaced.  A record states its
    fields once, as an instance of [Fields]; the setters are derived. *)
Class Fields (R : Type) := fields : R -> R.
Class Setter {R T : Type} (f : R -> T) := set_field : (T -> T) -> R -> R.

Ltac derive_setter :=
  match goal with
  | |- @Setter ?R ?T ?f =>
      let e := constr:(ltac:(typeclasses eauto) : Fields R) in
      let g := fresh "g" in
      let r := fresh "r" in
      intros g r;
      let t := eval hnf in (e r) in
      let t := eval pattern (f r) in t in
      match t with ?h _ => exact (h (g (f r))) end
  end.
#[export] Hint Extern 1 (Setter _) => derive_setter : typeclass_instances.

Notation "s <| f := v |>" := (set_field (f := f) (fun _ => v) s)
  (at level 1, left associativity).
Notation "s <| f ::= g |>" := (set_field (f := f) g s)
  (at level 1, left associativity).

Section MonadLaws.
Context {S : Type}.

Lemma M_ret_bind {A B} (a : A) (f : A -> M S B) (s : S) :
  (mret a ≫= f) s = f a s.
Proof. reflexivity. Qed.

Lemma M_bind_ret {A} (m : M S A) (s : S) : (m ≫= mret) s = m s.
Proof. unfold mbind, M_bind. by destruct (m s) as [[a s']| |]. Qed.

Lemma M_bind_bind {A B C} (m : M S A) (f : A -> M S B) (g : B -> M S C) (s : S) :
  ((m ≫= f) ≫= g) s = (m ≫= (fun a => f a ≫= g)) s.
Proof. unfold mbind, M_bind. by destruct (m s) as [[a s']| |]. Qed.
End MonadLaws.

(** ** Weakest preconditions

    [wp m Q s]: run from [s], [m] returns (no undefined behaviour, enough
    fuel) a result and state satisfying [Q].
    [wdp m Q s]: run from [s], [m] is defined; if it returns, then [Q] holds.
    [wlp m Q s]: if [m] returns from [s], then [Q] holds. *)
Definition wp {S A} (m : M S A) (Q : A -> S -> Prop) (s : S) : Prop :=
  match m s with Ret (a, s') => Q a s' | _ => False end.

Definition wdp {S A} (m : M S A) (Q : A -> S -> Prop) (s : S) : Prop :=
  match m s with Ret (a, s') => Q a s' | Undefined => False | OutOfFuel => True end.

Definition wlp {S A} (m : M S A) (Q : A -> S -> Prop) (s : S) : Prop :=
  match m s with Ret (a, s') => Q a s' | _ => True end.

Section WpRules.
Context {S : Type}.
Implicit Types s : S.

Lemma wp_ret {A} (a : A) (Q : A -> S -> Prop) s : Q a s -> wp (mret a) Q s.
Proof. done. Qed.

Lemma wp_bind {A B} (m : M S A) (f : A -> M S B) (Q : B -> S -> Prop) s :
  wp m (fun a s' => wp (f a) Q s') s -> wp (m ≫= f) Q s.
Proof. unfold wp, mbind, M_bind. by destruct (m s) as [[a s']| |]. Qed.

Lemma wp_mono {A} (m : M S A) (P Q : A -> S -> Prop) s :
  wp m P s -> (forall a s', P a s' -> Q a s') -> wp m Q s.
Proof. unfold wp. destruct (m s) as [[a s']| |]; naive_solver. Qed.

Lemma wp_conj {A} (m : M S A) (P Q : A -> S -> Prop) s :
  wp m P s -> wp m Q s -> wp m (fun a s' => P a s' /\ Q a s') s.
Proof. unfold wp. destruct (m s) as [[a s']| |]; naive_solver. Qed.

Lemma wp_returns {A} (m : M S A) (Q : A -> S -> Prop) s :
  wp m Q s -> exists a s', m s = Ret (a, s') /\ Q a s'.
Proof. unfold wp. destruct (m s) as [[a s']| |]; naive_solver. Qed.

Lemma wp_run {A} (m : M S A) (Q : A -> S -> Prop) s a s' :
  wp m Q s -> m s = Ret (a, s') -> Q a s'.
Proof. unfold wp. intros H E. by rewrite E in H. Qed.

Lemma wp_wlp {A} (m : M S A) (Q : A -> S -> Prop) s : wp m Q s -> wlp m Q s.
Proof. unfold wp, wlp. by destruct (m s) as [[a s']| |]. Qed.

Lemma wp_wlp_conj {A} (m : M S A) (P Q : A -> S -> Prop) s :
  wp m P s -> wlp m Q s -> wp m (fun a s' => P a s' /\ Q a s') s.
Proof. unfold wp, wlp. by destruct (m s) as [[a s']| |]. Qed.

Lemma wp_wdp {A} (m : M S A) (Q : A -> S -> Prop) s : wp m Q s -> wdp m Q s.
Proof. unfold wp, wdp. by destruct (m s) as [[a s']| |]. Qed.

Lemma wdp_bind {A B} (m : M S A) (f : A -> M S B) (Q : B -> S -> Prop) s :
  wdp m (fun a s' => wdp (f a) Q s') s -> wdp (m ≫= f) Q s.
Proof. unfold wdp, mbind, M_bind. by destruct (m s) as [[a s']| |]. Qed.

Lemma wdp_mono {A} (m : M S A) (P Q : A -> S -> Prop) s :
  wdp m P s -> (forall a s', P a s' -> Q a s') -> wdp m Q s.
Proof. unfold wdp. destruct (m s) as [[a s']| |]; naive_solver. Qed.

(** What is shown of the runs that return holds when the program returns. *)
Lemma wp_wdp_conj {A} (m : M S A) (P Q : A -> S -> Prop) s :
  wp m P s -> wdp m Q s -> wp m (fun a s' => P a s' /\ Q a s') s.
Proof. unfold wp, wdp. by destruct (m s) as [[a s']| |]. Qed.

Lemma wdp_returns {A} (m : M S A) (Q : A -> S -> Prop) s a s' : wdp m Q s -> m s = Ret (a, s') -> Q a s'.
Proof. unfold wdp. intros Hm E. by rewrite E in Hm. Qed.

Lemma wp_get (Q : S -> S -> Prop) s : Q s s -> wp get Q s.
Proof. done. Qed.

Lemma wp_gets {A} (f : S -> A) (Q : A -> S -> Prop) s : Q (f s) s -> wp (gets f) Q s.
Proof. done. Qed.

Lemma wp_modify (f : S -> S) (Q : unit -> S -> Prop) s : Q tt (f s) -> wp (modify f) Q s.
Proof. done. Qed.

Lemma wp_zoom {T A} (proj : S -> T) (upd : T -> S -> S) (m : M T A) (Q : A -> S -> Prop) s :
  wp m (fun a t => Q a (upd t s)) (proj s) -> wp (zoom proj upd m) Q s.
Proof. unfold wp, zoom. by destruct (m (proj s)) as [[a t]| |]. Qed.

Lemma wp_if {A} (b : bool) (m1 m2 : M S A) (Q : A -> S -> Prop) s :
  (b = true -> wp m1 Q s) -> (b = false -> wp m2 Q s) -> wp (if b then m1 else m2) Q s.
Proof. destruct b; auto. Qed.

Lemma wp_from_option {A} (o : option A) (a : A) (Q : A -> S -> Prop) s :
  o = Some a -> Q a s -> wp (from_option_undef o) Q s.
Proof. by intros ->. Qed.

Lemma wlp_ret {A} (a : A) (Q : A -> S -> Prop) s : Q a s -> wlp (mret a) Q s.
Proof. done. Qed.

Lemma wlp_bind {A B} (m : M S A) (f : A -> M S B) (Q : B -> S -> Prop) s :
  wlp m (fun a s' => wlp (f a) Q s') s -> wlp (m ≫= f) Q s.
Proof. unfold wlp, mbind, M_bind. by destruct (m s) as [[a s']| |]. Qed.
End WpRules.

#[export] Hint Resolve wp_ret wp_get wp_gets wp_modify wlp_ret : parking.

(** One structural step of a weakest-precondition proof. *)
Ltac wp_step :=
  match goal with
  | |- wp (mbind _ _) _ _ => apply wp_bind
  | |- wp (mret _) _ _ => apply wp_ret
  | |- wp get _ _ => apply wp_get
  | |- wp (gets _) _ _ => apply wp_gets
  | |- wp (modify _) _ _ => apply wp_modify
  | |- wp (zoom _ _ _) _ _ => apply wp_zoom
  | |- wp (if ?b then _ else _) _ _ => apply wp_if; intros
  end.

(** Evaluate a monadic run in a hypothesis or goal, one [match] at a time. *)
Ltac run_step :=
  match goal with
  | |- context [match ?m ?s with Ret _ => _ | Undefined => _ | OutOfFuel => _ end] =>
      let E := fresh "E" in destruct (m s) as [[? ?]| |] eqn:E
  end.
