(* ===== verification/Machine.v ===== *)
(** Machine integers, bytes, little-endian images and byte memories: the data
    layer shared by every component.  A w-bit integer is a [Z] with its
    wrap-around written out; a region of memory is a list of bytes. *)

From S2P Require Import Prelude.
Abbreviation byte := Byte.byte.

(** ** Machine integers *)
Definition wrap_u (w z : Z) : Z := z `mod` 2 ^ w.
Definition wrap_s (w z : Z) : Z := (z + 2 ^ (w - 1)) `mod` 2 ^ w - 2 ^ (w - 1).
Abbreviation u8 := (wrap_u 8).
Abbreviation u16 := (wrap_u 16).
Abbreviation u32 := (wrap_u 32).
Abbreviation u64 := (wrap_u 64).
Abbreviation s32 := (wrap_s 32).
Abbreviation s64 := (wrap_s 64).

Definition INT_MIN : Z := - 2 ^ 31.
Definition INT_MAX : Z := 2 ^ 31 - 1.
Definition INT64_MIN : Z := - 2 ^ 63.
Definition INT64_MAX : Z := 2 ^ 63 - 1.

Definition in_int (z : Z) : bool := (INT_MIN <=? z) && (z <=? INT_MAX).
Definition in_int64 (z : Z) : bool := (INT64_MIN <=? z) && (z <=? INT64_MAX).
Definition in_u64 (z : Z) : bool := (0 <=? z) && (z <? 2 ^ 64).

(** Signed arithmetic of C: defined only when the exact result fits. *)
Definition int64_add (a b : Z) : option Z := if in_int64 (a + b) then Some (a + b) else None.
Definition int64_sub (a b : Z) : option Z := if in_int64 (a - b) then Some (a - b) else None.

Lemma wrap_u_range w z : 0 <= w -> 0 <= wrap_u w z < 2 ^ w.
Proof. intros. apply Z.mod_pos_bound. lia. Qed.

Lemma wrap_u_small w z : 0 <= z < 2 ^ w -> wrap_u w z = z.
Proof. intros. by apply Z.mod_small. Qed.

Lemma pow2_split w : 0 < w -> 2 ^ w = 2 * 2 ^ (w - 1).
Proof. intros. rewrite <-Z.pow_succ_r by lia. f_equal. lia. Qed.

Lemma wrap_s_range w z : 0 < w -> - 2 ^ (w - 1) <= wrap_s w z < 2 ^ (w - 1).
Proof.
  intros Hw. unfold wrap_s. pose proof (pow2_split w Hw).
  assert (0 < 2 ^ (w - 1)) by lia.
  pose proof (Z.mod_pos_bound (z + 2 ^ (w - 1)) (2 ^ w)). lia.
Qed.

Lemma wrap_s_small w z : 0 < w -> - 2 ^ (w - 1) <= z < 2 ^ (w - 1) -> wrap_s w z = z.
Proof.
  intros Hw Hz. unfold wrap_s. pose proof (pow2_split w Hw).
  rewrite Z.mod_small; lia.
Qed.

Lemma s32_small z : in_int z = true -> s32 z = z.
Proof.
  unfold in_int, INT_MIN, INT_MAX. intros [?%Z.leb_le ?%Z.leb_le]%andb_prop.
  apply wrap_s_small; change (2 ^ (32 - 1)) with (2 ^ 31); lia.
Qed.

Lemma u64_small z : 0 <= z < 2 ^ 64 -> u64 z = z.
Proof. apply wrap_u_small. Qed.

#[export] Hint Resolve wrap_u_range wrap_s_range : parking.

(** ** Bytes *)
#[export] Instance byte_eq_dec : EqDecision byte := Byte.byte_eq_dec.

Definition byte_val (b : byte) : Z := Z.of_N (Byte.to_N b).
Definition byte_of_Z (z : Z) : byte :=
  match Byte.of_N (Z.to_N (z `mod` 256)) with Some b => b | None => Byte.x00 end.

Lemma byte_val_range b : 0 <= byte_val b < 256.
Proof. unfold byte_val. pose proof (Byte.to_N_bounded b). lia. Qed.

Lemma byte_val_of_Z z : byte_val (byte_of_Z z) = z `mod` 256.
Proof.
  unfold byte_val, byte_of_Z.
  pose proof (Z.mod_pos_bound z 256 ltac:(lia)) as B.
  destruct (Byte.of_N _) as [b|] eqn:E.
  - apply Byte.to_of_N in E. rewrite E. lia.
  - apply Byte.of_N_None_iff in E. lia.
Qed.

Lemma byte_of_Z_val b : byte_of_Z (byte_val b) = b.
Proof.
  unfold byte_of_Z, byte_val. pose proof (Byte.to_N_bounded b).
  rewrite Z.mod_small by lia. rewrite N2Z.id. by rewrite Byte.of_to_N.
Qed.

Lemma byte_of_Z_mod z : byte_of_Z (z `mod` 256) = byte_of_Z z.
Proof. unfold byte_of_Z. by rewrite Z.mod_mod by lia. Qed.

(** ** Little-endian images *)
Fixpoint le_bytes (n : nat) (z : Z) : list byte :=
  match n with
  | O => []
  | S n' => byte_of_Z z :: le_bytes n' (z `div` 256)
  end.

Fixpoint le_val (l : list byte) : Z :=
  match l with
  | [] => 0
  | b :: l' => byte_val b + 256 * le_val l'
  end.

Lemma length_le_bytes n z : length (le_bytes n z) = n.
Proof. revert z. induction n; simpl; auto. Qed.

Lemma le_val_range l : 0 <= le_val l < 256 ^ Z.of_nat (length l).
Proof.
  induction l as [|b l IH]; simpl le_val; simpl length; [lia|].
  rewrite Nat2Z.inj_succ, Z.pow_succ_r by lia.
  pose proof (byte_val_range b). lia.
Qed.

Lemma le_val_bytes n z : le_val (le_bytes n z) = z `mod` 256 ^ Z.of_nat n.
Proof.
  revert z. induction n as [|n IH]; intros z.
  - simpl. by rewrite Z.mod_1_r.
  - cbn [le_bytes le_val]. rewrite IH, byte_val_of_Z.
    rewrite Nat2Z.inj_succ, Z.pow_succ_r by lia.
    rewrite (Z.rem_mul_r z 256) by lia. lia.
Qed.

Lemma le_val_bytes_small n z : 0 <= z < 256 ^ Z.of_nat n -> le_val (le_bytes n z) = z.
Proof. intros. rewrite le_val_bytes. by apply Z.mod_small. Qed.

Lemma le_bytes_val l : le_bytes (length l) (le_val l) = l.
Proof.
  induction l as [|b l IH]; [done|]. cbn [length le_bytes le_val].
  pose proof (byte_val_range b).
  rewrite (Z.mul_comm 256), Z.div_add, Z.div_small, Z.add_0_l, IH by lia.
  rewrite <-byte_of_Z_mod, Z.mod_add, Z.mod_small, byte_of_Z_val by lia.
  done.
Qed.

(** ** Regions of a byte memory

    Reading or writing outside the region is undefined behaviour ([None]). *)
Definition mem_read (m : list byte) (off n : nat) : option (list byte) :=
  if decide (off + n <= length m)%nat then Some (take n (drop off m)) else None.

Definition mem_write (m : list byte) (off : nat) (bs : list byte) : option (list byte) :=
  if decide (off + length bs <= length m)%nat
  then Some (take off m ++ bs ++ drop (off + length bs) m)
  else None.

Lemma mem_read_Some m off n : (off + n <= length m)%nat ->
  mem_read m off n = Some (take n (drop off m)).
Proof. intros. unfold mem_read. by rewrite decide_True. Qed.

Lemma mem_read_length m off n bs : mem_read m off n = Some bs -> length bs = n.
Proof.
  unfold mem_read. case_decide; intros; simplify_eq. rewrite length_take, length_drop. lia.
Qed.

Lemma mem_read_lookup_bound m off n bs : mem_read m off n = Some bs -> (off + n <= length m)%nat.
Proof. unfold mem_read. by case_decide. Qed.

Lemma mem_write_Some m off bs : (off + length bs <= length m)%nat ->
  mem_write m off bs = Some (take off m ++ bs ++ drop (off + length bs) m).
Proof. intros. unfold mem_write. by rewrite decide_True. Qed.

Lemma mem_write_inv m off bs m' : mem_write m off bs = Some m' ->
  (off + length bs <= length m)%nat /\ m' = take off m ++ bs ++ drop (off + length bs) m.
Proof. unfold mem_write. case_decide; intros; simplify_eq. done. Qed.

Lemma mem_write_length m off bs m' : mem_write m off bs = Some m' -> length m' = length m.
Proof.
  intros [? ->]%mem_write_inv. rewrite !length_app, length_take, length_drop. lia.
Qed.

Lemma mem_write_lookup m off bs m' (i : nat) : mem_write m off bs = Some m' ->
  m' !! i = if decide (off <= i < off + length bs)%nat then bs !! (i - off)%nat else m !! i.
Proof.
  intros [? ->]%mem_write_inv.
  assert (length (take off m) = off) as Hl by (rewrite length_take; lia).
  destruct (decide (i < off)%nat).
  - rewrite decide_False by lia. rewrite lookup_app_l by lia. by rewrite lookup_take_lt by lia.
  - rewrite lookup_app_r by lia. rewrite Hl. case_decide.
    + by rewrite lookup_app_l by lia.
    + rewrite lookup_app_r by lia. rewrite lookup_drop. f_equal. lia.
Qed.

Lemma mem_read_lookup m off n bs (i : nat) : mem_read m off n = Some bs ->
  bs !! i = if decide (i < n)%nat then m !! (off + i)%nat else None.
Proof.
  unfold mem_read. case_decide; intros; simplify_eq. case_decide.
  - rewrite lookup_take_lt by lia. by rewrite lookup_drop.
  - by rewrite lookup_take_ge by lia.
Qed.

(** What was written is read back; what lies outside is unchanged. *)
Lemma mem_read_write_same m off bs m' :
  mem_write m off bs = Some m' -> mem_read m' off (length bs) = Some bs.
Proof.
  intros H. pose proof (mem_write_length _ _ _ _ H). apply mem_write_inv in H as [? ->].
  rewrite mem_read_Some by lia. f_equal.
  rewrite drop_app_ge by (rewrite length_take; lia).
  rewrite length_take, Nat.min_l by lia. rewrite Nat.sub_diag, drop_0.
  by rewrite take_app_length.
Qed.

Lemma mem_read_write_disjoint m off bs m' off' n :
  mem_write m off bs = Some m' ->
  (off' + n <= off \/ off + length bs <= off')%nat ->
  mem_read m' off' n = mem_read m off' n.
Proof.
  intros H Hd. pose proof (mem_write_length _ _ _ _ H) as Hl.
  unfold mem_read. rewrite Hl. case_decide; [|done]. f_equal.
  apply list_eq. intros i. destruct (decide (i < n)%nat).
  - rewrite !lookup_take_lt, !lookup_drop by lia. rewrite (mem_write_lookup _ _ _ _ _ H).
    rewrite decide_False by lia. done.
  - by rewrite !lookup_take_ge by lia.
Qed.

#[export] Hint Rewrite length_le_bytes : bytes.
