(* ===== verification/CLib.v ===== *)
(** The parts of the C standard library the sources use: strings in byte
    buffers, [snprintf] of strings and integers, [strtol], [fgets], and the
    IEEE 754 formats of [float] and [double] with their memory images. *)

From Stdlib Require Import Floats.SpecFloat.
From S2P Require Import Prelude Machine.

(** ** C strings

    The contents of a C string is the list of bytes before its NUL; a buffer
    is the list of all its bytes. *)
Definition bs (s : string) : list byte := String.list_byte_of_string s.
Abbreviation NUL := Byte.x00.

Fixpoint cstr_of_buf (b : list byte) : option (list byte) :=
  match b with
  | [] => None
  | c :: b' => if decide (c = NUL) then Some [] else (c ::.) <$> cstr_of_buf b'
  end.

(** [strncpy(dst, src, n)] writes exactly [n] bytes. *)
Definition strncpy (n : nat) (src : list byte) : list byte :=
  take n src ++ replicate (n - length src) NUL.

(** [snprintf(dst, size, "%s", src)]: the bytes written (with the NUL) and
    the value returned. *)
Definition snprintf_s (size : nat) (src : list byte) : list byte * Z :=
  (take (size - 1) src ++ [NUL], Z.of_nat (length src)).

Definition strchr_split (c : byte) (s : list byte) : option (list byte * list byte) :=
  (fix go (pre s : list byte) :=
     match s with
     | [] => None
     | x :: s' => if decide (x = c) then Some (reverse pre, s') else go (x :: pre) s'
     end) [] s.

(** [strcspn(s, "c")] *)
Fixpoint strcspn (c : byte) (s : list byte) : nat :=
  match s with
  | [] => O
  | x :: s' => if decide (x = c) then O else S (strcspn c s')
  end.

Definition no_nul (s : list byte) : Prop := NUL ∉ s.

Lemma cstr_of_buf_app s rest : no_nul s -> cstr_of_buf (s ++ NUL :: rest) = Some s.
Proof.
  unfold no_nul. induction s as [|c s IH]; intros H; simpl; [done|].
  rewrite decide_False by set_solver. rewrite IH by set_solver. done.
Qed.

Lemma cstr_of_buf_no_nul b s : cstr_of_buf b = Some s -> no_nul s.
Proof.
  unfold no_nul. revert s. induction b as [|c b IH]; intros s; simpl; [done|].
  case_decide; [intros; simplify_eq; set_solver|].
  destruct (cstr_of_buf b) as [s'|]; simpl; intros; simplify_eq.
  specialize (IH s' eq_refl). set_solver.
Qed.

Lemma cstr_of_buf_length b s : cstr_of_buf b = Some s -> (length s < length b)%nat.
Proof.
  revert s. induction b as [|c b IH]; intros s; simpl; [done|].
  case_decide; [intros; simplify_eq; simpl; lia|].
  destruct (cstr_of_buf b) as [s'|]; simpl; intros; simplify_eq. simpl.
  specialize (IH s' eq_refl). lia.
Qed.

Lemma length_strncpy n src : length (strncpy n src) = n.
Proof. unfold strncpy. rewrite length_app, length_take, length_replicate. lia. Qed.

Lemma no_nul_take n s : no_nul s -> no_nul (take n s).
Proof. unfold no_nul. intros H E. apply H. by eapply subseteq_take. Qed.

(** The idiom [strncpy(dst, src, size - 1); dst[size - 1] = '\0';] on a
    buffer of [size] bytes. *)
Definition copy_cstr (size : nat) (src : list byte) : list byte :=
  strncpy (size - 1) src ++ [NUL].

(** The C string a NUL-terminated buffer holds. *)
Fixpoint until_nul (b : list byte) : list byte :=
  match b with
  | [] => []
  | c :: b' => if decide (c = NUL) then [] else c :: until_nul b'
  end.

Lemma until_nul_cstr b s : cstr_of_buf b = Some s -> until_nul b = s.
Proof.
  revert s. induction b as [|c b IH]; intros s; simpl; [done|].
  case_decide; [congruence|].
  destruct (cstr_of_buf b); simpl; intros; simplify_eq. by rewrite (IH _ eq_refl).
Qed.

Lemma until_nul_no_nul b : no_nul (until_nul b).
Proof.
  unfold no_nul. induction b as [|c b IH]; simpl; [set_solver|]. case_decide; set_solver.
Qed.

Lemma until_nul_id s : no_nul s -> until_nul s = s.
Proof.
  unfold no_nul. induction s as [|c s IH]; intros H; simpl; [done|].
  rewrite decide_False by set_solver. f_equal. apply IH. set_solver.
Qed.

Lemma length_copy_cstr size src : (0 < size)%nat -> length (copy_cstr size src) = size.
Proof. intros. unfold copy_cstr. rewrite length_app, length_strncpy. simpl. lia. Qed.

(** A bounded copy holds the longest prefix that fits. *)
Lemma cstr_of_copy_cstr size src : no_nul src -> (0 < size)%nat ->
  cstr_of_buf (copy_cstr size src) = Some (take (size - 1) src).
Proof.
  intros H Hn. unfold copy_cstr, strncpy. rewrite <-app_assoc.
  destruct (size - 1 - length src)%nat as [|n] eqn:E; simpl;
    apply cstr_of_buf_app; by apply no_nul_take.
Qed.

Lemma until_nul_copy_cstr size src : no_nul src -> (0 < size)%nat ->
  until_nul (copy_cstr size src) = take (size - 1) src.
Proof. intros. by apply until_nul_cstr, cstr_of_copy_cstr. Qed.

Lemma snprintf_s_cstr size src : no_nul src ->
  cstr_of_buf (snprintf_s size src).1 = Some (take (size - 1) src).
Proof. intros. simpl. apply cstr_of_buf_app. by apply no_nul_take. Qed.

Lemma strchr_split_spec c s pre post :
  strchr_split c s = Some (pre, post) <-> s = pre ++ c :: post /\ c ∉ pre.
Proof.
  unfold strchr_split.
  assert (forall acc, (fix go (pre s : list byte) :=
     match s with
     | [] => None
     | x :: s' => if decide (x = c) then Some (reverse pre, s') else go (x :: pre) s'
     end) acc s = Some (pre, post) <->
     exists p, pre = reverse acc ++ p /\ s = p ++ c :: post /\ c ∉ p) as G.
  { induction s as [|x s IH]; intros acc.
    - split; [done|]. intros (p & _ & E & _). by destruct p.
    - case_decide as E.
      + subst x. split.
        * intros; simplify_eq. exists []. rewrite app_nil_r. set_solver.
        * intros ([|y p] & -> & E & N); simplify_eq/=; [by rewrite app_nil_r|set_solver].
      + rewrite IH. split.
        * intros (p & -> & -> & N). exists (x :: p).
          rewrite reverse_cons, <-app_assoc. set_solver.
        * intros ([|y p] & -> & E' & N); simplify_eq/=. exists p.
          rewrite reverse_cons, <-app_assoc. set_solver. }
  rewrite G. split.
  - intros (p & -> & ? & ?). by rewrite reverse_nil.
  - intros [? ?]. exists pre. by rewrite reverse_nil.
Qed.

Lemma strchr_split_None c s : strchr_split c s = None <-> c ∉ s.
Proof.
  split.
  - intros E (pre & post & -> & ?)%list_elem_of_split_l.
    assert (strchr_split c (pre ++ c :: post) = Some (pre, post)) as G
      by (by apply strchr_split_spec).
    congruence.
  - intros N. destruct (strchr_split c s) as [[pre post]|] eqn:E; [|done].
    apply strchr_split_spec in E as [-> _]. set_solver.
Qed.

(** [fgets(line, size, file)] on the unread bytes of the file: a line with its
    newline, at most [size - 1] bytes; [None] at end of file. *)
Fixpoint fgets_go (n : nat) (file : list byte) : list byte * list byte :=
  match n, file with
  | S n', c :: file' =>
      if decide (c = Byte.x0a) then ([c], file')
      else let '(l, r) := fgets_go n' file' in (c :: l, r)
  | _, _ => ([], file)
  end.

Definition fgets (size : nat) (file : list byte) : option (list byte * list byte) :=
  match file with
  | [] => None
  | _ => Some (fgets_go (size - 1) file)
  end.

Lemma fgets_go_app n file l r : fgets_go n file = (l, r) -> file = l ++ r /\ (length l <= n)%nat.
Proof.
  revert file l r. induction n as [|n IH]; intros [|c file] l r; simpl; intros;
    simplify_eq/=; [split; [done|lia]..|].
  case_decide; simplify_eq/=; [split; [done|lia]|].
  destruct (fgets_go n file) as [l' r'] eqn:E. simplify_eq/=.
  apply IH in E as [-> ?]. split; [done|lia].
Qed.

(** Every successful read consumes at least one byte and loses none. *)
Lemma fgets_progress size file l r : (1 < size)%nat ->
  fgets size file = Some (l, r) ->
  file = l ++ r /\ (0 < length l < size)%nat /\ (length r < length file)%nat.
Proof.
  intros Hs. unfold fgets. destruct file as [|c file]; [done|].
  destruct (fgets_go (size - 1) (c :: file)) as [l' r'] eqn:G. intros [= -> ->].
  pose proof (fgets_go_app _ _ _ _ G) as [E' ?].
  assert (0 < length l)%nat.
  { destruct (size - 1)%nat eqn:S; [lia|]. simpl in G. case_decide; simplify_eq; simpl; [lia|].
    destruct (fgets_go n file); simplify_eq. simpl. lia. }
  rewrite E', length_app. repeat split; lia || done.
Qed.

Lemma fgets_line size l r : Byte.x0a ∉ l -> (length l < size - 1)%nat ->
  fgets size (l ++ Byte.x0a :: r) = Some (l ++ [Byte.x0a], r).
Proof.
  intros N Hl. unfold fgets.
  assert (forall n, (length l < n)%nat -> fgets_go n (l ++ Byte.x0a :: r) = (l ++ [Byte.x0a], r)) as G.
  { clear Hl size. induction l as [|c l IH]; intros [|n] Hn; simpl in *; try lia; [done|].
    rewrite decide_False by set_solver. rewrite IH; [done|set_solver|lia]. }
  rewrite G by lia. by destruct l.
Qed.
