(* ===== verification/CNumber.v ===== *)
(** Decimal numbers of the C library: [printf]'s [%d]/[%lld] and base-10
    [strtol], with the round trip between them. *)

From S2P Require Import Prelude Machine CLib.

(** ** Printing *)
Definition digit (d : Z) : byte := byte_of_Z (48 + d).
Definition is_digit (c : byte) : bool := (48 <=? byte_val c) && (byte_val c <=? 57).
Definition digit_val (c : byte) : Z := byte_val c - 48.

(** [fuel] bounds the number of digits; 20 digits hold any 64-bit integer. *)
Fixpoint dec_digits (fuel : nat) (n : Z) : list byte :=
  match fuel with
  | O => []
  | S f => if n <? 10 then [digit n] else dec_digits f (n `div` 10) ++ [digit (n `mod` 10)]
  end.

Definition dec_of_Z (z : Z) : list byte :=
  if z <? 0 then Byte.x2d :: dec_digits 20 (- z) else dec_digits 20 z.

(** ** [strtol(s, &endptr, 10)] for a [long] of [long_bits] bits *)
Definition is_space (c : byte) : bool :=
  (byte_val c =? 32) || ((9 <=? byte_val c) && (byte_val c <=? 13)).

Fixpoint skip_space (s : list byte) : list byte :=
  match s with
  | c :: s' => if is_space c then skip_space s' else s
  | [] => []
  end.

Fixpoint scan_digits (acc : Z) (s : list byte) : Z * list byte :=
  match s with
  | c :: s' => if is_digit c then scan_digits (10 * acc + digit_val c) s' else (acc, s)
  | [] => (acc, s)
  end.

Record strtol_result := StrtolResult {
  strtol_value : Z;
  strtol_erange : bool;        (* errno was set to ERANGE *)
  strtol_end : list byte;      (* the string at endptr *)
}.

Definition strtol10 (long_bits : Z) (s : list byte) : strtol_result :=
  let t := skip_space s in
  let '(neg, t) := match t with
                   | c :: t' => if decide (c = Byte.x2d) then (true, t')
                                else if decide (c = Byte.x2b) then (false, t') else (false, t)
                   | [] => (false, t)
                   end in
  match t with
  | c :: _ =>
      if is_digit c then
        let '(v, rest) := scan_digits 0 t in
        let v := if neg : bool then - v else v in
        let lo := - 2 ^ (long_bits - 1) in
        let hi := 2 ^ (long_bits - 1) - 1 in
        if v <? lo then StrtolResult lo true rest
        else if hi <? v then StrtolResult hi true rest
        else StrtolResult v false rest
      else StrtolResult 0 false s
  | [] => StrtolResult 0 false s
  end.

(** ** Digits *)
Lemma digit_is_digit d : 0 <= d < 10 -> is_digit (digit d) = true.
Proof.
  intros. unfold is_digit, digit. rewrite byte_val_of_Z, Z.mod_small by lia. lia.
Qed.

Lemma digit_val_digit d : 0 <= d < 10 -> digit_val (digit d) = d.
Proof. intros. unfold digit_val, digit. rewrite byte_val_of_Z, Z.mod_small by lia. lia. Qed.

Lemma is_digit_inv c : is_digit c = true -> c = digit (digit_val c) /\ 0 <= digit_val c < 10.
Proof.
  unfold is_digit, digit, digit_val. intros [?%Z.leb_le ?%Z.leb_le]%andb_prop.
  split; [|lia]. replace (48 + (byte_val c - 48)) with (byte_val c) by lia. by rewrite byte_of_Z_val.
Qed.

Lemma dec_digits_all fuel n : 0 <= n -> Forall (fun c => is_digit c = true) (dec_digits fuel n).
Proof.
  revert n. induction fuel as [|f IH]; intros n Hn; simpl; [constructor|].
  destruct (n <? 10) eqn:E.
  - constructor; [apply digit_is_digit; lia|constructor].
  - apply Forall_app. split.
    + apply IH. apply Z.div_pos; lia.
    + constructor; [|constructor]. apply digit_is_digit. apply Z.mod_pos_bound. lia.
Qed.

Lemma dec_digits_nonnil f n : dec_digits (S f) n <> [].
Proof. simpl. destruct (n <? 10); [done|]. by destruct (dec_digits f _). Qed.

Lemma dec_digits_hd f n : 0 <= n -> exists c l, dec_digits (S f) n = c :: l /\ is_digit c = true.
Proof.
  intros Hn. pose proof (dec_digits_all (S f) n Hn) as Ha.
  destruct (dec_digits (S f) n) as [|c l] eqn:E; [by apply dec_digits_nonnil in E|].
  inversion_clear Ha. eauto.
Qed.

Lemma scan_digits_app acc l rest : Forall (fun c => is_digit c = true) l ->
  scan_digits acc (l ++ rest) =
  scan_digits (fold_left (fun a c => 10 * a + digit_val c) l acc) rest.
Proof.
  intros Hl. revert acc. induction Hl as [|c l Hc Hl IH]; intros acc; simpl; [done|].
  by rewrite Hc, IH.
Qed.

Lemma dec_digits_value fuel n : 0 <= n < 10 ^ Z.of_nat fuel ->
  fold_left (fun a c => 10 * a + digit_val c) (dec_digits fuel n) 0 = n.
Proof.
  revert n. induction fuel as [|f IH]; intros n Hn.
  - simpl in *. lia.
  - rewrite Nat2Z.inj_succ, Z.pow_succ_r in Hn by lia. cbn [dec_digits].
    destruct (n <? 10) eqn:E.
    + cbn. rewrite digit_val_digit by lia. lia.
    + rewrite fold_left_app, IH.
      * cbn. pose proof (Z.mod_pos_bound n 10 ltac:(lia)).
        rewrite digit_val_digit by lia. pose proof (Z.div_mod n 10). lia.
      * split; [apply Z.div_pos; lia|]. apply Z.div_lt_upper_bound; lia.
Qed.

Lemma scan_dec_digits n : 0 <= n < 10 ^ 20 -> scan_digits 0 (dec_digits 20 n) = (n, []).
Proof.
  intros Hn. rewrite <-(app_nil_r (dec_digits 20 n)).
  rewrite scan_digits_app by (apply dec_digits_all; lia).
  cbn [scan_digits]. f_equal. by apply dec_digits_value.
Qed.

Lemma digit_not_sign c : is_digit c = true ->
  is_space c = false /\ c <> Byte.x2d /\ c <> Byte.x2b /\ c <> NUL /\ c <> Byte.x0a.
Proof. destruct c; cbn; intros; try discriminate; repeat split; discriminate. Qed.

(** ** The round trip *)
Lemma strtol10_dec_of_Z w z : 0 < w <= 64 -> - 2 ^ (w - 1) <= z < 2 ^ (w - 1) ->
  strtol10 w (dec_of_Z z) = StrtolResult z false [].
Proof.
  intros Hw Hz.
  assert (2 ^ (w - 1) <= 2 ^ 63) by (apply Z.pow_le_mono_r; lia).
  assert (2 ^ 63 < 10 ^ 20) by (vm_compute; done).
  unfold dec_of_Z. destruct (z <? 0) eqn:E.
  - destruct (dec_digits_hd 19 (- z) ltac:(lia)) as (c & l & El & Hc).
    unfold strtol10. cbn -[dec_digits Z.pow scan_digits is_digit]. rewrite decide_True by done.
    rewrite El, Hc, <-El.
    rewrite scan_dec_digits by lia. rewrite Z.opp_involutive.
    rewrite (proj2 (Z.ltb_ge _ _)) by lia. rewrite (proj2 (Z.ltb_ge _ _)) by lia. done.
  - destruct (dec_digits_hd 19 z ltac:(lia)) as (c & l & El & Hc).
    pose proof (digit_not_sign c Hc) as (Hs & ? & ? & _).
    unfold strtol10. rewrite El. cbn -[Z.pow scan_digits is_digit is_space]. rewrite Hs.
    rewrite !decide_False by done. rewrite Hc, <-El.
    rewrite scan_dec_digits by lia.
    rewrite (proj2 (Z.ltb_ge _ _)) by lia. rewrite (proj2 (Z.ltb_ge _ _)) by lia. done.
Qed.

Lemma dec_of_Z_no_nul z : no_nul (dec_of_Z z) /\ (Byte.x0a ∉ dec_of_Z z).
Proof.
  unfold no_nul, dec_of_Z.
  assert (forall n, 0 <= n -> (NUL ∉ dec_digits 20 n) /\ (Byte.x0a ∉ dec_digits 20 n)) as G.
  { intros n Hn. pose proof (dec_digits_all 20 n Hn) as Ha.
    split; intros E; rewrite Forall_forall in Ha; by specialize (Ha _ E). }
  destruct (z <? 0) eqn:E.
  - destruct (G (- z) ltac:(lia)). by rewrite !not_elem_of_cons.
  - apply G. lia.
Qed.

Example dec_example : dec_of_Z (-1024) = bs "-1024".
Proof. vm_compute. reflexivity. Qed.

Example strtol_hex_stops : strtol10 64 (bs "0x1234") = StrtolResult 0 false (bs "x1234").
Proof. vm_compute. reflexivity. Qed.
