(* ===== verification/Ieee.v ===== *)
(** IEEE 754 [float] and [double]: values ([spec_float]), the operations the
    sources apply to them, and their memory images. *)

From Stdlib Require Export Floats.SpecFloat.
From S2P Require Import Prelude Machine.

Abbreviation double := spec_float.
Abbreviation float := spec_float.

#[export] Instance spec_float_eq_dec : EqDecision spec_float.
Proof. solve_decision. Defined.

(** ** Operations on [double] *)
Definition double_mul : double -> double -> double := SFmul 53 1024.
Definition double_lt (x y : double) : bool := SFltb x y.
Definition double_le (x y : double) : bool := SFleb x y.
Definition double_gt (x y : double) : bool := SFltb y x.
Definition double_ge (x y : double) : bool := SFleb y x.
Definition double_of_int64 (z : Z) : double := binary_normalize 53 1024 z 0 false.
Definition double_zero : double := S754_zero false.

(** The conversion [(double)x] of a [float] is exact: only the mantissa is
    brought to the canonical form of the wider format. *)
Definition double_of_float (x : float) : double :=
  match x with
  | S754_finite s m e => binary_round 53 1024 s m e
  | _ => x
  end.

(** The literal [num/den] of the source, correctly rounded. *)
Definition literal (prec emax num den : Z) : spec_float :=
  match num with
  | Z0 => S754_zero false
  | _ => let '(mz, ez, lz) := SFdiv_core_binary prec emax (Z.abs num) 0 den 0 in
         binary_round_aux prec emax (num <? 0) mz ez lz
  end.
Definition double_lit : Z -> Z -> double := literal 53 1024.
Definition float_lit : Z -> Z -> float := literal 24 128.

(** ** Memory images *)
Definition encode_bits (mw ew : Z) (x : spec_float) : Z :=
  let sign (s : bool) := if s then 2 ^ (mw + ew) else 0 in
  let bias := 2 ^ (ew - 1) - 1 + mw in
  match x with
  | S754_zero s => sign s
  | S754_infinity s => sign s + (2 ^ ew - 1) * 2 ^ mw
  | S754_nan => (2 ^ ew - 1) * 2 ^ mw + 2 ^ (mw - 1)
  | S754_finite s m e =>
      if 2 ^ mw <=? Zpos m
      then sign s + (e + bias) * 2 ^ mw + (Zpos m - 2 ^ mw)
      else sign s + Zpos m
  end.

Definition decode_bits (mw ew : Z) (z : Z) : spec_float :=
  let bias := 2 ^ (ew - 1) - 1 + mw in
  let s := 2 ^ (mw + ew) <=? z in
  let ex := (z `div` 2 ^ mw) `mod` 2 ^ ew in
  let mant := z `mod` 2 ^ mw in
  if ex =? 0 then
    match mant with Zpos m => S754_finite s m (1 - bias) | _ => S754_zero s end
  else if ex =? 2 ^ ew - 1 then
    if mant =? 0 then S754_infinity s else S754_nan
  else match mant + 2 ^ mw with
       | Zpos m => S754_finite s m (ex - bias)
       | _ => S754_nan
       end.

Definition double_bits : double -> Z := encode_bits 52 11.
Definition double_of_bits : Z -> double := decode_bits 52 11.
Definition float_bits : float -> Z := encode_bits 23 8.
Definition float_of_bits : Z -> float := decode_bits 23 8.

Abbreviation valid_double := (valid_binary 53 1024).
Abbreviation valid_float := (valid_binary 24 128).

(** ** Bounds of canonical mantissas *)
Lemma digits2_pos_bounds m :
  2 ^ (Zpos (digits2_pos m) - 1) <= Zpos m < 2 ^ Zpos (digits2_pos m).
Proof.
  induction m as [m IH|m IH|]; [| |done]; cbn [digits2_pos].
  all: replace (Z.pos (Pos.succ (digits2_pos m))) with (Z.pos (digits2_pos m) + 1) by lia.
  all: rewrite Z.add_simpl_r.
  all: pose proof (pow2_split (Z.pos (digits2_pos m)) ltac:(lia)) as E1.
  all: rewrite (pow2_split (Z.pos (digits2_pos m) + 1)) by lia; rewrite Z.add_simpl_r.
  all: lia.
Qed.

Lemma digits2_pos_le m n : 0 <= n -> Zpos (digits2_pos m) <= n <-> Zpos m < 2 ^ n.
Proof.
  intros Hn. pose proof (digits2_pos_bounds m) as [Hlo Hhi]. split; intros H.
  - eapply Z.lt_le_trans; [exact Hhi|]. by apply Z.pow_le_mono_r.
  - apply Z.nlt_ge. intros Hlt.
    assert (2 ^ n <= 2 ^ (Zpos (digits2_pos m) - 1)) by (apply Z.pow_le_mono_r; lia). lia.
Qed.

Section Images.
Context (mw ew : Z) (Hmw : 1 < mw) (Hew : 2 < ew) (Hrel : mw + 1 < 2 ^ (ew - 1)).
Local Abbreviation prec := (mw + 1).
Local Abbreviation emax := (2 ^ (ew - 1)).

Lemma bounded_cases m e : bounded prec emax m e = true ->
  let emin := 3 - emax - prec in
  emin <= e <= emax - prec /\ Zpos m < 2 ^ prec /\ (2 ^ mw <= Zpos m \/ e = emin).
Proof using Hmw Hew.
  unfold bounded, canonical_mantissa, fexp, SpecFloat.emin.
  intros [E%Z.eqb_eq E2%Z.leb_le]%andb_prop. cbn zeta.
  assert (Zpos (digits2_pos m) <= prec) as Hd by lia.
  split; [lia|]. split; [by apply digits2_pos_le; [lia|]|].
  destruct (decide (Zpos (digits2_pos m) = prec)) as [Hp|]; [left|right; lia].
  pose proof (digits2_pos_bounds m) as [Hlo _]. rewrite Hp in Hlo.
  by replace (prec - 1) with mw in Hlo by lia.
Qed.

Lemma decode_parts (s : bool) ex mant :
  0 <= ex < 2 ^ ew -> 0 <= mant < 2 ^ mw ->
  let z := (if s then 2 ^ (mw + ew) else 0) + ex * 2 ^ mw + mant in
  (2 ^ (mw + ew) <=? z) = s /\ (z `div` 2 ^ mw) `mod` 2 ^ ew = ex /\ z `mod` 2 ^ mw = mant /\
  0 <= z < 2 ^ (mw + ew + 1).
Proof using Hmw Hew.
  intros Hex Hm z.
  assert (2 ^ (mw + ew) = 2 ^ ew * 2 ^ mw) as Ep by (rewrite Z.pow_add_r by lia; lia).
  assert (2 ^ (mw + ew + 1) = 2 * 2 ^ (mw + ew)) as Ep2
    by (rewrite (pow2_split (mw + ew + 1)) by lia; by rewrite Z.add_simpl_r).
  assert (0 < 2 ^ mw) by lia.
  assert (z = ((if s then 2 ^ ew else 0) + ex) * 2 ^ mw + mant) as Ez
    by (unfold z; destruct s; lia).
  assert (z `div` 2 ^ mw = (if s then 2 ^ ew else 0) + ex) as Ed
    by (rewrite Ez, Z.div_add_l, Z.div_small by lia; lia).
  repeat split.
  - unfold z. destruct s; [apply Z.leb_le; nia | apply Z.leb_gt; nia].
  - rewrite Ed. destruct s; [|by rewrite Z.add_0_l, Z.mod_small by lia].
    replace (2 ^ ew + ex) with (ex + 1 * 2 ^ ew) by lia.
    rewrite Z.mod_add by lia. by apply Z.mod_small.
  - rewrite Ez, Z.add_comm, Z.mod_add by lia. by apply Z.mod_small.
  - unfold z. destruct s; nia.
  - unfold z. rewrite Ep2. destruct s; nia.
Qed.

Lemma decode_encode_bits x : valid_binary prec emax x = true ->
  decode_bits mw ew (encode_bits mw ew x) = x /\ 0 <= encode_bits mw ew x < 2 ^ (mw + ew + 1).
Proof using Hmw Hew Hrel.
  intros Hv. assert (0 < 2 ^ mw) by lia.
  assert (8 <= 2 ^ ew) by (change 8 with (2 ^ 3); apply Z.pow_le_mono_r; lia).
  assert (2 ^ ew = 2 * 2 ^ (ew - 1)) as Eew by (apply pow2_split; lia).
  assert (2 ^ prec = 2 * 2 ^ mw) as Eprec
    by (rewrite (pow2_split (mw + 1)) by lia; by rewrite Z.add_simpl_r).
  assert (2 * 2 ^ (mw - 1) = 2 ^ mw) by (symmetry; apply pow2_split; lia).
  destruct x as [s|s| |s m e]; unfold encode_bits, decode_bits.
  - destruct (decode_parts s 0 0) as (E1 & E2 & E3 & E4); [lia|lia|].
    rewrite Z.mul_0_l, !Z.add_0_r in E1, E2, E3, E4. by rewrite E1, E2, E3.
  - destruct (decode_parts s (2 ^ ew - 1) 0) as (E1 & E2 & E3 & E4); [lia|lia|].
    rewrite !Z.add_0_r in E1, E2, E3, E4. rewrite E1, E2, E3.
    by rewrite (proj2 (Z.eqb_neq _ _)), Z.eqb_refl by lia.
  - destruct (decode_parts false (2 ^ ew - 1) (2 ^ (mw - 1))) as (E1 & E2 & E3 & E4); [lia|lia|].
    rewrite Z.add_0_l in E1, E2, E3, E4. rewrite E1, E2, E3.
    rewrite (proj2 (Z.eqb_neq _ _)), Z.eqb_refl by lia.
    by rewrite (proj2 (Z.eqb_neq _ _)) by lia.
  - apply bounded_cases in Hv as (He & Hm & Hn); cbn zeta in *.
    destruct (2 ^ mw <=? Z.pos m) eqn:El.
    + apply Z.leb_le in El. set (b := 2 ^ (ew - 1) - 1 + mw).
      destruct (decode_parts s (e + b) (Z.pos m - 2 ^ mw)) as (E1 & E2 & E3 & E4);
        [unfold b; lia|lia|].
      rewrite E1, E2, E3.
      rewrite (proj2 (Z.eqb_neq _ _)) by (unfold b; lia).
      rewrite (proj2 (Z.eqb_neq _ _)) by (unfold b; lia).
      split; [|done]. rewrite Z.sub_add. by rewrite Z.add_simpl_r.
    + apply Z.leb_gt in El. destruct Hn as [Hn|Hn]; [lia|].
      destruct (decode_parts s 0 (Z.pos m)) as (E1 & E2 & E3 & E4); [lia|lia|].
      rewrite Z.mul_0_l, !Z.add_0_r in E1, E2, E3, E4. rewrite E1, E2, E3. cbn.
      split; [|done]. f_equal. lia.
Qed.
End Images.

Lemma double_of_bits_bits x : valid_double x = true ->
  double_of_bits (double_bits x) = x /\ 0 <= double_bits x < 2 ^ 64.
Proof. apply (decode_encode_bits 52 11); lia. Qed.

Lemma float_of_bits_bits x : valid_float x = true ->
  float_of_bits (float_bits x) = x /\ 0 <= float_bits x < 2 ^ 32.
Proof. apply (decode_encode_bits 23 8); lia. Qed.

Example double_half : double_bits (double_lit 1 2) = 0x3fe0000000000000.
Proof. vm_compute. reflexivity. Qed.
Example double_tenth : double_bits (double_lit 199 10) = 0x4033e66666666666.
Proof. vm_compute. reflexivity. Qed.
Example float_ten_one : float_bits (float_lit 10100 1000) = 0x4121999a.
Proof. vm_compute. reflexivity. Qed.

Lemma double_ge_not_lt x : x <> S754_nan -> double_lt x double_zero = false -> double_ge x double_zero = true.
Proof. unfold double_lt, double_ge, SFltb, SFleb. by destruct x as [[]|[]| |[] ? ?]. Qed.
