(* ===== verification/Posix.v ===== *)
(** The operating system as the sources see it: the calls they make, and an
    environment that answers each call.  The environment is any function of
    the calls made so far and their answers, so a theorem stated for every
    environment covers every behaviour and failure of the system. *)

From S2P Require Import Prelude Machine CLib.

(** Objects of the pthread library used by the two servers. *)
Inductive mutex := log_mutex | request_queue_mutex | clients_mutex.
Inductive condvar := request_queue_condition.
Inductive thread :=
  request_reader | response_writer | request_writer | response_reader | tcp_server.
Inductive signal := SIGINT | SIGUSR1.
Inductive mask_how := SIG_BLOCK | SIG_SETMASK.

#[export] Instance mutex_eq_dec : EqDecision mutex.
Proof. solve_decision. Defined.
#[export] Instance condvar_eq_dec : EqDecision condvar.
Proof. solve_decision. Defined.
#[export] Instance thread_eq_dec : EqDecision thread.
Proof. solve_decision. Defined.
#[export] Instance signal_eq_dec : EqDecision signal.
Proof. solve_decision. Defined.
#[export] Instance mask_how_eq_dec : EqDecision mask_how.
Proof. solve_decision. Defined.

(** Severities of a log message (logger.h). *)
Inductive log_level_t := LOG_LEVEL_INFO | LOG_LEVEL_ERROR | LOG_LEVEL_DEBUG.

#[export] Instance log_level_eq_dec : EqDecision log_level_t.
Proof. solve_decision. Defined.

(** Calls with the arguments that matter to the sources.  A call of the
    program's own logger is recorded as one event with its level and format
    string; Logger models what the call does. *)
Inductive syscall :=
| sys_log (level : log_level_t) (format : string)
(* files *)
| sys_fopen (path : list byte)                (* the data is the whole file *)
| sys_fclose
| sys_open (path : list byte) (truncate : bool)
| sys_close (fd : Z)
| sys_read (fd : Z) (n : Z)
| sys_write (fd : Z) (data : list byte)
| sys_ioctl (fd : Z) (arg : Z)
| sys_remove (path : list byte)
| sys_pipe
| sys_fork
| sys_getpid
| sys_kill (pid : Z) (s : signal)
| sys_time
| sys_localtime
| sys_clock
| sys_sleep (ms : Z)
(* System V shared memory and POSIX semaphores *)
| sys_shmget (key size : Z) (create excl : bool)
| sys_shmat (id : Z)
| sys_shmdt (addr : Z)
| sys_shm_stat (id : Z)
| sys_shm_rmid (id : Z)
| sys_sem_open (name : list byte)
| sys_sem_wait (sem : Z)
| sys_sem_post (sem : Z)
| sys_sem_close (sem : Z)
(* threads *)
| sys_mutex_init (m : mutex)
| sys_mutex_destroy (m : mutex)
| sys_mutex_lock (m : mutex)
| sys_mutex_unlock (m : mutex)
| sys_cond_init (c : condvar)
| sys_cond_destroy (c : condvar)
| sys_cond_wait (c : condvar) (m : mutex)
| sys_cond_signal (c : condvar)
| sys_cond_broadcast (c : condvar)
| sys_thread_create (t : thread)
| sys_thread_join (t : thread)
| sys_sigemptyset
| sys_sigaddset (s : signal)
| sys_sigmask (how : mask_how)
| sys_sigwait
(* sockets *)
| sys_socket
| sys_setsockopt (fd : Z)
| sys_bind (fd port : Z)
| sys_listen (fd backlog : Z)
| sys_select (nfds : Z) (fds : gset Z)
| sys_accept (fd : Z)
| sys_recv (fd n : Z)
| sys_send (fd : Z) (data : list byte) (nosignal : bool)
| sys_inet_pton (address : list byte)
| sys_inet_ntop
| sys_connect (fd port : Z)
| sys_shutdown (fd : Z).

#[export] Instance syscall_eq_dec : EqDecision syscall.
Proof. solve_decision. Defined.

(** What a call returns: its value, [errno], the bytes it delivers and, for
    [select], the descriptors that are ready. *)
Record answer := Answer {
  ans_ret : Z;
  ans_errno : Z;
  ans_data : list byte;
  ans_fds : gset Z;
}.

Definition ok (r : Z) : answer := Answer r 0 [] ∅.
Definition failed (e : Z) : answer := Answer (-1) e [] ∅.

Abbreviation EINTR := 4.
Abbreviation ENOENT := 2.

(** The calls made so far, the latest first, each with its answer. *)
Abbreviation world := (list (syscall * answer)).

Class Environment := respond : world -> syscall -> answer.

Section Calls.
Context `{Environment}.

Definition sys (c : syscall) : M world answer := fun w =>
  let a := respond w c in Ret (a, (c, a) :: w).

(** The returned value alone. *)
Definition sysr (c : syscall) : M world Z := a ← sys c; mret (ans_ret a).

Definition sys_ (c : syscall) : M world unit := sys c;; mret tt.

(** The macros of logger.h. *)
Definition LOG_INFO (format : string) : M world unit := sys_ (sys_log LOG_LEVEL_INFO format).
Definition LOG_ERROR (format : string) : M world unit := sys_ (sys_log LOG_LEVEL_ERROR format).
Definition LOG_DEBUG (format : string) : M world unit := sys_ (sys_log LOG_LEVEL_DEBUG format).

Lemma wp_sys c (Q : answer -> world -> Prop) w :
  Q (respond w c) ((c, respond w c) :: w) -> wp (sys c) Q w.
Proof. done. Qed.

Lemma wp_sysr c (Q : Z -> world -> Prop) w :
  Q (ans_ret (respond w c)) ((c, respond w c) :: w) -> wp (sysr c) Q w.
Proof. done. Qed.

Lemma wp_sys_ c (Q : unit -> world -> Prop) w :
  Q tt ((c, respond w c) :: w) -> wp (sys_ c) Q w.
Proof. done. Qed.
End Calls.

#[export] Hint Resolve wp_sys wp_sysr wp_sys_ : parking.

(** One step of a weakest-precondition proof, system calls included. *)
Ltac wp_sys_step :=
  match goal with
  | |- wp (sys _) _ _ => apply wp_sys
  | |- wp (sysr _) _ _ => apply wp_sysr
  | |- wp (sys_ _) _ _ => apply wp_sys_
  | |- wp (LOG_INFO _) _ _ => apply wp_sys_
  | |- wp (LOG_ERROR _) _ _ => apply wp_sys_
  | |- wp (LOG_DEBUG _) _ _ => apply wp_sys_
  | _ => wp_step
  end.
Ltac wp_go := repeat (wp_sys_step; cbv beta).

(** ** Counting calls in a history *)
Definition calls (p : syscall -> bool) (w : world) : nat :=
  length (filter (fun e => p e.1 = true) w).

Definition succeeded (p : syscall -> answer -> bool) (w : world) : nat :=
  length (filter (fun e => p e.1 e.2 = true) w).

Lemma calls_cons p c a w : calls p ((c, a) :: w) = ((if p c then 1 else 0) + calls p w)%nat.
Proof. unfold calls. rewrite filter_cons. simpl. by destruct (p c). Qed.

Lemma succeeded_cons p c a w :
  succeeded p ((c, a) :: w) = ((if p c a then 1 else 0) + succeeded p w)%nat.
Proof. unfold succeeded. rewrite filter_cons. simpl. by destruct (p c a). Qed.
