(* ===== verification/Config.v ===== *)
(** Config (src/Libraries/Config): parsing of KEY=VALUE files and lookup of
    string and integer settings.  The LOG_ERROR calls of config.c are left out:
    the programs load and read their settings before [logger_init], when
    [logger_write] returns at once ([Logger.logger_silent]).  The one setting
    that is read later (DATABASE_PATH of PriceUpdater) has its message in
    [PriceUpdater.initialize]. *)

From S2P Require Import Prelude Machine CLib CNumber Posix.

Definition CONFIG_MAX_ENTRIES : nat := 100.
Definition CONFIG_MAX_KEY_LENGTH : nat := 64.
Definition CONFIG_MAX_VALUE_LENGTH : nat := 256.
Definition CONFIG_LINE_MAX_LENGTH : nat := 512.

(** The two character buffers of an entry. *)
Record config_entry_t := ConfigEntry {
  entry_key : list byte;
  entry_value : list byte;
}.

(** The entries below [count]; the others are never read. *)
Record config_t := Config { entries : list config_entry_t }.
Definition count (c : config_t) : nat := length (entries c).

(** ** Operations *)
Definition is_trim_char (c : byte) : bool :=
  bool_decide (c = Byte.x20) || bool_decide (c = Byte.x09) ||
  bool_decide (c = Byte.x0a) || bool_decide (c = Byte.x0d).

Fixpoint trim_start (str : list byte) : list byte :=
  match str with
  | c :: str' => if is_trim_char c then trim_start str' else str
  | [] => []
  end.

(** [n] is [end - str]. *)
Fixpoint trim_end (n : nat) (str : list byte) : list byte :=
  match n with
  | O => str
  | S n' => match str !! n with
            | Some c => if is_trim_char c then trim_end n' (take n str) else str
            | None => str
            end
  end.

Definition config_trim (str : list byte) : list byte :=
  match trim_start str with
  | [] => []
  | t => trim_end (length t - 1) t
  end.

Definition config_find_entry (config : option config_t) (key : option (list byte))
    : option config_entry_t :=
  match config, key with
  | Some config, Some key =>
      list_find (fun e => until_nul (entry_key e) = key) (entries config) ≫= (fun p => Some p.2)
  | _, _ => None
  end.

(** One line read by [fgets]: [None] when it is skipped. *)
Definition config_parse_line (line : list byte) : option (list byte * list byte) :=
  let trimmed_line := config_trim (until_nul line) in
  match trimmed_line with
  | [] => None
  | c :: _ =>
      if bool_decide (c = Byte.x23) || bool_decide (c = Byte.x3b) then None
      else
        match strchr_split Byte.x3d trimmed_line with
        | None => None
        | Some (before, after) =>
            let key := config_trim before in
            let value := config_trim after in
            match key, value with
            | [], _ | _, [] => None
            | _, _ => Some (key, value)
            end
        end
  end.

Definition make_entry (key value : list byte) : config_entry_t :=
  ConfigEntry (copy_cstr CONFIG_MAX_KEY_LENGTH key) (copy_cstr CONFIG_MAX_VALUE_LENGTH value).

(** The loop of [config_load] over the unread part of the file. *)
Fixpoint config_lines (fuel : nat) (file : list byte) (es : list config_entry_t)
    : option (Z * list config_entry_t) :=
  match fuel with
  | O => None
  | S fuel' =>
      match fgets CONFIG_LINE_MAX_LENGTH file with
      | None => Some (0, es)
      | Some (line, file') =>
          match config_parse_line line with
          | None => config_lines fuel' file' es
          | Some (key, value) =>
              if (CONFIG_MAX_ENTRIES <=? length es)%nat then Some (-1, es)
              else config_lines fuel' file' (es ++ [make_entry key value])
          end
      end
  end.

(** Every iteration consumes a byte of the file. *)
Definition config_fuel (file : list byte) : nat := S (length file).

Section WithEnvironment.
Context `{Environment}.

Definition config_load (config : option config_t) (file_path : option (list byte))
    : M world (Z * option config_t) :=
  match config, file_path with
  | Some _, Some file_path =>
      file ← sys (sys_fopen file_path);
      if ans_ret file =? 0 then mret (-1, Some (Config []))
      else
        match config_lines (config_fuel (ans_data file)) (ans_data file) [] with
        | None => out_of_fuel
        | Some (result, es) => sys_ sys_fclose;; mret (result, Some (Config es))
        end
  | _, _ => mret (-1, config)
  end.
End WithEnvironment.

Definition config_get_string (config : option config_t) (key : option (list byte))
    (default_value : option (list byte)) : option (list byte) :=
  match config_find_entry config key with
  | None => default_value
  | Some entry => Some (until_nul (entry_value entry))
  end.

Definition config_get_int (long_bits : Z) (config : option config_t) (key : option (list byte))
    (default_value : Z) : Z :=
  match config_find_entry config key with
  | None => default_value
  | Some entry =>
      let r := strtol10 long_bits (until_nul (entry_value entry)) in
      if strtol_erange r || negb (bool_decide (strtol_end r = [])) then default_value
      else s32 (strtol_value r)
  end.

(** ** Trimming *)
Definition trimmed (s : list byte) : Prop :=
  (forall c s', s = c :: s' -> is_trim_char c = false) /\
  (forall c s', s = s' ++ [c] -> is_trim_char c = false).

Lemma trim_start_spec s : exists l, s = l ++ trim_start s /\ Forall (fun c => is_trim_char c = true) l /\
  (forall c s', trim_start s = c :: s' -> is_trim_char c = false).
Proof.
  induction s as [|c s (l & E & Hl & Hs)]; simpl; [by exists []|].
  destruct (is_trim_char c) eqn:Ec.
  - exists (c :: l). split; [by rewrite E at 1|]. split; [by constructor|done].
  - exists []. split; [done|]. split; [constructor|]. intros; simplify_eq. done.
Qed.

Lemma trim_end_spec n s : (length s = S n)%nat -> exists r,
  s = trim_end n s ++ r /\ Forall (fun c => is_trim_char c = true) r /\
  trim_end n s <> [] /\
  ((length (trim_end n s) = 1)%nat \/ forall c s', trim_end n s = s' ++ [c] -> is_trim_char c = false).
Proof.
  revert s. induction n as [|n IH]; intros s Hs; cbn [trim_end].
  - exists []. rewrite app_nil_r. destruct s; naive_solver.
  - destruct (lookup_lt_is_Some_2 s (S n)) as [c Hc]; [lia|]. rewrite Hc.
    assert (s = take (S n) s ++ [c]) as Es.
    { rewrite <-(take_drop (S n) s) at 1. f_equal.
      rewrite (drop_S _ _ _ Hc). f_equal. apply drop_ge. lia. }
    destruct (is_trim_char c) eqn:Ec.
    + destruct (IH (take (S n) s)) as (r & E & Hr & Hn & Hl).
      { rewrite length_take. lia. }
      exists (r ++ [c]). split; [|split; [|done]].
      * rewrite app_assoc, <-E. done.
      * apply Forall_app. split; [done|by constructor].
    + exists []. rewrite app_nil_r. split; [done|]. split; [constructor|].
      split; [by destruct s|]. right. intros c' s' E.
      rewrite Es in E. apply app_inj_tail in E as [_ <-]. done.
Qed.

(** [config_trim] removes the blanks on both sides and nothing else. *)
Lemma config_trim_spec s : exists l r, s = l ++ config_trim s ++ r /\
  Forall (fun c => is_trim_char c = true) l /\ Forall (fun c => is_trim_char c = true) r /\
  trimmed (config_trim s).
Proof.
  destruct (trim_start_spec s) as (l & E & Hl & Hs). unfold config_trim.
  destruct (trim_start s) as [|c t] eqn:Et.
  - exists l, []. rewrite !app_nil_r in *. do 2 (split; [done|]). split; [constructor|].
    split; intros ? [|??] ?; done.
  - destruct (trim_end_spec (length t) (c :: t) eq_refl) as (r & E' & Hr & Hn & Hend).
    replace (length (c :: t) - 1)%nat with (length t) by (simpl; lia).
    exists l, r. rewrite <-E'. repeat split; try done.
    + intros d s' Ed. rewrite Ed in E'. simplify_eq/=. by eapply Hs.
    + intros d s' Ed. destruct Hend as [Hlen|Hend]; [|by eapply Hend].
      rewrite Ed, length_app in Hlen. simpl in Hlen.
      destruct s'; simpl in *; [|lia]. rewrite Ed in E'. simplify_eq/=. by eapply Hs.
Qed.

Lemma blanks_not_head l s : Forall (fun c => is_trim_char c = true) l ->
  (forall c s', s = c :: s' -> is_trim_char c = false) -> trim_start (l ++ s) = s.
Proof.
  intros Hl Hs. induction Hl as [|c l Hc Hl IH]; simpl; [|by rewrite Hc].
  destruct s as [|c s]; [done|]. simpl. by rewrite (Hs c s).
Qed.

Lemma trim_end_blanks t r n : Forall (fun c => is_trim_char c = true) r -> t <> [] ->
  (forall c s', t = s' ++ [c] -> is_trim_char c = false) ->
  (length (t ++ r) = S n)%nat -> trim_end n (t ++ r) = t.
Proof.
  intros Hr Ht Hend. revert n Hr. induction r as [|c r IH] using rev_ind; intros n Hr Hn.
  - rewrite app_nil_r in *. destruct n as [|n]; cbn [trim_end]; [done|].
    destruct (exists_last Ht) as (t' & c & ->).
    rewrite length_app in Hn. simpl in Hn.
    rewrite lookup_app_r by lia. replace (S n - length t')%nat with O by lia. simpl.
    by rewrite (Hend c t').
  - apply Forall_app in Hr as [Hr Hc]. inversion_clear Hc as [|?? Hc' _].
    rewrite app_assoc in *. rewrite length_app in Hn. simpl in Hn.
    destruct n as [|n].
    { destruct t; [done|]. rewrite length_app in Hn. simpl in Hn. lia. }
    cbn [trim_end]. rewrite lookup_app_r by lia.
    replace (S n - length (t ++ r))%nat with O by lia. simpl. rewrite Hc'.
    change (trim_end n (take (S n) ((t ++ r) ++ [c])) = t).
    rewrite take_app_length' by lia. apply IH; [done|lia].
Qed.

Lemma config_trim_unique l t r : Forall (fun c => is_trim_char c = true) l ->
  Forall (fun c => is_trim_char c = true) r -> trimmed t -> t <> [] ->
  config_trim (l ++ t ++ r) = t.
Proof.
  intros Hl Hr [Hh He] Ht. unfold config_trim.
  rewrite blanks_not_head; [|done|].
  - destruct (t ++ r) as [|c tr] eqn:E; [by destruct t|]. rewrite <-E.
    apply trim_end_blanks; try done. rewrite E. simpl. lia.
  - intros c s' E. destruct t as [|d t]; [done|]. simplify_eq/=. by eapply Hh.
Qed.

Lemma config_trim_trimmed t : trimmed t -> config_trim t = t.
Proof.
  intros Ht. destruct t as [|c t]; [done|].
  pose proof (config_trim_unique [] (c :: t) []) as E. rewrite app_nil_r in E. by apply E.
Qed.

(** ** What a loaded configuration holds *)

(** A string stored in a buffer of [size] characters: the whole of a trimmed
    text, or its first [size - 1] characters, which may end in a blank. *)
Record stored (size : nat) (buffer s : list byte) : Prop := {
  st_size : length buffer = size;
  st_string : cstr_of_buf buffer = Some s;
  st_nonempty : s <> [];
  st_start : forall c s', s = c :: s' -> is_trim_char c = false;
  st_whole : (length s < size - 1)%nat -> trimmed s;
}.

Definition comment_char (c : byte) : Prop := c = Byte.x23 \/ c = Byte.x3b.

Definition wf_entry (e : config_entry_t) : Prop := exists key value,
  stored CONFIG_MAX_KEY_LENGTH (entry_key e) key /\ stored CONFIG_MAX_VALUE_LENGTH (entry_value e) value /\
  (Byte.x3d ∉ key) /\ (forall c s, key = c :: s -> ~ comment_char c).

Lemma stored_copy size text : (1 < size)%nat -> no_nul text -> text <> [] -> trimmed text ->
  stored size (copy_cstr size text) (take (size - 1) text).
Proof.
  intros Hs Hn Ht [Hh He]. split.
  - apply length_copy_cstr. lia.
  - apply cstr_of_copy_cstr; [done|lia].
  - destruct text, (size - 1)%nat eqn:E; [done|done|lia|done].
  - intros c s' E. destruct text as [|d text], (size - 1)%nat; try done. injection E as <- _. by eapply Hh.
  - rewrite length_take. intros Hl. rewrite take_ge by lia. by split.
Qed.

(** The key starts where the line does. *)
Lemma config_trim_head c s : is_trim_char c = false -> exists s', config_trim (c :: s) = c :: s'.
Proof.
  intros Hc. destruct (config_trim_spec (c :: s)) as (l & r & E & Hl & Hr & _).
  destruct l as [|d l]; [|injection E as <- _; inversion_clear Hl; congruence].
  destruct (config_trim (c :: s)) as [|d t]; [|injection E as -> _; by eexists].
  cbn in E. subst r. inversion_clear Hr. congruence.
Qed.

Lemma config_parse_line_wf line key value :
  config_parse_line line = Some (key, value) -> wf_entry (make_entry key value).
Proof.
  unfold config_parse_line. intros H.
  pose proof (until_nul_no_nul line) as Hn.
  destruct (config_trim_spec (until_nul line)) as (l & r & El & _ & _ & [Hhead _]).
  destruct (config_trim (until_nul line)) as [|c t] eqn:Et; [done|].
  destruct (bool_decide _ || bool_decide _) eqn:Ec; [done|].
  apply orb_false_elim in Ec as [Ec1%bool_decide_eq_false Ec2%bool_decide_eq_false].
  destruct (strchr_split Byte.x3d (c :: t)) as [[before after]|] eqn:Es; [|done].
  apply strchr_split_spec in Es as [Es Hb].
  destruct (config_trim_spec before) as (l1 & r1 & E1 & _ & _ & T1).
  destruct (config_trim_spec after) as (l2 & r2 & E2 & _ & _ & T2).
  unfold no_nul in Hn. rewrite El, Es in Hn. clear El Et.
  destruct (config_trim before) as [|k ks] eqn:Ek; [done|].
  destruct (config_trim after) as [|v vs] eqn:Ev; [done|]. injection H as <- <-.
  assert (k = c) as ->.
  { destruct before as [|d before]; [done|]. injection Es as -> _.
    destruct (config_trim_head d before) as [s' E]; [by eapply Hhead|]. congruence. }
  rewrite E1, E2 in Hn. rewrite E1 in Hb. rewrite <-!app_assoc in Hn.
  exists (take 63 (c :: ks)), (take 255 (v :: vs)). split; [|split; [|split]].
  - apply (stored_copy 64); [lia| |done|done]. intros Hin. apply Hn. apply elem_of_app. right. apply elem_of_app. right.
    apply elem_of_app. by left.
  - apply (stored_copy 256); [lia| |done|done]. intros Hin. apply Hn. do 4 (apply elem_of_app; right).
    apply elem_of_app. left. apply elem_of_cons. right. apply elem_of_app. right. apply elem_of_app. by left.
  - intros Hin. apply Hb. apply elem_of_app. right. apply elem_of_app. left.
    rewrite <- (take_drop 63 (c :: ks)). apply elem_of_app. by left.
  - intros d s [= <- _] [->| ->]; done.
Qed.

Lemma config_lines_wf fuel file es : (length file < fuel)%nat ->
  (length es <= CONFIG_MAX_ENTRIES)%nat -> Forall wf_entry es ->
  exists r es', config_lines fuel file es = Some (r, es') /\ (r = 0 \/ r = -1) /\
    (length es' <= CONFIG_MAX_ENTRIES)%nat /\ Forall wf_entry es'.
Proof.
  revert file es. induction fuel as [|fuel IH]; intros file es Hf Hl He; [lia|].
  cbn [config_lines]. destruct (fgets _ file) as [[line file']|] eqn:Eg; [|by eauto 10].
  apply fgets_progress in Eg as (_ & _ & Hp); [|unfold CONFIG_LINE_MAX_LENGTH; lia].
  destruct (config_parse_line line) as [[key value]|] eqn:Ep; [|apply IH; [lia|done|done]].
  destruct (CONFIG_MAX_ENTRIES <=? length es)%nat eqn:El; [by eauto 10|].
  apply Nat.leb_gt in El. apply IH; [lia| |].
  - rewrite length_app. simpl. lia.
  - apply Forall_app. split; [done|]. constructor; [|done]. by eapply config_parse_line_wf.
Qed.

(** C39: loading always terminates, whatever the file holds and whether or not
    it can be opened; the result has at most 100 entries.  The buffers of every
    entry hold a NUL-terminated key and value, neither empty nor starting with a
    blank; the key has no equals sign and does not look like a comment; and a
    string shorter than its buffer allows has no blank at its end either.  (One
    that was cut to 63 or 255 characters may end in a blank,
    [cut_value_keeps_blank].) *)
Theorem config_load_wf `{Environment} (config : config_t) (path : list byte) (w : world) :
  wp (config_load (Some config) (Some path)) (fun rc _ => exists cfg,
        rc.2 = Some cfg /\ (rc.1 = 0 \/ rc.1 = -1) /\
        (count cfg <= CONFIG_MAX_ENTRIES)%nat /\ Forall wf_entry (entries cfg)) w.
Proof.
  unfold config_load. wp_go.
  - exists (Config []). unfold count. split; [done|]. split; [cbn; auto|].
    split; [cbn; lia|constructor].
  - edestruct (config_lines_wf (config_fuel (ans_data (respond w (sys_fopen path)))))
      as (r & es & -> & Hr & Hl & Hw); [unfold config_fuel; lia|unfold CONFIG_MAX_ENTRIES; simpl; lia|constructor|].
    wp_go. exists (Config es). done.
Qed.

(** The value is trimmed before it is cut: 254 letters, a blank and more text
    leave a value that ends in the blank. *)
Example cut_value_keeps_blank :
  let line := bs "K=" ++ replicate 254 Byte.x61 ++ bs " tail" ++ [Byte.x0a] in
  option_map (fun r => cstr_of_buf ∘ entry_value <$> r.2) (config_lines (config_fuel line) line [])
    = Some [Some (replicate 254 Byte.x61 ++ [Byte.x20])].
Proof. vm_compute. reflexivity. Qed.

(** ** Lookup *)
Lemma config_find_entry_first pre e post key :
  Forall (fun e' => until_nul (entry_key e') <> key) pre -> until_nul (entry_key e) = key ->
  config_find_entry (Some (Config (pre ++ e :: post))) (Some key) = Some e.
Proof.
  intros Hp He. unfold config_find_entry. simpl.
  rewrite (proj2 (list_find_Some _ _ (length pre) e)); [done|].
  split; [by rewrite list_lookup_middle|]. split; [done|].
  intros j y Hj Hlt. rewrite lookup_app_l in Hj by done.
  by eapply Forall_lookup_1 in Hp.
Qed.

Lemma config_find_entry_none config key :
  Forall (fun e => until_nul (entry_key e) <> key) (entries config) ->
  config_find_entry (Some config) (Some key) = None.
Proof.
  intros Hf. unfold config_find_entry. rewrite (proj2 (list_find_None _ _)); done.
Qed.

(** ** The round trip *)
Definition print_setting (kv : list byte * list byte) : list byte :=
  kv.1 ++ Byte.x3d :: kv.2 ++ [Byte.x0a].

Definition print_settings (kvs : list (list byte * list byte)) : list byte :=
  concat (map print_setting kvs).

Record good_setting (kv : list byte * list byte) : Prop := {
  gs_key_trimmed : trimmed kv.1;
  gs_value_trimmed : trimmed kv.2;
  gs_key_length : (0 < length kv.1 < CONFIG_MAX_KEY_LENGTH)%nat;
  gs_value_length : (0 < length kv.2 < CONFIG_MAX_VALUE_LENGTH)%nat;
  gs_key_chars : (NUL ∉ kv.1) /\ (Byte.x0a ∉ kv.1) /\ (Byte.x3d ∉ kv.1);
  gs_value_chars : (NUL ∉ kv.2) /\ (Byte.x0a ∉ kv.2);
  gs_not_comment : head kv.1 <> Some Byte.x23 /\ head kv.1 <> Some Byte.x3b;
}.

Definition entry_of (kv : list byte * list byte) : config_entry_t := make_entry kv.1 kv.2.

Lemma entry_of_strings kv : good_setting kv ->
  until_nul (entry_key (entry_of kv)) = kv.1 /\ until_nul (entry_value (entry_of kv)) = kv.2.
Proof.
  intros [_ _ Hk Hv [? _] [? _] _]. unfold entry_of, make_entry. cbn [entry_key entry_value].
  rewrite !until_nul_copy_cstr by (done || unfold CONFIG_MAX_KEY_LENGTH, CONFIG_MAX_VALUE_LENGTH; lia).
  rewrite !take_ge by lia. done.
Qed.

Lemma trimmed_join k v : k <> [] -> v <> [] -> trimmed k -> trimmed v ->
  trimmed (k ++ Byte.x3d :: v).
Proof.
  intros Hk Hv [Hh _] [_ Ht]. split; intros c s E.
  - destruct k as [|d k]; simplify_eq/=. by eapply Hh.
  - destruct (exists_last Hv) as (v' & d & ->).
    rewrite app_comm_cons, app_assoc in E. apply app_inj_tail in E as [_ <-]. by eapply Ht.
Qed.

Lemma config_parse_printed kv : good_setting kv -> config_parse_line (print_setting kv) = Some kv.
Proof.
  destruct kv as [k v]. intros [Tk Tv Lk Lv [Nk [_ Ek]] [Nv _] [C1 C2]]. simpl in *.
  assert (k <> [] /\ v <> []) as [Hk Hv] by (destruct k, v; simpl in *; naive_solver lia).
  unfold config_parse_line, print_setting. cbn [fst snd].
  rewrite until_nul_id.
  2:{ unfold no_nul. rewrite elem_of_app, elem_of_cons, elem_of_app, list_elem_of_singleton.
      intros [?|[?|[?|?]]]; done. }
  replace (k ++ Byte.x3d :: v ++ [Byte.x0a]) with ([] ++ (k ++ Byte.x3d :: v) ++ [Byte.x0a])
    by (by rewrite <-app_assoc).
  rewrite config_trim_unique; [|constructor|repeat constructor|by apply trimmed_join|by destruct k].
  rewrite (proj2 (strchr_split_spec _ _ k v)) by done.
  rewrite !config_trim_trimmed by done.
  destruct k as [|c k]; [done|]. destruct v as [|d v]; [done|]. simpl in *.
  rewrite !bool_decide_eq_false_2 by congruence. done.
Qed.

Lemma config_lines_printed kvs rest fuel es :
  Forall good_setting kvs -> (length kvs + length es <= CONFIG_MAX_ENTRIES)%nat ->
  config_lines (length kvs + fuel) (print_settings kvs ++ rest) es =
  config_lines fuel rest (es ++ map entry_of kvs).
Proof.
  intros Hg. revert es. induction Hg as [|kv kvs Hkv Hg IH]; intros es Hl.
  - by rewrite app_nil_r.
  - pose proof (config_parse_printed kv Hkv) as Hparse.
    destruct Hkv as [_ _ Lk Lv [_ [Nk _]] [_ Nv] _].
    unfold CONFIG_MAX_KEY_LENGTH, CONFIG_MAX_VALUE_LENGTH in *.
    cbn [length Nat.add config_lines print_settings map concat].
    fold (print_settings kvs). rewrite <-app_assoc.
    assert (print_setting kv ++ print_settings kvs ++ rest =
            (kv.1 ++ Byte.x3d :: kv.2) ++ Byte.x0a :: (print_settings kvs ++ rest)) as ->.
    { unfold print_setting. rewrite <-!app_assoc. simpl. rewrite <-app_assoc. done. }
    rewrite fgets_line.
    + replace ((kv.1 ++ Byte.x3d :: kv.2) ++ [Byte.x0a]) with (print_setting kv)
        by (unfold print_setting; by rewrite <-app_assoc).
      rewrite Hparse. destruct kv as [k v]. cbn [fst snd length] in *.
      rewrite (proj2 (Nat.leb_gt _ _)) by lia.
      rewrite IH by (rewrite length_app; simpl; lia). by rewrite <-app_assoc.
    + rewrite elem_of_app, elem_of_cons. naive_solver.
    + rewrite length_app. simpl. unfold CONFIG_LINE_MAX_LENGTH. lia.
Qed.

Lemma config_lines_more_fuel fuel fuel' file es r :
  config_lines fuel file es = Some r -> (fuel <= fuel')%nat -> config_lines fuel' file es = Some r.
Proof.
  revert fuel' file es. induction fuel as [|fuel IH]; intros [|fuel'] file es E Hle; try done; [lia|].
  cbn [config_lines] in *. destruct (fgets _ _) as [[line file']|]; [|done].
  destruct (config_parse_line line) as [[k v]|]; [|apply IH; [done|lia]].
  destruct (_ <=? _)%nat; [done|]. apply IH; [done|lia].
Qed.

Lemma length_print_settings kvs : (length kvs <= length (print_settings kvs))%nat.
Proof.
  unfold print_settings. induction kvs as [|kv kvs IH]; simpl; [lia|].
  rewrite length_app. unfold print_setting at 1. rewrite length_app. simpl. lia.
Qed.

(** A file that can be opened and holds [contents]. *)
Definition file_holds `{Environment} (w : world) (path contents : list byte) : Prop :=
  ans_ret (respond w (sys_fopen path)) <> 0 /\ ans_data (respond w (sys_fopen path)) = contents.

Lemma config_load_of_lines `{Environment} config path w contents r es :
  file_holds w path contents ->
  config_lines (config_fuel contents) contents [] = Some (r, es) ->
  wp (config_load (Some config) (Some path)) (fun rc _ => rc = (r, Some (Config es))) w.
Proof.
  intros [Hr Hd] Hl. unfold config_load. wp_go.
  - exfalso. by apply Hr, Z.eqb_eq.
  - rewrite Hd, Hl. by wp_go.
Qed.

(** C40: round trip: a file of at most 100 well-formed KEY=VALUE lines loads
    successfully, and the value of every key is the one on its first line. *)
Theorem config_roundtrip `{Environment} (config : config_t) (path : list byte) (w : world)
    (pre post : list (list byte * list byte)) (k v : list byte) (dflt : option (list byte)) :
  Forall good_setting (pre ++ (k, v) :: post) ->
  (length (pre ++ (k, v) :: post) <= CONFIG_MAX_ENTRIES)%nat ->
  k ∉ map fst pre ->
  file_holds w path (print_settings (pre ++ (k, v) :: post)) ->
  wp (config_load (Some config) (Some path)) (fun rc _ =>
        rc.1 = 0 /\ config_get_string rc.2 (Some k) dflt = Some v) w.
Proof.
  intros Hg Hl Hk Hf. set (kvs := pre ++ (k, v) :: post) in *.
  pose proof (config_lines_printed kvs [] 1 [] Hg ltac:(simpl; lia)) as E.
  rewrite app_nil_r in E. cbn [config_lines fgets app] in E.
  eapply wp_mono; [eapply config_load_of_lines; [done|]|].
  - eapply config_lines_more_fuel; [exact E|].
    unfold config_fuel. pose proof (length_print_settings kvs). lia.
  - intros [r c] w' [= -> ->]. split; [done|].
    apply Forall_app in Hg as [Hpre Hg]. inversion_clear Hg as [|?? Hkv Hpost].
    unfold config_get_string, kvs. simpl snd. rewrite map_app. simpl map.
    destruct (entry_of_strings _ Hkv) as [E1 E2]. cbn [fst snd] in E1, E2.
    rewrite config_find_entry_first; [by rewrite E2| |done].
    apply Forall_map, Forall_forall. intros kv Hin E'.
    rewrite Forall_forall in Hpre.
    destruct (entry_of_strings kv (Hpre _ Hin)) as [E3 _]. rewrite E3 in E'. subst k.
    apply Hk. by apply list_elem_of_fmap_2.
Qed.

(** Integer settings: a decimal value that fits an int is returned as
    written; a value with trailing text, or out of the range of long, gives
    the default; a missing key gives the default; a long that is not an int
    wraps to 32 bits. *)
Theorem config_get_int_cases (long_bits : Z) (pre post : list (list byte * list byte))
    (k v : list byte) (dflt z : Z) :
  32 <= long_bits <= 64 ->
  Forall good_setting (pre ++ (k, v) :: post) -> k ∉ map fst pre ->
  let config := Some (Config (map entry_of (pre ++ (k, v) :: post))) in
  (- 2 ^ (long_bits - 1) <= z < 2 ^ (long_bits - 1) -> v = dec_of_Z z ->
     config_get_int long_bits config (Some k) dflt = s32 z /\
     (in_int z = true -> config_get_int long_bits config (Some k) dflt = z)) /\
  ((strtol_erange (strtol10 long_bits v) = true \/ strtol_end (strtol10 long_bits v) <> []) ->
     config_get_int long_bits config (Some k) dflt = dflt) /\
  (forall k', k' ∉ map fst (pre ++ (k, v) :: post) ->
     config_get_int long_bits config (Some k') dflt = dflt).
Proof.
  intros Hw Hg Hk config.
  assert (forall kvs, Forall good_setting kvs -> forall key, key ∉ map fst kvs ->
            Forall (fun e => until_nul (entry_key e) <> key) (map entry_of kvs)) as Habs.
  { intros kvs Hs key Hn. apply Forall_map, Forall_forall. intros kv Hin E'.
    rewrite Forall_forall in Hs. destruct (entry_of_strings kv (Hs _ Hin)) as [E3 _].
    rewrite E3 in E'. subst key. apply Hn. by apply list_elem_of_fmap_2. }
  pose proof Hg as Hall. apply Forall_app in Hg as [Hpre Hg].
  inversion_clear Hg as [|?? Hkv Hpost].
  destruct (entry_of_strings _ Hkv) as [E1 E2]. cbn [fst snd] in E1, E2.
  assert (config_find_entry config (Some k) = Some (entry_of (k, v))) as Ef.
  { unfold config. rewrite map_app. apply config_find_entry_first; [by apply Habs|done]. }
  unfold config_get_int. rewrite Ef, E2. repeat split.
  - rewrite H0, strtol10_dec_of_Z by lia. done.
  - intros Hi. rewrite H0, strtol10_dec_of_Z by lia. simpl. by apply s32_small.
  - intros [->|Hn]; [done|]. rewrite bool_decide_eq_false_2 by done. by rewrite orb_true_r.
  - intros k' Hk'. unfold config. rewrite config_find_entry_none; [done|]. by apply Habs.
Qed.

(** ** The shipped configuration *)
Definition good_settingb (kv : list byte * list byte) : bool :=
  let ends := from_option (fun c => negb (is_trim_char c)) true in
  ends (head kv.1) && ends (last kv.1) && ends (head kv.2) && ends (last kv.2) &&
  bool_decide (0 < length kv.1 < CONFIG_MAX_KEY_LENGTH)%nat &&
  bool_decide (0 < length kv.2 < CONFIG_MAX_VALUE_LENGTH)%nat &&
  bool_decide ((NUL ∉ kv.1) /\ (Byte.x0a ∉ kv.1) /\ (Byte.x3d ∉ kv.1)) &&
  bool_decide ((NUL ∉ kv.2) /\ (Byte.x0a ∉ kv.2)) &&
  bool_decide (head kv.1 <> Some Byte.x23 /\ head kv.1 <> Some Byte.x3b).

Lemma trimmed_ends s :
  from_option (fun c => negb (is_trim_char c)) true (head s) = true ->
  from_option (fun c => negb (is_trim_char c)) true (last s) = true -> trimmed s.
Proof.
  intros Hh Hl. split; intros c s' ->.
  - by apply negb_true_iff.
  - rewrite last_snoc in Hl. by apply negb_true_iff.
Qed.

Lemma good_setting_check kv : good_settingb kv = true -> good_setting kv.
Proof.
  unfold good_settingb. rewrite !andb_true_iff, !bool_decide_eq_true.
  intros [[[[[[[[H1 H2] H3] H4] ?] ?] ?] ?] ?].
  constructor; auto using trimmed_ends.
Qed.

(** An environment in which every file can be opened and has these contents. *)
Definition file_env (contents : list byte) : Environment := fun _ c =>
  match c with sys_fopen _ => Answer 1 0 contents ∅ | _ => ok 0 end.

Definition sample_settings : list (list byte * list byte) :=
  [(bs "LOG_FILE", bs "../Logs/database.log"); (bs "TCP_SERVER_PORT", bs "5000");
   (bs "TCP_SERVER_PORT", bs "6000")].

Lemma sample_settings_good : Forall good_setting sample_settings.
Proof. repeat constructor; apply good_setting_check; vm_compute; reflexivity. Qed.

Lemma config_roundtrip_witness :
  let env := file_env (print_settings sample_settings) in
  wp (@config_load env (Some (Config [])) (Some (bs "x.conf"))) (fun rc _ =>
        rc.1 = 0 /\ config_get_string rc.2 (Some (bs "TCP_SERVER_PORT")) None = Some (bs "5000")) [].
Proof.
  apply (@config_roundtrip (file_env (print_settings sample_settings)) (Config []) (bs "x.conf") []
           [(bs "LOG_FILE", bs "../Logs/database.log")] [(bs "TCP_SERVER_PORT", bs "6000")]
           (bs "TCP_SERVER_PORT") (bs "5000") None).
  - exact sample_settings_good.
  - vm_compute. lia.
  - refine (bool_decide_unpack _ _). vm_compute. exact I.
  - split; [vm_compute; discriminate | reflexivity].
Defined.

Lemma config_get_int_cases_witness :
  config_get_int 64 (Some (Config (map entry_of sample_settings))) (Some (bs "TCP_SERVER_PORT")) 1 = 5000.
Proof.
  destruct (config_get_int_cases 64 [(bs "LOG_FILE", bs "../Logs/database.log")]
              [(bs "TCP_SERVER_PORT", bs "6000")] (bs "TCP_SERVER_PORT") (bs "5000") 1 5000)
    as (H & _ & _).
  - lia.
  - exact sample_settings_good.
  - refine (bool_decide_unpack _ _). vm_compute. exact I.
  - apply H; [lia | vm_compute; reflexivity | vm_compute; reflexivity].
Defined.

(** src/Config/parking_system.conf *)
Definition parking_system_conf : list byte := bs
"#
# Parking System configuration file
#

#--------------------------------------------------
# Shared memory
#--------------------------------------------------

IPC_SHARED_MEMORY_KEY=0x1234

#--------------------------------------------------
# Database
#--------------------------------------------------

DATABASE_PATH=../Database/parking.db

DATABASE_PID_FILE=../Database/database.pid

#--------------------------------------------------
# Logging
#--------------------------------------------------

LOG_FILE=../Logs/database.log

TCP_SERVER_LOG_FILE=../Logs/tcp_server.log

PRICE_UPDATER_LOG_FILE=../Logs/price_updater.log

ENABLE_CONSOLE_LOGGING=1

#--------------------------------------------------
# TCP Server
#--------------------------------------------------

TCP_SERVER_PORT = 5000

TCP_LISTEN_BACKLOG = 10
".

Definition parking_system_config : option config_t :=
  option_map (fun r => Config r.2)
    (config_lines (config_fuel parking_system_conf) parking_system_conf []).

(** What the three programs read from the shipped configuration: the paths
    and the port are as written, but the hexadecimal IPC_SHARED_MEMORY_KEY is
    not a base-10 number, so the default passed by the caller is used, and the
    key DATABASE_FILE that Database asks for is not in the file. *)
Theorem shipped_configuration (dflt : Z) (path : list byte) :
  config_get_int 64 parking_system_config (Some (bs "IPC_SHARED_MEMORY_KEY")) dflt = dflt /\
  config_get_string parking_system_config (Some (bs "DATABASE_FILE")) (Some path) = Some path /\
  config_get_string parking_system_config (Some (bs "DATABASE_PATH")) None
    = Some (bs "../Database/parking.db") /\
  config_get_string parking_system_config (Some (bs "DATABASE_PID_FILE")) None
    = Some (bs "../Database/database.pid") /\
  config_get_int 64 parking_system_config (Some (bs "TCP_SERVER_PORT")) dflt = 5000 /\
  config_get_int 64 parking_system_config (Some (bs "TCP_LISTEN_BACKLOG")) dflt = 10 /\
  config_get_int 64 parking_system_config (Some (bs "ENABLE_CONSOLE_LOGGING")) dflt = 1.
Proof.
  assert (exists c, parking_system_config = c) as [c Ec] by eauto. rewrite Ec.
  vm_compute in Ec. subst c. repeat split; vm_compute; reflexivity.
Qed.
