(* ===== verification/Logger.v ===== *)
(** Logger (src/Libraries/Logger): the log file descriptor, the console
    switch, and the text and system calls of each operation. *)

From S2P Require Import Prelude Machine CLib CNumber Posix.

Definition LOGGER_MESSAGE_MAX_SIZE : nat := 1024.
Definition LOGGER_TIME_BUFFER_SIZE : nat := 32.
Abbreviation STDOUT_FILENO := 1.
Abbreviation STDERR_FILENO := 2.

(** The static variables of logger.c, and the system. *)
Record logger := LoggerState {
  log_fd : Z;
  console_output_enabled : Z;
  logger_world : world;
}.

Definition set_log_fd (fd : Z) (s : logger) := LoggerState fd (console_output_enabled s) (logger_world s).
Definition set_console (c : Z) (s : logger) := LoggerState (log_fd s) c (logger_world s).
Definition set_logger_world (w : world) (s : logger) := LoggerState (log_fd s) (console_output_enabled s) w.

(** The values of the static variables when the program starts. *)
Definition logger_start : logger := LoggerState (-1) 0 [].

Definition logger_level_to_string (level : log_level_t) : list byte :=
  match level with
  | LOG_LEVEL_INFO => bs "INFO "
  | LOG_LEVEL_ERROR => bs "ERROR"
  | LOG_LEVEL_DEBUG => bs "DEBUG"
  end.

(** The image of [struct tm] starts with the [int]s tm_sec, tm_min, tm_hour,
    tm_mday, tm_mon and tm_year. *)
Definition tm_field (tm : list byte) (i : nat) : Z :=
  wrap_s 32 (le_val (take 4 (drop (4 * i) tm))).

(** [%m], [%d], [%H], [%M] and [%S]: two digits. *)
Definition two_digits (z : Z) : list byte :=
  if z <? 10 then digit 0 :: dec_of_Z z else dec_of_Z z.

(** [strftime] with the format of logger.c. *)
Definition strftime_text (tm : list byte) : list byte :=
  dec_of_Z (tm_field tm 5 + 1900) ++ bs "-" ++ two_digits (tm_field tm 4 + 1) ++ bs "-" ++
  two_digits (tm_field tm 3) ++ bs " " ++ two_digits (tm_field tm 2) ++ bs ":" ++
  two_digits (tm_field tm 1) ++ bs ":" ++ two_digits (tm_field tm 0).

Section Operations.
Context `{Environment}.

Definition os {A} (m : M world A) : M logger A := zoom logger_world set_logger_world m.

(** The text left in [buffer]; when [strftime] does not fit its contents are
    indeterminate and reading them is undefined. *)
Definition logger_get_timestamp (buffer_size : nat) : M logger (list byte) :=
  os (sys_ sys_time);;
  a ← os (sys sys_localtime);
  if ans_ret a =? 0 then mret (take (buffer_size - 1) (bs "unknown-time"))
  else
    let text := strftime_text (ans_data a) in
    if decide (length text < buffer_size)%nat then mret text else undef.

Definition logger_init (log_file_path : option (list byte)) (enable_console : Z) : M logger Z :=
  match log_file_path with
  | None => mret (-1)
  | Some path =>
      modify (set_console enable_console);;
      os (sys_ (sys_mutex_lock log_mutex));;
      fd ← gets log_fd;
      (if negb (fd =? -1) then
         os (sys_ (sys_close fd));;
         modify (set_log_fd (-1))
       else mret tt);;
      fd ← os (sysr (sys_open path true));
      modify (set_log_fd fd);;
      os (sys_ (sys_mutex_unlock log_mutex));;
      fd ← gets log_fd;
      if fd =? -1 then mret (-1) else mret 0
  end.

Definition logger_close : M logger unit :=
  os (sys_ (sys_mutex_lock log_mutex));;
  fd ← gets log_fd;
  (if negb (fd =? -1) then
     os (sys_ (sys_close fd));;
     modify (set_log_fd (-1))
   else mret tt);;
  os (sys_ (sys_mutex_unlock log_mutex)).

(** The whole line, before it is cut to the size of the buffer. *)
Definition log_line (time : list byte) (level : log_level_t) (file : option (list byte))
    (line : Z) (user_message : list byte) : list byte :=
  time ++ bs " [" ++ logger_level_to_string level ++ bs "] " ++
  match file with
  | Some file => file ++ bs ":" ++ dec_of_Z line ++ bs " "
  | None => []
  end ++ user_message ++ [Byte.x0a].

(** [formatted] is the text the format string and its arguments stand for,
    and is [None] when [format] is a null pointer. *)
Definition logger_write (level : log_level_t) (file : option (list byte)) (line : Z)
    (formatted : option (list byte)) : M logger unit :=
  fd ← gets log_fd;
  console ← gets console_output_enabled;
  match formatted with
  | None => mret tt
  | Some text =>
      if (fd =? -1) && (console =? 0) then mret tt
      else
        time_buffer ← logger_get_timestamp LOGGER_TIME_BUFFER_SIZE;
        let user_message := until_nul (fst (snprintf_s LOGGER_MESSAGE_MAX_SIZE text)) in
        let '(final_message, final_length) :=
          snprintf_s LOGGER_MESSAGE_MAX_SIZE (log_line time_buffer level file line user_message) in
        if final_length <=? 0 then mret tt
        else
          let final_length :=
            if Z.of_nat LOGGER_MESSAGE_MAX_SIZE <=? final_length
            then Z.of_nat LOGGER_MESSAGE_MAX_SIZE - 1 else final_length in
          let data := take (Z.to_nat final_length) final_message in
          os (sys_ (sys_mutex_lock log_mutex));;
          console ← gets console_output_enabled;
          (if negb (console =? 0) then
             let console_fd :=
               match level with LOG_LEVEL_ERROR => STDERR_FILENO | _ => STDOUT_FILENO end in
             os (sys_ (sys_write console_fd data))
           else mret tt);;
          fd ← gets log_fd;
          (if negb (fd =? -1) then os (sys_ (sys_write fd data)) else mret tt);;
          os (sys_ (sys_mutex_unlock log_mutex))
  end.
End Operations.

(** ** What a call writes *)

(** The bytes of a log line: cut to what the buffer holds. *)
Definition cut_line (l : list byte) : list byte := take (LOGGER_MESSAGE_MAX_SIZE - 1) l.

(** [write] calls of a history, oldest first. *)
Fixpoint writes (w : world) : list (Z * list byte) :=
  match w with
  | [] => []
  | (sys_write fd d, _) :: w' => writes w' ++ [(fd, d)]
  | _ :: w' => writes w'
  end.

Definition console_fd (level : log_level_t) : Z :=
  match level with LOG_LEVEL_ERROR => STDERR_FILENO | _ => STDOUT_FILENO end.

(** The descriptors a message of a level goes to. *)
Definition destinations (level : log_level_t) (s : logger) : list Z :=
  (if console_output_enabled s =? 0 then [] else [console_fd level]) ++
  (if log_fd s =? -1 then [] else [log_fd s]).

(** The time stamp the system gives after a history, and that it fits. *)
Definition clock_text `{Environment} (w : world) : list byte :=
  let w := (sys_time, respond w sys_time) :: w in
  let a := respond w sys_localtime in
  if ans_ret a =? 0 then bs "unknown-time" else strftime_text (ans_data a).

Definition clock_fits (env : Environment) : Prop :=
  forall w, (length (clock_text w) < LOGGER_TIME_BUFFER_SIZE)%nat.

(** The lock is held over a suffix of calls: taken first, given back last. *)
Definition under_lock (w0 w1 : world) : Prop :=
  exists a b mid, w1 = (sys_mutex_unlock log_mutex, b) :: mid ++ (sys_mutex_lock log_mutex, a) :: w0 /\
    Forall (fun e => e.1 <> sys_mutex_lock log_mutex /\ e.1 <> sys_mutex_unlock log_mutex) mid.

Section Proofs.
Context `{Environment}.

Lemma wp_os {A} (m : M world A) (Q : A -> logger -> Prop) s :
  wp m (fun a w => Q a (set_logger_world w s)) (logger_world s) -> wp (os m) Q s.
Proof. apply wp_zoom. Qed.

Lemma timestamp_spec s (Q : list byte -> logger -> Prop) :
  clock_fits _ ->
  (forall a b, Q (clock_text (logger_world s))
                 (set_logger_world ((sys_localtime, a) :: (sys_time, b) :: logger_world s) s)) ->
  wp (logger_get_timestamp LOGGER_TIME_BUFFER_SIZE) Q s.
Proof.
  intros Hc HQ. unfold logger_get_timestamp.
  apply wp_bind, wp_os, wp_sys_, wp_bind, wp_os, wp_sys. cbn [logger_world set_logger_world].
  specialize (Hc (logger_world s)). unfold clock_text in *. cbn zeta in *.
  destruct (_ =? 0).
  - apply wp_ret, HQ.
  - rewrite decide_True by done. apply wp_ret, HQ.
Qed.
End Proofs.

Lemma length_cut_line l : (length (cut_line l) <= 1023)%nat.
Proof. unfold cut_line, LOGGER_MESSAGE_MAX_SIZE. rewrite length_take. lia. Qed.

Lemma cut_line_prefix l : cut_line l `prefix_of` l.
Proof. apply prefix_take. Qed.

Lemma final_message_cut l : 
  take (Z.to_nat (if Z.of_nat LOGGER_MESSAGE_MAX_SIZE <=? Z.of_nat (length l)
                  then Z.of_nat LOGGER_MESSAGE_MAX_SIZE - 1 else Z.of_nat (length l)))
       (take (LOGGER_MESSAGE_MAX_SIZE - 1) l ++ [NUL]) = cut_line l.
Proof.
  unfold cut_line. set (n := LOGGER_MESSAGE_MAX_SIZE).
  assert (0 < n)%nat by (unfold n, LOGGER_MESSAGE_MAX_SIZE; lia).
  rewrite take_app. destruct (Z.leb_spec (Z.of_nat n) (Z.of_nat (length l))).
  - rewrite take_take, length_take.
    match goal with |- context [take ?k [NUL]] => replace k with O by lia end. rewrite take_0, app_nil_r.
    f_equal; lia.
  - rewrite take_take, length_take.
    match goal with |- context [take ?k [NUL]] => replace k with O by lia end. rewrite take_0, app_nil_r.
    rewrite !take_ge by lia. done.
Qed.

Definition is_open (c : syscall) (a : answer) : bool :=
  match c with sys_open _ _ => negb (ans_ret a =? -1) | _ => false end.
Definition is_close (c : syscall) : bool := match c with sys_close _ => true | _ => false end.

(** Before [logger_init], and after [logger_close] without a console, a message
    goes nowhere. *)
Lemma logger_silent `{Environment} level file line formatted w :
  wp (logger_write level file line formatted) (fun _ s => s = LoggerState (-1) 0 w) (LoggerState (-1) 0 w).
Proof. apply wp_bind, wp_gets, wp_bind, wp_gets. by destruct formatted; apply wp_ret. Qed.


(** Calls that write [out] and do nothing else. *)
Definition writes_unlocked (out : list (Z * list byte)) (mid : world) : Prop :=
  Forall (fun e => exists fd d, e.1 = sys_write fd d) mid /\
  forall w, writes (mid ++ w) = writes w ++ out.

Lemma only_writes_counts mid w :
  Forall (fun e => exists fd d, e.1 = sys_write fd d) mid ->
  succeeded is_open (mid ++ w) = succeeded is_open w /\ calls is_close (mid ++ w) = calls is_close w.
Proof.
  induction 1 as [|[c a] mid (fd & d & E) _ [IH1 IH2]]; [done|]. simpl in E. subst c.
  change ((?x :: mid) ++ w) with (x :: mid ++ w). rewrite succeeded_cons, calls_cons. done.
Qed.

Lemma writes_unlocked_app o1 o2 m1 m2 :
  writes_unlocked o1 m1 -> writes_unlocked o2 m2 -> writes_unlocked (o1 ++ o2) (m2 ++ m1).
Proof.
  intros [F1 W1] [F2 W2]. split; [by apply Forall_app|].
  intros w. by rewrite <- (assoc_L (++)), W2, W1, (assoc_L (++)).
Qed.

Section WriteProofs.
Context `{Environment}.

Lemma wp_write_if (b : bool) fd d s (Q : unit -> logger -> Prop) :
  (forall mid, writes_unlocked (if b then [] else [(fd, d)]) mid ->
     Q tt (set_logger_world (mid ++ logger_world s) s)) ->
  wp (if negb b then os (sys_ (sys_write fd d)) else mret tt) Q s.
Proof.
  intros HQ. destruct b; simpl.
  - apply wp_ret. destruct s. apply (HQ []). split; [done|]. intros. by rewrite app_nil_r.
  - apply wp_os, wp_sys_. apply (HQ [(_, _)]). split; [by repeat econstructor|done].
Qed.
End WriteProofs.

Lemma user_message_cut text : no_nul text ->
  until_nul (fst (snprintf_s LOGGER_MESSAGE_MAX_SIZE text)) = cut_line text.
Proof.
  intros Ht. apply until_nul_cstr. unfold snprintf_s. cbn [fst].
  apply cstr_of_buf_app. by apply no_nul_take.
Qed.

(** C37: a log call always returns and leaves the logger's settings alone.
    A message that is not silenced is one line, at most 1023 bytes of it,
    written under the mutex to the console (standard error for errors) when
    the console is enabled and to the log file when one is open, in that
    order, and nowhere else. *)
Theorem logger_write_correct `{Environment} (level : log_level_t) (file : option (list byte))
    (line : Z) (text : list byte) (s : logger) :
  clock_fits _ -> no_nul text ->
  let time := clock_text (logger_world s) in
  let l := log_line time level file line (cut_line text) in
  wp (logger_write level file line (Some text)) (fun _ s' =>
    log_fd s' = log_fd s /\ console_output_enabled s' = console_output_enabled s /\
    if decide (destinations level s = []) then logger_world s' = logger_world s
    else exists w, under_lock w (logger_world s') /\ writes w = writes (logger_world s) /\
         writes (logger_world s') =
           writes w ++ ((fun fd => (fd, cut_line l)) <$> destinations level s)) s.
Proof.
  intros Hc Ht time l. unfold logger_write. apply wp_bind, wp_gets, wp_bind, wp_gets.
  destruct ((log_fd s =? -1) && (console_output_enabled s =? 0)) eqn:E.
  { apply andb_prop in E as [E1 E2]. apply wp_ret. unfold destinations. rewrite E1, E2.
    by rewrite decide_True. }
  assert (destinations level s <> []) as Hd.
  { unfold destinations. by destruct (_ =? -1), (_ =? 0). }
  apply wp_bind, timestamp_spec; [done|]. intros a b. fold time.
  rewrite user_message_cut by done. unfold snprintf_s at 1. fold l.
  destruct (Z.leb_spec (Z.of_nat (length l)) 0) as [Hl|_].
  { exfalso. unfold l, log_line in Hl. rewrite !length_app in Hl. simpl in Hl. lia. }
  rewrite final_message_cut.
  apply wp_bind, wp_os, wp_sys_, wp_bind, wp_gets, wp_bind.
  apply (wp_write_if _ (console_fd level)). intros m1 Hm1.
  apply wp_bind, wp_gets, wp_bind, wp_write_if. intros m2 Hm2.
  apply wp_os, wp_sys_. split; [done|]. split; [done|]. rewrite decide_False by done.
  cbn [log_fd console_output_enabled logger_world set_logger_world] in *.
  destruct (writes_unlocked_app _ _ _ _ Hm1 Hm2) as [HF HW].
  exists ((sys_localtime, a) :: (sys_time, b) :: logger_world s). split; [|split; [reflexivity|]].
  - eexists _, _, (m2 ++ m1). rewrite <- (assoc_L (++)). split; [done|].
    eapply Forall_impl; [exact HF|]. intros e (fd & d & ->). done.
  - cbn [writes]. rewrite (assoc_L (++)), HW. cbn [writes]. f_equal. unfold destinations.
    by destruct (console_output_enabled s =? 0), (log_fd s =? -1).
Qed.

(** ** The log file descriptor *)
Inductive logger_op :=
| OpInit (path : option (list byte)) (enable_console : Z)
| OpWrite (level : log_level_t) (file : option (list byte)) (line : Z) (text : option (list byte))
| OpClose.

Definition run_logger_op `{Environment} (op : logger_op) : M logger unit :=
  match op with
  | OpInit path c => logger_init path c;; mret tt
  | OpWrite level file line text => logger_write level file line text
  | OpClose => logger_close
  end.

Fixpoint run_logger `{Environment} (ops : list logger_op) : M logger unit :=
  match ops with
  | [] => mret tt
  | op :: ops => run_logger_op op;; run_logger ops
  end.

(** Files opened are closed, or held in [log_fd]. *)
Definition fd_balanced (s : logger) : Prop :=
  succeeded is_open (logger_world s) =
  (calls is_close (logger_world s) + (if (log_fd s =? -1)%Z then 0 else 1))%nat.

Section DescriptorProofs.
Context `{Environment} (Hclock : clock_fits _).

Lemma close_log_file s (Q : unit -> logger -> Prop) :
  fd_balanced s ->
  (forall s', log_fd s' = -1 -> fd_balanced s' -> Q tt s') ->
  wp (if negb (log_fd s =? -1) then os (sys_ (sys_close (log_fd s)));; modify (set_log_fd (-1))
      else mret tt) Q s.
Proof.
  intros Hb HQ. unfold fd_balanced in *. destruct (Z.eqb_spec (log_fd s) (-1)) as [E|E]; simpl.
  - apply wp_ret, HQ; [done|]. by rewrite E.
  - apply wp_bind, wp_os, wp_sys_, wp_modify, HQ; [done|].
    cbn [log_fd logger_world set_logger_world set_log_fd].
    rewrite succeeded_cons, calls_cons. simpl. lia.
Qed.

Lemma init_balanced path c s : fd_balanced s ->
  wp (logger_init path c) (fun _ s' => fd_balanced s') s.
Proof.
  intros Hb. destruct path as [path|]; [|by apply wp_ret]. unfold logger_init.
  apply wp_bind, wp_modify, wp_bind, wp_os, wp_sys_, wp_bind, wp_gets, wp_bind.
  apply close_log_file; [done|]. intros s' Hfd Hb'.
  apply wp_bind, wp_os, wp_sysr, wp_bind, wp_modify, wp_bind, wp_os, wp_sys_, wp_bind, wp_gets.
  unfold fd_balanced in *. rewrite Hfd in Hb'. simpl in Hb'.
  cbn [log_fd logger_world set_logger_world set_log_fd].
  destruct (ans_ret _ =? -1) eqn:E; apply wp_ret;
    cbn [log_fd logger_world set_logger_world set_log_fd];
    rewrite !succeeded_cons, !calls_cons, E; simpl; rewrite E; simpl; lia.
Qed.

Lemma close_balanced s : fd_balanced s ->
  wp logger_close (fun _ s' => fd_balanced s' /\ log_fd s' = -1) s.
Proof.
  intros Hb. unfold logger_close.
  apply wp_bind, wp_os, wp_sys_, wp_bind, wp_gets, wp_bind.
  apply close_log_file; [done|]. intros s' Hfd Hb'.
  apply wp_os, wp_sys_. done.
Qed.

Lemma write_balanced level file line text s : fd_balanced s ->
  wp (logger_write level file line text) (fun _ s' => fd_balanced s' /\ log_fd s' = log_fd s) s.
Proof using Hclock.
  intros Hb. unfold fd_balanced in *. unfold logger_write. apply wp_bind, wp_gets, wp_bind, wp_gets.
  destruct text as [text|]; [|by apply wp_ret].
  apply wp_if; intros _; [by apply wp_ret|].
  apply wp_bind, timestamp_spec; [done|]. intros a b.
  destruct (snprintf_s _ (log_line _ _ _ _ _)) as [msg len].
  apply wp_if; intros _; [by apply wp_ret|].
  apply wp_bind, wp_os, wp_sys_, wp_bind, wp_gets, wp_bind.
  apply (wp_write_if _ (console_fd level)). intros m1 [H1 _].
  apply wp_bind, wp_gets, wp_bind, wp_write_if. intros m2 [H2 _].
  apply wp_os, wp_sys_. cbn [log_fd logger_world set_logger_world].
  rewrite succeeded_cons, calls_cons.
  rewrite (proj1 (only_writes_counts m2 _ H2)), (proj2 (only_writes_counts m2 _ H2)),
    (proj1 (only_writes_counts m1 _ H1)), (proj2 (only_writes_counts m1 _ H1)).
  done.
Qed.

Lemma run_logger_balanced ops s : fd_balanced s ->
  wp (run_logger ops) (fun _ s' => fd_balanced s') s.
Proof using Hclock.
  revert s. induction ops as [|op ops IH]; intros s Hb; [by apply wp_ret|].
  apply wp_bind. eapply (wp_mono _ (fun _ s' => fd_balanced s')); [|intros []; apply IH].
  destruct op as [path c|level file line text|].
  - apply wp_bind. eapply wp_mono; [by apply init_balanced|]. intros. by apply wp_ret.
  - eapply wp_mono; [by apply write_balanced|]. naive_solver.
  - eapply wp_mono; [by apply close_balanced|]. naive_solver.
Qed.
End DescriptorProofs.

(** The logger never leaks its file: in every sequence of logger calls of
    a program, followed by [logger_close], as many files were closed as were
    opened, whichever of the opens failed, and every call returns. *)
Theorem logger_no_descriptor_leak `{Environment} (ops : list logger_op) :
  clock_fits _ ->
  wp (run_logger ops;; logger_close) (fun _ s =>
    log_fd s = -1 /\
    succeeded is_open (logger_world s) = calls is_close (logger_world s)) logger_start.
Proof.
  intros Hc. apply wp_bind.
  eapply (wp_mono _ (fun _ s => fd_balanced s)); [by apply run_logger_balanced|].
  intros _ s Hb. eapply wp_mono; [by apply close_balanced|].
  intros _ s' [Hb' Hfd]. split; [done|]. unfold fd_balanced in Hb'. rewrite Hfd in Hb'. simpl in Hb'. lia.
Qed.

(** A system at 2024-03-05 07:08:09 local time, with file descriptor 5. *)
Definition log_env : Environment := fun _ c =>
  match c with
  | sys_localtime => Answer 1 0 (concat (le_bytes 4 <$> [9; 8; 7; 5; 2; 124])) ∅
  | sys_open _ _ => ok 5
  | _ => ok 0
  end.

Lemma log_env_fits : clock_fits log_env.
Proof. intros w. vm_compute. lia. Qed.

Lemma logger_write_correct_witness :
  wp (@logger_write log_env LOG_LEVEL_ERROR (Some (bs "db.c")) 12 (Some (bs "failed")))
     (fun _ s' => writes (logger_world s') =
        [(2, bs "2024-03-05 07:08:09 [ERROR] db.c:12 failed" ++ [Byte.x0a]);
         (5, bs "2024-03-05 07:08:09 [ERROR] db.c:12 failed" ++ [Byte.x0a])])
     (LoggerState 5 1 []).
Proof.
  eapply wp_mono.
  - apply (@logger_write_correct log_env LOG_LEVEL_ERROR (Some (bs "db.c")) 12 (bs "failed")
             (LoggerState 5 1 [])).
    + exact log_env_fits.
    + refine (bool_decide_unpack _ _). vm_compute. exact I.
  - intros _ s' (_ & _ & w & _ & Hw & ->). rewrite Hw. vm_compute. reflexivity.
Defined.

Lemma logger_no_descriptor_leak_witness :
  wp (@run_logger log_env [OpInit (Some (bs "a.log")) 1; OpWrite LOG_LEVEL_INFO None 0 (Some (bs "x"));
                          OpInit (Some (bs "b.log")) 0];; @logger_close log_env)
     (fun _ s => log_fd s = -1 /\
        succeeded is_open (logger_world s) = calls is_close (logger_world s)) logger_start.
Proof.
  apply (@logger_no_descriptor_leak log_env
           [OpInit (Some (bs "a.log")) 1; OpWrite LOG_LEVEL_INFO None 0 (Some (bs "x"));
            OpInit (Some (bs "b.log")) 0]).
  exact log_env_fits.
Defined.
