(* ===== verification/IpcProtocol.v ===== *)
(** IpcProtocol (src/Libraries/IpcProtocol): the messages exchanged by
    TcpServer and Database, their memory images, and the layout of the shared
    segment. *)

From S2P Require Import Prelude Machine CLib Ieee.

(** ** Layout arithmetic *)
Definition align_up (value alignment : Z) : Z :=
  u64 ((u64 (u64 (value + alignment) - 1)) `div` alignment * alignment).

(** The C layout of a struct given the size and alignment of its members:
    the offsets of the members, the size and the alignment of the whole. *)
Fixpoint place_members (at_ : Z) (members : list (Z * Z)) : list Z * Z :=
  match members with
  | [] => ([], at_)
  | (size, alignment) :: rest =>
      let o := align_up at_ alignment in
      let '(os, e) := place_members (o + size) rest in (o :: os, e)
  end.

Definition struct_align (members : list (Z * Z)) : Z := foldr Z.max 1 (map snd members).
Definition struct_offsets (members : list (Z * Z)) : list Z := (place_members 0 members).1.
Definition struct_size (members : list (Z * Z)) : Z :=
  align_up (place_members 0 members).2 (struct_align members).

Abbreviation mem_u32 := (4, 4).
Abbreviation mem_64 := (8, 8).

(** ** Protocol constants *)
Definition VEHICLE_NUMBER_SIZE : nat := 16.
Definition CITY_NAME_SIZE : nat := 32.

(** The enumerations have the underlying type [uint32_t], so a received
    message may hold any 32-bit value. *)
Definition START_PARKING : Z := 0.
Definition END_PARKING : Z := 1.
Definition ACKNOWLEDGE : Z := 2.

Definition IPC_STATUS_SUCCESS : Z := 0.
Definition IPC_STATUS_INVALID_REQUEST : Z := 1.
Definition IPC_STATUS_VEHICLE_NOT_FOUND : Z := 2.
Definition IPC_STATUS_DATABASE_ERROR : Z := 3.
Definition IPC_STATUS_INTERNAL_ERROR : Z := 4.

Definition DEFAULT_TCP_SERVER_PORT : Z := 5000.
Definition DEFAULT_TCP_LISTEN_BACKLOG : Z := 10.
Definition IPC_ATTACH_TIMEOUT_MS : Z := 10000.
Definition IPC_RETRY_DELAY_MS : Z := 100.
Definition DEFAULT_CONFIG_FILE : list byte := bs "../Config/parking_system.conf".
Definition DEFAULT_DATABASE_FILE : list byte := bs "../Database/parking.db".
Definition DEFAULT_DATABASE_LOG_FILE : list byte := bs "../Logs/database.log".
Definition DEFAULT_TCP_SERVER_LOG_FILE : list byte := bs "../Logs/tcp_server.log".
Definition DEFAULT_ENABLE_CONSOLE_LOGGING : bool := true.
Definition IPC_SHARED_MEMORY_KEY : Z := 0x1234.

Definition NOT_READY : Z := 0.
Definition READY : Z := 1.

(** ** Messages *)
Record tcp_to_database_message_t := TcpToDatabase {
  rq_request_id : Z;
  rq_action : Z;
  rq_vehicle_number : list byte;
  rq_latitude : double;
  rq_longitude : double;
  rq_parking_start_time : Z;
  rq_parking_end_time : Z;
}.

Record database_to_tcp_message_t := DatabaseToTcp {
  rs_request_id : Z;
  rs_action : Z;
  rs_status : Z;
  rs_vehicle_number : list byte;
  rs_parking_start_time : Z;
  rs_parking_end_time : Z;
  rs_parking_duration : Z;
  rs_parking_cost : double;
}.

#[export] Instance request_eq_dec : EqDecision tcp_to_database_message_t.
Proof. solve_decision. Defined.
#[export] Instance response_eq_dec : EqDecision database_to_tcp_message_t.
Proof. solve_decision. Defined.

Definition request_members : list (Z * Z) :=
  [mem_64; mem_u32; (16, 1); mem_64; mem_64; mem_64; mem_64].
Definition response_members : list (Z * Z) :=
  [mem_64; mem_u32; mem_u32; (16, 1); mem_64; mem_64; mem_64; mem_64].
Definition header_members : list (Z * Z) := [mem_u32; mem_u32].
Definition queue_header_members : list (Z * Z) := [mem_64; mem_64; mem_64; mem_64; mem_64].

Definition sizeof_request : Z := struct_size request_members.
Definition sizeof_response : Z := struct_size response_members.
Definition sizeof_ipc_header : Z := struct_size header_members.
Definition sizeof_queue_header : Z := struct_size queue_header_members.

(** The bytes of a message, as [memcpy], [send] and [write] move them; the
    four padding bytes of a request are zero.  The sources copy the structures
    raw: these images and their inverses are the model's account of such a
    copy under the System V x86-64 layout, not functions of the programs. *)
Definition encode_request (m : tcp_to_database_message_t) : list byte :=
  le_bytes 8 (rq_request_id m) ++ le_bytes 4 (rq_action m) ++ rq_vehicle_number m ++
  replicate 4 NUL ++ le_bytes 8 (double_bits (rq_latitude m)) ++
  le_bytes 8 (double_bits (rq_longitude m)) ++ le_bytes 8 (rq_parking_start_time m) ++
  le_bytes 8 (rq_parking_end_time m).

Definition encode_response (m : database_to_tcp_message_t) : list byte :=
  le_bytes 8 (rs_request_id m) ++ le_bytes 4 (rs_action m) ++ le_bytes 4 (rs_status m) ++
  rs_vehicle_number m ++ le_bytes 8 (rs_parking_start_time m) ++
  le_bytes 8 (rs_parking_end_time m) ++ le_bytes 8 (rs_parking_duration m) ++
  le_bytes 8 (double_bits (rs_parking_cost m)).

Definition bytes_at (b : list byte) (off n : nat) : list byte := take n (drop off b).

Definition decode_request (b : list byte) : tcp_to_database_message_t := {|
  rq_request_id := le_val (bytes_at b 0 8);
  rq_action := le_val (bytes_at b 8 4);
  rq_vehicle_number := bytes_at b 12 16;
  rq_latitude := double_of_bits (le_val (bytes_at b 32 8));
  rq_longitude := double_of_bits (le_val (bytes_at b 40 8));
  rq_parking_start_time := s64 (le_val (bytes_at b 48 8));
  rq_parking_end_time := s64 (le_val (bytes_at b 56 8));
|}.

Definition decode_response (b : list byte) : database_to_tcp_message_t := {|
  rs_request_id := le_val (bytes_at b 0 8);
  rs_action := le_val (bytes_at b 8 4);
  rs_status := le_val (bytes_at b 12 4);
  rs_vehicle_number := bytes_at b 16 16;
  rs_parking_start_time := s64 (le_val (bytes_at b 32 8));
  rs_parking_end_time := s64 (le_val (bytes_at b 40 8));
  rs_parking_duration := s64 (le_val (bytes_at b 48 8));
  rs_parking_cost := double_of_bits (le_val (bytes_at b 56 8));
|}.

(** ** Layout of the shared segment *)
Definition TCP_TO_DATABASE_QUEUE_CAPACITY : Z := 32.
Definition DATABASE_TO_TCP_QUEUE_CAPACITY : Z := 32.
Definition TCP_TO_DATABASE_SEMAPHORE_NAME : list byte := bs "/parking_system_tcp_to_database_queue".
Definition DATABASE_TO_TCP_SEMAPHORE_NAME : list byte := bs "/parking_system_database_to_tcp_queue".

Definition TCP_TO_DATABASE_QUEUE_OFFSET : Z :=
  align_up sizeof_ipc_header (struct_align queue_header_members).
Definition TCP_TO_DATABASE_QUEUE_SIZE : Z :=
  sizeof_queue_header + TCP_TO_DATABASE_QUEUE_CAPACITY * sizeof_request.
Definition DATABASE_TO_TCP_QUEUE_OFFSET : Z :=
  align_up (TCP_TO_DATABASE_QUEUE_OFFSET + TCP_TO_DATABASE_QUEUE_SIZE)
           (struct_align queue_header_members).
Definition DATABASE_TO_TCP_QUEUE_SIZE : Z :=
  sizeof_queue_header + DATABASE_TO_TCP_QUEUE_CAPACITY * sizeof_response.
Definition IPC_SHARED_MEMORY_SIZE : Z :=
  DATABASE_TO_TCP_QUEUE_OFFSET + DATABASE_TO_TCP_QUEUE_SIZE.

(** Well-formed values: those a C object of the type can hold. *)
Record wf_request (m : tcp_to_database_message_t) : Prop := {
  wfq_id : 0 <= rq_request_id m < 2 ^ 64;
  wfq_action : 0 <= rq_action m < 2 ^ 32;
  wfq_vehicle : length (rq_vehicle_number m) = VEHICLE_NUMBER_SIZE;
  wfq_latitude : valid_double (rq_latitude m) = true;
  wfq_longitude : valid_double (rq_longitude m) = true;
  wfq_start : - 2 ^ 63 <= rq_parking_start_time m < 2 ^ 63;
  wfq_end : - 2 ^ 63 <= rq_parking_end_time m < 2 ^ 63;
}.

Record wf_response (m : database_to_tcp_message_t) : Prop := {
  wfs_id : 0 <= rs_request_id m < 2 ^ 64;
  wfs_action : 0 <= rs_action m < 2 ^ 32;
  wfs_status : 0 <= rs_status m < 2 ^ 32;
  wfs_vehicle : length (rs_vehicle_number m) = VEHICLE_NUMBER_SIZE;
  wfs_start : - 2 ^ 63 <= rs_parking_start_time m < 2 ^ 63;
  wfs_end : - 2 ^ 63 <= rs_parking_end_time m < 2 ^ 63;
  wfs_duration : - 2 ^ 63 <= rs_parking_duration m < 2 ^ 63;
  wfs_cost : valid_double (rs_parking_cost m) = true;
}.

(** ** Lemmas *)
Lemma align_up_spec v a : 0 < a -> 0 <= v -> v + a < 2 ^ 64 ->
  v <= align_up v a < v + a /\ (a | align_up v a).
Proof.
  intros Ha Hv Hb. unfold align_up.
  rewrite (u64_small (v + a)), (u64_small (v + a - 1)) by lia.
  pose proof (Z.div_mod (v + a - 1) a ltac:(lia)) as E.
  pose proof (Z.mod_pos_bound (v + a - 1) a Ha).
  rewrite u64_small by nia. split; [nia|]. apply Z.divide_factor_r.
Qed.

Lemma s64_le_bytes z : - 2 ^ 63 <= z < 2 ^ 63 -> s64 (le_val (le_bytes 8 z)) = z.
Proof.
  intros Hz. rewrite le_val_bytes. change (256 ^ Z.of_nat 8) with (2 ^ 64).
  unfold wrap_s. change (2 ^ (64 - 1)) with (2 ^ 63).
  rewrite Z.add_mod_idemp_l by lia. rewrite Z.mod_small; lia.
Qed.

Lemma le_val_bytes_64 z : 0 <= z < 2 ^ 64 -> le_val (le_bytes 8 z) = z.
Proof. intros. apply le_val_bytes_small. done. Qed.

Lemma le_val_bytes_32 z : 0 <= z < 2 ^ 32 -> le_val (le_bytes 4 z) = z.
Proof. intros. apply le_val_bytes_small. done. Qed.

Lemma double_image x : valid_double x = true ->
  double_of_bits (le_val (le_bytes 8 (double_bits x))) = x.
Proof. intros H. destruct (double_of_bits_bits x H). by rewrite le_val_bytes_64. Qed.

(** Cutting a concatenation of chunks of known length. *)
Lemma bytes_at_here l r n : length l = n -> bytes_at (l ++ r) 0 n = l.
Proof. intros <-. unfold bytes_at. rewrite drop_0. apply take_app_length. Qed.

Lemma bytes_at_skip l r off n : (length l <= off)%nat ->
  bytes_at (l ++ r) off n = bytes_at r (off - length l) n.
Proof. intros. unfold bytes_at. by rewrite drop_app_ge by done. Qed.

Lemma bytes_at_end l n : length l = n -> bytes_at l 0 n = l.
Proof. intros <-. unfold bytes_at. rewrite drop_0. apply take_ge. lia. Qed.

Ltac cut_image :=
  repeat (rewrite bytes_at_skip by (rewrite ?length_le_bytes, ?length_replicate; lia));
  rewrite ?length_le_bytes, ?length_replicate;
  rewrite ?bytes_at_here by (rewrite ?length_le_bytes; lia);
  rewrite ?bytes_at_end by (rewrite ?length_le_bytes; lia).

Lemma length_encode_request m : wf_request m -> Z.of_nat (length (encode_request m)) = sizeof_request.
Proof.
  intros [_ _ Hv _ _ _ _]. unfold encode_request.
  rewrite !length_app, !length_le_bytes, length_replicate, Hv. reflexivity.
Qed.

Lemma length_encode_response m :
  wf_response m -> Z.of_nat (length (encode_response m)) = sizeof_response.
Proof.
  intros [_ _ _ Hv _ _ _ _]. unfold encode_response.
  rewrite !length_app, !length_le_bytes, Hv. reflexivity.
Qed.

Lemma decode_encode_request m : wf_request m -> decode_request (encode_request m) = m.
Proof.
  destruct m as [id act veh lat lon st en]. intros [Hid Hact Hv Hlat Hlon Hst Hen]. simpl in *.
  unfold VEHICLE_NUMBER_SIZE in Hv. unfold decode_request, encode_request.
  cbn [rq_request_id rq_action rq_vehicle_number rq_latitude rq_longitude
       rq_parking_start_time rq_parking_end_time].
  f_equal.
  - cut_image. by apply le_val_bytes_64.
  - cut_image. by apply le_val_bytes_32.
  - cut_image. done.
  - cut_image. rewrite Hv. cut_image. by apply double_image.
  - cut_image. rewrite Hv. cut_image. by apply double_image.
  - cut_image. rewrite Hv. cut_image. by apply s64_le_bytes.
  - cut_image. rewrite Hv. cut_image. by apply s64_le_bytes.
Qed.

Lemma decode_encode_response m : wf_response m -> decode_response (encode_response m) = m.
Proof.
  destruct m as [id act sta veh st en du cost]. intros [Hid Hact Hsta Hv Hst Hen Hdu Hcost].
  simpl in *. unfold VEHICLE_NUMBER_SIZE in Hv. unfold decode_response, encode_response.
  cbn [rs_request_id rs_action rs_status rs_vehicle_number rs_parking_start_time
       rs_parking_end_time rs_parking_duration rs_parking_cost].
  f_equal.
  - cut_image. by apply le_val_bytes_64.
  - cut_image. by apply le_val_bytes_32.
  - cut_image. by apply le_val_bytes_32.
  - cut_image. done.
  - cut_image. rewrite Hv. cut_image. by apply s64_le_bytes.
  - cut_image. rewrite Hv. cut_image. by apply s64_le_bytes.
  - cut_image. rewrite Hv. cut_image. by apply s64_le_bytes.
  - cut_image. rewrite Hv. cut_image. by apply double_image.
Qed.

(** Every 64-byte image, whoever sent it, decodes to a value of the type
    apart from the double fields, whose NaN payloads are not kept. *)
Lemma decode_request_fields b : Z.of_nat (length b) = sizeof_request ->
  let m := decode_request b in
  0 <= rq_request_id m < 2 ^ 64 /\ 0 <= rq_action m < 2 ^ 32 /\
  length (rq_vehicle_number m) = VEHICLE_NUMBER_SIZE /\
  - 2 ^ 63 <= rq_parking_start_time m < 2 ^ 63 /\ - 2 ^ 63 <= rq_parking_end_time m < 2 ^ 63.
Proof.
  change sizeof_request with 64. intros Hb m.
  assert (forall off n : nat, (off + n <= 64)%nat -> length (bytes_at b off n) = n) as Hlen.
  { intros. unfold bytes_at. rewrite length_take, length_drop. lia. }
  repeat split; simpl.
  1, 3: apply le_val_range.
  1: pose proof (le_val_range (bytes_at b 0 8)) as [_ H]; rewrite Hlen in H by lia; exact H.
  1: pose proof (le_val_range (bytes_at b 8 4)) as [_ H]; rewrite Hlen in H by lia; exact H.
  1: apply (Hlen 12 16)%nat; lia.
  all: pose proof (wrap_s_range 64 (le_val (bytes_at b 48 8)) ltac:(lia));
       pose proof (wrap_s_range 64 (le_val (bytes_at b 56 8)) ltac:(lia));
       change (2 ^ (64 - 1)) with (2 ^ 63) in *; lia.
Qed.

Definition sample_vehicle : list byte := copy_cstr VEHICLE_NUMBER_SIZE (bs "12-345-67").
Definition sample_request : tcp_to_database_message_t :=
  TcpToDatabase 7 START_PARKING sample_vehicle (double_lit 15 1) (double_lit 151 10) 1700000000 0.

(** The layout of the shared segment: the header and the two queues are
    disjoint, in order, aligned for their first member, and fill the segment
    exactly; the offsets of the message members agree with the images. *)
Theorem ipc_layout :
  sizeof_ipc_header <= TCP_TO_DATABASE_QUEUE_OFFSET /\
  TCP_TO_DATABASE_QUEUE_OFFSET + TCP_TO_DATABASE_QUEUE_SIZE <= DATABASE_TO_TCP_QUEUE_OFFSET /\
  DATABASE_TO_TCP_QUEUE_OFFSET + DATABASE_TO_TCP_QUEUE_SIZE = IPC_SHARED_MEMORY_SIZE /\
  (8 | TCP_TO_DATABASE_QUEUE_OFFSET) /\ (8 | DATABASE_TO_TCP_QUEUE_OFFSET) /\
  IPC_SHARED_MEMORY_SIZE < 2 ^ 31 /\
  struct_offsets request_members = [0; 8; 12; 32; 40; 48; 56] /\ sizeof_request = 64 /\
  struct_offsets response_members = [0; 8; 12; 16; 32; 40; 48; 56] /\ sizeof_response = 64.
Proof.
  split_and!; try (vm_compute; congruence).
  - exists 1. vm_compute. reflexivity.
  - exists 262. vm_compute. reflexivity.
Qed.
