(* ===== verification/SharedMemory.v ===== *)
(** SharedMemory (src/Libraries/SharedMemory): the wrapper around System V
    shared memory segments. *)

From S2P Require Import Prelude Machine Posix.

(** [nullptr] is 0; [shmat] reports failure with [(void * )-1]. *)
Definition nullptr : Z := 0.

Record SharedMemory := SharedMemoryObj {
  key_ : Z;
  size_ : Z;
  shm_id_ : Z;
  addr_ : Z;
}.

Definition set_shm_id (i : Z) (o : SharedMemory) := SharedMemoryObj (key_ o) (size_ o) i (addr_ o).
Definition set_addr (a : Z) (o : SharedMemory) := SharedMemoryObj (key_ o) (size_ o) (shm_id_ o) a.

(** The constructor. *)
Definition new_SharedMemory (key size : Z) : SharedMemory := SharedMemoryObj key size (-1) nullptr.

Definition data (o : SharedMemory) : Z := addr_ o.
Definition id (o : SharedMemory) : Z := shm_id_ o.
Definition is_attached (o : SharedMemory) : bool := negb (addr_ o =? nullptr).

(** [shm_nattch] as delivered by [shmctl(IPC_STAT)]. *)
Definition shm_nattch (a : answer) : Z := le_val (ans_data a).

Section WithEnvironment.
Context `{Environment}.

Definition create (o : SharedMemory) : M world (bool * SharedMemory) :=
  if is_attached o then LOG_ERROR "Shared memory is already attached";; mret (false, o)
  else
    i ← sysr (sys_shmget (key_ o) (size_ o) true true);
    let o := set_shm_id i o in
    if shm_id_ o =? -1 then LOG_ERROR "shmget() create failed: %s";; mret (false, o)
    else
      a ← sysr (sys_shmat (shm_id_ o));
      let o := set_addr a o in
      if addr_ o =? -1 then
        LOG_ERROR "shmat() after create failed: %s";; mret (false, set_addr nullptr o)
      else mret (true, o).

Definition attach (o : SharedMemory) : M world (bool * SharedMemory) :=
  if is_attached o then LOG_ERROR "Shared memory is already attached";; mret (false, o)
  else
    i ← sysr (sys_shmget (key_ o) (size_ o) false false);
    let o := set_shm_id i o in
    if shm_id_ o =? -1 then mret (false, o)
    else
      a ← sysr (sys_shmat (shm_id_ o));
      let o := set_addr a o in
      if addr_ o =? -1 then mret (false, set_addr nullptr o) else mret (true, o).

Definition detach (o : SharedMemory) : M world (bool * SharedMemory) :=
  if addr_ o =? nullptr then mret (true, o)
  else
    r ← sysr (sys_shmdt (addr_ o));
    if r =? -1 then LOG_ERROR "shmdt() failed: %s";; mret (false, o)
    else mret (true, set_addr nullptr o).

Definition attached_count (o : SharedMemory) : M world Z :=
  if shm_id_ o =? -1 then LOG_ERROR "Cannot get attached count: invalid shm_id";; mret (-1)
  else
    a ← sys (sys_shm_stat (shm_id_ o));
    if ans_ret a =? -1 then LOG_ERROR "shmctl() IPC_STAT failed: %s";; mret (-1)
    else mret (s32 (shm_nattch a)).

Definition remove (o : SharedMemory) : M world (bool * SharedMemory) :=
  if shm_id_ o =? -1 then LOG_ERROR "Cannot remove shared memory: invalid shm_id";; mret (false, o)
  else
    count ← attached_count o;
    if count <? 0 then mret (false, o)
    else if 1 <? count then
      LOG_ERROR "Cannot remove shared memory: %d processes are still attached";; mret (false, o)
    else
      r ← sysr (sys_shm_rmid (shm_id_ o));
      if r =? -1 then LOG_ERROR "shmctl() IPC_RMID failed: %s";; mret (false, o)
      else mret (true, set_shm_id (-1) o).

(** [delete] runs the destructor, which ignores the result of [detach]. *)
Definition delete_SharedMemory (o : SharedMemory) : M world unit := detach o;; mret tt.
End WithEnvironment.

Lemma delete_returns `{Environment} o w : wp (delete_SharedMemory o) (fun _ _ => True) w.
Proof. unfold delete_SharedMemory, detach. by wp_go. Qed.

(** ** Sequences of operations on one object *)
Inductive shm_op := OpCreate | OpAttach | OpDetach | OpCount | OpRemove.

Definition run_op `{Environment} (op : shm_op) (o : SharedMemory) : M world SharedMemory :=
  match op with
  | OpCreate => r ← create o; mret r.2
  | OpAttach => r ← attach o; mret r.2
  | OpDetach => r ← detach o; mret r.2
  | OpCount => attached_count o;; mret o
  | OpRemove => r ← remove o; mret r.2
  end.

Fixpoint run_ops `{Environment} (ops : list shm_op) (o : SharedMemory) : M world SharedMemory :=
  match ops with
  | [] => mret o
  | op :: ops' => o' ← run_op op o; run_ops ops' o'
  end.

(** Mappings obtained and given back in a history. *)
Definition is_map (c : syscall) (a : answer) : bool :=
  match c with sys_shmat _ => negb (ans_ret a =? -1) && negb (ans_ret a =? 0) | _ => false end.
Definition is_unmap (c : syscall) (a : answer) : bool :=
  match c with sys_shmdt _ => negb (ans_ret a =? -1) | _ => false end.

(** What POSIX documents: [shmat] never returns a null pointer. *)
Definition shmat_not_null (env : Environment) : Prop :=
  forall w i, ans_ret (respond w (sys_shmat i)) <> nullptr.

(** The object's view of its mapping agrees with the history since the
    history [w0] in which it was not attached. *)
Definition balanced (w0 : world) (o : SharedMemory) (w : world) : Prop :=
  (succeeded is_map w + succeeded is_unmap w0 =
   succeeded is_unmap w + succeeded is_map w0 + (if is_attached o then 1 else 0))%nat.

(** The object never removes a segment that another process has attached: the
    removal follows at once a status call that reported at most one. *)
Fixpoint guarded_removals (w : world) : Prop :=
  match w with
  | (sys_shm_rmid i, _) :: w' =>
      (exists a w'', w' = (sys_shm_stat i, a) :: w'' /\ ans_ret a <> -1 /\ s32 (shm_nattch a) <= 1) /\
      guarded_removals w'
  | _ :: w' => guarded_removals w'
  | [] => True
  end.

Ltac shm_cases :=
  repeat match goal with
  | H : (_ =? _) = true |- _ => apply Z.eqb_eq in H
  | H : (_ =? _) = false |- _ => apply Z.eqb_neq in H
  | H : (_ <? _) = true |- _ => apply Z.ltb_lt in H
  | H : (_ <? _) = false |- _ => apply Z.ltb_ge in H
  | H : negb _ = true |- _ => apply negb_true_iff in H
  | H : negb _ = false |- _ => apply negb_false_iff in H
  end.

Section Proofs.
Context `{Environment} (Hnn : shmat_not_null _).

(** One operation keeps both invariants. *)
Lemma run_op_invariant op o w0 w :
  balanced w0 o w -> guarded_removals w ->
  wp (run_op op o) (fun o' w' => balanced w0 o' w' /\ guarded_removals w') w.
Proof using Hnn.
  unfold balanced. intros Hb Hg.
  destruct op; unfold run_op, create, attach, detach, attached_count, remove, attached_count;
    unfold is_attached, nullptr in *; wp_go; rewrite ?succeeded_cons; simpl in *; shm_cases;
    unfold nullptr in *.
  all: try (split; [|by eauto]).
  all: try (destruct o; simpl in *; by rewrite ?Nat.add_0_l).
  all: repeat match goal with
       | |- context [ans_ret (respond ?w (sys_shmat ?i)) =? 0] =>
           let E := fresh in pose proof (Hnn w i) as E; unfold nullptr in E;
           rewrite (proj2 (Z.eqb_neq _ _) E)
       | H : ?x = ?y |- context [?x =? ?y] => rewrite (proj2 (Z.eqb_eq _ _) H)
       | H : ?x <> ?y |- context [?x =? ?y] => rewrite (proj2 (Z.eqb_neq _ _) H)
       | H : ?x <> ?y, G : context [?x =? ?y] |- _ => rewrite (proj2 (Z.eqb_neq _ _) H) in G
       | H : ?x = ?y, G : context [?x =? ?y] |- _ => rewrite (proj2 (Z.eqb_eq _ _) H) in G
       end.
  all: simpl in *; try lia.
  all: split; [done|]; split; [|done]; eauto.
Qed.

Lemma run_ops_invariant ops o w0 w :
  balanced w0 o w -> guarded_removals w ->
  wp (run_ops ops o) (fun o' w' => balanced w0 o' w' /\ guarded_removals w') w.
Proof using Hnn.
  revert o w. induction ops as [|op ops IH]; intros o w Hb Hg; simpl.
  - by apply wp_ret.
  - apply wp_bind. eapply wp_mono; [by apply run_op_invariant|].
    intros o' w' [??]. by apply IH.
Qed.
End Proofs.

(** C36: whatever sequence of operations is applied to a new object, and however
    the kernel answers, every mapping obtained is either the one the object
    still holds or was given back, so nothing leaks; and the segment is only
    removed right after the kernel reported at most one attached process. *)
Theorem shm_mappings_balanced `{Environment} (key size : Z) (ops : list shm_op) :
  shmat_not_null _ ->
  wp (run_ops ops (new_SharedMemory key size)) (fun o w =>
        succeeded is_map w = (succeeded is_unmap w + (if is_attached o then 1 else 0))%nat /\
        guarded_removals w) [].
Proof.
  intros Hnn. eapply wp_mono.
  - apply (run_ops_invariant Hnn ops _ [] []); [reflexivity|done].
  - unfold balanced. simpl. intros o w [Hb Hg]. split; [|done].
    unfold succeeded in *. simpl in *. lia.
Qed.

(** A kernel with one segment, identified by 7 and mapped at 4096. *)
Definition kernel_env : Environment := fun _ c =>
  match c with
  | sys_shmget _ _ _ _ => ok 7
  | sys_shmat _ => ok 4096
  | sys_shm_stat _ => Answer 0 0 (le_bytes 8 1) ∅
  | _ => ok 0
  end.

Lemma shm_mappings_balanced_witness :
  wp (@run_ops kernel_env [OpCreate; OpAttach; OpDetach; OpRemove] (new_SharedMemory 0x1234 4184))
     (fun o w => succeeded is_map w = (succeeded is_unmap w + (if is_attached o then 1 else 0))%nat /\
                 guarded_removals w) [].
Proof.
  apply (@shm_mappings_balanced kernel_env 0x1234 4184 [OpCreate; OpAttach; OpDetach; OpRemove]).
  intros w i. vm_compute. discriminate.
Defined.

(** Tests of a result and of a state of the object. *)
Definition attached_with (i a : Z) (o : SharedMemory) : Prop := shm_id_ o = i /\ addr_ o = a.

(** The history [w] with one more diagnostic. *)
Definition diagnosed (format : string) (w w' : world) : Prop :=
  exists a, w' = (sys_log LOG_LEVEL_ERROR format, a) :: w.

Definition is_rmid (c : syscall) : bool := match c with sys_shm_rmid _ => true | _ => false end.

(** Creating a segment, branch by branch: an attached object refuses
    without calling the kernel; otherwise the segment is requested exclusively,
    and the object is attached exactly when both calls succeed.  When the
    mapping fails the new segment is left in the system, unattached and never
    removed. *)
Theorem create_cases `{Environment} (o : SharedMemory) (w : world) :
  let w1 := (sys_shmget (key_ o) (size_ o) true true,
             respond w (sys_shmget (key_ o) (size_ o) true true)) :: w in
  let i := ans_ret (respond w (sys_shmget (key_ o) (size_ o) true true)) in
  let w2 := (sys_shmat i, respond w1 (sys_shmat i)) :: w1 in
  let a := ans_ret (respond w1 (sys_shmat i)) in
  wp (create o) (fun r w' =>
    if is_attached o then r = (false, o) /\ diagnosed "Shared memory is already attached" w w'
    else if i =? -1
    then r.1 = false /\ attached_with (-1) nullptr r.2 /\ diagnosed "shmget() create failed: %s" w1 w'
    else if a =? -1
    then r.1 = false /\ attached_with i nullptr r.2 /\ diagnosed "shmat() after create failed: %s" w2 w' /\
         calls is_rmid w' = calls is_rmid w
    else r.1 = true /\ attached_with i a r.2 /\ w' = w2) w.
Proof.
  cbn zeta. unfold create, attached_with, diagnosed. apply wp_if; intros Ha.
  { apply wp_bind, wp_sys_, wp_ret. rewrite Ha. eauto. }
  rewrite Ha. apply negb_false_iff, Z.eqb_eq in Ha.
  apply wp_bind, wp_sysr. cbn [shm_id_ set_shm_id]. apply wp_if; intros Hi.
  { rewrite Hi. apply Z.eqb_eq in Hi. apply wp_bind, wp_sys_, wp_ret. cbn. eauto. }
  rewrite Hi. apply wp_bind, wp_sysr. cbn [addr_ set_addr]. apply wp_if; intros Hm; rewrite Hm.
  - apply wp_bind, wp_sys_, wp_ret. by split_and!; eauto.
  - by apply wp_ret.
Qed.
