(* ===== verification/SharedQueue.v ===== *)
(** SharedQueue (src/Libraries/Queue): the fixed-size FIFO kept inside the
    shared segment, at the level of its bytes, and its refinement of an
    abstract bounded queue. *)

From S2P Require Import Prelude Machine Posix IpcProtocol SharedMemory.

(** The state an operation works on: the attached segment and the system. *)
Record ipc_state := IpcState {
  segment : list byte;
  ipc_world : world;
}.

Definition set_segment (m : list byte) (s : ipc_state) := IpcState m (ipc_world s).
Definition set_ipc_world (w : world) (s : ipc_state) := IpcState (segment s) w.

(** Offsets of the members of [queue_header_t]. *)
Definition Q_HEAD : Z := 0.
Definition Q_TAIL : Z := 8.
Definition Q_COUNT : Z := 16.
Definition Q_CAPACITY : Z := 24.
Definition Q_ELEMENT_SIZE : Z := 32.

(** [header_] and [data_] are addresses relative to the start of the segment;
    [None] is a null pointer, or [SEM_FAILED] for the semaphore. *)
Record SharedQueue := SharedQueueObj {
  offset_ : Z;
  header_ : option Z;
  data_ : option Z;
  semaphore_ : option Z;
  element_size_ : Z;
  capacity_ : Z;
}.

Section WithEnvironment.
Context `{Environment}.

Definition os {A} (m : M world A) : M ipc_state A := zoom ipc_world set_ipc_world m.

Definition log_error (format : string) : M ipc_state unit := os (LOG_ERROR format).

(** Access to a [size_t] of the segment. *)
Definition load (a : Z) : M ipc_state Z :=
  m ← gets segment;
  b ← from_option_undef (mem_read m (Z.to_nat a) 8);
  mret (le_val b).

Definition store_bytes (a : Z) (b : list byte) : M ipc_state unit :=
  m ← gets segment;
  m' ← from_option_undef (mem_write m (Z.to_nat a) b);
  modify (set_segment m').

Definition store (a v : Z) : M ipc_state unit := store_bytes a (le_bytes 8 v).

Definition load_bytes (a n : Z) : M ipc_state (list byte) :=
  m ← gets segment;
  from_option_undef (mem_read m (Z.to_nat a) (Z.to_nat n)).

Definition queue_failed (offset element_size capacity : Z) : SharedQueue :=
  SharedQueueObj offset None None None element_size capacity.

(** The constructor. *)
Definition new_SharedQueue (shared_memory : option SharedMemory) (offset : Z)
    (semaphore_name : option (list byte)) (element_size capacity : Z) (create : bool)
    : M ipc_state SharedQueue :=
  match shared_memory, semaphore_name with
  | Some shm, Some name =>
      if (data shm =? nullptr) || (element_size =? 0) || (capacity =? 0)
      then
        log_error "Invalid SharedQueue constructor argument";;
        mret (queue_failed offset element_size capacity)
      else
        sem ← os (sysr (sys_sem_open name));
        if sem =? 0 then
          log_error "sem_open() failed: %s";; mret (queue_failed offset element_size capacity)
        else
          let header := offset in
          let q := SharedQueueObj offset (Some header) (Some (offset + sizeof_queue_header))
                     (Some sem) element_size capacity in
          if create then
            store (header + Q_HEAD) 0;;
            store (header + Q_TAIL) 0;;
            store (header + Q_COUNT) 0;;
            store (header + Q_CAPACITY) capacity;;
            store (header + Q_ELEMENT_SIZE) element_size;;
            mret q
          else
            cap ← load (header + Q_CAPACITY);
            esize ← load (header + Q_ELEMENT_SIZE);
            if negb (cap =? capacity) || negb (esize =? element_size) then
              log_error "SharedQueue configuration mismatch";;
              os (sys_ (sys_sem_close sem));;
              mret (queue_failed offset element_size capacity)
            else mret q
  | _, _ =>
      log_error "Invalid SharedQueue constructor argument";;
      mret (queue_failed offset element_size capacity)
  end.

Definition is_valid (q : SharedQueue) : bool :=
  match header_ q, data_ q, semaphore_ q with
  | Some _, Some _, Some _ => true
  | _, _, _ => false
  end.

Definition delete_SharedQueue (q : SharedQueue) : M ipc_state unit :=
  match semaphore_ q with
  | Some sem => os (sys_ (sys_sem_close sem))
  | None => mret tt
  end.

(** The part of [push] between [sem_wait] and [sem_post]: [false] when full. *)
Definition push_locked (header data : Z) (item : list byte) : M ipc_state bool :=
  count ← load (header + Q_COUNT);
  capacity ← load (header + Q_CAPACITY);
  if capacity <=? count then mret false
  else
    tail ← load (header + Q_TAIL);
    esize ← load (header + Q_ELEMENT_SIZE);
    bytes ← from_option_undef (mem_read item 0 (Z.to_nat esize));
    store_bytes (data + u64 (tail * esize)) bytes;;
    store (header + Q_TAIL) (u64 (tail + 1) `mod` capacity);;
    count ← load (header + Q_COUNT);
    store (header + Q_COUNT) (u64 (count + 1));;
    mret true.

(** [sem_post] with its test. *)
Definition unlock (sem : Z) : M ipc_state bool :=
  r ← os (sysr (sys_sem_post sem));
  if r =? -1 then log_error "sem_post() failed: %s";; mret false else mret true.

Definition push (q : SharedQueue) (item : option (list byte)) : M ipc_state bool :=
  match item, header_ q, data_ q, semaphore_ q with
  | Some item, Some header, Some data, Some sem =>
      r ← os (sysr (sys_sem_wait sem));
      if r =? -1 then log_error "sem_wait() failed: %s";; mret false
      else
        stored ← push_locked header data item;
        unlocked ← unlock sem;
        mret (stored && unlocked)
  | _, _, _, _ => log_error "Invalid push operation";; mret false
  end.

(** The part of [pop] between the semaphore calls: the bytes copied to the
    destination, [None] when empty. *)
Definition pop_locked (header data : Z) : M ipc_state (option (list byte)) :=
  count ← load (header + Q_COUNT);
  if count =? 0 then mret None
  else
    head ← load (header + Q_HEAD);
    esize ← load (header + Q_ELEMENT_SIZE);
    item ← load_bytes (data + u64 (head * esize)) esize;
    capacity ← load (header + Q_CAPACITY);
    if capacity =? 0 then undef
    else
      store (header + Q_HEAD) (u64 (head + 1) `mod` capacity);;
      count ← load (header + Q_COUNT);
      store (header + Q_COUNT) (u64 (count - 1));;
      mret (Some item).

(** The result and what was written to the destination buffer. *)
Definition pop (q : SharedQueue) (item_not_null : bool) : M ipc_state (bool * option (list byte)) :=
  match item_not_null, header_ q, data_ q, semaphore_ q with
  | true, Some header, Some data, Some sem =>
      r ← os (sysr (sys_sem_wait sem));
      if r =? -1 then log_error "sem_wait() failed: %s";; mret (false, None)
      else
        item ← pop_locked header data;
        unlocked ← unlock sem;
        mret (bool_decide (is_Some item) && unlocked, item)
  | _, _, _, _ => log_error "Invalid pop operation";; mret (false, None)
  end.

Definition is_empty (q : SharedQueue) : M ipc_state bool :=
  match header_ q with
  | None => mret true
  | Some header => count ← load (header + Q_COUNT); mret (count =? 0)
  end.

Definition is_full (q : SharedQueue) : M ipc_state bool :=
  match header_ q with
  | None => mret false
  | Some header =>
      count ← load (header + Q_COUNT);
      capacity ← load (header + Q_CAPACITY);
      mret (capacity <=? count)
  end.

Definition size (q : SharedQueue) : M ipc_state Z :=
  match header_ q with
  | None => mret 0
  | Some header => load (header + Q_COUNT)
  end.
End WithEnvironment.

(** ** Abstract specification: a bounded FIFO of byte strings *)
Definition fifo_push (capacity : Z) (x : list byte) (xs : list (list byte)) : bool * list (list byte) :=
  if Z.of_nat (length xs) <? capacity then (true, xs ++ [x]) else (false, xs).

Definition fifo_pop (xs : list (list byte)) : option (list byte) * list (list byte) :=
  match xs with
  | [] => (None, [])
  | x :: xs' => (Some x, xs')
  end.

(** ** Representation *)
Definition word_at (m : list byte) (a v : Z) : Prop :=
  mem_read m (Z.to_nat a) 8 = Some (le_bytes 8 v) /\ 0 <= v < 2 ^ 64.

Definition block_at (m : list byte) (a : Z) (x : list byte) : Prop :=
  mem_read m (Z.to_nat a) (length x) = Some x.

(** The geometry of a queue inside a segment of [len] bytes. *)
Record queue_fits (off esize cap : Z) (len : nat) : Prop := {
  qf_off : 0 <= off;
  qf_esize : 0 < esize;
  qf_cap : 0 < cap;
  qf_end : off + sizeof_queue_header + cap * esize <= Z.of_nat len;
  qf_len : Z.of_nat len < 2 ^ 63;
}.

Definition slot (off esize i : Z) : Z := off + sizeof_queue_header + i * esize.

(** [m] holds, at [off], a queue whose contents is [xs], oldest first. *)
Record queue_repr (off esize cap : Z) (m : list byte) (xs : list (list byte)) : Prop := {
  qr_fits : queue_fits off esize cap (length m);
  qr_len : Z.of_nat (length xs) <= cap;
  qr_header : exists head, 0 <= head < cap /\
    word_at m (off + Q_HEAD) head /\
    word_at m (off + Q_TAIL) ((head + Z.of_nat (length xs)) `mod` cap) /\
    word_at m (off + Q_COUNT) (Z.of_nat (length xs)) /\
    word_at m (off + Q_CAPACITY) cap /\
    word_at m (off + Q_ELEMENT_SIZE) esize /\
    (forall (i : nat) x, xs !! i = Some x -> Z.of_nat (length x) = esize /\
       block_at m (slot off esize ((head + Z.of_nat i) `mod` cap)) x);
}.

(** The bytes outside [lo, hi) are the same in both segments. *)
Definition same_except (lo hi : Z) (m m' : list byte) : Prop :=
  length m' = length m /\
  forall a n : nat, Z.of_nat (a + n) <= lo \/ hi <= Z.of_nat a -> mem_read m' a n = mem_read m a n.

(** The bytes outside a queue are the same. *)
Definition same_outside (off esize cap : Z) : list byte -> list byte -> Prop :=
  same_except off (slot off esize cap).

(** ** Lemmas on the segment *)
Lemma word_at_write m a v m' b bs :
  mem_write m (Z.to_nat b) bs = Some m' -> 0 <= a -> 0 <= b ->
  (a + 8 <= b \/ b + Z.of_nat (length bs) <= a) ->
  word_at m a v -> word_at m' a v.
Proof.
  intros E Ha Hb Hd [Hr Hv]. split; [|done].
  rewrite (mem_read_write_disjoint _ _ _ _ _ _ E); [done|lia].
Qed.

Lemma block_at_write m a x m' b bs :
  mem_write m (Z.to_nat b) bs = Some m' -> 0 <= a -> 0 <= b ->
  (a + Z.of_nat (length x) <= b \/ b + Z.of_nat (length bs) <= a) ->
  block_at m a x -> block_at m' a x.
Proof.
  intros E Ha Hb Hd Hr. unfold block_at.
  rewrite (mem_read_write_disjoint _ _ _ _ _ _ E); [done|lia].
Qed.

Lemma word_at_store m a v m' : 0 <= v < 2 ^ 64 ->
  mem_write m (Z.to_nat a) (le_bytes 8 v) = Some m' -> word_at m' a v.
Proof.
  intros Hv E. split; [|done]. apply mem_read_write_same in E. by rewrite length_le_bytes in E.
Qed.

Lemma mod_distinct cap head i n : 0 < cap -> 0 <= i < n -> n < cap ->
  (head + i) `mod` cap <> (head + n) `mod` cap.
Proof.
  intros Hc Hi Hn E.
  pose proof (Z.div_mod (head + i) cap ltac:(lia)).
  pose proof (Z.div_mod (head + n) cap ltac:(lia)).
  assert (n - i = cap * ((head + n) `div` cap - (head + i) `div` cap)) as Hd by lia.
  assert ((head + n) `div` cap - (head + i) `div` cap <= 0 \/
          1 <= (head + n) `div` cap - (head + i) `div` cap) as [?|?] by lia; nia.
Qed.

Lemma slots_disjoint off esize i j : 0 < esize -> i <> j ->
  slot off esize i + esize <= slot off esize j \/ slot off esize j + esize <= slot off esize i.
Proof. intros He Hij. unfold slot. assert (i + 1 <= j \/ j + 1 <= i) as [?|?] by lia; nia. Qed.

Lemma slot_range off esize cap i len : queue_fits off esize cap len -> 0 <= i < cap ->
  off + sizeof_queue_header <= slot off esize i /\ slot off esize i + esize <= slot off esize cap /\
  slot off esize cap <= Z.of_nat len /\ 0 <= i * esize < 2 ^ 63.
Proof. intros [? ? ? He Hl] Hi. unfold slot. change sizeof_queue_header with 40 in *. nia. Qed.

Lemma fits_bounds off esize cap len : queue_fits off esize cap len ->
  cap < 2 ^ 63 /\ esize < 2 ^ 63.
Proof.
  intros [? ? ? He Hl]. change sizeof_queue_header with 40 in *.
  assert (cap <= cap * esize) by nia. assert (esize <= cap * esize) by nia. lia.
Qed.

Lemma same_outside_refl off esize cap m : same_outside off esize cap m m.
Proof. done. Qed.

Lemma same_outside_trans off esize cap m1 m2 m3 :
  same_outside off esize cap m1 m2 -> same_outside off esize cap m2 m3 ->
  same_outside off esize cap m1 m3.
Proof.
  intros [L1 H1] [L2 H2]. split; [congruence|]. intros a n Hd. by rewrite H2, H1.
Qed.

Lemma same_outside_write off esize cap m m' b bs :
  0 <= off -> mem_write m (Z.to_nat b) bs = Some m' ->
  off <= b -> b + Z.of_nat (length bs) <= slot off esize cap ->
  same_outside off esize cap m m'.
Proof.
  intros Ho E Hb He. split; [by eapply mem_write_length|].
  intros a n Hd. apply (mem_read_write_disjoint _ _ _ _ _ _ E). lia.
Qed.

Section Proofs.
Context `{Environment}.

(** Loads and stores of a represented segment. *)
Lemma wp_load a v (Q : Z -> ipc_state -> Prop) s :
  word_at (segment s) a v -> Q v s -> wp (load a) Q s.
Proof.
  intros [Hr Hv] HQ. unfold load. wp_go. eapply wp_from_option; [exact Hr|].
  wp_go. by rewrite le_val_bytes_64.
Qed.

Lemma wp_store_bytes a b (Q : unit -> ipc_state -> Prop) s :
  0 <= a -> a + Z.of_nat (length b) <= Z.of_nat (length (segment s)) ->
  (forall m', mem_write (segment s) (Z.to_nat a) b = Some m' -> Q tt (set_segment m' s)) ->
  wp (store_bytes a b) Q s.
Proof.
  intros Ha Hl HQ. unfold store_bytes. wp_go. unfold wp.
  destruct (mem_write (segment s) (Z.to_nat a) b) as [m'|] eqn:E; [by apply HQ|].
  rewrite mem_write_Some in E by lia. done.
Qed.

Lemma wp_store a v (Q : unit -> ipc_state -> Prop) s :
  0 <= a -> a + 8 <= Z.of_nat (length (segment s)) ->
  (forall m', mem_write (segment s) (Z.to_nat a) (le_bytes 8 v) = Some m' -> Q tt (set_segment m' s)) ->
  wp (store a v) Q s.
Proof. intros. apply wp_store_bytes; rewrite ?length_le_bytes; done. Qed.

Lemma wp_load_bytes a n x (Q : list byte -> ipc_state -> Prop) s :
  block_at (segment s) a x -> Z.of_nat (length x) = n -> Q x s -> wp (load_bytes a n) Q s.
Proof.
  intros Hb Hl HQ. unfold load_bytes. wp_go. unfold wp.
  replace (Z.to_nat n) with (length x) by lia. unfold block_at in Hb. by rewrite Hb.
Qed.
End Proofs.

(** Carry a header word or a block through the writes of the context. *)
Ltac geometry :=
  rewrite ?length_le_bytes; unfold slot, Q_HEAD, Q_TAIL, Q_COUNT, Q_CAPACITY, Q_ELEMENT_SIZE in *;
  change sizeof_queue_header with 40 in *; lia.

Ltac through_writes :=
  match goal with
  | H : word_at ?m ?a ?v |- word_at ?m ?a ?v => exact H
  | H : block_at ?m ?a ?v |- block_at ?m ?a ?v => exact H
  | E : mem_write _ (Z.to_nat ?a) (le_bytes 8 ?v) = Some ?m |- word_at ?m ?a ?v =>
      refine (word_at_store _ _ _ _ _ E); lia
  | E : mem_write ?m0 (Z.to_nat ?b) _ = Some ?m |- word_at ?m _ _ =>
      apply (word_at_write _ _ _ _ _ _ E); [geometry|geometry|geometry|through_writes]
  | E : mem_write ?m0 (Z.to_nat ?b) _ = Some ?m |- block_at ?m _ _ =>
      apply (block_at_write _ _ _ _ _ _ E); [geometry|geometry| |through_writes]
  | _ => idtac
  end.

Section Refinement.
Context (off esize cap : Z).
Implicit Types (m : list byte) (xs : list (list byte)).

(** The memory written by [push]: the item, then the tail, then the count. *)
Lemma repr_after_push m m1 m2 m3 xs x head :
  queue_fits off esize cap (length m) ->
  0 <= head < cap -> Z.of_nat (length xs) < cap -> Z.of_nat (length x) = esize ->
  word_at m (off + Q_HEAD) head ->
  word_at m (off + Q_CAPACITY) cap -> word_at m (off + Q_ELEMENT_SIZE) esize ->
  (forall (i : nat) y, xs !! i = Some y -> Z.of_nat (length y) = esize /\
     block_at m (slot off esize ((head + Z.of_nat i) `mod` cap)) y) ->
  let tail := (head + Z.of_nat (length xs)) `mod` cap in
  mem_write m (Z.to_nat (slot off esize tail)) x = Some m1 ->
  mem_write m1 (Z.to_nat (off + Q_TAIL)) (le_bytes 8 ((tail + 1) `mod` cap)) = Some m2 ->
  mem_write m2 (Z.to_nat (off + Q_COUNT)) (le_bytes 8 (Z.of_nat (length xs) + 1)) = Some m3 ->
  queue_repr off esize cap m3 (xs ++ [x]) /\ same_outside off esize cap m m3.
Proof.
  intros Hf Hhead Hn Hx Wh Wc We Hslots tail E1 E2 E3.
  pose proof Hf as [Hoff Hesz Hcp Hend Hsz].
  assert (0 <= tail < cap) as Ht by (apply Z.mod_pos_bound; lia).
  pose proof (slot_range _ _ _ tail _ Hf Ht) as (Hs1 & Hs2 & Hs3 & _).
  destruct (fits_bounds _ _ _ _ Hf) as [Hcb Heb].
  assert (0 <= (tail + 1) `mod` cap < cap) by (apply Z.mod_pos_bound; lia).
  assert (length m3 = length m) as Hl by (by rewrite (mem_write_length _ _ _ _ E3),
    (mem_write_length _ _ _ _ E2), (mem_write_length _ _ _ _ E1)).
  split.
  - constructor; [by rewrite Hl|rewrite length_app; simpl; lia|].
    exists head. rewrite length_app. simpl length.
    replace (Z.of_nat (length xs + 1)) with (Z.of_nat (length xs) + 1) by lia.
    replace ((head + (Z.of_nat (length xs) + 1)) `mod` cap) with ((tail + 1) `mod` cap)
      by (unfold tail; rewrite Z.add_mod_idemp_l by lia; f_equal; lia).
    split; [done|]. split; [through_writes|]. split; [through_writes|].
    split; [through_writes|]. split; [through_writes|]. split; [through_writes|].
    intros i y Hi. apply lookup_snoc_Some in Hi as [[Hlt Hi]|[-> <-]].
    + destruct (Hslots i y Hi) as [Hy Hb]. split; [done|].
      assert (0 <= (head + Z.of_nat i) `mod` cap < cap) as Hj by (apply Z.mod_pos_bound; lia).
      pose proof (slot_range _ _ _ _ _ Hf Hj) as (Hj1 & Hj2 & _ & _).
      pose proof (mod_distinct cap head (Z.of_nat i) (Z.of_nat (length xs)) ltac:(lia) ltac:(lia) Hn)
        as Hne.
      pose proof (slots_disjoint off esize _ tail Hesz Hne).
      through_writes; geometry.
    + split; [done|].
      apply (block_at_write _ _ _ _ _ _ E3); [geometry..|].
      apply (block_at_write _ _ _ _ _ _ E2); [geometry..|].
      by apply mem_read_write_same in E1.
  - eapply same_outside_trans; [|eapply same_outside_trans];
      (eapply same_outside_write; [done|eassumption|geometry|geometry]).
Qed.

(** The memory written by [pop]: the head, then the count. *)
Lemma repr_after_pop m m1 m2 xs x head :
  queue_fits off esize cap (length m) ->
  0 <= head < cap -> Z.of_nat (length (x :: xs)) <= cap ->
  word_at m (off + Q_TAIL) ((head + Z.of_nat (length (x :: xs))) `mod` cap) ->
  word_at m (off + Q_CAPACITY) cap -> word_at m (off + Q_ELEMENT_SIZE) esize ->
  (forall (i : nat) y, (x :: xs) !! i = Some y -> Z.of_nat (length y) = esize /\
     block_at m (slot off esize ((head + Z.of_nat i) `mod` cap)) y) ->
  mem_write m (Z.to_nat (off + Q_HEAD)) (le_bytes 8 ((head + 1) `mod` cap)) = Some m1 ->
  mem_write m1 (Z.to_nat (off + Q_COUNT)) (le_bytes 8 (Z.of_nat (length xs))) = Some m2 ->
  queue_repr off esize cap m2 xs /\ same_outside off esize cap m m2.
Proof.
  intros Hf Hhead Hn Wt Wc We Hslots E1 E2.
  pose proof Hf as [Hoff Hesz Hcp Hend Hsz]. simpl length in *.
  destruct (fits_bounds _ _ _ _ Hf) as [Hcb Heb].
  assert (0 <= (head + 1) `mod` cap < cap) as Hh' by (apply Z.mod_pos_bound; lia).
  assert (length m2 = length m) as Hl by
    (by rewrite (mem_write_length _ _ _ _ E2), (mem_write_length _ _ _ _ E1)).
  assert (forall k, ((head + 1) `mod` cap + k) `mod` cap = (head + (k + 1)) `mod` cap) as Hmod
    by (intros k; rewrite Z.add_mod_idemp_l by lia; f_equal; lia).
  split.
  - constructor; [by rewrite Hl|lia|].
    exists ((head + 1) `mod` cap). rewrite Hmod.
    replace (Z.of_nat (length xs) + 1) with (Z.of_nat (S (length xs))) by lia.
    split; [done|]. split; [through_writes|]. split; [through_writes|].
    split; [through_writes|]. split; [through_writes|]. split; [through_writes|].
    intros i y Hi. destruct (Hslots (S i) y Hi) as [Hy Hb]. split; [done|]. rewrite Hmod.
    replace (Z.of_nat i + 1) with (Z.of_nat (S i)) by lia.
    assert (0 <= (head + Z.of_nat (S i)) `mod` cap < cap) as Hj by (apply Z.mod_pos_bound; lia).
    pose proof (slot_range _ _ _ _ _ Hf Hj) as (Hj1 & Hj2 & _ & _).
    through_writes; geometry.
  - eapply same_outside_trans; (eapply same_outside_write; [done|eassumption| |]);
      pose proof (slot_range _ _ _ 0 _ Hf ltac:(lia)); geometry.
Qed.
End Refinement.

Section Operations.
Context `{Environment} (off esize cap : Z).
Implicit Types (xs : list (list byte)).
Local Abbreviation data := (off + sizeof_queue_header).

Lemma push_locked_refines item xs s :
  queue_repr off esize cap (segment s) xs -> esize <= Z.of_nat (length item) ->
  wp (push_locked off data item) (fun b s' =>
        let '(b', xs') := fifo_push cap (take (Z.to_nat esize) item) xs in
        b = b' /\ queue_repr off esize cap (segment s') xs' /\
        same_outside off esize cap (segment s) (segment s') /\ ipc_world s' = ipc_world s) s.
Proof.
  intros Hr Hitem. pose proof Hr as [Hf Hlen (head & Hhead & Hh & Ht & Hc & Hcap & Hes & Hslots)].
  pose proof Hf as [Hoff Hesz Hcp Hend Hsz]. destruct (fits_bounds _ _ _ _ Hf) as [Hcb Heb].
  set (n := Z.of_nat (length xs)) in *.
  assert (0 <= (head + n) `mod` cap < cap) as Htail by (apply Z.mod_pos_bound; lia).
  pose proof (slot_range _ _ _ _ _ Hf Htail) as (Hs1 & Hs2 & Hs3 & Hs4).
  unfold push_locked, fifo_push. fold n.
  apply wp_bind, (wp_load _ n); [done|]. apply wp_bind, (wp_load _ cap); [done|].
  destruct (cap <=? n) eqn:Efull.
  { apply wp_ret. rewrite (proj2 (Z.ltb_ge _ _)) by lia. done. }
  rewrite (proj2 (Z.ltb_lt _ _)) by lia.
  apply wp_bind, (wp_load _ ((head + n) `mod` cap)); [done|].
  apply wp_bind, (wp_load _ esize); [done|].
  apply wp_bind. eapply wp_from_option; [apply mem_read_Some; lia|].
  rewrite drop_0. set (x := take (Z.to_nat esize) item).
  assert (Z.of_nat (length x) = esize) as Hx by (unfold x; rewrite length_take; lia).
  rewrite (u64_small (_ * esize)) by lia.
  rewrite (u64_small (_ + 1)) by lia.
  fold (slot off esize ((head + n) `mod` cap)).
  apply wp_bind, wp_store_bytes; [geometry|lia|]. intros m1 E1.
  pose proof (mem_write_length _ _ _ _ E1) as L1.
  apply wp_bind, wp_store; [geometry|simpl; rewrite L1; geometry|]. intros m2 E2. cbn [segment set_segment] in E2.
  pose proof (mem_write_length _ _ _ _ E2) as L2.
  apply wp_bind, (wp_load _ n).
  { cbn [segment set_segment]. through_writes. }
  rewrite u64_small by lia.
  apply wp_bind, wp_store; [geometry|simpl; rewrite L2, L1; geometry|]. intros m3 E3. cbn [segment set_segment] in E3.
  apply wp_ret. split; [done|].
  destruct (repr_after_push off esize cap (segment s) m1 m2 m3 xs x head) as [Hr' Ho]; try done; try lia.
Qed.

Lemma pop_locked_refines xs s :
  queue_repr off esize cap (segment s) xs ->
  wp (pop_locked off data) (fun b s' =>
        let '(b', xs') := fifo_pop xs in
        b = b' /\ queue_repr off esize cap (segment s') xs' /\
        same_outside off esize cap (segment s) (segment s') /\ ipc_world s' = ipc_world s) s.
Proof.
  intros Hr. pose proof Hr as [Hf Hlen (head & Hhead & Hh & Ht & Hc & Hcap & Hes & Hslots)].
  pose proof Hf as [Hoff Hesz Hcp Hend Hsz]. destruct (fits_bounds _ _ _ _ Hf) as [Hcb Heb].
  unfold pop_locked, fifo_pop.
  apply wp_bind, (wp_load _ (Z.of_nat (length xs))); [done|].
  destruct xs as [|x xs].
  { apply wp_ret. done. }
  pose proof (slot_range _ _ _ _ _ Hf Hhead) as (Hs1 & Hs2 & Hs3 & Hs4).
  simpl length in *. rewrite (proj2 (Z.eqb_neq _ _)) by lia.
  apply wp_bind, (wp_load _ head); [done|]. apply wp_bind, (wp_load _ esize); [done|].
  rewrite (u64_small (_ * esize)) by lia.
  fold (slot off esize head).
  destruct (Hslots O x eq_refl) as [Hx Hb]. rewrite Z.add_0_r, (Z.mod_small head) in Hb by lia.
  apply wp_bind, (wp_load_bytes _ _ x); [done|done|].
  apply wp_bind, (wp_load _ cap); [done|]. rewrite (proj2 (Z.eqb_neq cap 0)) by lia.
  rewrite (u64_small (_ + 1)) by lia.
  apply wp_bind, wp_store; [geometry|geometry|]. intros m1 E1.
  pose proof (mem_write_length _ _ _ _ E1) as L1.
  apply wp_bind, (wp_load _ (Z.of_nat (S (length xs)))).
  { cbn [segment set_segment]. through_writes. }
  rewrite u64_small by lia.
  apply wp_bind, wp_store; [geometry|simpl; rewrite L1; geometry|]. intros m2 E2. cbn [segment set_segment] in E2.
  replace (Z.of_nat (S (length xs)) - 1) with (Z.of_nat (length xs)) in E2 by lia.
  apply wp_ret. split; [done|].
  destruct (repr_after_pop off esize cap (segment s) m1 m2 xs x head) as [Hr' Ho]; try done.
Qed.
End Operations.

(** A valid queue object over a represented region. *)
Record queue_object (q : SharedQueue) (off esize cap sem : Z) : Prop := {
  qo_header : header_ q = Some off;
  qo_data : data_ q = Some (off + sizeof_queue_header);
  qo_semaphore : semaphore_ q = Some sem;
}.

Definition sem_wait_ok `{Environment} (sem : Z) (w : world) : bool :=
  negb (ans_ret (respond w (sys_sem_wait sem)) =? -1).
Definition sem_post_ok `{Environment} (sem : Z) (w : world) : bool :=
  negb (ans_ret (respond w (sys_sem_post sem)) =? -1).

Section ObjectProofs.
Context `{Environment} (q : SharedQueue) (off esize cap sem : Z)
  (Hq : queue_object q off esize cap sem).
Implicit Types (xs : list (list byte)).

Definition after_wait (w : world) : world :=
  (sys_sem_wait sem, respond w (sys_sem_wait sem)) :: w.
Definition after_post (w : world) : world :=
  (sys_sem_post sem, respond w (sys_sem_post sem)) :: w.

(** The calls of an operation: the semaphore is taken and given back, each
    once, and a call that fails is reported. *)
Definition operation_calls (w w' : world) : Prop :=
  if sem_wait_ok sem w then
    if sem_post_ok sem (after_wait w) then w' = after_post (after_wait w)
    else diagnosed "sem_post() failed: %s" (after_post (after_wait w)) w'
  else diagnosed "sem_wait() failed: %s" (after_wait w) w'.

(** What a call of [push] does, stated with the abstract queue. *)
Definition push_outcome (item : list byte) xs (s : ipc_state) (b : bool) (s' : ipc_state) : Prop :=
  let w := ipc_world s in
  operation_calls w (ipc_world s') /\
  if sem_wait_ok sem w then
    let '(stored, xs') := fifo_push cap (take (Z.to_nat esize) item) xs in
    b = stored && sem_post_ok sem (after_wait w) /\
    queue_repr off esize cap (segment s') xs' /\
    same_outside off esize cap (segment s) (segment s')
  else b = false /\ segment s' = segment s.

Definition pop_outcome xs (s : ipc_state) (r : bool * option (list byte)) (s' : ipc_state) : Prop :=
  let w := ipc_world s in
  operation_calls w (ipc_world s') /\
  if sem_wait_ok sem w then
    let '(x, xs') := fifo_pop xs in
    r = (bool_decide (is_Some x) && sem_post_ok sem (after_wait w), x) /\
    queue_repr off esize cap (segment s') xs' /\
    same_outside off esize cap (segment s) (segment s')
  else r = (false, None) /\ segment s' = segment s.

Lemma unlock_spec w s : sem_wait_ok sem w = true -> ipc_world s = after_wait w ->
  wp (unlock sem) (fun b s' => b = sem_post_ok sem (after_wait w) /\ segment s' = segment s /\
    operation_calls w (ipc_world s')) s.
Proof.
  intros Hw E. unfold unlock, os, operation_calls, sem_post_ok. rewrite Hw.
  apply wp_bind, wp_zoom, wp_sysr. rewrite E. fold (after_post (after_wait w)).
  destruct (ans_ret _ =? -1); cbn [negb].
  - apply wp_bind, wp_zoom, wp_sys_, wp_ret. split_and!; [done|done|]. by eexists.
  - by apply wp_ret.
Qed.

Lemma wait_failed w s : sem_wait_ok sem w = false -> ipc_world s = after_wait w ->
  wp (log_error "sem_wait() failed: %s") (fun _ s' => segment s' = segment s /\
    operation_calls w (ipc_world s')) s.
Proof.
  intros Hw E. unfold operation_calls. rewrite Hw. apply wp_zoom, wp_sys_. rewrite E.
  split; [done|]. by eexists.
Qed.

Lemma push_correct item xs s :
  queue_repr off esize cap (segment s) xs -> esize <= Z.of_nat (length item) ->
  wp (push q (Some item)) (push_outcome item xs s) s.
Proof using Hq.
  destruct Hq as [Eh Ed Es]. intros Hr Hi. unfold push, push_outcome. rewrite Eh, Ed, Es.
  apply wp_bind, wp_zoom, wp_sysr. fold (after_wait (ipc_world s)).
  destruct (sem_wait_ok sem (ipc_world s)) eqn:Hw; pose proof Hw as Hw'; unfold sem_wait_ok in Hw'.
  - apply negb_true_iff in Hw'. rewrite Hw'. apply wp_bind. eapply wp_mono.
    { apply (push_locked_refines off esize cap item xs); [exact Hr|exact Hi]. }
    intros b s1. destruct (fifo_push _ _ _) as [b' xs']. intros (<- & Hr' & Ho & E). apply wp_bind.
    eapply wp_mono; [by apply unlock_spec|]. intros u s2 (-> & Em & Hc). apply wp_ret.
    by rewrite Em.
  - apply negb_false_iff in Hw'. rewrite Hw'. apply wp_bind.
    eapply wp_mono; [by apply wait_failed|]. intros u s2 [Em Hc]. by apply wp_ret.
Qed.

Lemma pop_correct xs s :
  queue_repr off esize cap (segment s) xs -> wp (pop q true) (pop_outcome xs s) s.
Proof using Hq.
  destruct Hq as [Eh Ed Es]. intros Hr. unfold pop, pop_outcome. rewrite Eh, Ed, Es.
  apply wp_bind, wp_zoom, wp_sysr. fold (after_wait (ipc_world s)).
  destruct (sem_wait_ok sem (ipc_world s)) eqn:Hw; pose proof Hw as Hw'; unfold sem_wait_ok in Hw'.
  - apply negb_true_iff in Hw'. rewrite Hw'. apply wp_bind. eapply wp_mono.
    { apply (pop_locked_refines off esize cap xs). exact Hr. }
    intros x s1. destruct (fifo_pop _) as [x' xs']. intros (<- & Hr' & Ho & E). apply wp_bind.
    eapply wp_mono; [by apply unlock_spec|]. intros u s2 (-> & Em & Hc). apply wp_ret.
    by rewrite Em.
  - apply negb_false_iff in Hw'. rewrite Hw'. apply wp_bind.
    eapply wp_mono; [by apply wait_failed|]. intros u s2 [Em Hc]. by apply wp_ret.
Qed.
End ObjectProofs.

(** ** Sequences of operations *)
Inductive queue_op := OpPush (item : list byte) | OpPop.

(** The observable result of an operation. *)
Inductive queue_result := Pushed (b : bool) | Popped (b : bool) (item : option (list byte)).

Definition run_queue_op `{Environment} (q : SharedQueue) (op : queue_op) : M ipc_state queue_result :=
  match op with
  | OpPush item => b ← push q (Some item); mret (Pushed b)
  | OpPop => r ← pop q true; mret (Popped r.1 r.2)
  end.

Fixpoint run_queue `{Environment} (q : SharedQueue) (ops : list queue_op)
    : M ipc_state (list queue_result) :=
  match ops with
  | [] => mret []
  | op :: ops' => r ← run_queue_op q op; rs ← run_queue q ops'; mret (r :: rs)
  end.

Definition fifo_op (cap esize : Z) (op : queue_op) (xs : list (list byte))
    : queue_result * list (list byte) :=
  match op with
  | OpPush item => let '(b, xs') := fifo_push cap (take (Z.to_nat esize) item) xs in (Pushed b, xs')
  | OpPop => let '(x, xs') := fifo_pop xs in (Popped (bool_decide (is_Some x)) x, xs')
  end.

Fixpoint fifo_run (cap esize : Z) (ops : list queue_op) (xs : list (list byte))
    : list queue_result * list (list byte) :=
  match ops with
  | [] => ([], xs)
  | op :: ops' =>
      let '(r, xs1) := fifo_op cap esize op xs in
      let '(rs, xs2) := fifo_run cap esize ops' xs1 in (r :: rs, xs2)
  end.

Definition item_large_enough (esize : Z) (op : queue_op) : Prop :=
  match op with OpPush item => esize <= Z.of_nat (length item) | OpPop => True end.

(** A semaphore whose calls never fail (they may still have to wait). *)
Definition semaphore_works (env : Environment) (sem : Z) : Prop :=
  forall w, sem_wait_ok sem w = true /\ sem_post_ok sem w = true.

Lemma run_queue_op_refines `{Environment} q off esize cap sem op xs s :
  queue_object q off esize cap sem -> semaphore_works _ sem ->
  queue_repr off esize cap (segment s) xs -> item_large_enough esize op ->
  wp (run_queue_op q op) (fun r s' =>
        let '(r', xs') := fifo_op cap esize op xs in
        r = r' /\ queue_repr off esize cap (segment s') xs' /\
        same_outside off esize cap (segment s) (segment s')) s.
Proof.
  intros Hq Hsem Hr Hi. destruct op as [item|]; simpl; apply wp_bind.
  - eapply wp_mono; [by eapply push_correct|]. intros b s'. unfold push_outcome. cbn zeta.
    destruct (Hsem (ipc_world s)) as [-> _]. destruct (fifo_push _ _ _) as [b' xs'].
    intros (_ & -> & Hr' & Ho). apply wp_ret.
    destruct (Hsem (after_wait sem (ipc_world s))) as [_ ->]. by rewrite andb_true_r.
  - eapply wp_mono; [by eapply pop_correct|]. intros r s'. unfold pop_outcome.
    destruct (Hsem (ipc_world s)) as [-> _]. destruct (fifo_pop _) as [x xs'].
    intros (_ & -> & Hr' & Ho). apply wp_ret.
    destruct (Hsem (after_wait sem (ipc_world s))) as [_ ->]. by rewrite andb_true_r.
Qed.

Lemma run_queue_refines `{Environment} (q : SharedQueue) (off esize cap sem : Z)
    (ops : list queue_op) (xs : list (list byte)) (s : ipc_state) :
  queue_object q off esize cap sem -> semaphore_works _ sem ->
  queue_repr off esize cap (segment s) xs -> Forall (item_large_enough esize) ops ->
  wp (run_queue q ops) (fun rs s' =>
        rs = (fifo_run cap esize ops xs).1 /\
        queue_repr off esize cap (segment s') (fifo_run cap esize ops xs).2 /\
        same_outside off esize cap (segment s) (segment s')) s.
Proof.
  intros Hq Hsem. revert xs s. induction ops as [|op ops IH]; intros xs s Hr Hops; simpl.
  - by apply wp_ret.
  - inversion_clear Hops as [|?? Hop Hops']. apply wp_bind.
    eapply wp_mono; [by eapply run_queue_op_refines|]. intros r s1.
    destruct (fifo_op _ _ _ _) as [r' xs1]. intros (-> & Hr1 & Ho1).
    apply wp_bind. eapply wp_mono; [by apply (IH xs1)|]. intros rs s2 (-> & Hr2 & Ho2).
    destruct (fifo_run cap esize ops xs1) as [rs' xs2].
    apply wp_ret. simpl. split; [done|]. split; [done|]. by eapply same_outside_trans.
Qed.

(** C8: refinement: for every sequence of pushes and pops, the ring buffer in
    shared memory returns exactly what a bounded FIFO returns (items in order,
    refusal when full or empty), never touches memory outside its region, and
    never leaves the segment. *)
Theorem queue_refines_fifo `{Environment} (q : SharedQueue) (off esize cap sem : Z)
    (ops : list queue_op) (xs : list (list byte)) (s : ipc_state) :
  queue_object q off esize cap sem -> semaphore_works _ sem ->
  queue_repr off esize cap (segment s) xs -> Forall (item_large_enough esize) ops ->
  wp (run_queue q ops) (fun rs s' =>
        rs = (fifo_run cap esize ops xs).1 /\
        queue_repr off esize cap (segment s') (fifo_run cap esize ops xs).2 /\
        same_outside off esize cap (segment s) (segment s')) s.
Proof. intros. by eapply run_queue_refines. Qed.

(** C26: one call of push or pop, whatever the semaphore does: if sem_wait
    fails, nothing changes; otherwise the contents change as in the abstract
    queue, and a failing sem_post turns the result into false although the item
    was stored or taken. *)
Theorem queue_calls_with_failures `{Environment} (q : SharedQueue) (off esize cap sem : Z)
    (item : list byte) (xs : list (list byte)) (s : ipc_state) :
  queue_object q off esize cap sem ->
  queue_repr off esize cap (segment s) xs -> esize <= Z.of_nat (length item) ->
  wp (push q (Some item)) (push_outcome off esize cap sem item xs s) s /\
  wp (pop q true) (pop_outcome off esize cap sem xs s) s.
Proof. intros. split; [by eapply push_correct|by eapply pop_correct]. Qed.

(** ** The two queues of the IPC segment *)
Lemma repr_frame lo hi off' esize' cap' m m' ys :
  queue_repr off' esize' cap' m ys -> same_except lo hi m m' ->
  hi <= off' \/ slot off' esize' cap' <= lo ->
  queue_repr off' esize' cap' m' ys.
Proof.
  intros [Hf Hlen (head & Hhead & Hh & Ht & Hc & Hcap & Hes & Hslots)] [Hl Hs] Hd.
  pose proof Hf as [Hoff Hesz Hcp Hend Hsz].
  pose proof (slot_range _ _ _ 0 _ Hf ltac:(lia)) as (Hz1 & Hz2 & Hz3 & _).
  assert (forall a v, off' <= a -> a + 8 <= off' + sizeof_queue_header ->
            word_at m a v -> word_at m' a v) as Hw.
  { intros a v Ha Hb [Hrd Hv]. split; [|done]. rewrite Hs; [done|]. geometry. }
  constructor; [by rewrite Hl|done|].
  exists head. split; [done|].
  do 5 (split; [apply Hw; [geometry|geometry|done]|]).
  intros i x Hi. destruct (Hslots i x Hi) as [Hx Hb]. split; [done|].
  assert (0 <= (head + Z.of_nat i) `mod` cap' < cap') as Hj by (apply Z.mod_pos_bound; lia).
  pose proof (slot_range _ _ _ _ _ Hf Hj) as (Hj1 & Hj2 & _ & _).
  unfold block_at. rewrite Hs; [done|]. geometry.
Qed.

(** The request queue holds [xs], the response queue [ys]. *)
Definition ipc_segment (m : list byte) (xs ys : list (list byte)) : Prop :=
  queue_repr TCP_TO_DATABASE_QUEUE_OFFSET sizeof_request TCP_TO_DATABASE_QUEUE_CAPACITY m xs /\
  queue_repr DATABASE_TO_TCP_QUEUE_OFFSET sizeof_response DATABASE_TO_TCP_QUEUE_CAPACITY m ys.

(** C29: the two queues of the segment are independent: any sequence of
    operations on the request queue leaves the response queue and the readiness
    flags as they were, and conversely. *)
Theorem ipc_queues_independent `{Environment} (q : SharedQueue) (sem : Z) (ops : list queue_op)
    (xs ys : list (list byte)) (s : ipc_state) :
  semaphore_works _ sem -> ipc_segment (segment s) xs ys ->
  let flags m := mem_read m 0 (Z.to_nat sizeof_ipc_header) in
  (queue_object q TCP_TO_DATABASE_QUEUE_OFFSET sizeof_request TCP_TO_DATABASE_QUEUE_CAPACITY sem ->
   Forall (item_large_enough sizeof_request) ops ->
   wp (run_queue q ops) (fun _ s' =>
     ipc_segment (segment s')
       (fifo_run TCP_TO_DATABASE_QUEUE_CAPACITY sizeof_request ops xs).2 ys /\
     flags (segment s') = flags (segment s)) s) /\
  (queue_object q DATABASE_TO_TCP_QUEUE_OFFSET sizeof_response DATABASE_TO_TCP_QUEUE_CAPACITY sem ->
   Forall (item_large_enough sizeof_response) ops ->
   wp (run_queue q ops) (fun _ s' =>
     ipc_segment (segment s')
       xs (fifo_run DATABASE_TO_TCP_QUEUE_CAPACITY sizeof_response ops ys).2 /\
     flags (segment s') = flags (segment s)) s).
Proof.
  intros Hsem [Hx Hy] flags. split; intros Hq Hops.
  - eapply wp_mono; [by eapply run_queue_refines|]. intros rs s' (_ & Hr & Ho).
    split; [split; [done|]|].
    + eapply repr_frame; [exact Hy|exact Ho|left; vm_compute; discriminate].
    + apply Ho. left. vm_compute. discriminate.
  - eapply wp_mono; [by eapply run_queue_refines|]. intros rs s' (_ & Hr & Ho).
    split; [split; [|done]|].
    + eapply repr_frame; [exact Hx|exact Ho|right; vm_compute; discriminate].
    + apply Ho. left. vm_compute. discriminate.
Qed.

(** ** Construction *)
(** ** The queues of the IPC segment, one call at a time *)
Section IpcCalls.
Context `{Environment} (q : SharedQueue) (sem : Z) (Hsem : semaphore_works _ sem).
Implicit Types (xs ys : list (list byte)).

Definition is_request_queue : Prop :=
  queue_object q TCP_TO_DATABASE_QUEUE_OFFSET sizeof_request TCP_TO_DATABASE_QUEUE_CAPACITY sem.
Definition is_response_queue : Prop :=
  queue_object q DATABASE_TO_TCP_QUEUE_OFFSET sizeof_response DATABASE_TO_TCP_QUEUE_CAPACITY sem.

Lemma push_works off esize cap item xs s :
  queue_object q off esize cap sem -> queue_repr off esize cap (segment s) xs ->
  esize <= Z.of_nat (length item) ->
  wp (push q (Some item)) (fun b s' =>
    b = (fifo_push cap (take (Z.to_nat esize) item) xs).1 /\
    queue_repr off esize cap (segment s') (fifo_push cap (take (Z.to_nat esize) item) xs).2 /\
    same_outside off esize cap (segment s) (segment s')) s.
Proof using Hsem.
  intros Hq Hr Hi. eapply wp_mono; [by eapply push_correct|]. intros b s'. unfold push_outcome.
  destruct (Hsem (ipc_world s)) as [-> _], (fifo_push _ _ _) as [b' xs'].
  intros (_ & -> & Hr' & Ho). destruct (Hsem (after_wait sem (ipc_world s))) as [_ ->].
  by rewrite andb_true_r.
Qed.

Lemma pop_works off esize cap xs s :
  queue_object q off esize cap sem -> queue_repr off esize cap (segment s) xs ->
  wp (pop q true) (fun r s' =>
    r = (bool_decide (is_Some (fifo_pop xs).1), (fifo_pop xs).1) /\
    queue_repr off esize cap (segment s') (fifo_pop xs).2 /\
    same_outside off esize cap (segment s) (segment s')) s.
Proof using Hsem.
  intros Hq Hr. eapply wp_mono; [by eapply pop_correct|]. intros r s'. unfold pop_outcome.
  destruct (Hsem (ipc_world s)) as [-> _], (fifo_pop _) as [x xs'].
  intros (_ & -> & Hr' & Ho). destruct (Hsem (after_wait sem (ipc_world s))) as [_ ->].
  by rewrite andb_true_r.
Qed.

Lemma ipc_frame_request m m' xs ys xs' : ipc_segment m xs ys ->
  queue_repr TCP_TO_DATABASE_QUEUE_OFFSET sizeof_request TCP_TO_DATABASE_QUEUE_CAPACITY m' xs' ->
  same_outside TCP_TO_DATABASE_QUEUE_OFFSET sizeof_request TCP_TO_DATABASE_QUEUE_CAPACITY m m' ->
  ipc_segment m' xs' ys.
Proof.
  intros [_ Hy] Hr Ho. split; [done|].
  eapply repr_frame; [exact Hy|exact Ho|left; vm_compute; discriminate].
Qed.

Lemma ipc_frame_response m m' xs ys ys' : ipc_segment m xs ys ->
  queue_repr DATABASE_TO_TCP_QUEUE_OFFSET sizeof_response DATABASE_TO_TCP_QUEUE_CAPACITY m' ys' ->
  same_outside DATABASE_TO_TCP_QUEUE_OFFSET sizeof_response DATABASE_TO_TCP_QUEUE_CAPACITY m m' ->
  ipc_segment m' xs ys'.
Proof.
  intros [Hx _] Hr Ho. split; [|done].
  eapply repr_frame; [exact Hx|exact Ho|right; vm_compute; discriminate].
Qed.

Lemma pop_request xs ys s : is_request_queue -> ipc_segment (segment s) xs ys ->
  wp (pop q true) (fun r s' =>
    r = (bool_decide (is_Some (fifo_pop xs).1), (fifo_pop xs).1) /\
    ipc_segment (segment s') (fifo_pop xs).2 ys) s.
Proof using Hsem.
  intros Hq Hs. eapply wp_mono; [eapply pop_works; [exact Hq|apply Hs]|].
  intros r s' (Hr & Hr' & Ho). split; [done|]. by eapply ipc_frame_request.
Qed.

Lemma pop_response xs ys s : is_response_queue -> ipc_segment (segment s) xs ys ->
  wp (pop q true) (fun r s' =>
    r = (bool_decide (is_Some (fifo_pop ys).1), (fifo_pop ys).1) /\
    ipc_segment (segment s') xs (fifo_pop ys).2) s.
Proof using Hsem.
  intros Hq Hs. eapply wp_mono; [eapply pop_works; [exact Hq|apply Hs]|].
  intros r s' (Hr & Hr' & Ho). split; [done|]. by eapply ipc_frame_response.
Qed.

Lemma push_request item xs ys s : is_request_queue -> ipc_segment (segment s) xs ys ->
  Z.of_nat (length item) = sizeof_request ->
  wp (push q (Some item)) (fun b s' =>
    b = (fifo_push TCP_TO_DATABASE_QUEUE_CAPACITY item xs).1 /\
    ipc_segment (segment s') (fifo_push TCP_TO_DATABASE_QUEUE_CAPACITY item xs).2 ys) s.
Proof using Hsem.
  intros Hq Hs Hi. eapply wp_mono; [eapply push_works; [exact Hq|apply Hs|by rewrite Hi]|].
  rewrite take_ge by (rewrite <- Hi; lia).
  intros r s' (Hr & Hr' & Ho). split; [done|]. by eapply ipc_frame_request.
Qed.

Lemma push_response item xs ys s : is_response_queue -> ipc_segment (segment s) xs ys ->
  Z.of_nat (length item) = sizeof_response ->
  wp (push q (Some item)) (fun b s' =>
    b = (fifo_push DATABASE_TO_TCP_QUEUE_CAPACITY item ys).1 /\
    ipc_segment (segment s') xs (fifo_push DATABASE_TO_TCP_QUEUE_CAPACITY item ys).2) s.
Proof using Hsem.
  intros Hq Hs Hi. eapply wp_mono; [eapply push_works; [exact Hq|apply Hs|by rewrite Hi]|].
  rewrite take_ge by (rewrite <- Hi; lia).
  intros r s' (Hr & Hr' & Ho). split; [done|]. by eapply ipc_frame_response.
Qed.
End IpcCalls.

Section Construction.
Context `{Environment} (shm : SharedMemory) (off esize cap : Z) (name : list byte).

Definition sem_of (w : world) : Z := ans_ret (respond w (sys_sem_open name)).

Lemma create_queue_spec s :
  data shm <> nullptr -> queue_fits off esize cap (length (segment s)) ->
  wp (new_SharedQueue (Some shm) off (Some name) esize cap true) (fun q s' =>
        if sem_of (ipc_world s) =? 0 then is_valid q = false /\ segment s' = segment s
        else queue_object q off esize cap (sem_of (ipc_world s)) /\ is_valid q = true /\
             queue_repr off esize cap (segment s') [] /\
             same_outside off esize cap (segment s) (segment s')) s.
Proof.
  intros Hd Hf. pose proof Hf as [Hoff Hesz Hcp Hend Hsz].
  destruct (fits_bounds _ _ _ _ Hf) as [Hcb Heb].
  pose proof (slot_range _ _ _ 0 _ Hf ltac:(lia)) as (Hz1 & Hz2 & Hz3 & _).
  unfold new_SharedQueue. rewrite !(proj2 (Z.eqb_neq _ _)) by (done || lia). cbn [orb].
  unfold os. do 2 wp_step. apply wp_sysr. fold (sem_of (ipc_world s)).
  destruct (sem_of (ipc_world s) =? 0); [by apply wp_ret|].
  assert (length (segment s) = length (segment s)) as L0 by done.
  apply wp_bind, wp_store; cbn [segment set_segment set_ipc_world]; [geometry|geometry|]; intros m1 E1.
  pose proof (mem_write_length _ _ _ _ E1) as L1.
  apply wp_bind, wp_store; cbn [segment set_segment set_ipc_world]; [geometry|geometry|]; intros m2 E2.
  pose proof (mem_write_length _ _ _ _ E2) as L2.
  apply wp_bind, wp_store; cbn [segment set_segment set_ipc_world]; [geometry|geometry|]; intros m3 E3.
  pose proof (mem_write_length _ _ _ _ E3) as L3.
  apply wp_bind, wp_store; cbn [segment set_segment set_ipc_world]; [geometry|geometry|]; intros m4 E4.
  pose proof (mem_write_length _ _ _ _ E4) as L4.
  apply wp_bind, wp_store; cbn [segment set_segment set_ipc_world]; [geometry|geometry|]; intros m5 E5.
  pose proof (mem_write_length _ _ _ _ E5) as L5.
  apply wp_ret. split; [done|]. split; [done|]. split.
  - constructor; cbn [segment set_segment]; [by rewrite L5, L4, L3, L2, L1|simpl; lia|].
    exists 0. change (0 + Z.of_nat (length (@nil (list byte)))) with 0. rewrite Z.mod_0_l by lia.
    split; [lia|].
    do 5 (split; [through_writes|]). intros i x Hi. done.
  - do 4 (eapply same_outside_trans; [eapply same_outside_write; [done|eassumption|geometry|geometry]|]).
    eapply same_outside_write; [done|eassumption|geometry|geometry].
Qed.

Lemma attach_queue_spec esize' cap' xs s :
  data shm <> nullptr -> 0 < esize -> 0 < cap ->
  queue_repr off esize' cap' (segment s) xs ->
  wp (new_SharedQueue (Some shm) off (Some name) esize cap false) (fun q s' =>
        segment s' = segment s /\
        let opened := (sys_sem_open name, respond (ipc_world s) (sys_sem_open name)) :: ipc_world s in
        if sem_of (ipc_world s) =? 0 then is_valid q = false
        else if (cap' =? cap) && (esize' =? esize)
        then queue_object q off esize cap (sem_of (ipc_world s)) /\ is_valid q = true /\
             ipc_world s' = opened
        else is_valid q = false /\ exists a w, diagnosed "SharedQueue configuration mismatch" opened w /\
             ipc_world s' = (sys_sem_close (sem_of (ipc_world s)), a) :: w) s.
Proof.
  intros Hd He Hc [Hf Hlen (head & Hhead & Wh & Wt & Wn & Wc & We & Hslots)].
  unfold new_SharedQueue. rewrite !(proj2 (Z.eqb_neq _ _)) by (done || lia). cbn [orb].
  unfold os. do 2 wp_step. apply wp_sysr. fold (sem_of (ipc_world s)).
  destruct (sem_of (ipc_world s) =? 0); [by apply wp_ret|].
  apply wp_bind, (wp_load _ cap'); [done|]. apply wp_bind, (wp_load _ esize'); [done|].
  destruct (cap' =? cap); simpl; [destruct (esize' =? esize); simpl|].
  - by apply wp_ret.
  - apply wp_bind, wp_zoom, wp_sys_, wp_bind, wp_zoom, wp_sys_, wp_ret. unfold diagnosed. eauto 10.
  - apply wp_bind, wp_zoom, wp_sys_, wp_bind, wp_zoom, wp_sys_, wp_ret. unfold diagnosed. eauto 10.
Qed.
End Construction.

Lemma delete_queue_frame `{Environment} q s :
  wp (delete_SharedQueue q) (fun _ s' => segment s' = segment s) s.
Proof.
  unfold delete_SharedQueue. destruct (semaphore_ q); [|done]. by apply wp_zoom, wp_sys_.
Qed.

(** Where the two queues lie in the segment. *)
Lemma request_region n : n = Z.to_nat IPC_SHARED_MEMORY_SIZE ->
  queue_fits TCP_TO_DATABASE_QUEUE_OFFSET sizeof_request TCP_TO_DATABASE_QUEUE_CAPACITY n.
Proof. intros ->. constructor; vm_compute; congruence. Qed.

Lemma response_region n : n = Z.to_nat IPC_SHARED_MEMORY_SIZE ->
  queue_fits DATABASE_TO_TCP_QUEUE_OFFSET sizeof_response DATABASE_TO_TCP_QUEUE_CAPACITY n.
Proof. intros ->. constructor; vm_compute; congruence. Qed.

(** Creating a queue in a region large enough gives a valid object over an
    empty queue and changes nothing outside the region; a process that attaches
    to a queue leaves the memory alone and obtains a valid object exactly when
    its capacity and element size are those of the creator, and otherwise closes
    the semaphore it opened. *)
Theorem queue_create_attach `{Environment} (shm : SharedMemory) (off esize cap esize' cap' : Z)
    (name : list byte) (xs : list (list byte)) (s : ipc_state) :
  data shm <> nullptr -> 0 < esize -> 0 < cap -> sem_of name (ipc_world s) <> 0 ->
  (queue_fits off esize cap (length (segment s)) ->
   wp (new_SharedQueue (Some shm) off (Some name) esize cap true) (fun q s' =>
        queue_object q off esize cap (sem_of name (ipc_world s)) /\ is_valid q = true /\
        queue_repr off esize cap (segment s') [] /\
        same_outside off esize cap (segment s) (segment s')) s) /\
  (queue_repr off esize' cap' (segment s) xs ->
   wp (new_SharedQueue (Some shm) off (Some name) esize cap false) (fun q s' =>
        segment s' = segment s /\
        (is_valid q = true <-> cap' = cap /\ esize' = esize) /\
        (is_valid q = true -> queue_object q off esize cap (sem_of name (ipc_world s))) /\
        (is_valid q = false -> exists a w, ipc_world s' = (sys_sem_close (sem_of name (ipc_world s)), a) :: w)) s).
Proof.
  intros Hd He Hc Hsem. apply Z.eqb_neq in Hsem. split; intros Hr.
  - eapply wp_mono; [by apply create_queue_spec|]. intros q s'. by rewrite Hsem.
  - eapply wp_mono; [by eapply attach_queue_spec|]. intros q s' [Hm Hcases]. split; [done|].
    cbn zeta in Hcases. rewrite Hsem in Hcases.
    destruct ((cap' =? cap) && (esize' =? esize)) eqn:E.
    + destruct Hcases as (Hq & Hv & _). apply andb_prop in E as [E1%Z.eqb_eq E2%Z.eqb_eq].
      rewrite Hv. by split_and!.
    + destruct Hcases as (Hv & a & w & _ & Hw). apply andb_false_iff in E.
      rewrite Hv. split; [split; [done|]|split; [done|by eauto]].
      intros [-> ->]. rewrite !Z.eqb_refl in E. by destruct E.
Qed.

(** The system calls of [push] and [pop] on queues of the segment. *)
Lemma request_queue_calls `{Environment} q sem xs ys item s :
  is_request_queue q sem -> ipc_segment (segment s) xs ys -> Z.of_nat (length item) = sizeof_request ->
  wp (push q (Some item)) (fun _ s' => operation_calls sem (ipc_world s) (ipc_world s')) s.
Proof.
  intros Hq [Hr _] Hi. eapply wp_mono; [eapply push_correct; [exact Hq|exact Hr|lia]|]. by intros b s' [Hc _].
Qed.

Lemma response_queue_calls `{Environment} q sem xs ys s :
  is_response_queue q sem -> ipc_segment (segment s) xs ys ->
  wp (pop q true) (fun _ s' => operation_calls sem (ipc_world s) (ipc_world s')) s.
Proof.
  intros Hq [_ Hr]. eapply wp_mono; [eapply pop_correct; [exact Hq|exact Hr]|]. by intros b s' [Hc _].
Qed.

Lemma ipc_item_length m xs y ys : ipc_segment m xs (y :: ys) -> Z.of_nat (length y) = sizeof_response.
Proof. intros [_ [_ _ (head & _ & _ & _ & _ & _ & _ & Hslots)]]. by apply (Hslots 0%nat y). Qed.

(** ** Concrete instances *)
Definition empty_segment : ipc_state := IpcState (replicate 4184 Byte.x00) [].
Definition mapped_segment : SharedMemory := SharedMemoryObj 0x1234 4184 7 4096.

Definition request_queue_object : SharedQueue :=
  SharedQueueObj 8 (Some 8) (Some 48) (Some 3) 64 32.
Definition response_queue_object : SharedQueue :=
  SharedQueueObj 2096 (Some 2096) (Some 2136) (Some 3) 64 32.

(** Semaphores are opened with handle 3 and never fail. *)
Definition sem_env : Environment := fun _ c =>
  match c with sys_sem_open _ => ok 3 | _ => ok 0 end.

Lemma sem_env_works : semaphore_works sem_env 3.
Proof. intros w. by split. Qed.

(** The segment after both queues were created. *)
Definition created_segment : list byte :=
  let build :=
    @new_SharedQueue sem_env (Some mapped_segment) TCP_TO_DATABASE_QUEUE_OFFSET
      (Some TCP_TO_DATABASE_SEMAPHORE_NAME) sizeof_request TCP_TO_DATABASE_QUEUE_CAPACITY true;;
    @new_SharedQueue sem_env (Some mapped_segment) DATABASE_TO_TCP_QUEUE_OFFSET
      (Some DATABASE_TO_TCP_SEMAPHORE_NAME) sizeof_response DATABASE_TO_TCP_QUEUE_CAPACITY true in
  match build empty_segment with Ret (_, s) => segment s | _ => [] end.

Lemma created_segment_repr : ipc_segment created_segment [] [].
Proof.
  split.
  - constructor; [constructor; vm_compute; congruence|vm_compute; discriminate|].
    exists 0. split; [done|]. repeat split; try (vm_compute; congruence); done.
  - constructor; [constructor; vm_compute; congruence|vm_compute; discriminate|].
    exists 0. split; [done|]. repeat split; try (vm_compute; congruence); done.
Qed.

(** A queue of two two-byte items at offset 4 of a segment of 52 bytes. *)
Definition small_queue : SharedQueue := SharedQueueObj 4 (Some 4) (Some 44) (Some 3) 2 2.
Definition small_segment : ipc_state :=
  IpcState (replicate 4 Byte.xff ++ le_bytes 8 0 ++ le_bytes 8 0 ++ le_bytes 8 0 ++
            le_bytes 8 2 ++ le_bytes 8 2 ++ replicate 8 Byte.xff) [].

Lemma small_segment_repr : queue_repr 4 2 2 (segment small_segment) [].
Proof.
  constructor; [constructor; vm_compute; congruence|vm_compute; discriminate|].
  exists 0. split; [done|]. repeat split; try (vm_compute; congruence); done.
Qed.

Lemma queue_refines_fifo_witness :
  let a := [Byte.x01; Byte.x02] in
  let b := [Byte.x03; Byte.x04] in
  let c := [Byte.x05; Byte.x06] in
  wp (@run_queue sem_env small_queue
        [OpPush a; OpPush b; OpPush c; OpPop; OpPush c; OpPop; OpPop; OpPop]) (fun rs _ =>
     rs = [Pushed true; Pushed true; Pushed false; Popped true (Some a);
           Pushed true; Popped true (Some b); Popped true (Some c); Popped false None])
     small_segment.
Proof.
  intros a b c. eapply wp_mono.
  - apply (@queue_refines_fifo sem_env small_queue 4 2 2 3
             [OpPush a; OpPush b; OpPush c; OpPop; OpPush c; OpPop; OpPop; OpPop] [] small_segment).
    + by constructor.
    + exact sem_env_works.
    + exact small_segment_repr.
    + repeat constructor; vm_compute; discriminate.
  - intros rs s' (-> & _). vm_compute. reflexivity.
Defined.

(** A semaphore whose [sem_wait] fails. *)
Definition failing_sem_env : Environment := fun _ c =>
  match c with sys_sem_wait _ => failed EINTR | _ => ok 0 end.

Lemma queue_calls_with_failures_witness :
  wp (@push failing_sem_env small_queue (Some [Byte.x01; Byte.x02]))
     (@push_outcome failing_sem_env 4 2 2 3 [Byte.x01; Byte.x02] [] small_segment) small_segment.
Proof.
  apply (@queue_calls_with_failures failing_sem_env small_queue 4 2 2 3
           [Byte.x01; Byte.x02] [] small_segment).
  - by constructor.
  - exact small_segment_repr.
  - vm_compute. discriminate.
Defined.

#[local] Opaque created_segment.

Lemma ipc_queues_independent_witness :
  wp (@run_queue sem_env request_queue_object [OpPush (encode_request sample_request)])
     (fun _ s' => ipc_segment (segment s') [encode_request sample_request] [] /\
        mem_read (segment s') 0 (Z.to_nat sizeof_ipc_header) =
        mem_read created_segment 0 (Z.to_nat sizeof_ipc_header)) (IpcState created_segment []).
Proof.
  apply (proj1 (@ipc_queues_independent sem_env request_queue_object 3
           [OpPush (encode_request sample_request)] [] [] (IpcState created_segment [])
           sem_env_works created_segment_repr)).
  - by constructor.
  - repeat constructor. vm_compute. discriminate.
Defined.

Lemma queue_create_attach_witness :
  wp (@new_SharedQueue sem_env (Some mapped_segment) TCP_TO_DATABASE_QUEUE_OFFSET (Some TCP_TO_DATABASE_SEMAPHORE_NAME)
        sizeof_request TCP_TO_DATABASE_QUEUE_CAPACITY true)
     (fun q s' => queue_object q TCP_TO_DATABASE_QUEUE_OFFSET sizeof_request TCP_TO_DATABASE_QUEUE_CAPACITY 3 /\ is_valid q = true /\
        queue_repr TCP_TO_DATABASE_QUEUE_OFFSET sizeof_request TCP_TO_DATABASE_QUEUE_CAPACITY (segment s') [] /\ same_outside TCP_TO_DATABASE_QUEUE_OFFSET sizeof_request TCP_TO_DATABASE_QUEUE_CAPACITY (segment empty_segment) (segment s'))
     empty_segment.
Proof.
  apply (proj1 (@queue_create_attach sem_env mapped_segment TCP_TO_DATABASE_QUEUE_OFFSET sizeof_request TCP_TO_DATABASE_QUEUE_CAPACITY sizeof_request TCP_TO_DATABASE_QUEUE_CAPACITY
           TCP_TO_DATABASE_SEMAPHORE_NAME [] empty_segment
           ltac:(vm_compute; discriminate) ltac:(vm_compute; reflexivity) ltac:(vm_compute; reflexivity) ltac:(vm_compute; discriminate))).
  constructor; vm_compute; congruence.
Defined.
