(* ===== verification/Resources.v ===== *)
(** Resources: what a process obtains from the operating system and has to give
    back, as an account over the history of its calls. *)

From stdpp Require Import gmultiset.
From S2P Require Import Prelude Machine CLib Posix IpcProtocol SharedMemory SharedQueue.

(** ** The account *)
#[local] Arguments gmultiset_disj_union : simpl never.
#[local] Arguments gmultiset_difference : simpl never.
#[local] Arguments gmultiset_singleton : simpl never.

Inductive resource :=
| Segment (id : Z)
| Mapping
| Semaphore (sem : Z)
| Mutex (m : mutex)
| Condition
| Worker (t : thread)
| BlockedSignal.

#[export] Instance resource_eq_dec : EqDecision resource.
Proof. solve_decision. Defined.

Definition mutex_code (m : mutex) : Z :=
  match m with log_mutex => 0 | request_queue_mutex => 1 | clients_mutex => 2 end.
Definition thread_code (t : thread) : Z :=
  match t with
  | request_reader => 0 | response_writer => 1 | request_writer => 2 | response_reader => 3 | tcp_server => 4
  end.
Definition resource_code (r : resource) : Z * Z :=
  match r with
  | Segment i => (6, i) | Mapping => (0, 0) | Semaphore s => (1, s) | Mutex m => (2, mutex_code m) | Condition => (3, 0)
  | Worker t => (4, thread_code t) | BlockedSignal => (5, 0)
  end.
Definition resource_decode (c : Z * Z) : option resource :=
  match c with
  | (6, i) => Some (Segment i)
  | (0, _) => Some Mapping
  | (1, s) => Some (Semaphore s)
  | (2, 0) => Some (Mutex log_mutex) | (2, 1) => Some (Mutex request_queue_mutex)
  | (2, 2) => Some (Mutex clients_mutex)
  | (3, _) => Some Condition
  | (4, 0) => Some (Worker request_reader) | (4, 1) => Some (Worker response_writer)
  | (4, 2) => Some (Worker request_writer) | (4, 3) => Some (Worker response_reader)
  | (4, 4) => Some (Worker tcp_server)
  | (5, _) => Some BlockedSignal
  | _ => None
  end.
#[export] Program Instance resource_countable : Countable resource :=
  inj_countable resource_code resource_decode _.
Next Obligation. by intros [| | |[]| |[]|]. Qed.

(** What a call obtains or gives back.  [None]: it gives back what the process
    does not hold.  A segment belongs to the process that created it. *)
Definition obtain (r : resource) (own : gmultiset resource) : option (gmultiset resource) :=
  Some ({[+ r +]} ⊎ own).
Definition give_back (r : resource) (own : gmultiset resource) : option (gmultiset resource) :=
  if decide (r ∈ own) then Some (own ∖ {[+ r +]}) else None.

Definition account (c : syscall) (a : answer) (own : gmultiset resource) : option (gmultiset resource) :=
  match c with
  | sys_shmat _ => if ans_ret a =? -1 then Some own else obtain Mapping own
  | sys_shmdt _ => if ans_ret a =? -1 then Some own else give_back Mapping own
  | sys_shmget _ _ create _ =>
      if create then if ans_ret a =? -1 then Some own else obtain (Segment (ans_ret a)) own else Some own
  | sys_shm_rmid i => if ans_ret a =? -1 then Some own else give_back (Segment i) own
  | sys_sem_open _ => if ans_ret a =? 0 then Some own else obtain (Semaphore (ans_ret a)) own
  | sys_sem_close sem => give_back (Semaphore sem) own
  | sys_mutex_init m => if ans_ret a =? 0 then obtain (Mutex m) own else Some own
  | sys_mutex_destroy m => if ans_ret a =? 0 then give_back (Mutex m) own else Some own
  | sys_cond_init _ => if ans_ret a =? 0 then obtain Condition own else Some own
  | sys_cond_destroy _ => if ans_ret a =? 0 then give_back Condition own else Some own
  | sys_thread_create t => if ans_ret a =? 0 then obtain (Worker t) own else Some own
  | sys_thread_join t => give_back (Worker t) own
  | sys_sigmask SIG_BLOCK => if ans_ret a =? 0 then obtain BlockedSignal own else Some own
  | sys_sigmask SIG_SETMASK => give_back BlockedSignal own
  | _ => Some own
  end.

Fixpoint owned (w : world) : option (gmultiset resource) :=
  match w with
  | [] => Some ∅
  | (c, a) :: w => own ← owned w; account c a own
  end.


(** ** What the objects of the libraries hold *)

(** The semaphore a queue object holds. *)
Definition queue_semaphore (q : option SharedQueue) : gmultiset resource :=
  match q with
  | Some q => match semaphore_ q with Some sem => {[+ Semaphore sem +]} | None => ∅ end
  | None => ∅
  end.


(** A mapping, and the segment that the object knows the identifier of. *)
Definition memory_holdings (o : option SharedMemory) : gmultiset resource :=
  match o with
  | Some o => (if is_attached o then {[+ Mapping +]} else ∅) ⊎
              (if shm_id_ o =? -1 then ∅ else {[+ Segment (shm_id_ o) +]})
  | None => ∅
  end.

(** From [w] to [w'] the process has given back [r], and obtained nothing that
    it keeps. *)
Definition released (r : gmultiset resource) (w w' : world) : Prop :=
  forall own, owned w = Some (r ⊎ own) -> owned w' = Some own.

(** From [w] to [w'] the process has obtained [r] and keeps it. *)
Definition obtained (r : gmultiset resource) (w w' : world) : Prop :=
  forall own, owned w = Some own -> owned w' = Some (r ⊎ own).

Lemma released_refl w : released ∅ w w.
Proof. intros own ->. f_equal. multiset_solver. Qed.

Lemma released_trans r1 r2 w1 w2 w3 : released r1 w1 w2 -> released r2 w2 w3 -> released (r1 ⊎ r2) w1 w3.
Proof. intros H1 H2 own E. apply H2, H1. by rewrite E, (assoc_L (⊎)). Qed.

Lemma released_nothing w1 w2 w3 r : released r w1 w2 -> released ∅ w2 w3 -> released r w1 w3.
Proof. intros H1 H2 own E. apply H2. rewrite (H1 own E). f_equal. multiset_solver. Qed.

Lemma released_call r c a w :
  (forall own, account c a (r ⊎ own) = Some own) -> released r w ((c, a) :: w).
Proof. intros Hc own E. cbn [owned]. rewrite E. apply Hc. Qed.

Lemma released_log l f a w : released ∅ w ((sys_log l f, a) :: w).
Proof. apply released_call. intros own. cbn. f_equal. multiset_solver. Qed.

Lemma obtained_trans r1 r2 w1 w2 w3 : obtained r1 w1 w2 -> obtained r2 w2 w3 -> obtained (r2 ⊎ r1) w1 w3.
Proof. intros H1 H2 own E. rewrite (H2 _ (H1 _ E)). by rewrite (assoc_L (⊎)). Qed.

Lemma obtained_nothing w1 w2 : obtained ∅ w1 w2 <-> released ∅ w1 w2.
Proof.
  split; intros Hw own E.
  - replace (∅ ⊎ own) with own in E by multiset_solver. rewrite (Hw _ E). f_equal. multiset_solver.
  - replace (∅ ⊎ own) with own by multiset_solver. apply Hw. rewrite E. f_equal. multiset_solver.
Qed.

Lemma give_back_head r own : give_back r ({[+ r +]} ⊎ own) = Some own.
Proof. unfold give_back. rewrite decide_True by multiset_solver. f_equal. multiset_solver. Qed.

(** [o] has become [o'], and what it no longer holds was given back. *)
Definition memory_released (o o' : SharedMemory) (w w' : world) : Prop := exists r,
  memory_holdings (Some o) = r ⊎ memory_holdings (Some o') /\ released r w w'.

Section Libraries.
Context `{Environment}.
Implicit Types (w : world) (i : ipc_state).

Lemma create_accounted key size w : shmat_not_null _ ->
  wp (create (new_SharedMemory key size)) (fun r w' =>
    is_attached r.2 = r.1 /\ obtained (memory_holdings (Some r.2)) w w') w.
Proof.
  intros Hnn. unfold create. change (is_attached (new_SharedMemory key size)) with false. cbv iota. unfold new_SharedMemory.
  apply wp_bind, wp_sysr. cbn [key_ size_ set_shm_id shm_id_]. set (w1 := _ :: w).
  set (a := respond w (sys_shmget key size true true)) in *.
  destruct (ans_ret a =? -1) eqn:Ei.
  { apply wp_bind, wp_sys_, wp_ret. split; [done|]. intros own E. cbn. rewrite E. cbn. rewrite Ei. cbn.
    f_equal. multiset_solver. }
  assert (obtained {[+ Segment (ans_ret a) +]} w w1) as H1 by (intros own E; cbn; rewrite E; cbn; by rewrite Ei).
  apply wp_bind, wp_sysr. pose proof (Hnn w1 (ans_ret a)) as Hb. set (b := respond w1 _) in *. cbn [set_addr addr_].
  destruct (ans_ret b =? -1) eqn:Em.
  - apply wp_bind, wp_sys_, wp_ret. split; [done|]. intros own E. specialize (H1 own E).
    cbn [owned]. rewrite H1. cbn [mbind option_bind account]. rewrite Em. cbn. rewrite Ei. f_equal. multiset_solver.
  - apply wp_ret. unfold is_attached. cbn. rewrite (proj2 (Z.eqb_neq _ _) Hb). split; [done|]. intros own E.
    specialize (H1 own E). cbn [owned]. rewrite H1. cbn. rewrite Em. cbn. unfold is_attached. cbn.
    rewrite (proj2 (Z.eqb_neq _ _) Hb), Ei. cbn. unfold obtain. f_equal. multiset_solver.
Qed.

Lemma detach_accounted o w :
  wp (detach o) (fun r w' => (r.1 = true -> is_attached r.2 = false) /\ shm_id_ r.2 = shm_id_ o /\
    memory_released o r.2 w w') w.
Proof.
  unfold detach, is_attached. destruct (addr_ o =? nullptr) eqn:Ea.
  { apply wp_ret. cbn. rewrite Ea. split; [done|]. split; [done|]. exists ∅. split; [multiset_solver|apply released_refl]. }
  apply wp_bind, wp_sysr. set (a := respond _ _). destruct (ans_ret a =? -1) eqn:Er.
  - apply wp_bind, wp_sys_, wp_ret. split; [done|]. split; [done|]. exists ∅. split; [multiset_solver|].
    eapply released_nothing; [|apply released_log]. apply released_call. intros own. unfold account. rewrite Er. f_equal. multiset_solver.
  - apply wp_ret. split; [done|]. split; [done|]. exists {[+ Mapping +]}. split.
    + cbn. unfold is_attached. rewrite Ea. cbn. multiset_solver.
    + apply released_call. intros own. unfold account. rewrite Er. apply give_back_head.
Qed.

Lemma delete_unattached o w : is_attached o = false -> wp (delete_SharedMemory o) (fun _ w' => w' = w) w.
Proof.
  unfold is_attached, delete_SharedMemory, detach. intros ->%negb_false_iff. by apply wp_bind, wp_ret, wp_ret.
Qed.

Lemma attached_count_accounted o w : wp (attached_count o) (fun _ w' => released ∅ w w') w.
Proof.
  unfold attached_count. destruct (shm_id_ o =? -1).
  - apply wp_bind, wp_sys_, wp_ret, released_log.
  - apply wp_bind, wp_sys. assert (released ∅ w ((sys_shm_stat (shm_id_ o), respond w (sys_shm_stat (shm_id_ o))) :: w)) as R
      by (apply released_call; intros own; unfold account; f_equal; multiset_solver).
    destruct (_ =? -1); [apply wp_bind, wp_sys_, wp_ret; by eapply released_nothing, released_log|by apply wp_ret].
Qed.

Lemma remove_accounted o w :
  wp (remove o) (fun r w' => (r.1 = true -> shm_id_ r.2 = -1) /\ addr_ r.2 = addr_ o /\ memory_released o r.2 w w') w.
Proof.
  assert (forall w', released ∅ w w' -> memory_released o o w w') as Hsame
    by (intros w' Hw; exists ∅; split; [multiset_solver|done]).
  unfold remove. destruct (shm_id_ o =? -1) eqn:Ei.
  { apply wp_bind, wp_sys_, wp_ret. split; [done|]. split; [done|]. apply Hsame, released_log. }
  apply wp_bind. eapply wp_mono; [apply attached_count_accounted|]. intros count w1 R1.
  destruct (count <? 0); [by apply wp_ret; split; [done|]; split; [done|]; apply Hsame|]. destruct (1 <? count).
  { apply wp_bind, wp_sys_, wp_ret. split; [done|]. split; [done|]. by eapply Hsame, released_nothing, released_log. }
  apply wp_bind, wp_sysr. set (a := respond _ _). destruct (ans_ret a =? -1) eqn:Er.
  - apply wp_bind, wp_sys_, wp_ret. split; [done|]. split; [done|]. eapply Hsame, released_nothing; [|apply released_log].
    eapply released_nothing; [exact R1|]. apply released_call. intros own. unfold account. rewrite Er. f_equal. multiset_solver.
  - apply wp_ret. split; [done|]. split; [done|]. exists {[+ Segment (shm_id_ o) +]}. split.
    + cbn. rewrite Ei. unfold is_attached. cbn. multiset_solver.
    + replace {[+ Segment (shm_id_ o) +]} with (∅ ⊎ {[+ Segment (shm_id_ o) +]} : gmultiset resource) by multiset_solver.
      eapply released_trans; [exact R1|]. apply released_call. intros own. unfold account. rewrite Er. apply give_back_head.
Qed.

(** The bytes of the segment are not on the account. *)
Lemma wlp_then_store {A} a v (m : M ipc_state A) (Q : A -> ipc_state -> Prop) i :
  (forall i', ipc_world i' = ipc_world i -> wlp m Q i') -> wlp (store a v;; m) Q i.
Proof.
  intros Hm. unfold store, store_bytes. unfold wlp, gets, mbind, M_bind, from_option_undef.
  destruct (mem_write (segment i) _ _) as [m'|]; [by apply (Hm (set_segment m' i))|done].
Qed.

Lemma new_queue_accounted shm off name esize cap i :
  wlp (new_SharedQueue shm off name esize cap true) (fun q i' =>
    obtained (queue_semaphore (Some q)) (ipc_world i) (ipc_world i')) i.
Proof.
  assert (forall l f w, released ∅ (ipc_world i) w -> obtained ∅ (ipc_world i) ((sys_log l f, respond w (sys_log l f)) :: w)) as Hlog
    by (intros; by apply obtained_nothing; eapply released_nothing, released_log).
  unfold new_SharedQueue. destruct shm as [shm|]; [|apply Hlog, released_refl].
  destruct name as [name|]; [|apply Hlog, released_refl]. destruct (_ || _); [apply Hlog, released_refl|].
  apply wlp_bind. unfold os, zoom, sysr, sys. unfold wlp at 1, mbind at 1, M_bind at 1. cbn.
  set (a := respond _ _). destruct (ans_ret a =? 0) eqn:Ea.
  - apply Hlog, released_call. intros own. unfold account. rewrite Ea. f_equal. multiset_solver.
  - do 5 (apply wlp_then_store; intros ? ?). apply wlp_ret. intros own E.
    repeat match goal with Hi : ipc_world _ = _ |- _ => rewrite Hi; clear Hi end. cbn. rewrite E. cbn. by rewrite Ea.
Qed.

Lemma delete_queue_accounted q i :
  wp (delete_SharedQueue q) (fun _ i' => segment i' = segment i /\
    released (queue_semaphore (Some q)) (ipc_world i) (ipc_world i')) i.
Proof.
  unfold delete_SharedQueue. cbn [queue_semaphore]. destruct (semaphore_ q) as [sem|].
  - apply wp_zoom, wp_sys_. split; [done|]. apply released_call. intros own. apply give_back_head.
  - apply wp_ret. split; [done|apply released_refl].
Qed.
End Libraries.
