(* ===== verification/Sqlite.v ===== *)
(** The interface between the sources and the SQLite library: the tables of
    the schema, the SQL texts the sources send, the calls they make
    ([Sqlite]) and the documented behaviour they rely on ([SqliteLaws]).
    SQLite itself is not part of the repository: every definition that uses
    it takes it as a parameter. *)

From S2P Require Import Prelude Machine CLib Ieee.

(** ** The schema *)
Record parking_city := City {
  city_name : list byte;
  min_latitude : double;
  max_latitude : double;
  min_longitude : double;
  max_longitude : double;
  price_per_minute : double;
}.

Record parking_session := Session {
  s_vehicle_number : list byte;
  s_latitude : double;
  s_longitude : double;
  s_city_id : Z;
  s_price_per_minute : double;
  s_start_time : Z;
  s_end_time : option Z;
  s_cost : option double;
}.

(** The two tables, by primary key. *)
Record tables := Tables {
  cities : gmap Z parking_city;
  sessions : gmap Z parking_session;
}.

Definition set_cities (c : gmap Z parking_city) (t : tables) := Tables c (sessions t).
Definition set_sessions (s : gmap Z parking_session) (t : tables) := Tables (cities t) s.
Definition set_price (p : double) (c : parking_city) : parking_city :=
  City (city_name c) (min_latitude c) (max_latitude c) (min_longitude c) (max_longitude c) p.
Definition close_session (e : option Z) (cost : option double) (s : parking_session) : parking_session :=
  Session (s_vehicle_number s) (s_latitude s) (s_longitude s) (s_city_id s)
    (s_price_per_minute s) (s_start_time s) e cost.

(** ** The SQL texts *)
Section Texts.
Local Open Scope string_scope.

Definition initialize_sql : string :=
  "BEGIN TRANSACTION;" ++
  "DROP TABLE IF EXISTS parking_sessions;" ++
  "DROP TABLE IF EXISTS parking_cities;" ++
  "CREATE TABLE parking_cities (" ++
  "    id INTEGER PRIMARY KEY," ++
  "    city TEXT NOT NULL UNIQUE," ++
  "    min_latitude REAL NOT NULL," ++
  "    max_latitude REAL NOT NULL," ++
  "    min_longitude REAL NOT NULL," ++
  "    max_longitude REAL NOT NULL," ++
  "    price_per_minute REAL NOT NULL CHECK (price_per_minute >= 0)," ++
  "    CHECK (min_latitude < max_latitude)," ++
  "    CHECK (min_longitude < max_longitude)" ++
  ");" ++
  "CREATE TABLE parking_sessions (" ++
  "    id INTEGER PRIMARY KEY," ++
  "    vehicle_number TEXT NOT NULL," ++
  "    latitude REAL NOT NULL," ++
  "    longitude REAL NOT NULL," ++
  "    city_id INTEGER NOT NULL," ++
  "    price_per_minute REAL NOT NULL," ++
  "    start_time INTEGER NOT NULL," ++
  "    end_time INTEGER," ++
  "    cost REAL" ++
  ");" ++
  "INSERT INTO parking_cities " ++
  "(city, min_latitude, max_latitude, " ++
  "min_longitude, max_longitude, price_per_minute) " ++
  "VALUES " ++
  "('Tel Aviv', 10.0, 19.9, 10.0, 19.9, 0.50)," ++
  "('Haifa', 20.0, 29.9, 20.0, 29.9, 0.40)," ++
  "('Jerusalem', 30.0, 39.9, 30.0, 39.9, 0.60);" ++
  "COMMIT;".

Definition rollback_sql : string := "ROLLBACK;".

Definition add_city_sql : string :=
  "INSERT INTO parking_cities " ++
  "(city, min_latitude, max_latitude, " ++
  "min_longitude, max_longitude, price_per_minute) " ++
  "VALUES (?, ?, ?, ?, ?, ?);".

Definition update_city_price_sql : string :=
  "UPDATE parking_cities " ++ "SET price_per_minute = ? " ++ "WHERE city = ?;".

Definition delete_city_sql : string :=
  "DELETE FROM parking_cities " ++ "WHERE city = ?;".

Definition find_city_sql : string :=
  "SELECT id " ++ "FROM parking_cities " ++ "WHERE ? >= min_latitude " ++
  "AND ? <= max_latitude " ++ "AND ? >= min_longitude " ++ "AND ? <= max_longitude " ++
  "LIMIT 1;".

Definition get_city_sql : string :=
  "SELECT city, " ++ "min_latitude, " ++ "max_latitude, " ++ "min_longitude, " ++
  "max_longitude, " ++ "price_per_minute " ++ "FROM parking_cities " ++ "WHERE id = ?;".

Definition active_session_sql : string :=
  "SELECT id " ++ "FROM parking_sessions " ++ "WHERE vehicle_number = ? " ++
  "AND end_time IS NULL " ++ "LIMIT 1;".

Definition select_price_sql : string :=
  "SELECT price_per_minute " ++ "FROM parking_cities " ++ "WHERE id = ?;".

Definition insert_session_sql : string :=
  "INSERT INTO parking_sessions " ++
  "(vehicle_number, latitude, longitude, city_id, " ++
  "price_per_minute, start_time) " ++ "VALUES (?, ?, ?, ?, ?, ?);".

Definition select_session_sql : string :=
  "SELECT id, start_time, price_per_minute " ++ "FROM parking_sessions " ++
  "WHERE vehicle_number = ? " ++ "AND end_time IS NULL " ++ "ORDER BY id DESC " ++ "LIMIT 1;".

Definition update_session_sql : string :=
  "UPDATE parking_sessions " ++ "SET end_time = ?, cost = ? " ++ "WHERE id = ?;".
End Texts.

(** ** The calls *)
Inductive sql_value :=
| SqlNull
| SqlInteger (z : Z)
| SqlReal (d : double)
| SqlText (t : list byte).

#[export] Instance sql_value_eq_dec : EqDecision sql_value.
Proof. solve_decision. Defined.

(** [sqlite3_bind_double] binds a NaN as NULL. *)
Definition real_value (d : double) : sql_value :=
  match d with S754_nan => SqlNull | _ => SqlReal d end.

Abbreviation SQLITE_OK := 0.
Abbreviation SQLITE_ROW := 100.
Abbreviation SQLITE_DONE := 101.

(** The library's state covers the database files, connections and prepared
    statements; handles are addresses, 0 the null pointer. *)
Class Sqlite := {
  sqlite : Type;
  sqlite3_open : list byte -> sqlite -> (Z * Z) * sqlite;          (* result, connection *)
  sqlite3_close : Z -> sqlite -> Z * sqlite;
  sqlite3_exec : Z -> string -> sqlite -> (Z * bool) * sqlite;     (* result, message given *)
  sqlite3_free : sqlite -> sqlite;
  sqlite3_prepare_v2 : Z -> string -> sqlite -> (Z * Z) * sqlite;  (* result, statement *)
  sqlite3_bind : Z -> Z -> sql_value -> sqlite -> Z * sqlite;
  sqlite3_step : Z -> sqlite -> Z * sqlite;
  sqlite3_column_int : Z -> Z -> sqlite -> Z;
  sqlite3_column_int64 : Z -> Z -> sqlite -> Z;
  sqlite3_column_double : Z -> Z -> sqlite -> double;
  sqlite3_column_text : Z -> Z -> sqlite -> option (list byte);
  sqlite3_changes : Z -> sqlite -> Z;
  sqlite3_finalize : Z -> sqlite -> Z * sqlite;
}.

(** A prepared statement: its connection, text, parameters and current row. *)
Record statement := Statement {
  stmt_connection : Z;
  stmt_sql : string;
  stmt_bound : gmap Z sql_value;
  stmt_row : list sql_value;
}.

(** A parameter that was not bound is NULL. *)
Definition param (st : statement) (i : Z) : sql_value := default SqlNull (stmt_bound st !! i).
Definition bind_param (i : Z) (v : sql_value) (st : statement) : statement :=
  Statement (stmt_connection st) (stmt_sql st) (<[i := v]> (stmt_bound st)) (stmt_row st).
Definition set_row (r : list sql_value) (st : statement) : statement :=
  Statement (stmt_connection st) (stmt_sql st) (stmt_bound st) r.

Lemma param_bind_eq i v st : param (bind_param i v st) i = v.
Proof. unfold param. simpl. by rewrite lookup_insert_eq. Qed.

Lemma param_bind_ne i j v st : i <> j -> param (bind_param i v st) j = param st j.
Proof. intros. unfold param. simpl. by rewrite lookup_insert_ne. Qed.

(** Evaluate the parameters of a statement built by [bind_param]. *)
Ltac params := repeat (rewrite param_bind_eq || rewrite param_bind_ne by lia).
Ltac params_in H := repeat (rewrite param_bind_eq in H || rewrite param_bind_ne in H by lia).

(** The kinds of the parameters of a statement, from parameter [i] on: every
    one is bound to a value of its kind or is NULL. *)
Inductive sql_kind := KInteger | KReal | KText.

Definition of_kind (k : sql_kind) (v : sql_value) : Prop :=
  match k, v with
  | _, SqlNull | KInteger, SqlInteger _ | KReal, SqlReal _ | KText, SqlText _ => True
  | _, _ => False
  end.

Fixpoint typed (i : Z) (kinds : list sql_kind) (st : statement) : Prop :=
  match kinds with
  | [] => True
  | k :: ks => of_kind k (param st i) /\ typed (i + 1) ks st
  end.

Lemma of_kind_real d : of_kind KReal (real_value d).
Proof. by destruct d. Qed.
#[export] Hint Resolve of_kind_real : parking.

(** ** What the statements mean *)

(** A comparison with NULL is not true. *)
Definition sql_ge (v : sql_value) (d : double) : bool :=
  match v with SqlReal x => double_ge x d | _ => false end.
Definition sql_le (v : sql_value) (d : double) : bool :=
  match v with SqlReal x => double_le x d | _ => false end.

Definition named (v : sql_value) (c : parking_city) : Prop := v = SqlText (city_name c).
Definition active_for (v : sql_value) (s : parking_session) : Prop :=
  v = SqlText (s_vehicle_number s) /\ s_end_time s = None.

#[export] Instance named_dec v c : Decision (named v c).
Proof. unfold named. apply _. Defined.
#[export] Instance active_for_dec v s : Decision (active_for v s).
Proof. unfold active_for. apply _. Defined.

Definition integer_of (v : sql_value) : option Z := match v with SqlInteger z => Some z | _ => None end.
Definition real_of (v : sql_value) : option double := match v with SqlReal d => Some d | _ => None end.

(** The city columns satisfy the CHECK constraints. *)
Definition city_checks (c : parking_city) : bool :=
  double_ge (price_per_minute c) double_zero &&
  double_lt (min_latitude c) (max_latitude c) && double_lt (min_longitude c) (max_longitude c).

(** A query leaves the tables alone and gives one of the [best] rows, or none
    when no row qualifies. *)
Definition query (some_row best : list sql_value -> Prop) (t : tables) (rc : Z) (t' : tables)
    (row : list sql_value) : Prop :=
  t' = t /\ (rc = SQLITE_ROW -> best row) /\ (rc = SQLITE_DONE -> forall r, ~ some_row r).

(** A modification happens as a whole or, on an error, not at all. *)
Definition modification (effect : tables -> Z -> Prop) (t : tables) (rc : Z) (t' : tables) (n : Z) : Prop :=
  rc <> SQLITE_ROW /\ if decide (rc = SQLITE_DONE) then effect t' n else t' = t.

(** A key SQLite chooses for a new row. *)
Definition fresh_key {A} (i : Z) (m : gmap Z A) : Prop :=
  m !! i = None /\ ((forall j, is_Some (m !! j) -> 0 < j) -> 0 < i).

Definition find_city_row (st : statement) (t : tables) (r : list sql_value) : Prop :=
  exists i c, cities t !! i = Some c /\ r = [SqlInteger i] /\
    sql_ge (param st 1) (min_latitude c) = true /\ sql_le (param st 2) (max_latitude c) = true /\
    sql_ge (param st 3) (min_longitude c) = true /\ sql_le (param st 4) (max_longitude c) = true.

Definition get_city_row (st : statement) (t : tables) (r : list sql_value) : Prop :=
  exists i c, cities t !! i = Some c /\ param st 1 = SqlInteger i /\
    r = [SqlText (city_name c); SqlReal (min_latitude c); SqlReal (max_latitude c);
         SqlReal (min_longitude c); SqlReal (max_longitude c); SqlReal (price_per_minute c)].

Definition select_price_row (st : statement) (t : tables) (r : list sql_value) : Prop :=
  exists i c, cities t !! i = Some c /\ param st 1 = SqlInteger i /\
    r = [SqlReal (price_per_minute c)].

Definition active_session_row (st : statement) (t : tables) (r : list sql_value) : Prop :=
  exists i s, sessions t !! i = Some s /\ active_for (param st 1) s /\ r = [SqlInteger i].

Definition select_session_row (st : statement) (t : tables) (i : Z) (r : list sql_value) : Prop :=
  exists s, sessions t !! i = Some s /\ active_for (param st 1) s /\
    r = [SqlInteger i; SqlInteger (s_start_time s); SqlReal (s_price_per_minute s)].

Definition add_city_effect (st : statement) (t t' : tables) (n : Z) : Prop :=
  exists i name a b c d p, let new := City name a b c d p in
    param st 1 = SqlText name /\ param st 2 = SqlReal a /\ param st 3 = SqlReal b /\
    param st 4 = SqlReal c /\ param st 5 = SqlReal d /\ param st 6 = SqlReal p /\
    city_checks new = true /\ (forall j x, cities t !! j = Some x -> city_name x <> name) /\
    fresh_key i (cities t) /\ t' = set_cities (<[i := new]> (cities t)) t /\ n = 1.

Definition update_city_price_effect (st : statement) (t t' : tables) (n : Z) : Prop :=
  let matching := filter (fun e => named (param st 2) e.2) (cities t) in
  n = Z.of_nat (size matching) /\
  ((matching = ∅ /\ t' = t) \/
   (exists p, param st 1 = SqlReal p /\ double_ge p double_zero = true /\
      t' = set_cities ((fun c => if decide (named (param st 2) c) then set_price p c else c)
                         <$> cities t) t)).

Definition delete_city_effect (st : statement) (t t' : tables) (n : Z) : Prop :=
  n = Z.of_nat (size (filter (fun e => named (param st 1) e.2) (cities t))) /\
  t' = set_cities (filter (fun e => ~ named (param st 1) e.2) (cities t)) t.

Definition insert_session_effect (st : statement) (t t' : tables) (n : Z) : Prop :=
  exists i v a o c p b,
    param st 1 = SqlText v /\ param st 2 = SqlReal a /\ param st 3 = SqlReal o /\
    param st 4 = SqlInteger c /\ param st 5 = SqlReal p /\ param st 6 = SqlInteger b /\
    fresh_key i (sessions t) /\
    t' = set_sessions (<[i := Session v a o c p b None None]> (sessions t)) t /\ n = 1.

Definition update_session_effect (st : statement) (t t' : tables) (n : Z) : Prop :=
  (param st 3 = SqlNull /\ t' = t /\ n = 0) \/
  exists i, param st 3 = SqlInteger i /\
    t' = set_sessions (alter (close_session (integer_of (param st 1)) (real_of (param st 2))) i
                         (sessions t)) t /\
    n = (if decide (is_Some (sessions t !! i)) then 1 else 0).

(** What one [sqlite3_step] of a statement that was not stepped before does,
    for each text: result [rc], tables before and after, row, and the number
    [sqlite3_changes] reports. *)
Record stepped (st : statement) (t : tables) (rc : Z) (t' : tables) (row : list sql_value) (n : Z)
    : Prop := {
  step_find_city : stmt_sql st = find_city_sql -> typed 1 [KReal; KReal; KReal; KReal] st ->
    query (find_city_row st t) (find_city_row st t) t rc t' row;
  step_get_city : stmt_sql st = get_city_sql -> typed 1 [KInteger] st ->
    query (get_city_row st t) (get_city_row st t) t rc t' row;
  step_select_price : stmt_sql st = select_price_sql -> typed 1 [KInteger] st ->
    query (select_price_row st t) (select_price_row st t) t rc t' row;
  step_active_session : stmt_sql st = active_session_sql -> typed 1 [KText] st ->
    query (active_session_row st t) (active_session_row st t) t rc t' row;
  step_select_session : stmt_sql st = select_session_sql -> typed 1 [KText] st ->
    query (fun r => exists i, select_session_row st t i r)
      (fun r => exists i, select_session_row st t i r /\
                forall j r', select_session_row st t j r' -> j <= i) t rc t' row;
  step_add_city : stmt_sql st = add_city_sql -> typed 1 [KText; KReal; KReal; KReal; KReal; KReal] st ->
    modification (add_city_effect st t) t rc t' n;
  step_update_city_price : stmt_sql st = update_city_price_sql -> typed 1 [KReal; KText] st ->
    modification (update_city_price_effect st t) t rc t' n;
  step_delete_city : stmt_sql st = delete_city_sql -> typed 1 [KText] st ->
    modification (delete_city_effect st t) t rc t' n;
  step_insert_session : stmt_sql st = insert_session_sql -> typed 1 [KText; KReal; KReal; KInteger; KReal; KInteger] st ->
    modification (insert_session_effect st t) t rc t' n;
  step_update_session : stmt_sql st = update_session_sql -> typed 1 [KInteger; KReal; KInteger] st ->
    modification (update_session_effect st t) t rc t' n;
}.

(** The tables after [initialize_sql]. *)
Definition initial_cities : gmap Z parking_city :=
  <[1 := City (bs "Tel Aviv") (double_lit 100 10) (double_lit 199 10) (double_lit 100 10) (double_lit 199 10) (double_lit 50 100)]>
  (<[2 := City (bs "Haifa") (double_lit 200 10) (double_lit 299 10) (double_lit 200 10) (double_lit 299 10) (double_lit 40 100)]>
  (<[3 := City (bs "Jerusalem") (double_lit 300 10) (double_lit 399 10) (double_lit 300 10) (double_lit 399 10) (double_lit 60 100)]> ∅)).
Definition initial_tables : tables := Tables initial_cities ∅.

(** ** Documented behaviour

    [rely] is what other processes may do to the tables between two calls of
    this one; it is a parameter, so that each program is proved against the
    programs it shares the file with. *)
Class SqliteLaws `{Sqlite} := {
  tables_of : sqlite -> tables;
  statements : sqlite -> gmap Z statement;
  connections : sqlite -> gset Z;
  transaction : sqlite -> option tables;     (* the tables an open transaction began with *)
  rely : tables -> tables -> Prop;
  rely_preorder :: PreOrder rely;

  law_open f s : let '((rc, h), s') := sqlite3_open f s in
    statements s' = statements s /\ transaction s' = transaction s /\ (rc = SQLITE_OK -> h <> 0) /\
    (h <> 0 -> (h ∉ connections s) /\ forall p st, statements s !! p = Some st -> stmt_connection st <> h) /\
    connections s' = (if h =? 0 then connections s else ({[h]} ∪ connections s));
  (* a connection without statements closes; closing a null pointer does nothing *)
  law_close h s : let '(rc, s') := sqlite3_close h s in
    statements s' = statements s /\
    ((forall p st, statements s !! p = Some st -> stmt_connection st <> h) -> rc = SQLITE_OK) /\
    connections s' = (if rc =? SQLITE_OK then (connections s ∖ {[h]}) else connections s);
  law_free s : statements (sqlite3_free s) = statements s /\ connections (sqlite3_free s) = connections s /\
    transaction (sqlite3_free s) = transaction s /\
    (if transaction s is Some _ then tables_of (sqlite3_free s) = tables_of s
     else rely (tables_of s) (tables_of (sqlite3_free s)));
  law_prepare h q s : let '((rc, p), s') := sqlite3_prepare_v2 h q s in
    connections s' = connections s /\ rely (tables_of s) (tables_of s') /\
    if rc =? SQLITE_OK
    then statements s !! p = None /\ statements s' = <[p := Statement h q ∅ []]> (statements s)
    else statements s' = statements s;
  law_bind p i v s st : statements s !! p = Some st ->
    let '(rc, s') := sqlite3_bind p i v s in
    connections s' = connections s /\ rely (tables_of s) (tables_of s') /\
    statements s' = (if rc =? SQLITE_OK then <[p := bind_param i v st]> (statements s) else statements s);
  law_step p s st : statements s !! p = Some st -> stmt_row st = [] ->
    let '(rc, s') := sqlite3_step p s in
    connections s' = connections s /\
    exists t row, rely (tables_of s) t /\
      stepped st t rc (tables_of s') row (sqlite3_changes (stmt_connection st) s') /\
      statements s' = <[p := set_row row st]> (statements s);
  law_column_int p i s st z : statements s !! p = Some st -> stmt_row st !! i = Some (SqlInteger z) ->
    sqlite3_column_int p (Z.of_nat i) s = s32 z;
  law_column_int64 p i s st z : statements s !! p = Some st -> stmt_row st !! i = Some (SqlInteger z) ->
    sqlite3_column_int64 p (Z.of_nat i) s = z;
  law_column_double p i s st d : statements s !! p = Some st -> stmt_row st !! i = Some (SqlReal d) ->
    sqlite3_column_double p (Z.of_nat i) s = d;
  (* None when memory runs out *)
  law_column_text p i s st x : statements s !! p = Some st -> stmt_row st !! i = Some (SqlText x) ->
    sqlite3_column_text p (Z.of_nat i) s = Some x \/ sqlite3_column_text p (Z.of_nat i) s = None;
  law_finalize p s st : statements s !! p = Some st ->
    let '(_, s') := sqlite3_finalize p s in
    connections s' = connections s /\ rely (tables_of s) (tables_of s') /\
    statements s' = delete p (statements s);
  law_initialize h s : transaction s = None ->
    let '((rc, _), s') := sqlite3_exec h initialize_sql s in
    statements s' = statements s /\ connections s' = connections s /\
    exists t, rely (tables_of s) t /\
    if rc =? SQLITE_OK then tables_of s' = initial_tables /\ transaction s' = None
    else (transaction s' = None /\ tables_of s' = t) \/ transaction s' = Some t;
  law_rollback h s :
    let '((rc, _), s') := sqlite3_exec h rollback_sql s in
    statements s' = statements s /\ connections s' = connections s /\
    match transaction s with
    | Some t => if rc =? SQLITE_OK then rely t (tables_of s') /\ transaction s' = None
                else tables_of s' = tables_of s /\ transaction s' = Some t
    | None => rely (tables_of s) (tables_of s') /\ transaction s' = None
    end;
}.

(** The statement gives every value the constraints of its table ask for. *)
Record complete (st : statement) : Prop := {
  complete_insert : stmt_sql st = insert_session_sql -> forall i, 1 <= i <= 6 -> param st i <> SqlNull;
  complete_price : stmt_sql st = update_city_price_sql ->
    exists p, param st 1 = SqlReal p /\ double_ge p double_zero = true;
  complete_city : stmt_sql st <> add_city_sql;
}.

(** Some call of the library can fail for a reason of its own, one that no
    constraint of the schema explains. *)
Inductive sqlite_failure `{SqliteLaws} : Prop :=
| prepare_failed h q s : (sqlite3_prepare_v2 h q s).1.1 <> SQLITE_OK -> sqlite_failure
| bind_failed p i v s : (sqlite3_bind p i v s).1 <> SQLITE_OK -> sqlite_failure
| step_failed p s st : statements s !! p = Some st -> complete st ->
    (sqlite3_step p s).1 <> SQLITE_ROW -> (sqlite3_step p s).1 <> SQLITE_DONE -> sqlite_failure
| column_failed p i s : sqlite3_column_text p i s = None -> sqlite_failure.

Definition unconstrained (sql : string) : bool :=
  bool_decide (sql <> insert_session_sql /\ sql <> update_city_price_sql /\ sql <> add_city_sql).

Lemma complete_unconstrained st : unconstrained (stmt_sql st) = true -> complete st.
Proof. intros [H1 [H2 H3]]%bool_decide_eq_true. constructor; congruence. Qed.
