(* ===== verification/SqliteDatabase.v ===== *)
(** SqliteDatabase (src/Libraries/SQLiteDatabase): the parking database on top
    of the SQLite library. *)

From S2P Require Import Prelude Machine CLib Ieee Posix Sqlite.

(** The object [sqlite_database_t] of the process with the library and the
    system it works on; the handle 0 is a null pointer. *)
Record database `{Sqlite} := DB {
  db_handle : Z;
  db_sqlite : sqlite;
  db_world : world;
}.

(** A pointer argument that is dereferenced, or NULL. *)
Inductive pointer := NULL | nonnull.

Definition is_null (p : pointer) : bool := match p with NULL => true | nonnull => false end.
Definition is_none {A} (o : option A) : bool := match o with None => true | Some _ => false end.

Section Operations.
Context `{Environment} `{Sqlite}.

Definition set_handle (h : Z) (s : database) := DB _ h (db_sqlite s) (db_world s).
Definition set_sqlite (q : sqlite) (s : database) := DB _ (db_handle s) q (db_world s).
Definition set_db_world (w : world) (s : database) := DB _ (db_handle s) (db_sqlite s) w.

Definition log_error (f : string) : M database unit := zoom db_world set_db_world (LOG_ERROR f).
Definition log_info (f : string) : M database unit := zoom db_world set_db_world (LOG_INFO f).
Definition log_debug (f : string) : M database unit := zoom db_world set_db_world (LOG_DEBUG f).

(** A call of the library. *)
Definition call {A} (f : sqlite -> A * sqlite) : M database A :=
  zoom db_sqlite set_sqlite (fun q => Ret (f q)).
Definition ask {A} (f : sqlite -> A) : M database A := gets (fun s => f (db_sqlite s)).

Definition prepare (sql : string) : M database (Z * Z) :=
  h ← gets db_handle; call (sqlite3_prepare_v2 h sql).
Definition bind_text (st i : Z) (text : list byte) : M database Z := call (sqlite3_bind st i (SqlText text)).
Definition bind_double (st i : Z) (d : double) : M database Z := call (sqlite3_bind st i (real_value d)).
Definition bind_int (st i z : Z) : M database Z := call (sqlite3_bind st i (SqlInteger z)).
Definition bind_int64 (st i z : Z) : M database Z := call (sqlite3_bind st i (SqlInteger z)).
Definition step (st : Z) : M database Z := call (sqlite3_step st).
Definition finalize (st : Z) : M database unit := call (sqlite3_finalize st);; mret tt.
Definition changes : M database Z := h ← gets db_handle; ask (sqlite3_changes h).

Definition database_missing (p : pointer) (s : database) : bool := is_null p || (db_handle s =? 0).

Definition sqlite_database_open (p : pointer) (database_file : option (list byte)) : M database Z :=
  if is_null p then log_error "SQLite database object is NULL.";; mret (-1)
  else match database_file with
  | None => log_error "SQLite database file path is NULL.";; mret (-1)
  | Some file =>
      h ← gets db_handle;
      if negb (h =? 0) then log_error "SQLite database is already open.";; mret (-1)
      else
        '(result, h) ← call (sqlite3_open file);
        modify (set_handle h);;
        if negb (result =? SQLITE_OK) then
          log_error "Failed to open SQLite database '%s': %s.";;
          call (sqlite3_close h);;
          modify (set_handle 0);;
          mret (-1)
        else log_info "SQLite database '%s' opened successfully.";; mret 0
  end.

Definition sqlite_database_close (p : pointer) : M database unit :=
  if is_null p then log_error "SQLite database object is NULL."
  else
    h ← gets db_handle;
    if h =? 0 then mret tt
    else
      result ← call (sqlite3_close h);
      if negb (result =? SQLITE_OK) then log_error "Failed to close SQLite database: %s."
      else modify (set_handle 0);; log_info "SQLite database closed successfully.".

Definition sqlite_database_initialize (p : pointer) : M database Z :=
  if is_null p then log_error "SQLite database object is NULL.";; mret (-1)
  else
    h ← gets db_handle;
    if h =? 0 then log_error "SQLite database is not open.";; mret (-1)
    else
      '(result, error_message) ← call (sqlite3_exec h initialize_sql);
      if negb (result =? SQLITE_OK) then
        log_error "Failed to initialize SQLite database: %s.";;
        (if (error_message : bool) then call (fun q => (tt, sqlite3_free q)) else mret tt);;
        call (sqlite3_exec h rollback_sql);;
        mret (-1)
      else log_info "SQLite database schema initialized successfully.";; mret 0.

Definition sqlite_database_add_city (p : pointer) (city : option (list byte))
    (min_latitude max_latitude min_longitude max_longitude price_per_minute : double)
    : M database Z :=
  missing ← gets (database_missing p);
  match city, missing with
  | Some city, false =>
      if double_ge min_latitude max_latitude || double_ge min_longitude max_longitude ||
         double_lt price_per_minute double_zero
      then log_error "Invalid city coordinates or parking price.";; mret (-1)
      else
        '(result, st) ← prepare add_city_sql;
        if negb (result =? SQLITE_OK) then
          log_error "Failed to prepare add city statement: %s.";; mret (-1)
        else
          bind_text st 1 city;;
          bind_double st 2 min_latitude;;
          bind_double st 3 max_latitude;;
          bind_double st 4 min_longitude;;
          bind_double st 5 max_longitude;;
          bind_double st 6 price_per_minute;;
          result ← step st;
          if negb (result =? SQLITE_DONE) then
            log_error "Failed to add city '%s': %s.";;
            finalize st;; mret (-1)
          else
            finalize st;;
            log_info "City '%s' added successfully.";; mret 0
  | _, _ => log_error "Invalid argument passed to sqlite_database_add_city().";; mret (-1)
  end.

Definition sqlite_database_update_city_price (p : pointer) (city : option (list byte))
    (price_per_minute : double) : M database Z :=
  missing ← gets (database_missing p);
  match city, missing with
  | Some city, false =>
      if double_lt price_per_minute double_zero then
        log_error "Parking price cannot be negative.";; mret (-1)
      else
        '(result, st) ← prepare update_city_price_sql;
        if negb (result =? SQLITE_OK) then
          log_error "Failed to prepare update city price statement: %s.";; mret (-1)
        else
          bind_double st 1 price_per_minute;;
          bind_text st 2 city;;
          result ← step st;
          if negb (result =? SQLITE_DONE) then
            log_error "Failed to update price for city '%s': %s.";;
            finalize st;; mret (-1)
          else
            n ← changes;
            if n =? 0 then
              log_error "City '%s' was not found.";; finalize st;; mret (-1)
            else
              finalize st;;
              log_info "Parking price for city '%s' updated to %.2f.";; mret 0
  | _, _ => log_error "Invalid argument passed to sqlite_database_update_city_price().";; mret (-1)
  end.

Definition sqlite_database_delete_city (p : pointer) (city : option (list byte)) : M database Z :=
  missing ← gets (database_missing p);
  match city, missing with
  | Some city, false =>
      '(result, st) ← prepare delete_city_sql;
      if negb (result =? SQLITE_OK) then
        log_error "Failed to prepare delete city statement: %s.";; mret (-1)
      else
        bind_text st 1 city;;
        result ← step st;
        if negb (result =? SQLITE_DONE) then
          log_error "Failed to delete city '%s': %s.";;
          finalize st;; mret (-1)
        else
          n ← changes;
          if n =? 0 then
            log_error "City '%s' was not found.";; finalize st;; mret (-1)
          else
            finalize st;;
            log_info "City '%s' deleted successfully.";; mret 0
  | _, _ => log_error "Invalid argument passed to sqlite_database_delete_city().";; mret (-1)
  end.

(** The result and what was written to [*city_id]. *)
Definition sqlite_database_find_city (p : pointer) (latitude longitude : double) (city_id : pointer)
    : M database (Z * option Z) :=
  missing ← gets (database_missing p);
  if missing || is_null city_id then
    log_error "Invalid argument passed to sqlite_database_find_city().";; mret (-1, None)
  else
    '(result, st) ← prepare find_city_sql;
    if negb (result =? SQLITE_OK) then
      log_error "Failed to prepare find city statement: %s.";; mret (-1, None)
    else
      bind_double st 1 latitude;;
      bind_double st 2 latitude;;
      bind_double st 3 longitude;;
      bind_double st 4 longitude;;
      result ← step st;
      if result =? SQLITE_ROW then
        id ← ask (sqlite3_column_int st 0);
        finalize st;;
        log_debug "Coordinates %.2f, %.2f mapped to city ID %d.";;
        mret (0, Some id)
      else
        (if result =? SQLITE_DONE
         then log_error "No city found for coordinates %.2f, %.2f."
         else log_error "Failed to find city by coordinates: %s.");;
        finalize st;;
        mret (-1, None).

(** What [sqlite_database_get_city] writes: the bytes of the name buffer up to
    its NUL, and the five numbers. *)
Record city_output := CityOutput {
  out_city : list byte;
  out_min_latitude : double;
  out_max_latitude : double;
  out_min_longitude : double;
  out_max_longitude : double;
  out_price_per_minute : double;
}.

(** [outputs] says that none of the six pointers is NULL. *)
Definition sqlite_database_get_city (p : pointer) (city_id : Z) (city_size : nat) (outputs : pointer)
    : M database (Z * option city_output) :=
  missing ← gets (database_missing p);
  if missing || (city_id <=? 0) || bool_decide (city_size = O) || is_null outputs then
    log_error "Invalid argument passed to sqlite_database_get_city().";; mret (-1, None)
  else
    '(result, st) ← prepare get_city_sql;
    if negb (result =? SQLITE_OK) then
      log_error "Failed to prepare get city statement: %s.";; mret (-1, None)
    else
      bind_int st 1 city_id;;
      result ← step st;
      if result =? SQLITE_ROW then
        text ← ask (sqlite3_column_text st 0);
        match text with
        | None =>
            log_error "Database returned an invalid city name.";;
            finalize st;; mret (-1, None)
        | Some text =>
            a ← ask (sqlite3_column_double st 1);
            b ← ask (sqlite3_column_double st 2);
            c ← ask (sqlite3_column_double st 3);
            d ← ask (sqlite3_column_double st 4);
            price ← ask (sqlite3_column_double st 5);
            finalize st;;
            log_debug "City ID %d retrieved successfully.";;
            mret (0, Some (CityOutput (fst (snprintf_s city_size text)) a b c d price))
        end
      else
        (if result =? SQLITE_DONE
         then log_error "City with ID %d was not found."
         else log_error "Failed to retrieve city with ID %d: %s.");;
        finalize st;;
        mret (-1, None).

(** The chain of [if (result == SQLITE_OK) result = sqlite3_bind_...]. *)
Fixpoint bind_all (result : Z) (binds : list (M database Z)) : M database Z :=
  match binds with
  | [] => mret result
  | b :: binds => if result =? SQLITE_OK then r ← b; bind_all r binds else bind_all result binds
  end.

Definition sqlite_database_start_parking (p : pointer) (vehicle_number : option (list byte))
    (latitude longitude : double) (city_id start_time : Z) : M database Z :=
  missing ← gets (database_missing p);
  match vehicle_number, missing || (city_id <=? 0) || (start_time <=? 0) with
  | Some vehicle_number, false =>
      '(result, active) ← prepare active_session_sql;
      if negb (result =? SQLITE_OK) then
        log_error "Failed to prepare active parking check: %s.";; mret (-1)
      else
      result ← bind_text active 1 vehicle_number;
      if negb (result =? SQLITE_OK) then
        log_error "Failed to bind vehicle number: %s.";; finalize active;; mret (-1)
      else
      result ← step active;
      if result =? SQLITE_ROW then
        log_error "Vehicle '%s' already has an active parking session.";;
        finalize active;; mret (-1)
      else if negb (result =? SQLITE_DONE) then
        log_error "Failed to check active parking session: %s.";;
        finalize active;; mret (-1)
      else
      finalize active;;
      '(result, price) ← prepare select_price_sql;
      if negb (result =? SQLITE_OK) then
        log_error "Failed to prepare city price lookup: %s.";; mret (-1)
      else
      result ← bind_int price 1 city_id;
      if negb (result =? SQLITE_OK) then
        log_error "Failed to bind city ID: %s.";; finalize price;; mret (-1)
      else
      result ← step price;
      if result =? SQLITE_DONE then
        log_error "City with ID %d was not found.";; finalize price;; mret (-1)
      else if negb (result =? SQLITE_ROW) then
        log_error "Failed to retrieve parking price: %s.";; finalize price;; mret (-1)
      else
      price_per_minute ← ask (sqlite3_column_double price 0);
      finalize price;;
      '(result, insert) ← prepare insert_session_sql;
      if negb (result =? SQLITE_OK) then
        log_error "Failed to prepare start parking statement: %s.";; mret (-1)
      else
      result ← bind_text insert 1 vehicle_number;
      result ← bind_all result
        [bind_double insert 2 latitude; bind_double insert 3 longitude; bind_int insert 4 city_id;
         bind_double insert 5 price_per_minute; bind_int64 insert 6 start_time];
      if negb (result =? SQLITE_OK) then
        log_error "Failed to bind start parking parameters: %s.";; finalize insert;; mret (-1)
      else
      result ← step insert;
      if negb (result =? SQLITE_DONE) then
        log_error "Failed to start parking for vehicle '%s': %s.";; finalize insert;; mret (-1)
      else
      finalize insert;;
      log_info "Parking started successfully for vehicle '%s' with price %.2f per minute.";;
      mret 0
  | _, _ => log_error "Invalid argument passed to sqlite_database_start_parking().";; mret (-1)
  end.

(** The charge for a stay, [None] where the arithmetic of [int64_t] overflows. *)
Definition parking_minutes (start_time end_time : Z) : option Z :=
  duration_seconds ← int64_sub end_time start_time;
  padded ← int64_add duration_seconds 59;
  Some (padded `quot` 60).

Definition parking_cost (duration_minutes : Z) (price_per_minute : double) : double :=
  double_mul (double_of_int64 duration_minutes) price_per_minute.

(** The result and what was written to [*start_time] and [*cost]. *)
Definition sqlite_database_stop_parking (p : pointer) (vehicle_number : option (list byte))
    (end_time : Z) (start_time cost : pointer) : M database (Z * option (Z * double)) :=
  missing ← gets (database_missing p);
  match vehicle_number, missing || (end_time <=? 0) || is_null start_time || is_null cost with
  | Some vehicle_number, false =>
      '(result, select) ← prepare select_session_sql;
      if negb (result =? SQLITE_OK) then
        log_error "Failed to prepare active parking search: %s.";; mret (-1, None)
      else
      result ← bind_text select 1 vehicle_number;
      if negb (result =? SQLITE_OK) then
        log_error "Failed to bind vehicle number: %s.";; finalize select;; mret (-1, None)
      else
      result ← step select;
      if result =? SQLITE_DONE then
        log_error "Active parking session for vehicle '%s' was not found.";;
        finalize select;; mret (-1, None)
      else if negb (result =? SQLITE_ROW) then
        log_error "Failed to read active parking session: %s.";;
        finalize select;; mret (-1, None)
      else
      session_id ← ask (sqlite3_column_int64 select 0);
      stored_start_time ← ask (sqlite3_column_int64 select 1);
      price_per_minute ← ask (sqlite3_column_double select 2);
      finalize select;;
      if end_time <? stored_start_time then
        log_error "Parking end time is earlier than start time for vehicle '%s'.";;
        mret (-1, None)
      else
      duration_minutes ← from_option_undef (parking_minutes stored_start_time end_time);
      let calculated_cost := parking_cost duration_minutes price_per_minute in
      '(result, update) ← prepare update_session_sql;
      if negb (result =? SQLITE_OK) then
        log_error "Failed to prepare stop parking statement: %s.";; mret (-1, None)
      else
      result ← bind_int64 update 1 end_time;
      result ← bind_all result
        [bind_double update 2 calculated_cost; bind_int64 update 3 session_id];
      if negb (result =? SQLITE_OK) then
        log_error "Failed to bind stop parking parameters: %s.";; finalize update;; mret (-1, None)
      else
      result ← step update;
      if negb (result =? SQLITE_DONE) then
        log_error "Failed to stop parking for vehicle '%s': %s.";; finalize update;; mret (-1, None)
      else
      finalize update;;
      log_info "Parking stopped successfully for vehicle '%s'. Duration: %lld minute(s), cost: %.2f.";;
      mret (0, Some (stored_start_time, calculated_cost))
  | _, _ => log_error "Invalid argument passed to sqlite_database_stop_parking().";; mret (-1, None)
  end.
End Operations.
