(* ===== verification/SqliteRules.v ===== *)
(** Reasoning rules for the functions of SqliteDatabase: one rule per call of
    the SQLite library and per SQL statement of the sources, and the symbolic
    execution that applies them. *)

From S2P Require Import Prelude Machine CLib Ieee Posix Sqlite SqliteDatabase.

(** ** Vocabulary of the specifications *)

(** The vehicle has an active session. *)
Definition parked (v : list byte) (t : tables) : Prop :=
  exists i x, sessions t !! i = Some x /\ s_vehicle_number x = v /\ s_end_time x = None.

(** The active session of the vehicle with the largest key. *)
Definition latest_active (v : list byte) (t : tables) (i : Z) (x : parking_session) : Prop :=
  sessions t !! i = Some x /\ s_vehicle_number x = v /\ s_end_time x = None /\
  forall j y, sessions t !! j = Some y -> s_vehicle_number y = v -> s_end_time y = None -> j <= i.

Definition is_nan (d : double) : bool := match d with S754_nan => true | _ => false end.

(** The area of a city contains the point. *)
Definition city_contains (c : parking_city) (latitude longitude : double) : bool :=
  double_ge latitude (min_latitude c) && double_le latitude (max_latitude c) &&
  double_ge longitude (min_longitude c) && double_le longitude (max_longitude c).

Lemma sql_ge_real x d : sql_ge (real_value x) d = double_ge x d.
Proof. destruct x; try done. by destruct d. Qed.

Lemma sql_le_real x d : sql_le (real_value x) d = double_le x d.
Proof. by destruct x. Qed.

Lemma real_value_inv d x : real_value d = SqlReal x -> x = d /\ is_nan d = false.
Proof. destruct d; simpl; naive_solver. Qed.

Lemma real_value_not_null d : is_nan d = false -> real_value d <> SqlNull.
Proof. by destruct d. Qed.

(** ** Cities by name *)
Definition city_exists (name : list byte) (t : tables) : Prop :=
  exists i c, cities t !! i = Some c /\ city_name c = name.

Definition reprice (name : list byte) (p : double) (t : tables) : tables :=
  set_cities ((fun c => if decide (city_name c = name) then set_price p c else c) <$> cities t) t.

Definition without_city (name : list byte) (t : tables) : tables :=
  set_cities (filter (fun e => city_name e.2 <> name) (cities t)) t.

Lemma matching_empty v t :
  Z.of_nat (size (filter (fun e => named v e.2) (cities t))) = 0 ->
  filter (fun e => named v e.2) (cities t) = ∅.
Proof. intros E. apply map_size_empty_inv. lia. Qed.

Lemma matching_nonempty v t :
  Z.of_nat (size (filter (fun e => named v e.2) (cities t))) <> 0 ->
  exists i c, cities t !! i = Some c /\ named v c.
Proof.
  intros E. destruct (map_choose (filter (fun e => named v e.2) (cities t))) as (i & c & Hic).
  { intros E'. apply E. by rewrite E', map_size_empty. }
  apply map_lookup_filter_Some in Hic as [? ?]. eauto.
Qed.

Lemma none_named name t :
  filter (fun e => named (SqlText name) e.2) (cities t) = ∅ -> ~ city_exists name t.
Proof.
  intros E (i & c & Hc & Hn). eapply (map_filter_empty_not_lookup _ _ _ _ E); [|exact Hc].
  unfold named. simpl. congruence.
Qed.

Lemma reprice_none v pr t : filter (fun e => named v e.2) (cities t) = ∅ ->
  set_cities ((fun c => if decide (named v c) then set_price pr c else c) <$> cities t) t = t.
Proof.
  intros E. destruct t as [cs ss]. unfold set_cities. cbn in *. f_equal.
  rewrite <- (map_fmap_id cs) at 2. apply map_fmap_ext. intros i c Hc.
  rewrite decide_False; [done|]. intros Hn. by eapply (map_filter_empty_not_lookup _ _ _ _ E).
Qed.

Lemma without_none v t : filter (fun e => named v e.2) (cities t) = ∅ ->
  set_cities (filter (fun e => ~ named v e.2) (cities t)) t = t.
Proof.
  intros E. destruct t as [cs ss]. unfold set_cities. cbn in *. f_equal.
  apply map_filter_id. intros i c Hc Hn. by eapply (map_filter_empty_not_lookup _ _ _ _ E).
Qed.

(** ** Reasoning rules

    [db_at s h C S T]: the process holds connection [h], the library has
    connections [C] and statements [S], and the tables are [T] up to what the
    other processes did since. *)
Section Rules.
Context `{Environment} `{SqliteLaws}.

Record db_at (s : database) (h : Z) (C : gset Z) (S : gmap Z statement) (T : tables) : Prop := {
  at_handle : db_handle s = h;
  at_connections : connections (db_sqlite s) = C;
  at_statements : statements (db_sqlite s) = S;
  at_tables : rely T (tables_of (db_sqlite s));
}.

Lemma db_at_self s :
  db_at s (db_handle s) (connections (db_sqlite s)) (statements (db_sqlite s)) (tables_of (db_sqlite s)).
Proof. by constructor. Qed.

Lemma db_at_rely s h C S T T' : rely T' T -> db_at s h C S T -> db_at s h C S T'.
Proof. intros Hr []. constructor; [done..|]. by etrans. Qed.

Lemma current_statement s h C S T p st :
  db_at s h C (<[p := st]> S) T -> statements (db_sqlite s) !! p = Some st.
Proof. intros [_ _ -> _]. by rewrite lookup_insert_eq. Qed.

Context (h : Z) (C : gset Z) (S : gmap Z statement) (T : tables).

Lemma wp_log_zoom level f (Q : unit -> database -> Prop) s :
  db_at s h C S T -> (forall s', db_sqlite s' = db_sqlite s -> db_at s' h C S T -> Q tt s') ->
  wp (zoom db_world set_db_world (sys_ (sys_log level f))) Q s.
Proof. intros [] HQ. apply wp_zoom, wp_sys_, HQ; [done|by constructor]. Qed.

Lemma wp_call {A} (f : sqlite -> A * sqlite) (Q : A -> database -> Prop) s :
  Q (f (db_sqlite s)).1 (set_sqlite (f (db_sqlite s)).2 s) -> wp (call f) Q s.
Proof. unfold call, wp, zoom. by destruct (f (db_sqlite s)). Qed.

Lemma wp_prepare sql (Q : Z * Z -> database -> Prop) s :
  db_at s h C S T ->
  (forall s' rc p, sqlite_failure -> rc <> SQLITE_OK -> db_at s' h C S T -> Q (rc, p) s') ->
  (forall s' p, S !! p = None -> db_at s' h C (<[p := Statement h sql ∅ []]> S) T -> Q (SQLITE_OK, p) s') ->
  wp (prepare sql) Q s.
Proof.
  intros [Hh HC HS HT] Hbad Hok. apply wp_bind, wp_gets, wp_call. rewrite Hh.
  pose proof (law_prepare h sql (db_sqlite s)) as L.
  pose proof (prepare_failed h sql (db_sqlite s)) as F.
  destruct (sqlite3_prepare_v2 h sql (db_sqlite s)) as [[rc p] q]. destruct L as (L1 & L2 & L3).
  cbn [fst snd] in *. destruct (Z.eqb_spec rc SQLITE_OK) as [->|Hrc].
  - rewrite HS in L3. destruct L3 as [L3 L4]. apply Hok; [done|].
    constructor; cbn; [done|congruence|done|by etrans].
  - apply Hbad; [by apply F|done|]. constructor; cbn; [done|congruence|congruence|by etrans].
Qed.

Lemma wp_bind_call p i v st (Q : Z -> database -> Prop) s :
  db_at s h C (<[p := st]> S) T ->
  (forall s' rc, sqlite_failure -> rc <> SQLITE_OK -> db_at s' h C (<[p := st]> S) T -> Q rc s') ->
  (forall s', db_at s' h C (<[p := bind_param i v st]> S) T -> Q SQLITE_OK s') ->
  wp (call (sqlite3_bind p i v)) Q s.
Proof.
  intros [Hh HC HS HT] Hbad Hok. apply wp_call.
  pose proof (law_bind p i v (db_sqlite s) st) as L.
  pose proof (bind_failed p i v (db_sqlite s)) as F.
  destruct (sqlite3_bind p i v (db_sqlite s)) as [rc q].
  destruct L as (L1 & L2 & L3); [by rewrite HS, lookup_insert_eq|].
  cbn [fst snd] in *. rewrite HS, insert_insert_eq in L3. destruct (Z.eqb_spec rc SQLITE_OK) as [->|Hrc].
  - apply Hok. constructor; cbn; [done|congruence|done|by etrans].
  - apply Hbad; [by apply F|done|]. constructor; cbn; [done|congruence|congruence|by etrans].
Qed.

Lemma wp_step p st (Q : Z -> database -> Prop) s :
  db_at s h C (<[p := st]> S) T -> stmt_row st = [] ->
  (forall s' rc t t' row, rely T t ->
     stepped st t rc t' row (sqlite3_changes (stmt_connection st) (db_sqlite s')) ->
     (complete st -> rc <> SQLITE_ROW -> rc <> SQLITE_DONE -> sqlite_failure) ->
     db_at s' h C (<[p := set_row row st]> S) t' -> Q rc s') ->
  wp (step p) Q s.
Proof.
  intros [Hh HC HS HT] Hr HQ. apply wp_call.
  pose proof (law_step p (db_sqlite s) st) as L.
  pose proof (step_failed p (db_sqlite s) st) as F.
  destruct (sqlite3_step p (db_sqlite s)) as [rc q].
  assert (statements (db_sqlite s) !! p = Some st) as Hst by (by rewrite HS, lookup_insert_eq).
  destruct L as (L1 & t & row & L2 & L3 & L4); [done..|].
  rewrite HS, insert_insert_eq in L4. cbn [fst snd] in *.
  eapply HQ; [by etrans|exact L3|by apply F|].
  constructor; cbn; [done|congruence|done|done].
Qed.

Lemma wp_finalize p st (Q : unit -> database -> Prop) s :
  db_at s h C (<[p := st]> S) T -> S !! p = None ->
  (forall s', db_at s' h C S T -> Q tt s') -> wp (finalize p) Q s.
Proof.
  intros [Hh HC HS HT] Hp HQ. apply wp_bind, wp_call, wp_ret.
  pose proof (law_finalize p (db_sqlite s) st) as L.
  destruct (sqlite3_finalize p (db_sqlite s)) as [rc q].
  destruct L as (L1 & L2 & L3); [by rewrite HS, lookup_insert_eq|].
  apply HQ. constructor; cbn; [done|congruence| |by etrans].
  by rewrite L3, HS, delete_insert_id.
Qed.

Lemma wp_ask {A} (f : sqlite -> A) (Q : A -> database -> Prop) s :
  Q (f (db_sqlite s)) s -> wp (ask f) Q s.
Proof. done. Qed.

(** A run of bindings that stops at the first failure. *)
Lemma wp_bind_chain p binds (Q : Z -> database -> Prop) i v st s :
  db_at s h C (<[p := st]> S) T ->
  (forall s' rc st', sqlite_failure -> rc <> SQLITE_OK -> db_at s' h C (<[p := st']> S) T -> Q rc s') ->
  (forall s', db_at s' h C (<[p := foldl (fun st b => bind_param b.1 b.2 st) st ((i, v) :: binds)]> S) T ->
    Q SQLITE_OK s') ->
  wp (call (sqlite3_bind p i v))
     (fun r => wp (bind_all r ((fun b => call (sqlite3_bind p b.1 b.2)) <$> binds)) Q) s.
Proof.
  revert i v st s. induction binds as [|[j w] binds IH]; intros i v st s Hat Hbad Hok;
    (eapply wp_bind_call; [exact Hat| |]).
  - intros s' rc F Hrc Hat'. by eapply Hbad.
  - intros s' Hat'. by apply Hok.
  - intros s' rc F Hrc Hat'. generalize ((j, w) :: binds). intros l.
    assert (bind_all rc ((fun b => call (sqlite3_bind p b.1 b.2)) <$> l) = mret rc) as ->.
    { clear -Hrc. induction l as [|b l IH]; [done|].
      simpl. by rewrite (proj2 (Z.eqb_neq _ _) Hrc). }
    apply wp_ret. by eapply Hbad.
  - intros s' Hat'. apply wp_bind. by eapply IH.
Qed.

(** *** Rules for the statements of the sources *)
Lemma wp_step_active p v (Q : Z -> database -> Prop) s :
  db_at s h C (<[p := bind_param 1 (SqlText v) (Statement h active_session_sql ∅ [])]> S) T ->
  (forall s' st t, rely T t -> parked v t -> db_at s' h C (<[p := st]> S) t -> Q SQLITE_ROW s') ->
  (forall s' st t, rely T t -> ~ parked v t -> db_at s' h C (<[p := st]> S) t -> Q SQLITE_DONE s') ->
  (forall s' st rc, sqlite_failure -> rc <> SQLITE_ROW -> rc <> SQLITE_DONE ->
     db_at s' h C (<[p := st]> S) T -> Q rc s') ->
  wp (step p) Q s.
Proof.
  intros Hat Hrow Hdone Hfail. eapply wp_step; [exact Hat|done|].
  intros s' rc t t' row Ht Hs Hf Hat'.
  destruct (step_active_session _ _ _ _ _ _ Hs eq_refl) as (-> & Hr & Hd); [by split|].
  unfold active_session_row, active_for in *. rewrite param_bind_eq in *.
  destruct (decide (rc = SQLITE_ROW)) as [->|]; [|destruct (decide (rc = SQLITE_DONE)) as [->|]].
  - eapply Hrow; [done| |done]. destruct (Hr eq_refl) as (i & x & Hx & [E1 E2] & _).
    exists i, x. naive_solver.
  - eapply Hdone; [done| |done]. intros (i & x & Hx & E1 & E2). eapply (Hd eq_refl).
    exists i, x. split; [done|]. split; [|done]. by rewrite E1.
  - eapply Hfail; [apply Hf; [by apply complete_unconstrained|done|done]|done|done|by eapply db_at_rely].
Qed.

Lemma wp_step_price p city_id (Q : Z -> database -> Prop) s :
  db_at s h C (<[p := bind_param 1 (SqlInteger city_id) (Statement h select_price_sql ∅ [])]> S) T ->
  (forall s' st t c, rely T t -> cities t !! city_id = Some c ->
     sqlite3_column_double p 0 (db_sqlite s') = price_per_minute c ->
     db_at s' h C (<[p := st]> S) t -> Q SQLITE_ROW s') ->
  (forall s' st t, rely T t -> cities t !! city_id = None ->
     db_at s' h C (<[p := st]> S) t -> Q SQLITE_DONE s') ->
  (forall s' st rc, sqlite_failure -> rc <> SQLITE_ROW -> rc <> SQLITE_DONE ->
     db_at s' h C (<[p := st]> S) T -> Q rc s') ->
  wp (step p) Q s.
Proof.
  intros Hat Hrow Hdone Hfail. eapply wp_step; [exact Hat|done|].
  intros s' rc t t' row Ht Hs Hf Hat'.
  destruct (step_select_price _ _ _ _ _ _ Hs eq_refl) as (-> & Hr & Hd); [by split|].
  unfold select_price_row in *. rewrite param_bind_eq in *.
  destruct (decide (rc = SQLITE_ROW)) as [->|]; [|destruct (decide (rc = SQLITE_DONE)) as [->|]].
  - destruct (Hr eq_refl) as (i & c & Hc & [= <-] & ->). eapply Hrow; [done|done| |done].
    eapply (law_column_double p 0); [by rewrite (at_statements _ _ _ _ _ Hat'), lookup_insert_eq|done].
  - eapply Hdone; [done| |done]. destruct (cities t !! city_id) as [c|] eqn:E; [|done].
    destruct (Hd eq_refl [SqlReal (price_per_minute c)]). by exists city_id, c.
  - eapply Hfail; [apply Hf; [by apply complete_unconstrained|done|done]|done|done|by eapply db_at_rely].
Qed.

Lemma wp_step_insert p v a o c pr b (Q : Z -> database -> Prop) s :
  db_at s h C (<[p := bind_param 6 (SqlInteger b) (bind_param 5 (real_value pr)
      (bind_param 4 (SqlInteger c) (bind_param 3 (real_value o) (bind_param 2 (real_value a)
      (bind_param 1 (SqlText v) (Statement h insert_session_sql ∅ []))))))]> S) T ->
  (forall s' st t i, rely T t -> fresh_key i (sessions t) ->
     is_nan a || is_nan o || is_nan pr = false ->
     db_at s' h C (<[p := st]> S)
       (set_sessions (<[i := Session v a o c pr b None None]> (sessions t)) t) -> Q SQLITE_DONE s') ->
  (forall s' st rc, sqlite_failure \/ is_nan a || is_nan o || is_nan pr = true -> rc <> SQLITE_DONE ->
     db_at s' h C (<[p := st]> S) T -> Q rc s') ->
  wp (step p) Q s.
Proof.
  intros Hat Hdone Hfail. eapply wp_step; [exact Hat|done|].
  intros s' rc t t' row Ht Hs Hf Hat'.
  destruct (step_insert_session _ _ _ _ _ _ Hs eq_refl) as (Hr & Hd).
  { cbn [typed Z.add Pos.add Pos.succ]. params. repeat split; apply of_kind_real. }
  destruct (decide (rc = SQLITE_DONE)) as [->|Hn].
  - destruct Hd as (i & v' & a' & o' & c' & p' & b' & E1 & E2 & E3 & E4 & E5 & E6 & Hi & -> & _).
    params_in E1. params_in E2. params_in E3. params_in E4. params_in E5. params_in E6.
    apply real_value_inv in E2 as [-> N2], E3 as [-> N3], E5 as [-> N5]. simplify_eq.
    eapply Hdone; [exact Ht|exact Hi|by rewrite N2, N3, N5|exact Hat'].
  - subst t'. eapply Hfail; [|done|by eapply db_at_rely].
    destruct (is_nan a || is_nan o || is_nan pr) eqn:E; [by right|left].
    apply orb_false_elim in E as [[E1 E2]%orb_false_elim E3].
    apply Hf; [|done|done]. split; [|done|done]. intros _ j Hj.
    assert (j = 1 \/ j = 2 \/ j = 3 \/ j = 4 \/ j = 5 \/ j = 6) as Hc by lia.
    destruct_or! Hc; subst j; params; try done; by apply real_value_not_null.
Qed.

Lemma wp_step_select p v (Q : Z -> database -> Prop) s :
  db_at s h C (<[p := bind_param 1 (SqlText v) (Statement h select_session_sql ∅ [])]> S) T ->
  (forall s' st t i x, rely T t -> latest_active v t i x ->
     sqlite3_column_int64 p 0 (db_sqlite s') = i ->
     sqlite3_column_int64 p 1 (db_sqlite s') = s_start_time x ->
     sqlite3_column_double p 2 (db_sqlite s') = s_price_per_minute x ->
     db_at s' h C (<[p := st]> S) t -> Q SQLITE_ROW s') ->
  (forall s' st t, rely T t -> ~ parked v t -> db_at s' h C (<[p := st]> S) t -> Q SQLITE_DONE s') ->
  (forall s' st rc, sqlite_failure -> rc <> SQLITE_ROW -> rc <> SQLITE_DONE ->
     db_at s' h C (<[p := st]> S) T -> Q rc s') ->
  wp (step p) Q s.
Proof.
  intros Hat Hrow Hdone Hfail. eapply wp_step; [exact Hat|done|].
  intros s' rc t t' row Ht Hs Hf Hat'.
  destruct (step_select_session _ _ _ _ _ _ Hs eq_refl) as (-> & Hr & Hd); [by split|].
  unfold select_session_row, active_for in *. rewrite param_bind_eq in *.
  destruct (decide (rc = SQLITE_ROW)) as [->|]; [|destruct (decide (rc = SQLITE_DONE)) as [->|]].
  - destruct (Hr eq_refl) as (i & (x & Hx & ([= E1] & E2) & ->) & Hmax).
    pose proof (current_statement _ _ _ _ _ _ _ Hat') as Hst.
    eapply Hrow; [exact Ht| | | | |exact Hat'].
    + split_and!; [exact Hx|done|done|]. intros j y Hy Ey1 Ey2. eapply Hmax. exists y. split; [done|]. split; [|done]. by rewrite Ey1.
    + by eapply (law_column_int64 p 0).
    + by eapply (law_column_int64 p 1).
    + by eapply (law_column_double p 2).
  - eapply Hdone; [done| |done]. intros (i & x & Hx & E1 & E2). eapply (Hd eq_refl).
    exists i, x. split; [done|]. split; [|done]. by rewrite E1.
  - eapply Hfail; [apply Hf; [by apply complete_unconstrained|done|done]|done|done|by eapply db_at_rely].
Qed.

(** The cost column as stored: NULL for a NaN. *)
Definition stored_real (d : double) : option double := real_of (real_value d).

Lemma wp_step_update p e cost i (Q : Z -> database -> Prop) s :
  db_at s h C (<[p := bind_param 3 (SqlInteger i) (bind_param 2 (real_value cost)
      (bind_param 1 (SqlInteger e) (Statement h update_session_sql ∅ [])))]> S) T ->
  (forall s' st t, rely T t ->
     db_at s' h C (<[p := st]> S)
       (set_sessions (alter (close_session (Some e) (stored_real cost)) i (sessions t)) t) ->
     Q SQLITE_DONE s') ->
  (forall s' st rc, sqlite_failure -> rc <> SQLITE_DONE ->
     db_at s' h C (<[p := st]> S) T -> Q rc s') ->
  wp (step p) Q s.
Proof.
  intros Hat Hdone Hfail. eapply wp_step; [exact Hat|done|].
  intros s' rc t t' row Ht Hs Hf Hat'.
  destruct (step_update_session _ _ _ _ _ _ Hs eq_refl) as (Hr & Hd).
  { cbn [typed Z.add Pos.add Pos.succ]. params. repeat split; apply of_kind_real. }
  destruct (decide (rc = SQLITE_DONE)) as [->|Hn].
  - destruct Hd as [(E & _)|(i' & E & -> & _)]; params_in E; [done|]. params_in Hat'. simplify_eq.
    eapply Hdone; [exact Ht|exact Hat'].
  - subst t'. eapply Hfail; [apply Hf; [by apply complete_unconstrained|done|done]|done|by eapply db_at_rely].
Qed.
(** *** Bindings whose result the sources ignore

    [offered sql binds st]: the statement has the text [sql], and each of the
    parameters [binds] is bound, or still NULL because its binding failed. *)
Definition offered (sql : string) (binds : list (Z * sql_value)) (st : statement) : Prop :=
  stmt_connection st = h /\ stmt_sql st = sql /\ stmt_row st = [] /\
  Forall (fun b => param st b.1 = b.2 \/ (param st b.1 = SqlNull /\ sqlite_failure)) binds /\
  forall j, j ∉ binds.*1 -> param st j = SqlNull.

Lemma wp_prepare_offered sql (Q : Z * Z -> database -> Prop) s :
  db_at s h C S T ->
  (forall s' rc p, sqlite_failure -> rc <> SQLITE_OK -> db_at s' h C S T -> Q (rc, p) s') ->
  (forall s' p st, S !! p = None -> offered sql [] st -> db_at s' h C (<[p := st]> S) T ->
     Q (SQLITE_OK, p) s') ->
  wp (prepare sql) Q s.
Proof.
  intros Hat Hbad Hok. eapply wp_prepare; [exact Hat|done|].
  intros s' p Hp Hat'. eapply Hok; [done| |exact Hat']. split_and!; done.
Qed.

Lemma wp_bind_unchecked p i v sql binds st (Q : Z -> database -> Prop) s :
  db_at s h C (<[p := st]> S) T -> offered sql binds st -> i ∉ binds.*1 ->
  (forall s' rc st', offered sql ((i, v) :: binds) st' -> db_at s' h C (<[p := st']> S) T -> Q rc s') ->
  wp (call (sqlite3_bind p i v)) Q s.
Proof.
  intros Hat (E1 & E2 & E3 & E4 & E5) Hi HQ. eapply wp_bind_call; [exact Hat| |].
  - intros s' rc F _ Hat'. eapply HQ; [|exact Hat']. split_and!; [done..| |].
    + constructor; [|done]. right. split; [by apply E5|done].
    + intros j Hj. apply E5. set_solver.
  - intros s' Hat'. eapply HQ; [|exact Hat']. split_and!; [done..| |].
    + constructor; [left; apply param_bind_eq|].
      rewrite Forall_forall in E4. apply Forall_forall. intros [j w] Hin. cbn.
      rewrite param_bind_ne; [by apply (E4 (j, w))|].
      intros ->. apply Hi, list_elem_of_fmap. by exists (j, w).
    + intros j Hj. rewrite param_bind_ne by set_solver. apply E5. set_solver.
Qed.

Lemma offered_param sql binds st i v : offered sql binds st -> (i, v) ∈ binds ->
  param st i = v \/ (param st i = SqlNull /\ sqlite_failure).
Proof. intros (_ & _ & _ & HF & _) Hin. rewrite Forall_forall in HF. by apply (HF (i, v)). Qed.

Lemma offered_kind sql binds st k i v : offered sql binds st -> (i, v) ∈ binds -> of_kind k v ->
  of_kind k (param st i).
Proof. intros Ho Hin Hk. destruct (offered_param _ _ _ _ _ Ho Hin) as [->|[-> _]]; by destruct k. Qed.

Lemma offered_real sql binds st i x y : offered sql binds st -> (i, real_value x) ∈ binds ->
  param st i = SqlReal y -> x = y.
Proof.
  intros Ho Hin Hp. destruct (offered_param _ _ _ _ _ Ho Hin) as [E|[E _]]; rewrite E in Hp; [|done].
  symmetry. by apply real_value_inv in Hp as [-> _].
Qed.

Ltac in_binds := repeat first [apply list_elem_of_here | apply list_elem_of_further].
Ltac offered_typed Ho :=
  cbn [typed Z.add Pos.add Pos.succ]; split_and!; try done;
  (eapply offered_kind; [exact Ho|in_binds|try done; apply of_kind_real]).

Lemma wp_step_find p st latitude longitude (Q : Z -> database -> Prop) s :
  db_at s h C (<[p := st]> S) T ->
  offered find_city_sql [(4, real_value longitude); (3, real_value longitude);
                         (2, real_value latitude); (1, real_value latitude)] st ->
  (forall s' st t i c, rely T t -> cities t !! i = Some c -> city_contains c latitude longitude = true ->
     sqlite3_column_int p 0 (db_sqlite s') = s32 i ->
     db_at s' h C (<[p := st]> S) t -> Q SQLITE_ROW s') ->
  (forall s' st t, rely T t ->
     sqlite_failure \/ (forall i c, cities t !! i = Some c -> city_contains c latitude longitude = false) ->
     db_at s' h C (<[p := st]> S) t -> Q SQLITE_DONE s') ->
  (forall s' st rc, sqlite_failure -> rc <> SQLITE_ROW -> rc <> SQLITE_DONE ->
     db_at s' h C (<[p := st]> S) T -> Q rc s') ->
  wp (step p) Q s.
Proof.
  intros Hat Ho Hrow Hdone Hfail.
  pose proof Ho as (E1 & E2 & E3 & _). eapply wp_step; [exact Hat|done|].
  intros s' rc t t' row Ht Hs Hf Hat'.
  destruct (step_find_city _ _ _ _ _ _ Hs E2) as (-> & Hr & Hd); [offered_typed Ho|].
  pose proof (offered_param _ _ _ 1 _ Ho ltac:(in_binds)) as P1.
  pose proof (offered_param _ _ _ 2 _ Ho ltac:(in_binds)) as P2.
  pose proof (offered_param _ _ _ 3 _ Ho ltac:(in_binds)) as P3.
  pose proof (offered_param _ _ _ 4 _ Ho ltac:(in_binds)) as P4.
  unfold find_city_row in *.
  destruct (decide (rc = SQLITE_ROW)) as [->|]; [|destruct (decide (rc = SQLITE_DONE)) as [->|]].
  - destruct (Hr eq_refl) as (i & c & Hc & -> & G1 & G2 & G3 & G4).
    eapply Hrow; [exact Ht|exact Hc| | |exact Hat'].
    + destruct P1 as [P1|[P1 _]], P2 as [P2|[P2 _]], P3 as [P3|[P3 _]], P4 as [P4|[P4 _]];
        rewrite P1 in G1; rewrite P2 in G2; rewrite P3 in G3; rewrite P4 in G4; try done.
      rewrite sql_ge_real in G1, G3. rewrite sql_le_real in G2, G4.
      unfold city_contains. by rewrite G1, G2, G3, G4.
    + eapply (law_column_int p 0); [by eapply current_statement|done].
  - eapply Hdone; [exact Ht| |exact Hat'].
    destruct P1 as [P1|[_ F]]; [|by left]. destruct P2 as [P2|[_ F]]; [|by left].
    destruct P3 as [P3|[_ F]]; [|by left]. destruct P4 as [P4|[_ F]]; [|by left]. right.
    intros i c Hc. apply not_true_iff_false. unfold city_contains. intros G.
    apply andb_prop in G as [[[G1 G2]%andb_prop G3]%andb_prop G4].
    apply (Hd eq_refl [SqlInteger i]). exists i, c.
    by rewrite P1, P2, P3, P4, !sql_ge_real, !sql_le_real.
  - eapply Hfail; [|done|done|by eapply db_at_rely].
    apply Hf; [by apply complete_unconstrained; rewrite E2|done|done].
Qed.

Lemma wp_step_get p st city_id (Q : Z -> database -> Prop) s :
  db_at s h C (<[p := st]> S) T ->
  offered get_city_sql [(1, SqlInteger city_id)] st ->
  (forall s' st t c, rely T t -> cities t !! city_id = Some c ->
     (sqlite3_column_text p 0 (db_sqlite s') = Some (city_name c) \/
      (sqlite3_column_text p 0 (db_sqlite s') = None /\ sqlite_failure)) ->
     sqlite3_column_double p 1 (db_sqlite s') = min_latitude c ->
     sqlite3_column_double p 2 (db_sqlite s') = max_latitude c ->
     sqlite3_column_double p 3 (db_sqlite s') = min_longitude c ->
     sqlite3_column_double p 4 (db_sqlite s') = max_longitude c ->
     sqlite3_column_double p 5 (db_sqlite s') = price_per_minute c ->
     db_at s' h C (<[p := st]> S) t -> Q SQLITE_ROW s') ->
  (forall s' st t, rely T t -> sqlite_failure \/ cities t !! city_id = None ->
     db_at s' h C (<[p := st]> S) t -> Q SQLITE_DONE s') ->
  (forall s' st rc, sqlite_failure -> rc <> SQLITE_ROW -> rc <> SQLITE_DONE ->
     db_at s' h C (<[p := st]> S) T -> Q rc s') ->
  wp (step p) Q s.
Proof.
  intros Hat Ho Hrow Hdone Hfail.
  pose proof Ho as (E1 & E2 & E3 & _). eapply wp_step; [exact Hat|done|].
  intros s' rc t t' row Ht Hs Hf Hat'.
  destruct (step_get_city _ _ _ _ _ _ Hs E2) as (-> & Hr & Hd); [offered_typed Ho|].
  pose proof (offered_param _ _ _ 1 _ Ho ltac:(in_binds)) as P1. unfold get_city_row in *.
  destruct (decide (rc = SQLITE_ROW)) as [->|]; [|destruct (decide (rc = SQLITE_DONE)) as [->|]].
  - destruct (Hr eq_refl) as (i & c & Hc & P & ->).
    destruct P1 as [P1|[P1 _]]; rewrite P1 in P; simplify_eq.
    pose proof (current_statement _ _ _ _ _ _ _ Hat') as Hst.
    eapply Hrow; [exact Ht|exact Hc| | | | | | |exact Hat'].
    + destruct (law_column_text p 0 _ _ _ Hst eq_refl) as [E|E]; [by left|].
      right. split; [done|]. by eapply column_failed.
    + by eapply (law_column_double p 1).
    + by eapply (law_column_double p 2).
    + by eapply (law_column_double p 3).
    + by eapply (law_column_double p 4).
    + by eapply (law_column_double p 5).
  - eapply Hdone; [exact Ht| |exact Hat']. destruct P1 as [P1|[_ F]]; [right|by left].
    destruct (cities t !! city_id) as [c|] eqn:E; [|done].
    edestruct (Hd eq_refl). eexists city_id, c. split; [done|]. split; [done|reflexivity].
  - eapply Hfail; [|done|done|by eapply db_at_rely].
    apply Hf; [by apply complete_unconstrained; rewrite E2|done|done].
Qed.

Lemma wp_step_reprice p st city price (Q : Z -> database -> Prop) s :
  db_at s h C (<[p := st]> S) T ->
  offered update_city_price_sql [(2, SqlText city); (1, real_value price)] st ->
  double_lt price double_zero = false ->
  (forall s' st t t', rely T t ->
     let n := sqlite3_changes h (db_sqlite s') in
     (n = 0 -> t' = t /\ (sqlite_failure \/ ~ city_exists city t)) ->
     (n <> 0 -> t' = reprice city price t /\ city_exists city t /\ is_nan price = false) ->
     db_at s' h C (<[p := st]> S) t' -> Q SQLITE_DONE s') ->
  (forall s' st rc, sqlite_failure \/ is_nan price = true -> rc <> SQLITE_DONE ->
     db_at s' h C (<[p := st]> S) T -> Q rc s') ->
  wp (step p) Q s.
Proof.
  intros Hat Ho Hprice Hdone Hfail.
  pose proof Ho as (E1 & E2 & E3 & _). eapply wp_step; [exact Hat|done|].
  intros s' rc t t' row Ht Hs Hf Hat'. rewrite E1 in Hs.
  destruct (step_update_city_price _ _ _ _ _ _ Hs E2) as (Hr & Hd); [offered_typed Ho|].
  pose proof (offered_param _ _ _ 1 _ Ho ltac:(in_binds)) as P1.
  pose proof (offered_param _ _ _ 2 _ Ho ltac:(in_binds)) as P2.
  destruct (decide (rc = SQLITE_DONE)) as [->|Hn].
  - destruct Hd as [Hc He]. eapply Hdone; [exact Ht| | |exact Hat'].
    + intros Hz. rewrite Hz in Hc. symmetry in Hc. apply matching_empty in Hc.
      split.
      * destruct He as [[_ ->]|(pr & _ & _ & ->)]; [done|]. by apply reprice_none.
      * destruct P2 as [P2|[_ F]]; [right|by left]. rewrite P2 in Hc. by apply none_named.
    + intros Hz. rewrite Hc in Hz. apply matching_nonempty in Hz as (i & c & Hi & Hname).
      destruct P2 as [P2|[P2 _]]; rewrite P2 in *; [|by unfold named in Hname].
      destruct He as [[He _]|(pr & Epr & _ & ->)].
      { exfalso. eapply (map_filter_empty_not_lookup _ _ _ _ He); [|exact Hi]. exact Hname. }
      destruct P1 as [P1|[P1 _]]; rewrite P1 in Epr; [|done].
      apply real_value_inv in Epr as [-> Hnan]. split; [|split; [|done]].
      * unfold reprice, named. f_equal. apply map_fmap_ext. intros j x _.
        repeat case_decide; naive_solver.
      * exists i, c. split; [done|]. by injection Hname.
  - subst t'. eapply Hfail; [|done|by eapply db_at_rely].
    destruct P1 as [P1|[_ F]]; [|by left].
    destruct (is_nan price) eqn:Hnan; [by right|left].
    apply Hf; [|done|done]. split; rewrite E2; try done. intros _.
    exists price. split; [by rewrite P1; destruct price|].
    apply double_ge_not_lt; [by destruct price|done].
Qed.

Lemma wp_step_delete p st city (Q : Z -> database -> Prop) s :
  db_at s h C (<[p := st]> S) T ->
  offered delete_city_sql [(1, SqlText city)] st ->
  (forall s' st t t', rely T t ->
     let n := sqlite3_changes h (db_sqlite s') in
     (n = 0 -> t' = t /\ (sqlite_failure \/ ~ city_exists city t)) ->
     (n <> 0 -> t' = without_city city t /\ city_exists city t) ->
     db_at s' h C (<[p := st]> S) t' -> Q SQLITE_DONE s') ->
  (forall s' st rc, sqlite_failure -> rc <> SQLITE_DONE ->
     db_at s' h C (<[p := st]> S) T -> Q rc s') ->
  wp (step p) Q s.
Proof.
  intros Hat Ho Hdone Hfail.
  pose proof Ho as (E1 & E2 & E3 & _). eapply wp_step; [exact Hat|done|].
  intros s' rc t t' row Ht Hs Hf Hat'. rewrite E1 in Hs.
  destruct (step_delete_city _ _ _ _ _ _ Hs E2) as (Hr & Hd); [offered_typed Ho|].
  pose proof (offered_param _ _ _ 1 _ Ho ltac:(in_binds)) as P1.
  destruct (decide (rc = SQLITE_DONE)) as [->|Hn].
  - destruct Hd as [Hc He]. eapply Hdone; [exact Ht| | |exact Hat'].
    + intros Hz. rewrite Hz in Hc. symmetry in Hc. apply matching_empty in Hc. split.
      * rewrite He. by apply without_none.
      * destruct P1 as [P1|[_ F]]; [right|by left]. rewrite P1 in Hc. by apply none_named.
    + intros Hz. rewrite Hc in Hz. apply matching_nonempty in Hz as (i & c & Hi & Hname).
      destruct P1 as [P1|[P1 _]]; rewrite P1 in *; [|by unfold named in Hname]. split.
      * rewrite He. unfold without_city, named. f_equal. apply map_filter_ext. naive_solver.
      * exists i, c. split; [done|]. by injection Hname.
  - subst t'. eapply Hfail; [|done|by eapply db_at_rely].
    apply Hf; [by apply complete_unconstrained; rewrite E2| |done]. done.
Qed.

Lemma wp_step_add p st new (Q : Z -> database -> Prop) s :
  db_at s h C (<[p := st]> S) T ->
  offered add_city_sql
    [(6, real_value (price_per_minute new)); (5, real_value (max_longitude new));
     (4, real_value (min_longitude new)); (3, real_value (max_latitude new));
     (2, real_value (min_latitude new)); (1, SqlText (city_name new))] st ->
  (forall s' st t i, rely T t -> city_checks new = true -> ~ city_exists (city_name new) t ->
     fresh_key i (cities t) ->
     db_at s' h C (<[p := st]> S) (set_cities (<[i := new]> (cities t)) t) -> Q SQLITE_DONE s') ->
  (forall s' st rc, rc <> SQLITE_DONE -> db_at s' h C (<[p := st]> S) T -> Q rc s') ->
  wp (step p) Q s.
Proof.
  intros Hat Ho Hdone Hfail.
  pose proof Ho as (E1 & E2 & E3 & _). eapply wp_step; [exact Hat|done|].
  intros s' rc t t' row Ht Hs Hf Hat'.
  destruct (step_add_city _ _ _ _ _ _ Hs E2) as (Hr & Hd); [offered_typed Ho|].
  destruct (decide (rc = SQLITE_DONE)) as [->|Hn]; [|subst t'; eapply Hfail; [done|by eapply db_at_rely]].
  destruct Hd as (i & name & a & b & c & d & pr & P1 & P2 & P3 & P4 & P5 & P6 & Hck & Hun & Hi & -> & _).
  assert (new = City name a b c d pr) as ->.
  { destruct (offered_param _ _ _ 1 _ Ho ltac:(in_binds)) as [E|[E _]]; rewrite E in P1; [|done].
    destruct new as [n' a' b' c' d' p']; cbn in *. f_equal; [congruence|..].
    - by eapply (offered_real _ _ _ 2); [exact Ho|in_binds|].
    - by eapply (offered_real _ _ _ 3); [exact Ho|in_binds|].
    - by eapply (offered_real _ _ _ 4); [exact Ho|in_binds|].
    - by eapply (offered_real _ _ _ 5); [exact Ho|in_binds|].
    - by eapply (offered_real _ _ _ 6); [exact Ho|in_binds|]. }
  eapply Hdone; [exact Ht|exact Hck| |exact Hi|exact Hat'].
  intros (j & x & Hj & E). by eapply Hun.
Qed.
Lemma wp_changes (Q : Z -> database -> Prop) s :
  db_at s h C S T -> Q (sqlite3_changes h (db_sqlite s)) s -> wp changes Q s.
Proof. intros [<- _ _ _] HQ. by apply wp_bind, wp_gets. Qed.
End Rules.

(** The parameters a run of bindings sets. *)
Ltac chain_of l :=
  lazymatch l with
  | [] => constr:(@nil (Z * sql_value))
  | ?b :: ?l =>
      let r := chain_of l in
      lazymatch b with
      | bind_double _ ?i ?d => constr:((i, real_value d) :: r)
      | bind_int64 _ ?i ?z => constr:((i, SqlInteger z) :: r)
      | bind_int _ ?i ?z => constr:((i, SqlInteger z) :: r)
      | call (sqlite3_bind _ ?i ?v) => constr:((i, v) :: r)
      end
  end.

(** A run of bindings, the first call included. *)
Ltac db_chain :=
  lazymatch goal with
  | Hat : db_at ?s _ _ _ _ |- wp (call (sqlite3_bind ?p ?i ?v)) ?Q ?s =>
      let q := eval cbv beta in (Q 0 s) in
      lazymatch q with
      | wp (mbind ?K (bind_all _ ?l)) ?Q' _ =>
          let binds := chain_of l in
          apply (wp_mono _ (fun r => wp (bind_all r ((fun b => call (sqlite3_bind p b.1 b.2)) <$> binds))
                                        (fun r => wp (K r) Q')));
          [eapply wp_bind_chain; [exact Hat|intros ? ? ? ? ? ?|intros ? ?]
          |intros ? ?; apply wp_bind]; cbn [foldl fst snd]
      end
  end.

(** The statements whose bindings are not checked. *)
Ltac results_ignored sql :=
  lazymatch sql with
  | find_city_sql => idtac
  | get_city_sql => idtac
  | add_city_sql => idtac
  | update_city_price_sql => idtac
  | delete_city_sql => idtac
  end.

(** Symbolic execution: one call, with its bookkeeping. *)
Ltac db_call :=
  match goal with
  | Hat : db_at ?s _ _ _ _ |- wp (log_error _) _ ?s =>
      eapply wp_log_zoom; [exact Hat|]; intros ? _ ?
  | Hat : db_at ?s _ _ _ _ |- wp (log_info _) _ ?s =>
      eapply wp_log_zoom; [exact Hat|]; intros ? _ ?
  | Hat : db_at ?s _ _ _ _ |- wp (log_debug _) _ ?s =>
      eapply wp_log_zoom; [exact Hat|]; intros ? _ ?
  | Hat : db_at ?s _ _ _ _ |- wp (prepare ?sql) _ ?s =>
      results_ignored sql;
      eapply wp_prepare_offered; [exact Hat|intros ? ? ? ? ? ?|intros ? ? ? ? ? ?]
  | Hat : db_at ?s _ _ _ _ |- wp (prepare _) _ ?s =>
      eapply wp_prepare; [exact Hat|intros ? ? ? ? ? ?|intros ? ? ? ?]
  | Hat : db_at ?s _ _ _ _ |- wp (finalize _) _ ?s =>
      eapply wp_finalize; [exact Hat|assumption|]; intros ? ?
  | Hat : db_at ?s _ _ _ _ |- wp (step _) _ ?s =>
      first
        [ eapply wp_step_active; [exact Hat|intros ? ? ? ? ? ?|intros ? ? ? ? ? ?|intros ? ? ? ? ? ? ?]
        | eapply wp_step_price;
            [exact Hat|intros ? ? ? ? ? ? Hprice ?|intros ? ? ? ? ? ?|intros ? ? ? ? ? ? ?]
        | eapply wp_step_insert; [exact Hat|intros ? ? ? ? ? ? ? ?|intros ? ? ? ? ? ?]
        | eapply wp_step_select;
            [exact Hat|intros ? ? ? ? ? ? ? Hid Hstart Hprice ?|intros ? ? ? ? ? ?|intros ? ? ? ? ? ? ?]
        | eapply wp_step_update; [exact Hat|intros ? ? ? ? ?|intros ? ? ? ? ? ?]
        | eapply wp_step_find;
            [exact Hat|eassumption|intros ? ? ? ? ? ? ? ? Hid ?|intros ? ? ? ? ? ?|intros ? ? ? ? ? ? ?]
        | eapply wp_step_get;
            [exact Hat|eassumption|intros ? ? ? ? ? ? Htext Hc1 Hc2 Hc3 Hc4 Hc5 ?|intros ? ? ? ? ? ?
            |intros ? ? ? ? ? ? ?]
        | eapply wp_step_reprice;
            [exact Hat|eassumption|done|intros ? ? ? ? ? ? Hnone Hsome ?|intros ? ? ? ? ? ?]
        | eapply wp_step_delete; [exact Hat|eassumption|intros ? ? ? ? ? ? Hnone Hsome ?|intros ? ? ? ? ? ?] ]
  | Hat : db_at ?s _ _ _ _ |- wp changes _ ?s => apply (wp_changes _ _ _ _ _ _ Hat)
  | Hoff : offered _ _ _ ?st, Hat : db_at ?s _ _ (<[_ := ?st]> _) _
      |- wp (call (sqlite3_bind _ _ _)) _ ?s =>
      eapply wp_bind_unchecked;
        [exact Hat|exact Hoff|refine (bool_decide_unpack _ _); vm_compute; exact I|];
      intros ? ? ? ? ?
  | |- wp (call (sqlite3_bind _ _ _)) (fun a s' => wp (mbind _ (bind_all a _)) _ s') _ => db_chain
  | Hat : db_at ?s _ _ _ _ |- wp (call (sqlite3_bind _ _ _)) ?Q ?s =>
      eapply wp_bind_call; [exact Hat|intros ? ? ? ? ?|intros ? ?]
  | |- wp (bind_text _ _ _) _ _ => unfold bind_text
  | |- wp (bind_int _ _ _) _ _ => unfold bind_int
  | |- wp (bind_int64 _ _ _) _ _ => unfold bind_int64
  | |- wp (bind_double _ _ _) _ _ => unfold bind_double
  | |- wp (gets _) _ _ => apply wp_gets
  | |- wp (ask _) _ _ => apply wp_ask
  | |- wp (mret _) _ _ => apply wp_ret
  | |- wp (mbind _ _) _ _ => apply wp_bind
  end; cbv beta iota.

(** Decide a test of a result code. *)
Ltac db_test :=
  match goal with
  | H : ?rc <> ?k |- context [?rc =? ?k] => rewrite (proj2 (Z.eqb_neq rc k) H)
  | |- wp (if ?rc =? ?k then _ else _) _ _ =>
      let b := eval cbv in (rc =? k) in
      match b with true => idtac | false => idtac end; change (rc =? k) with b
  | |- wp (if negb (?rc =? ?k) then _ else _) _ _ =>
      let b := eval cbv in (rc =? k) in
      match b with true => idtac | false => idtac end; change (rc =? k) with b
  | |- wp (if ?rc =? ?k then _ else _) _ _ => destruct (Z.eqb_spec rc k); [subst rc|]
  | |- wp (if negb (?rc =? ?k) then _ else _) _ _ => destruct (Z.eqb_spec rc k); [subst rc|]
  end; cbn [negb].
Ltac db_go := repeat (db_test || db_call).

(** Compose what other processes did between two points. *)
Ltac db_rely :=
  lazymatch goal with
  | |- rely ?a _ =>
      first [reflexivity | assumption | eapply at_tables; eassumption
            | match goal with H : rely a ?c |- _ => transitivity c; [exact H|solve [db_rely]] end]
  end.
