(* ===== verification/ParkingDatabase.v ===== *)
(** ParkingDatabase: what the functions of SqliteDatabase promise, as the
    results and the tables they leave, and the properties of the parking
    sessions over sequences of calls. *)

From S2P Require Import Prelude Machine CLib Ieee Posix Sqlite SqliteDatabase SqliteRules.

(** ** Starting and stopping *)

(** Nothing but the tables differs: the same connection, and every statement
    that was prepared was finalized. *)
Definition same_resources `{SqliteLaws} (s s' : database) : Prop :=
  db_handle s' = db_handle s /\ connections (db_sqlite s') = connections (db_sqlite s) /\
  statements (db_sqlite s') = statements (db_sqlite s).

Section Specification.
Context `{SqliteLaws} (T : tables).

(** The results of [sqlite_database_start_parking] for arguments that are
    acceptable or not, and the tables it leaves. *)
Inductive start_outcome (acceptable : bool) (v : list byte) (latitude longitude : double)
    (city_id start_time : Z) : Z -> tables -> Prop :=
| start_refused t' : acceptable = false -> rely T t' ->
    start_outcome acceptable v latitude longitude city_id start_time (-1) t'
| start_already_parked t t' : rely T t -> parked v t -> rely t t' ->
    start_outcome acceptable v latitude longitude city_id start_time (-1) t'
| start_no_city t t' : rely T t -> cities t !! city_id = None -> rely t t' ->
    start_outcome acceptable v latitude longitude city_id start_time (-1) t'
| start_not_a_number t t' c : rely T t -> cities t !! city_id = Some c ->
    is_nan latitude || is_nan longitude || is_nan (price_per_minute c) = true -> rely t t' ->
    start_outcome acceptable v latitude longitude city_id start_time (-1) t'
| start_sqlite_error t' : sqlite_failure -> rely T t' ->
    start_outcome acceptable v latitude longitude city_id start_time (-1) t'
| start_done t1 t2 t3 t' c i :
    acceptable = true -> rely T t1 -> ~ parked v t1 ->
    rely t1 t2 -> cities t2 !! city_id = Some c ->
    rely t2 t3 -> fresh_key i (sessions t3) ->
    rely (set_sessions (<[i := Session v latitude longitude city_id (price_per_minute c)
                               start_time None None]> (sessions t3)) t3) t' ->
    start_outcome acceptable v latitude longitude city_id start_time 0 t'.

(** The results of [sqlite_database_stop_parking]. *)
Inductive stop_outcome (acceptable : bool) (v : list byte) (end_time : Z)
    : Z * option (Z * double) -> tables -> Prop :=
| stop_refused t' : acceptable = false -> rely T t' ->
    stop_outcome acceptable v end_time (-1, None) t'
| stop_not_parked t t' : rely T t -> ~ parked v t -> rely t t' ->
    stop_outcome acceptable v end_time (-1, None) t'
| stop_too_early t t' i x : rely T t -> latest_active v t i x -> end_time < s_start_time x ->
    rely t t' -> stop_outcome acceptable v end_time (-1, None) t'
| stop_sqlite_error t' : sqlite_failure -> rely T t' ->
    stop_outcome acceptable v end_time (-1, None) t'
| stop_done t1 t2 t' i x minutes cost :
    acceptable = true -> rely T t1 -> latest_active v t1 i x -> s_start_time x <= end_time ->
    parking_minutes (s_start_time x) end_time = Some minutes ->
    cost = parking_cost minutes (s_price_per_minute x) ->
    rely t1 t2 ->
    rely (set_sessions (alter (close_session (Some end_time) (stored_real cost)) i (sessions t2)) t2) t' ->
    stop_outcome acceptable v end_time (0, Some (s_start_time x, cost)) t'.

(** The results of [sqlite_database_find_city]. *)
Inductive find_outcome (missing : bool) (latitude longitude : double) : Z * option Z -> tables -> Prop :=
| find_refused t' : missing = true -> rely T t' ->
    find_outcome missing latitude longitude (-1, None) t'
| find_sqlite_error t' : sqlite_failure -> rely T t' ->
    find_outcome missing latitude longitude (-1, None) t'
| find_no_city t t' : rely T t ->
    (forall i c, cities t !! i = Some c -> city_contains c latitude longitude = false) ->
    rely t t' -> find_outcome missing latitude longitude (-1, None) t'
| find_done t t' i c : missing = false -> rely T t ->
    cities t !! i = Some c -> city_contains c latitude longitude = true -> rely t t' ->
    find_outcome missing latitude longitude (0, Some (s32 i)) t'.

(** The results of [sqlite_database_get_city]. *)
Inductive get_outcome (acceptable : bool) (city_id : Z) (city_size : nat)
    : Z * option city_output -> tables -> Prop :=
| get_refused t' : acceptable = false -> rely T t' -> get_outcome acceptable city_id city_size (-1, None) t'
| get_sqlite_error t' : sqlite_failure -> rely T t' -> get_outcome acceptable city_id city_size (-1, None) t'
| get_no_city t t' : rely T t -> cities t !! city_id = None -> rely t t' ->
    get_outcome acceptable city_id city_size (-1, None) t'
| get_done t t' c : acceptable = true -> rely T t -> cities t !! city_id = Some c -> rely t t' ->
    get_outcome acceptable city_id city_size
      (0, Some (CityOutput (take (city_size - 1) (city_name c) ++ [NUL]) (min_latitude c)
                  (max_latitude c) (min_longitude c) (max_longitude c) (price_per_minute c))) t'.

(** The results of the functions that change the cities. *)
Inductive reprice_outcome (acceptable : bool) (city : list byte) (price : double) : Z -> tables -> Prop :=
| reprice_refused t' : acceptable = false -> rely T t' -> reprice_outcome acceptable city price (-1) t'
| reprice_error t' : sqlite_failure \/ is_nan price = true -> rely T t' ->
    reprice_outcome acceptable city price (-1) t'
| reprice_no_city t t' : rely T t -> ~ city_exists city t -> rely t t' ->
    reprice_outcome acceptable city price (-1) t'
| reprice_done t t' : acceptable = true -> is_nan price = false -> rely T t -> city_exists city t ->
    rely (reprice city price t) t' -> reprice_outcome acceptable city price 0 t'.

Inductive delete_outcome (missing : bool) (city : list byte) : Z -> tables -> Prop :=
| delete_refused t' : missing = true -> rely T t' -> delete_outcome missing city (-1) t'
| delete_error t' : sqlite_failure -> rely T t' -> delete_outcome missing city (-1) t'
| delete_no_city t t' : rely T t -> ~ city_exists city t -> rely t t' ->
    delete_outcome missing city (-1) t'
| delete_done t t' : missing = false -> rely T t -> city_exists city t ->
    rely (without_city city t) t' -> delete_outcome missing city 0 t'.

Inductive add_outcome (new : parking_city) : Z -> tables -> Prop :=
| add_failed t' : rely T t' -> add_outcome new (-1) t'
| add_done t t' i : rely T t -> city_checks new = true -> ~ city_exists (city_name new) t ->
    fresh_key i (cities t) -> rely (set_cities (<[i := new]> (cities t)) t) t' -> add_outcome new 0 t'.
End Specification.

Section Correctness.
Context `{Environment} `{SqliteLaws}.

Lemma db_at_same s s' T :
  db_at s' (db_handle s) (connections (db_sqlite s)) (statements (db_sqlite s)) T -> same_resources s s'.
Proof. by intros []. Qed.

Lemma start_parking_spec p v latitude longitude city_id start_time s :
  let acceptable := negb (database_missing p s || (city_id <=? 0) || (start_time <=? 0)) in
  wp (sqlite_database_start_parking p (Some v) latitude longitude city_id start_time) (fun r s' =>
    same_resources s s' /\
    start_outcome (tables_of (db_sqlite s)) acceptable v latitude longitude city_id start_time
      r (tables_of (db_sqlite s'))) s.
Proof.
  intros acceptable. pose proof (db_at_self s) as Hat. unfold sqlite_database_start_parking.
  apply wp_bind, wp_gets.
  destruct (_ || _) eqn:Hacc.
  { db_go. split; [by eapply db_at_same|]. by eapply start_refused, at_tables. }
  db_go.
  all: split; [by eapply db_at_same|].
  all: try solve [ eapply start_sqlite_error; [done|db_rely]
                 | eapply start_already_parked; [|eassumption|]; db_rely
                 | eapply start_no_city; [|eassumption|]; db_rely ].
  all: rewrite Hprice in *.
  - eapply start_done; [done| |eassumption| |eassumption| |eassumption|]; db_rely.
  - match goal with H : sqlite_failure \/ _ |- _ => destruct H as [F|F] end.
    + eapply start_sqlite_error; [done|db_rely].
    + eapply start_not_a_number; [|eassumption|exact F|]; db_rely.
Qed.

(** The charge of every session that could be stopped now is defined. *)
Definition charge_defined (T : tables) (v : list byte) (end_time : Z) : Prop :=
  forall t i x, rely T t -> latest_active v t i x -> s_start_time x <= end_time ->
  is_Some (parking_minutes (s_start_time x) end_time).

Lemma stop_parking_spec p v end_time start_time cost s :
  let acceptable :=
    negb (database_missing p s || (end_time <=? 0) || is_null start_time || is_null cost) in
  charge_defined (tables_of (db_sqlite s)) v end_time ->
  wp (sqlite_database_stop_parking p (Some v) end_time start_time cost) (fun r s' =>
    same_resources s s' /\
    stop_outcome (tables_of (db_sqlite s)) acceptable v end_time r (tables_of (db_sqlite s'))) s.
Proof.
  intros acceptable Hdef. pose proof (db_at_self s) as Hat. unfold sqlite_database_stop_parking.
  apply wp_bind, wp_gets.
  destruct (_ || _) eqn:Hacc.
  { db_go. split; [by eapply db_at_same|]. by eapply stop_refused, at_tables. }
  db_go.
  all: try (split; [by eapply db_at_same|]).
  all: try solve [ eapply stop_sqlite_error; [done|db_rely]
                 | eapply stop_not_parked; [|eassumption|]; db_rely ].
  rewrite Hid, Hstart, Hprice. destruct (Z.ltb_spec end_time (s_start_time x)) as [Hlt|Hle].
  { db_go. split; [by eapply db_at_same|]. eapply stop_too_early; [|eassumption|done|]; db_rely. }
  assert (is_Some (parking_minutes (s_start_time x) end_time)) as [minutes Hm] by (by eapply Hdef).
  rewrite Hm. apply wp_bind, wp_ret.
  db_go.
  all: split; [by eapply db_at_same|].
  all: try solve [eapply stop_sqlite_error; [done|db_rely]].
  eapply stop_done; [done| |eassumption|done|done|done| |eapply at_tables; eassumption]; db_rely.
Qed.


Lemma find_city_spec p latitude longitude s :
  wp (sqlite_database_find_city p latitude longitude nonnull) (fun r s' =>
    same_resources s s' /\
    find_outcome (tables_of (db_sqlite s)) (database_missing p s) latitude longitude
      r (tables_of (db_sqlite s'))) s.
Proof.
  pose proof (db_at_self s) as Hat. unfold sqlite_database_find_city.
  apply wp_bind, wp_gets.
  destruct (database_missing p s) eqn:Hacc; cbn [orb is_null].
  { db_go. split; [by eapply db_at_same|]. by eapply find_refused, at_tables. }
  db_go.
  all: split; [by eapply db_at_same|].
  all: try solve [eapply find_sqlite_error; [done|db_rely]].
  - rewrite Hid. eapply find_done; [done| |eassumption|eassumption|]; db_rely.
  - match goal with H : sqlite_failure \/ _ |- _ => destruct H as [F|F] end.
    + eapply find_sqlite_error; [done|db_rely].
    + eapply find_no_city; [|exact F|]; db_rely.
Qed.

Lemma get_city_spec p city_id city_size outputs s :
  let acceptable := negb (database_missing p s || (city_id <=? 0) || bool_decide (city_size = O) ||
                          is_null outputs) in
  wp (sqlite_database_get_city p city_id city_size outputs) (fun r s' =>
    same_resources s s' /\
    get_outcome (tables_of (db_sqlite s)) acceptable city_id city_size r (tables_of (db_sqlite s'))) s.
Proof.
  intros acceptable. pose proof (db_at_self s) as Hat. unfold sqlite_database_get_city.
  apply wp_bind, wp_gets.
  destruct (_ || is_null outputs) eqn:Hacc.
  { db_go. split; [by eapply db_at_same|]. by eapply get_refused, at_tables. }
  db_go.
  all: try (split; [by eapply db_at_same|]).
  all: try solve [eapply get_sqlite_error; [done|db_rely]].
  - destruct Htext as [Htext|[Htext F]]; rewrite Htext; db_go.
    all: (split; [by eapply db_at_same|]).
    + rewrite Hc1, Hc2, Hc3, Hc4, Hc5. eapply get_done; [done| |eassumption|]; db_rely.
    + eapply get_sqlite_error; [done|db_rely].
  - match goal with H : sqlite_failure \/ _ |- _ => destruct H as [F|F] end.
    + eapply get_sqlite_error; [done|db_rely].
    + eapply get_no_city; [|exact F|]; db_rely.
Qed.

Lemma update_city_price_spec p city price s :
  let acceptable := negb (database_missing p s || double_lt price double_zero) in
  wp (sqlite_database_update_city_price p (Some city) price) (fun r s' =>
    same_resources s s' /\
    reprice_outcome (tables_of (db_sqlite s)) acceptable city price r (tables_of (db_sqlite s'))) s.
Proof.
  intros acceptable. pose proof (db_at_self s) as Hat. unfold sqlite_database_update_city_price.
  apply wp_bind, wp_gets.
  destruct (database_missing p s) eqn:Hacc.
  { db_go. split; [by eapply db_at_same|]. by eapply reprice_refused, at_tables. }
  destruct (double_lt price double_zero) eqn:Hprice.
  { db_go. split; [by eapply db_at_same|]. by eapply reprice_refused, at_tables. }
  db_go.
  2: { destruct (Z.eqb_spec (sqlite3_changes (db_handle s) (db_sqlite s'2)) 0) as [Hz|Hz]; db_go.
       all: split; [by eapply db_at_same|].
       - destruct (Hnone Hz) as [-> [F|F]].
         + eapply reprice_error; [by left|db_rely].
         + eapply reprice_no_city; [|exact F|]; db_rely.
       - destruct (Hsome Hz) as (-> & He & Hnan).
         eapply reprice_done; [done|done| |exact He|eapply at_tables; eassumption]; db_rely. }
  all: split; [by eapply db_at_same|].
  all: eapply reprice_error; [tauto|db_rely].
Qed.

Lemma delete_city_spec p city s :
  wp (sqlite_database_delete_city p (Some city)) (fun r s' =>
    same_resources s s' /\
    delete_outcome (tables_of (db_sqlite s)) (database_missing p s) city r (tables_of (db_sqlite s'))) s.
Proof.
  pose proof (db_at_self s) as Hat. unfold sqlite_database_delete_city.
  apply wp_bind, wp_gets.
  destruct (database_missing p s) eqn:Hacc.
  { db_go. split; [by eapply db_at_same|]. by eapply delete_refused, at_tables. }
  db_go.
  2: { destruct (Z.eqb_spec (sqlite3_changes (db_handle s) (db_sqlite s'1)) 0) as [Hz|Hz]; db_go.
       all: split; [by eapply db_at_same|].
       - destruct (Hnone Hz) as [-> [F|F]].
         + eapply delete_error; [done|db_rely].
         + eapply delete_no_city; [|exact F|]; db_rely.
       - destruct (Hsome Hz) as (-> & He).
         eapply delete_done; [done| |exact He|eapply at_tables; eassumption]; db_rely. }
  all: split; [by eapply db_at_same|].
  all: eapply delete_error; [done|db_rely].
Qed.

Lemma add_city_spec p city a b c d price s :
  wp (sqlite_database_add_city p (Some city) a b c d price) (fun r s' =>
    same_resources s s' /\
    add_outcome (tables_of (db_sqlite s)) (City city a b c d price) r (tables_of (db_sqlite s'))) s.
Proof.
  pose proof (db_at_self s) as Hat. unfold sqlite_database_add_city.
  apply wp_bind, wp_gets.
  destruct (database_missing p s) eqn:Hacc.
  { db_go. split; [by eapply db_at_same|]. by eapply add_failed, at_tables. }
  destruct (_ || _) eqn:Harg.
  { db_go. split; [by eapply db_at_same|]. by eapply add_failed, at_tables. }
  db_go.
  2: { eapply (wp_step_add _ _ _ _ _ _ (City city a b c d price)); [eassumption|eassumption|..].
       - intros ? ? ? ? ? ? ? ? ?. db_go. split; [by eapply db_at_same|].
         eapply add_done; [|done|eassumption|eassumption|eapply at_tables; eassumption]; db_rely.
       - intros ? ? ? ? ?. db_go. split; [by eapply db_at_same|]. by eapply add_failed, at_tables. }
  split; [by eapply db_at_same|]. by eapply add_failed, at_tables.
Qed.
End Correctness.

(** ** The charge *)

(** The arithmetic of [parking_minutes] for a stay that does not end before it
    starts. *)
Lemma parking_minutes_eq b e : 0 < b -> b <= e -> e <= INT64_MAX ->
  parking_minutes b e = if e - b <=? 2 ^ 63 - 60 then Some ((e - b + 59) `div` 60) else None.
Proof.
  intros Hb Hbe He. unfold parking_minutes, int64_sub, int64_add, in_int64, INT64_MIN, INT64_MAX in *.
  assert ((- 2 ^ 63 <=? e - b) && (e - b <=? 2 ^ 63 - 1) = true) as -> by lia.
  cbn -[Z.quot Z.pow Z.div Z.leb].
  destruct (Z.leb_spec (e - b) (2 ^ 63 - 60)).
  - assert ((- 2 ^ 63 <=? e - b + 59) && (e - b + 59 <=? 2 ^ 63 - 1) = true) as -> by lia.
    cbn -[Z.quot Z.pow Z.div]. by rewrite Z.quot_div_nonneg by lia.
  - by assert ((- 2 ^ 63 <=? e - b + 59) && (e - b + 59 <=? 2 ^ 63 - 1) = false) as -> by lia.
Qed.

(** The largest end time for which the charge of every session is defined. *)
Definition LAST_END_TIME : Z := INT64_MAX - 58.

Lemma parking_minutes_defined b e : 0 < b -> b <= e -> e <= LAST_END_TIME ->
  is_Some (parking_minutes b e).
Proof.
  intros ? ? He. rewrite parking_minutes_eq by (unfold LAST_END_TIME, INT64_MAX in *; lia).
  unfold LAST_END_TIME, INT64_MAX in He. rewrite (proj2 (Z.leb_le _ _)) by lia. eauto.
Qed.

(** C11: the charge counts every started minute: it is the least number of
    whole minutes that covers the stay, never negative, it grows with the
    stay, and its 64-bit arithmetic overflows exactly when the stay exceeds
    [2^63 - 60] seconds. *)
Theorem charge_rounds_up (b e : Z) : 0 < b -> b <= e -> e <= INT64_MAX ->
  match parking_minutes b e with
  | Some m => 0 <= m /\ e - b <= 60 * m /\ (forall k, e - b <= 60 * k -> m <= k) /\
              (forall e' m', e <= e' -> e' <= INT64_MAX -> parking_minutes b e' = Some m' -> m <= m') /\
              e - b <= 2 ^ 63 - 60
  | None => 2 ^ 63 - 60 < e - b
  end.
Proof.
  intros Hb Hbe He. rewrite parking_minutes_eq by done.
  destruct (Z.leb_spec (e - b) (2 ^ 63 - 60)) as [Hle|]; [|done].
  pose proof (Z.div_mod (e - b + 59) 60 ltac:(lia)) as Hdm.
  pose proof (Z.mod_pos_bound (e - b + 59) 60 ltac:(lia)) as Hmod.
  split; [lia|]. split; [lia|]. split; [lia|].
  split; [|done]. intros e' m' Hee' He'. rewrite parking_minutes_eq by lia.
  destruct (_ <=? _); [|done]. intros [= <-]. apply Z.div_le_mono; lia.
Qed.

Lemma charge_rounds_up_witness :
  parking_minutes 1000 1061 = Some 2 /\ 1061 - 1000 <= 60 * 2 /\
  parking_minutes 1 INT64_MAX = None.
Proof.
  pose proof (charge_rounds_up 1000 1061 ltac:(lia) ltac:(lia) ltac:(vm_compute; discriminate)) as H.
  split; [reflexivity|]. split; [exact (proj1 (proj2 H))|reflexivity].
Defined.

(** ** Sessions over time *)

(** An active session has no cost; a closed one has the charge for its stay
    at its own price. *)
Definition session_ok (x : parking_session) : Prop :=
  0 < s_start_time x /\
  match s_end_time x with
  | None => s_cost x = None
  | Some e => s_start_time x <= e /\ exists m, parking_minutes (s_start_time x) e = Some m /\
                s_cost x = stored_real (parking_cost m (s_price_per_minute x))
  end.

(** Every session is in order and no vehicle is parked twice. *)
Record sessions_ok (m : gmap Z parking_session) : Prop := {
  all_ok : map_Forall (fun _ x => session_ok x) m;
  parked_once : forall i j x y, m !! i = Some x -> m !! j = Some y ->
    s_vehicle_number x = s_vehicle_number y -> s_end_time x = None -> s_end_time y = None -> i = j;
}.

(** The same session, possibly closed since. *)
Definition same_or_closed (x y : parking_session) : Prop :=
  y = x \/ (s_end_time x = None /\ exists e c, y = close_session e c x).

(** No session is lost or rewritten; the only change to one is its closing. *)
Definition history (m m' : gmap Z parking_session) : Prop :=
  forall i x, m !! i = Some x -> exists y, m' !! i = Some y /\ same_or_closed x y.

(** The sessions of a vehicle are all still there, unchanged. *)
Definition untouched (v : list byte) (m m' : gmap Z parking_session) : Prop :=
  forall i x, m !! i = Some x -> s_vehicle_number x = v -> m' !! i = Some x.

#[export] Instance history_preorder : PreOrder history.
Proof.
  split.
  - intros m i x Hx. exists x. split; [done|by left].
  - intros m1 m2 m3 H12 H23 i x Hx. destruct (H12 i x Hx) as (y & Hy & Hxy).
    destruct (H23 i y Hy) as (z & Hz & Hyz). exists z. split; [done|].
    destruct Hxy as [->|(Hn & e & c & ->)]; [done|].
    destruct Hyz as [->|(_ & e' & c' & ->)]; right; (split; [done|]); [by exists e, c|by exists e', c'].
Qed.

#[export] Instance untouched_preorder v : PreOrder (untouched v).
Proof. split; [by intros m i x|]. intros m1 m2 m3 H12 H23 i x Hx Hv. eauto. Qed.

(** What one call may do to the sessions. *)
Inductive session_change (m : gmap Z parking_session) : option (list byte) -> gmap Z parking_session -> Prop :=
| no_change w : session_change m w m
| session_started i v a o c p b : m !! i = None -> 0 < b ->
    (forall j y, m !! j = Some y -> s_vehicle_number y = v -> s_end_time y <> None) ->
    session_change m None (<[i := Session v a o c p b None None]> m)
| session_stopped i x e k : m !! i = Some x -> s_end_time x = None -> s_start_time x <= e ->
    parking_minutes (s_start_time x) e = Some k ->
    session_change m (Some (s_vehicle_number x))
      (alter (close_session (Some e) (stored_real (parking_cost k (s_price_per_minute x)))) i m).

Lemma session_change_ok m w m' : session_change m w m' -> sessions_ok m -> sessions_ok m'.
Proof.
  intros [|i v a o c p b Hi Hb Hfree|i x e k Hi Hact Hle Hk] [Hall Hone]; [done|split|split].
  - by apply map_Forall_insert_2.
  - intros j1 j2 x y Hx Hy Hv Hex Hey.
    apply lookup_insert_Some in Hx as [[<- <-]|[Hn1 Hx]], Hy as [[<- <-]|[Hn2 Hy]]; [done|..].
    + cbn in Hv. by destruct (Hfree _ _ Hy (eq_sym Hv)).
    + cbn in Hv. by destruct (Hfree _ _ Hx Hv).
    + by eapply Hone.
  - intros j y Hy. apply lookup_alter_Some in Hy as [(-> & z & Hz & ->)|[_ Hy]]; [|by eapply Hall].
    rewrite Hi in Hz. injection Hz as <-. split; [by apply (Hall j x)|]. cbn. eauto.
  - intros j1 j2 y1 y2 Hy1 Hy2 Hv He1 He2.
    apply lookup_alter_Some in Hy1 as [(-> & z & Hz & ->)|[Hn1 Hy1]]; [done|].
    apply lookup_alter_Some in Hy2 as [(-> & z & Hz & ->)|[Hn2 Hy2]]; [done|].
    by eapply Hone.
Qed.

Lemma session_change_history m w m' : session_change m w m' -> history m m'.
Proof.
  intros [|i v a o c p b Hi _ _|i x e k Hi Hact _ _]; [done|..]; intros j y Hy.
  - exists y. split; [|by left]. rewrite lookup_insert_ne; [done|congruence].
  - destruct (decide (j = i)) as [->|Hn].
    + rewrite lookup_alter_eq, Hy. eexists. split; [done|]. right. simplify_eq. split; [done|by eauto].
    + rewrite lookup_alter_ne by done. exists y. split; [done|by left].
Qed.

Lemma session_change_untouched m w m' v : session_change m w m' -> w <> Some v -> untouched v m m'.
Proof.
  intros [|i u a o c p b Hi _ _|i x e k Hi Hact _ _] Hw; [done|..]; intros j y Hy Hv.
  - rewrite lookup_insert_ne; [done|congruence].
  - rewrite lookup_alter_ne; [done|]. intros ->. simplify_eq.
Qed.

(** The other processes leave the sessions alone: only Database writes them. *)
Definition sessions_private `{SqliteLaws} : Prop :=
  forall t t', rely t t' -> sessions t' = sessions t.

Section Outcomes.
Context `{SqliteLaws} (Hpriv : sessions_private) (T : tables).

Lemma start_change acc v a o c b r t' :
  start_outcome T acc v a o c b r t' -> (acc = true -> 0 < b) ->
  session_change (sessions T) None (sessions t').
Proof using Hpriv.
  intros Ho Hb. destruct Ho as [t' _ E|t t' E1 _ E2|t t' E1 _ E2|t t' x E1 _ _ E2|t' _ E
    |t1 t2 t3 t' x i Ha E1 Hnp E2 Hc E3 [Hi _] E4].
  - rewrite (Hpriv _ _ E). constructor.
  - rewrite (Hpriv _ _ E2), (Hpriv _ _ E1). constructor.
  - rewrite (Hpriv _ _ E2), (Hpriv _ _ E1). constructor.
  - rewrite (Hpriv _ _ E2), (Hpriv _ _ E1). constructor.
  - rewrite (Hpriv _ _ E). constructor.
  - rewrite (Hpriv _ _ E4). cbn [sessions set_sessions].
    rewrite (Hpriv _ _ E3), (Hpriv _ _ E2), (Hpriv _ _ E1) in *. constructor; [done|by apply Hb|].
    intros j y Hy Hv He. apply Hnp. exists j, y. rewrite (Hpriv _ _ E1). done.
Qed.

Lemma stop_change acc v e r t' :
  stop_outcome T acc v e r t' -> session_change (sessions T) (Some v) (sessions t').
Proof using Hpriv.
  intros Ho. destruct Ho as [t' _ E|t t' E1 _ E2|t t' i x E1 _ _ E2|t' _ E
    |t1 t2 t' i x k cost Ha E1 (Hi & Hv & He & _) Hle Hk -> E2 E3].
  - rewrite (Hpriv _ _ E). constructor.
  - rewrite (Hpriv _ _ E2), (Hpriv _ _ E1). constructor.
  - rewrite (Hpriv _ _ E2), (Hpriv _ _ E1). constructor.
  - rewrite (Hpriv _ _ E). constructor.
  - rewrite (Hpriv _ _ E3). cbn [sessions set_sessions].
    rewrite (Hpriv _ _ E2), (Hpriv _ _ E1) in *. rewrite <- Hv. by constructor.
Qed.

Lemma reprice_change acc city price r t' :
  reprice_outcome T acc city price r t' -> sessions t' = sessions T.
Proof using Hpriv.
  intros [t'' _ E|t'' _ E|t t'' E1 _ E2|t t'' _ _ E1 _ E2];
    rewrite ?(Hpriv _ _ E), ?(Hpriv _ _ E2); cbn; by rewrite ?(Hpriv _ _ E1).
Qed.

Lemma delete_change missing city r t' :
  delete_outcome T missing city r t' -> sessions t' = sessions T.
Proof using Hpriv.
  intros [t'' _ E|t'' _ E|t t'' E1 _ E2|t t'' _ E1 _ E2];
    rewrite ?(Hpriv _ _ E), ?(Hpriv _ _ E2); cbn; by rewrite ?(Hpriv _ _ E1).
Qed.

Lemma add_change new r t' : add_outcome T new r t' -> sessions t' = sessions T.
Proof using Hpriv.
  intros [t'' E|t t'' i E1 _ _ _ E2]; rewrite ?(Hpriv _ _ E), ?(Hpriv _ _ E2); cbn;
    by rewrite ?(Hpriv _ _ E1).
Qed.

Lemma find_change missing la lo r t' : find_outcome T missing la lo r t' -> sessions t' = sessions T.
Proof using Hpriv.
  intros [t'' _ E|t'' _ E|t t'' E1 _ E2|t t'' i c _ E1 _ _ E2];
    rewrite ?(Hpriv _ _ E), ?(Hpriv _ _ E2); by rewrite ?(Hpriv _ _ E1).
Qed.

Lemma get_change acc id n r t' : get_outcome T acc id n r t' -> sessions t' = sessions T.
Proof using Hpriv.
  intros [t'' _ E|t'' _ E|t t'' E1 _ E2|t t'' c _ E1 _ E2];
    rewrite ?(Hpriv _ _ E), ?(Hpriv _ _ E2); by rewrite ?(Hpriv _ _ E1).
Qed.
End Outcomes.

(** ** Sequences of calls *)
Inductive db_op :=
| OpStart (v : list byte) (latitude longitude : double) (city_id start_time : Z)
| OpStop (v : list byte) (end_time : Z)
| OpFindCity (latitude longitude : double)
| OpGetCity (city_id : Z) (city_size : nat)
| OpUpdatePrice (city : list byte) (price : double)
| OpAddCity (new : parking_city)
| OpDeleteCity (city : list byte).

Definition run_db_op `{Environment} `{Sqlite} (op : db_op) : M database unit :=
  match op with
  | OpStart v a o c b => sqlite_database_start_parking nonnull (Some v) a o c b;; mret tt
  | OpStop v e => sqlite_database_stop_parking nonnull (Some v) e nonnull nonnull;; mret tt
  | OpFindCity a o => sqlite_database_find_city nonnull a o nonnull;; mret tt
  | OpGetCity c n => sqlite_database_get_city nonnull c n nonnull;; mret tt
  | OpUpdatePrice city p => sqlite_database_update_city_price nonnull (Some city) p;; mret tt
  | OpAddCity c =>
      sqlite_database_add_city nonnull (Some (city_name c)) (min_latitude c) (max_latitude c)
        (min_longitude c) (max_longitude c) (price_per_minute c);; mret tt
  | OpDeleteCity city => sqlite_database_delete_city nonnull (Some city);; mret tt
  end.

Fixpoint run_db_ops `{Environment} `{Sqlite} (ops : list db_op) : M database unit :=
  match ops with [] => mret tt | op :: ops => run_db_op op;; run_db_ops ops end.

(** The vehicle an operation may close the session of, and its end time. *)
Definition stops (op : db_op) : option (list byte) := match op with OpStop v _ => Some v | _ => None end.
Definition end_time_ok (op : db_op) : Prop :=
  match op with OpStop _ e => e <= LAST_END_TIME | _ => True end.

#[export] Instance same_resources_preorder `{SqliteLaws} : PreOrder same_resources.
Proof. split; [by intros s|]. unfold same_resources. intros s1 s2 s3. naive_solver congruence. Qed.

Section Sequences.
Context `{Environment} `{SqliteLaws} (Hpriv : sessions_private).

Abbreviation db_sessions s := (sessions (tables_of (db_sqlite s))).

Lemma charge_defined_ok s v e : sessions_ok (db_sessions s) -> e <= LAST_END_TIME ->
  charge_defined (tables_of (db_sqlite s)) v e.
Proof using Hpriv.
  intros [Hall _] He t i x Ht (Hx & _ & _) Hle. rewrite (Hpriv _ _ Ht) in Hx.
  apply parking_minutes_defined; [by apply (Hall i x)|done|done].
Qed.

Lemma run_db_op_spec op s : sessions_ok (db_sessions s) -> end_time_ok op ->
  wp (run_db_op op) (fun _ s' => same_resources s s' /\
    session_change (db_sessions s) (stops op) (db_sessions s')) s.
Proof using Hpriv.
  intros Hok Hop. destruct op as [v a o c b|v e|a o|c n|city p|c|city]; apply wp_bind.
  - eapply wp_mono; [apply start_parking_spec|]. intros r s' [Hr Ho]. split; [done|].
    eapply start_change; [done|exact Ho|]. intros Hacc.
    destruct (Z.leb_spec b 0); [|done]. by rewrite orb_true_r in Hacc.
  - eapply wp_mono; [apply stop_parking_spec; by apply charge_defined_ok|].
    intros r s' [Hr Ho]. split; [done|]. by eapply stop_change.
  - eapply wp_mono; [apply find_city_spec|]. intros r s' [Hr Ho]. split; [done|].
    cbn. rewrite (find_change Hpriv _ _ _ _ _ _ Ho). constructor.
  - eapply wp_mono; [apply get_city_spec|]. intros r s' [Hr Ho]. split; [done|].
    cbn. rewrite (get_change Hpriv _ _ _ _ _ _ Ho). constructor.
  - eapply wp_mono; [apply update_city_price_spec|]. intros r s' [Hr Ho]. split; [done|].
    cbn. rewrite (reprice_change Hpriv _ _ _ _ _ _ Ho). constructor.
  - eapply wp_mono; [apply add_city_spec|]. intros r s' [Hr Ho]. split; [done|].
    cbn. rewrite (add_change Hpriv _ _ _ _ Ho). constructor.
  - eapply wp_mono; [apply delete_city_spec|]. intros r s' [Hr Ho]. split; [done|].
    cbn. rewrite (delete_change Hpriv _ _ _ _ _ Ho). constructor.
Qed.

Lemma run_db_ops_spec ops s : sessions_ok (db_sessions s) -> Forall end_time_ok ops ->
  wp (run_db_ops ops) (fun _ s' => same_resources s s' /\
    sessions_ok (db_sessions s') /\ history (db_sessions s) (db_sessions s') /\
    (forall v, Forall (fun op => stops op <> Some v) ops ->
       untouched v (db_sessions s) (db_sessions s'))) s.
Proof using Hpriv.
  revert s. induction ops as [|op ops IH]; intros s Hok Hops.
  - apply wp_ret. by split_and!.
  - apply Forall_cons in Hops as [Hop Hops]. apply wp_bind.
    eapply wp_mono; [by apply run_db_op_spec|]. intros _ s1 [Hr Hc].
    eapply wp_mono; [apply IH; [by eapply session_change_ok|done]|].
    intros _ s2 (Hr2 & Hok2 & Hh & Hu). split_and!; [by etrans|done| |].
    + etrans; [by eapply session_change_history|done].
    + intros v Hv. apply Forall_cons in Hv as [Hv1 Hv2].
      etrans; [by eapply session_change_untouched|by apply Hu].
Qed.
End Sequences.

(** C3: over any sequence of calls, with every failure of SQLite, no vehicle
    is ever parked twice, active sessions have no cost, every closed session
    carries the charge for its own stay at its own price, no session is lost
    or rewritten, and every prepared statement was finalized. *)
Theorem parking_sessions_invariant `{Environment} `{SqliteLaws} (ops : list db_op) (s : database) :
  sessions_private -> Forall end_time_ok ops -> sessions_ok (sessions (tables_of (db_sqlite s))) ->
  wp (run_db_ops ops) (fun _ s' =>
    sessions_ok (sessions (tables_of (db_sqlite s'))) /\
    history (sessions (tables_of (db_sqlite s))) (sessions (tables_of (db_sqlite s'))) /\
    same_resources s s') s.
Proof.
  intros Hpriv Hops Hok. eapply wp_mono; [by apply run_db_ops_spec|]. naive_solver.
Qed.

(** C1: starting a stay, on every path: the results of the call and the tables
    it leaves are those of [start_outcome], the connection is as before and
    every statement it prepared was finalized.  In particular a call that
    returns 0 added exactly one active session, with the price of the city at
    that moment, and a call that returns -1 changed nothing. *)
Theorem start_parking_correct `{Environment} `{SqliteLaws} (p : pointer) (v : list byte)
    (latitude longitude : double) (city_id start_time : Z) (s : database) :
  wp (sqlite_database_start_parking p (Some v) latitude longitude city_id start_time) (fun r s' =>
    same_resources s s' /\
    start_outcome (tables_of (db_sqlite s))
      (negb (database_missing p s || (city_id <=? 0) || (start_time <=? 0)))
      v latitude longitude city_id start_time r (tables_of (db_sqlite s'))) s.
Proof. apply start_parking_spec. Qed.

(** C2: stopping a stay, on every path: the results of the call and the tables
    it leaves are those of [stop_outcome].  A call that returns 0 closed the
    latest active session of the vehicle with the end time and its charge, and
    reports that session's start and charge; one that returns -1 changed
    nothing. *)
Theorem stop_parking_correct `{Environment} `{SqliteLaws} (p : pointer) (v : list byte)
    (end_time : Z) (start_time cost : pointer) (s : database) :
  sessions_private -> sessions_ok (sessions (tables_of (db_sqlite s))) -> end_time <= LAST_END_TIME ->
  wp (sqlite_database_stop_parking p (Some v) end_time start_time cost) (fun r s' =>
    same_resources s s' /\
    stop_outcome (tables_of (db_sqlite s))
      (negb (database_missing p s || (end_time <=? 0) || is_null start_time || is_null cost))
      v end_time r (tables_of (db_sqlite s'))) s.
Proof. intros. apply stop_parking_spec. by apply charge_defined_ok. Qed.

(** C10: when SQLite does not fail, a stay that was started ends with the
    charge computed from the price its city had when it started, whatever
    happens in between to prices, cities and other vehicles. *)
Theorem price_fixed_at_start `{Environment} `{SqliteLaws} (v : list byte) (latitude longitude : double)
    (city_id start_time end_time minutes : Z) (ops : list db_op) (s : database) :
  ~ sqlite_failure -> sessions_private -> sessions_ok (sessions (tables_of (db_sqlite s))) ->
  db_handle s <> 0 ->
  Forall end_time_ok ops -> Forall (fun op => stops op <> Some v) ops ->
  start_time <= end_time <= LAST_END_TIME -> parking_minutes start_time end_time = Some minutes ->
  wp (r ← sqlite_database_start_parking nonnull (Some v) latitude longitude city_id start_time;
      run_db_ops ops;;
      q ← sqlite_database_stop_parking nonnull (Some v) end_time nonnull nonnull;
      mret (r, q)) (fun rq _ =>
    rq.1 = 0 -> exists t c, rely (tables_of (db_sqlite s)) t /\ cities t !! city_id = Some c /\
      rq.2 = (0, Some (start_time, parking_cost minutes (price_per_minute c)))) s.
Proof.
  intros Hnf Hpriv Hok Hh Hops Hv Hse Hm. apply wp_bind.
  eapply wp_mono; [apply start_parking_spec|]. intros r s1 [Hr1 Ho].
  assert (sessions_ok (sessions (tables_of (db_sqlite s1)))) as Hok1.
  { eapply session_change_ok; [eapply start_change; [done|exact Ho|]|done]. intros Hacc.
    destruct (Z.leb_spec start_time 0); [|done]. by rewrite orb_true_r in Hacc. }
  apply wp_bind. eapply wp_mono; [by apply run_db_ops_spec|].
  intros _ s2 (Hr2 & Hok2 & _ & Hu). apply wp_bind.
  eapply wp_mono; [apply stop_parking_spec; apply charge_defined_ok; [done|done|tauto]|].
  intros q s3 [_ Hq]. apply wp_ret. cbn [fst snd]. intros ->.
  inversion Ho as [| | | | |t1 t2 t3 t' c i Hacc E1 _ E2 Hc E3 Hi E4]; subst.
  exists t2, c. split; [by etrans|]. split; [done|].
  remember (Session v latitude longitude city_id (price_per_minute c) start_time None None) as x eqn:Ex.
  assert (sessions (tables_of (db_sqlite s2)) !! i = Some x) as Hx.
  { eapply Hu; [done| |by subst x]. rewrite (Hpriv _ _ E4). cbn. by rewrite lookup_insert_eq. }
  assert (s_vehicle_number x = v /\ s_end_time x = None /\ s_start_time x = start_time /\
          s_price_per_minute x = price_per_minute c) as (Hxv & Hxe & Hxs & Hxp) by (by subst x).
  clear Ex. inversion Hq as [t'' Hbad|t t'' Et Hnp|t t'' j y Et (Hy & Hvy & Hey & _) Hlt|t'' F
    |t4 t5 t'' j y m' cost Ha E5 (Hy & Hvy & Hey & _) Hle Hm' -> E6 E7]; subst.
  - exfalso. destruct Hr1 as (Eh1 & _), Hr2 as (Eh2 & _). unfold database_missing in Hbad.
    cbn in Hbad. rewrite Eh2, Eh1, (proj2 (Z.eqb_neq _ _) Hh) in Hbad.
    apply negb_false_iff in Hbad. rewrite !orb_false_r in Hbad. apply Z.leb_le in Hbad.
    apply negb_true_iff, orb_false_elim in Hacc as [_ Hst%Z.leb_gt]. lia.
  - exfalso. apply Hnp. exists i, x. by rewrite (Hpriv _ _ Et).
  - exfalso. rewrite (Hpriv _ _ Et) in Hy.
    assert (j = i) as -> by (eapply (parked_once _ Hok2); eauto).
    rewrite Hx in Hy. injection Hy as <-. lia.
  - done.
  - rewrite (Hpriv _ _ E5) in Hy.
    assert (j = i) as -> by (eapply (parked_once _ Hok2); eauto).
    rewrite Hx in Hy. injection Hy as <-. congruence.
Qed.

(** Looking up a position: the call returns 0 only with the identifier of
    a city whose rectangle contains the position, and, when SQLite does not
    fail, returns -1 only when no city contains it; a NaN is in no city. *)
Theorem find_city_correct `{Environment} `{SqliteLaws} (p : pointer) (latitude longitude : double)
    (s : database) :
  wp (sqlite_database_find_city p latitude longitude nonnull) (fun r s' =>
    same_resources s s' /\
    find_outcome (tables_of (db_sqlite s)) (database_missing p s) latitude longitude
      r (tables_of (db_sqlite s'))) s.
Proof. apply find_city_spec. Qed.

(** C32: the calls that manage cities, on every path: reading a city returns
    its columns with the name cut to the buffer, a price is replaced exactly
    for the named city, an added city satisfies the constraints of the schema
    and has a new name, a deleted one is gone; a failing call changes nothing,
    and every statement was finalized. *)
Theorem city_functions_correct `{Environment} `{SqliteLaws} (p : pointer) (city : list byte)
    (a b c d price : double) (city_id : Z) (city_size : nat) (outputs : pointer) (s : database) :
  let T := tables_of (db_sqlite s) in
  wp (sqlite_database_get_city p city_id city_size outputs) (fun r s' =>
    same_resources s s' /\
    get_outcome T (negb (database_missing p s || (city_id <=? 0) || bool_decide (city_size = O) ||
                         is_null outputs)) city_id city_size r (tables_of (db_sqlite s'))) s /\
  wp (sqlite_database_update_city_price p (Some city) price) (fun r s' =>
    same_resources s s' /\
    reprice_outcome T (negb (database_missing p s || double_lt price double_zero)) city price
      r (tables_of (db_sqlite s'))) s /\
  wp (sqlite_database_add_city p (Some city) a b c d price) (fun r s' =>
    same_resources s s' /\ add_outcome T (City city a b c d price) r (tables_of (db_sqlite s'))) s /\
  wp (sqlite_database_delete_city p (Some city)) (fun r s' =>
    same_resources s s' /\ delete_outcome T (database_missing p s) city r (tables_of (db_sqlite s'))) s.
Proof.
  split; [apply get_city_spec|]. split; [apply update_city_price_spec|].
  split; [apply add_city_spec|apply delete_city_spec].
Qed.

(** ** Opening, initializing and closing *)
Section Connection.
Context `{Environment} `{SqliteLaws}.

Lemma wp_log_any level f (Q : unit -> database -> Prop) s :
  (forall s', db_sqlite s' = db_sqlite s -> db_handle s' = db_handle s -> Q tt s') ->
  wp (zoom db_world set_db_world (sys_ (sys_log level f))) Q s.
Proof. intros HQ. by apply wp_zoom, wp_sys_, HQ. Qed.

(** No connection is held, or one without statements. *)
Definition connection_ok (s : database) : Prop :=
  connections (db_sqlite s) = (if db_handle s =? 0 then ∅ else {[db_handle s]}) /\
  (db_handle s <> 0 ->
   forall q st, statements (db_sqlite s) !! q = Some st -> stmt_connection st <> db_handle s).

Lemma open_spec p file s : connection_ok s ->
  wp (sqlite_database_open p file) (fun r s' =>
    connection_ok s' /\ statements (db_sqlite s') = statements (db_sqlite s) /\
    (r = 0 -> db_handle s = 0 /\ db_handle s' <> 0 /\
              transaction (db_sqlite s') = transaction (db_sqlite s)) /\
    (r <> 0 -> r = -1 /\ db_handle s' = db_handle s)) s.
Proof.
  intros [Hc Hs]. unfold sqlite_database_open.
  destruct p; cbn [is_null].
  { apply wp_bind, wp_log_any. intros s' E1 E2. apply wp_ret. unfold connection_ok. rewrite E1, E2.
    by split_and!. }
  destruct file as [file|].
  2: { apply wp_bind, wp_log_any. intros s' E1 E2. apply wp_ret. unfold connection_ok. rewrite E1, E2.
       by split_and!. }
  apply wp_bind, wp_gets. destruct (Z.eqb_spec (db_handle s) 0) as [Eh|Eh]; cbn [negb].
  2: { apply wp_bind, wp_log_any. intros s' E1 E2. apply wp_ret. unfold connection_ok. rewrite E1, E2.
       rewrite (proj2 (Z.eqb_neq _ _) Eh). by split_and!. }
  apply wp_bind, wp_call.
  pose proof (law_open file (db_sqlite s)) as L.
  destruct (sqlite3_open file (db_sqlite s)) as [[rc h] q1]. cbn [fst snd].
  destruct L as (L1 & Lt & L2 & L3 & L4). apply wp_bind, wp_modify.
  destruct (Z.eqb_spec rc SQLITE_OK) as [->|Hrc]; cbn [negb].
  - apply wp_bind, wp_log_any. intros s' E1 E2. apply wp_ret. unfold connection_ok. rewrite E1, E2.
    cbn in *. specialize (L2 eq_refl). destruct (L3 L2) as [L5 L6].
    rewrite (proj2 (Z.eqb_neq _ _) L2) in *. rewrite L4, Hc, L1.
    split_and!; [apply right_id_L, _|done|done|done|done].
  - apply wp_bind, wp_log_any. intros s' E1 E2. apply wp_bind, wp_call.
    pose proof (law_close h (db_sqlite s')) as K.
    destruct (sqlite3_close h (db_sqlite s')) as [rc2 q2]. cbn [fst snd]. destruct K as (K1 & K2 & K3).
    apply wp_bind, wp_modify, wp_ret. rewrite E1 in K1, K2, K3. cbn in K1, K2, K3. cbn.
    rewrite Hc in L4. rewrite L1 in K1, K2. rewrite Eh in *. cbn in L4.
    split_and!; [|congruence|done|done]. split; cbn; [|done].
    rewrite K3. destruct (Z.eqb_spec h 0) as [->|Hh0].
    + rewrite L4. by destruct (rc2 =? 0); [set_solver|].
    + rewrite L4. rewrite K2 by (intros q st Hq; by eapply L3). cbn. set_solver.
Qed.

Lemma close_spec p s : connection_ok s ->
  wp (sqlite_database_close p) (fun _ s' =>
    connection_ok s' /\ statements (db_sqlite s') = statements (db_sqlite s) /\
    db_handle s' = (if is_null p then db_handle s else 0)) s.
Proof.
  intros [Hc Hs]. unfold sqlite_database_close.
  destruct p; cbn [is_null].
  { apply wp_log_any. intros s' E1 E2. unfold connection_ok. by rewrite E1, E2. }
  apply wp_bind, wp_gets. destruct (Z.eqb_spec (db_handle s) 0) as [Eh|Eh].
  { apply wp_ret. unfold connection_ok. rewrite Eh in *. done. }
  apply wp_bind, wp_call.
  pose proof (law_close (db_handle s) (db_sqlite s)) as K.
  destruct (sqlite3_close (db_handle s) (db_sqlite s)) as [rc2 q2]. cbn [fst snd].
  destruct K as (K1 & K2 & K3).
  specialize (K2 (Hs Eh)). subst rc2. cbn [negb Z.eqb] in *.
  apply wp_bind, wp_modify, wp_log_any. intros s' E1 E2. unfold connection_ok. rewrite E1, E2. cbn.
  rewrite K3, Hc, K1. split_and!; [set_solver|done|done|done].
Qed.

(** The results of [sqlite_database_initialize]: a fresh schema, or the
    tables as they were, unless even the rollback failed. *)
Inductive initialize_outcome (T : tables) (missing : bool) : Z -> sqlite -> Prop :=
| initialize_refused q : missing = true -> rely T (tables_of q) -> transaction q = None ->
    initialize_outcome T missing (-1) q
| initialize_done q : missing = false -> tables_of q = initial_tables -> transaction q = None ->
    initialize_outcome T missing 0 q
| initialize_undone q : rely T (tables_of q) -> transaction q = None ->
    initialize_outcome T missing (-1) q
| initialize_stuck q t : rely T t -> transaction q = Some t ->
    initialize_outcome T missing (-1) q.

Lemma initialize_spec p s : transaction (db_sqlite s) = None ->
  wp (sqlite_database_initialize p) (fun r s' =>
    same_resources s s' /\
    initialize_outcome (tables_of (db_sqlite s)) (database_missing p s) r (db_sqlite s')) s.
Proof.
  intros Htx. unfold sqlite_database_initialize, database_missing, same_resources.
  destruct p; cbn [is_null orb].
  { apply wp_bind, wp_log_any. intros s' E1 E2. apply wp_ret. rewrite E1, E2.
    split; [done|]. by apply initialize_refused. }
  apply wp_bind, wp_gets. destruct (Z.eqb_spec (db_handle s) 0) as [Eh|Eh].
  { apply wp_bind, wp_log_any. intros s' E1 E2. apply wp_ret. rewrite E1, E2.
    split; [done|]. by apply initialize_refused. }
  apply wp_bind, wp_call.
  pose proof (law_initialize (db_handle s) (db_sqlite s) Htx) as L.
  destruct (sqlite3_exec (db_handle s) initialize_sql (db_sqlite s)) as [[rc msg] q1]. cbn [fst snd].
  destruct L as (L1 & L2 & t & Ht & L3). destruct (Z.eqb_spec rc SQLITE_OK) as [->|Hrc]; cbn [negb].
  { apply wp_bind, wp_log_any. intros s' E1 E2. apply wp_ret. rewrite E1, E2. cbn.
    destruct L3 as [L3 L4]. split; [done|]. by apply initialize_done. }
  apply wp_bind, wp_log_any. intros s1 E1 E2. cbn in E1, E2.
  assert (forall s2,
    db_handle s2 = db_handle s -> connections (db_sqlite s2) = connections (db_sqlite s) ->
    statements (db_sqlite s2) = statements (db_sqlite s) ->
    (transaction (db_sqlite s2) = None /\ rely t (tables_of (db_sqlite s2)) \/
     transaction (db_sqlite s2) = Some t) ->
    wp (call (sqlite3_exec (db_handle s) rollback_sql);; mret (-1)) (fun r s' =>
      (db_handle s' = db_handle s /\ connections (db_sqlite s') = connections (db_sqlite s) /\
       statements (db_sqlite s') = statements (db_sqlite s)) /\
      initialize_outcome (tables_of (db_sqlite s)) false r (db_sqlite s')) s2) as Hroll.
  { intros s2 H1' H2' H3' H4'. apply wp_bind, wp_call, wp_ret.
    pose proof (law_rollback (db_handle s) (db_sqlite s2)) as R.
    destruct (sqlite3_exec (db_handle s) rollback_sql (db_sqlite s2)) as [[rc2 msg2] q2].
    destruct R as (R1 & R2 & R3). cbn in *. split; [split_and!; congruence|].
    destruct H4' as [[Hn Hr]|Hsome].
    - rewrite Hn in R3. destruct R3 as [R3 R4]. apply initialize_undone; [|done]. by repeat (etrans; [eassumption|]).
    - rewrite Hsome in R3. destruct (rc2 =? 0), R3 as [R3 R4].
      + apply initialize_undone; [|done]. by etrans.
      + by eapply initialize_stuck. }
  destruct msg.
  - apply wp_bind, wp_call. cbn. destruct (law_free (db_sqlite s1)) as (F1 & F2 & F3 & F4).
    apply Hroll; cbn; [congruence|congruence|congruence|].
    rewrite E1 in F3, F4 |- *. rewrite F3. destruct L3 as [[L3 L4]|L3]; rewrite L3 in *; [left|by right].
    split; [done|]. by rewrite <- L4.
  - apply wp_bind, wp_ret. apply Hroll; [congruence..|].
    rewrite E1. destruct L3 as [[L3 L4]|L3]; [left|by right]. split; [done|]. by rewrite L4.
Qed.
End Connection.

(** C33: a connection from opening to closing: whatever fails, after closing no
    connection and no statement of the process is left; when opening and
    initializing succeed, the file holds the three cities of the schema, and
    any sequence of calls leaves its sessions in order. *)
Theorem database_connection_lifecycle `{Environment} `{SqliteLaws} (file : list byte)
    (ops : list db_op) (s : database) :
  sessions_private -> Forall end_time_ok ops ->
  db_handle s = 0 -> connections (db_sqlite s) = ∅ -> transaction (db_sqlite s) = None ->
  wp (r ← sqlite_database_open nonnull (Some file);
      if r =? 0 then
        i ← sqlite_database_initialize nonnull;
        cities_then ← gets (fun s => cities (tables_of (db_sqlite s)));
        (if i =? 0 then run_db_ops ops else mret tt);;
        sessions_then ← gets (fun s => sessions (tables_of (db_sqlite s)));
        sqlite_database_close nonnull;;
        mret (r, i, cities_then, sessions_then)
      else mret (r, -1, ∅, ∅)) (fun x s' =>
    let '(r, i, cities_then, sessions_then) := x in
    db_handle s' = 0 /\ connections (db_sqlite s') = ∅ /\
    statements (db_sqlite s') = statements (db_sqlite s) /\
    (i = 0 -> cities_then = initial_cities /\ sessions_ok sessions_then)) s.
Proof.
  intros Hpriv Hops Hh Hc Htx. apply wp_bind.
  assert (connection_ok s) as Hok by (by split; rewrite Hh).
  eapply wp_mono; [by apply open_spec|]. intros r s1 (Hok1 & Hst1 & Hr0 & Hr1).
  destruct (Z.eqb_spec r 0) as [->|Hr].
  2: { apply wp_ret. destruct (Hr1 Hr) as [_ E]. rewrite Hh in E. destruct Hok1 as [Hc1 _].
       rewrite E in Hc1. by split_and!. }
  destruct (Hr0 eq_refl) as (_ & Hh1 & Htx1). apply wp_bind.
  eapply wp_mono; [apply initialize_spec; congruence|]. intros i s2 [Hsame Hi].
  apply wp_bind, wp_gets, wp_bind.
  eapply (wp_mono _ (fun _ s3 => same_resources s1 s3 /\ (i = 0 -> sessions_ok (sessions (tables_of (db_sqlite s3)))))).
  { destruct (Z.eqb_spec i 0) as [->|]; [|by apply wp_ret].
    assert (tables_of (db_sqlite s2) = initial_tables) as Et by (by inversion Hi).
    eapply wp_mono; [apply run_db_ops_spec; [done| |done]; rewrite Et; split; [apply map_Forall_empty|done]|].
    intros _ s3 (Hs & Hso & _). split; [by etrans|done]. }
  intros _ s3 [(Eh & Ec & Es) Hso]. apply wp_bind, wp_gets, wp_bind.
  assert (connection_ok s3) as Hok3.
  { destruct Hok1 as [K1 K2]. split; rewrite ?Eh, ?Ec, ?Es; done. }
  eapply wp_mono; [by apply close_spec|]. intros _ s4 ((Hc4 & _) & Hst4 & Hh4). apply wp_ret.
  cbn in Hh4. rewrite Hh4 in Hc4. split_and!; [done|done|congruence|].
  intros ->. split; [|by apply Hso]. by inversion Hi as [| ? ? E | |]; rewrite E.
Qed.
