(* ===== verification/SqliteExample.v ===== *)
(** SqliteExample: a small executable library that satisfies the laws of
    [SqliteLaws]: one in-memory file that no other process uses and whose
    calls do not fail.  It shows that the hypotheses of the theorems about
    SQLite can hold, and runs them on examples. *)

From S2P Require Import Prelude Machine CLib Ieee Posix Sqlite SqliteDatabase SqliteRules.
From S2P Require Import ParkingDatabase.

Record file_db := FileDb {
  f_tables : tables;
  f_statements : gmap Z statement;
  f_connections : gset Z;
  f_changes : Z;
}.

(** ** Rows of a table *)
Definition first_row {A} (P : Z * A -> Prop) `{forall e, Decision (P e)} (m : gmap Z A) : option (Z * A) :=
  head (filter P (map_to_list m)).

Definition later_row {A} (e : Z * A) (acc : option (Z * A)) : option (Z * A) :=
  match acc with Some a => if a.1 <? e.1 then Some e else acc | None => Some e end.
Definition last_row {A} (P : Z * A -> Prop) `{forall e, Decision (P e)} (m : gmap Z A) : option (Z * A) :=
  foldr later_row None (filter P (map_to_list m)).

Definition next_key {A} (m : gmap Z A) : Z := 1 + foldr Z.max 0 (map_to_list m).*1.

Lemma first_row_Some {A} P `{forall e, Decision (P e)} (m : gmap Z A) e :
  first_row P m = Some e -> m !! e.1 = Some e.2 /\ P e.
Proof.
  unfold first_row. intros E%head_Some_elem_of. apply list_elem_of_filter in E as [HP Hin].
  split; [|done]. destruct e. by apply elem_of_map_to_list.
Qed.

Lemma first_row_None {A} P `{forall e, Decision (P e)} (m : gmap Z A) i x :
  first_row P m = None -> m !! i = Some x -> ~ P (i, x).
Proof.
  unfold first_row. intros E Hx HP. apply head_None in E.
  assert ((i, x) ∈ filter P (map_to_list m)) as Hin
    by (apply list_elem_of_filter; split; [done|by apply elem_of_map_to_list]).
  rewrite E in Hin. by apply not_elem_of_nil in Hin.
Qed.

Lemma fold_later_row {A} (l : list (Z * A)) :
  match foldr later_row None l with
  | Some e => e ∈ l /\ Forall (fun a => a.1 <= e.1) l
  | None => l = []
  end.
Proof.
  induction l as [|e l IH]; [done|]. simpl. destruct (foldr later_row None l) as [a|] eqn:E; simpl.
  - destruct IH as [Hin Hall]. destruct (Z.ltb_spec a.1 e.1).
    + split; [left|]. constructor; [done|]. eapply Forall_impl; [exact Hall|]. simpl. lia.
    + split; [by right|]. by constructor.
  - subst l. split; [left|]. by repeat constructor.
Qed.

Lemma last_row_Some {A} P `{forall e, Decision (P e)} (m : gmap Z A) e :
  last_row P m = Some e ->
  m !! e.1 = Some e.2 /\ P e /\ forall i x, m !! i = Some x -> P (i, x) -> i <= e.1.
Proof.
  unfold last_row. intros E. pose proof (fold_later_row (filter P (map_to_list m))) as L.
  rewrite E in L. destruct L as [Hin Hall]. apply list_elem_of_filter in Hin as [HP Hin].
  split; [destruct e; by apply elem_of_map_to_list|]. split; [done|].
  intros i x Hx HPx. rewrite Forall_forall in Hall. apply (Hall (i, x)).
  apply list_elem_of_filter. split; [done|]. by apply elem_of_map_to_list.
Qed.

Lemma last_row_None {A} P `{forall e, Decision (P e)} (m : gmap Z A) i x :
  last_row P m = None -> m !! i = Some x -> ~ P (i, x).
Proof.
  unfold last_row. intros E Hx HP. pose proof (fold_later_row (filter P (map_to_list m))) as L.
  rewrite E in L. assert ((i, x) ∈ filter P (map_to_list m)) as Hin
    by (apply list_elem_of_filter; split; [done|by apply elem_of_map_to_list]).
  rewrite L in Hin. by apply not_elem_of_nil in Hin.
Qed.

Lemma foldr_max l i : i ∈ l -> i <= foldr Z.max 0 l.
Proof.
  induction l as [|j l IH]; intros Hin; [by apply not_elem_of_nil in Hin|].
  change (i <= Z.max j (foldr Z.max 0 l)).
  apply elem_of_cons in Hin as [->|Hin]; [lia|]. specialize (IH Hin). lia.
Qed.

Lemma foldr_max_pos l : 0 <= foldr Z.max 0 l.
Proof.
  induction l as [|j l IH]; [done|]. change (0 <= Z.max j (foldr Z.max 0 l)). lia.
Qed.

Lemma next_key_fresh {A} (m : gmap Z A) : fresh_key (next_key m) m.
Proof.
  unfold next_key. pose proof (foldr_max_pos (map_to_list m).*1). split; [|lia].
  destruct (m !! (1 + foldr Z.max 0 (map_to_list m).*1)) as [x|] eqn:E; [|done].
  apply elem_of_map_to_list in E.
  assert (1 + foldr Z.max 0 (map_to_list m).*1 <= foldr Z.max 0 (map_to_list m).*1); [|lia].
  apply foldr_max, list_elem_of_fmap. by eexists (_, x).
Qed.

(** ** Statements *)
Definition kind_of (q : string) : nat :=
  if decide (q = find_city_sql) then 0%nat else
  if decide (q = get_city_sql) then 1%nat else
  if decide (q = select_price_sql) then 2%nat else
  if decide (q = active_session_sql) then 3%nat else
  if decide (q = select_session_sql) then 4%nat else
  if decide (q = add_city_sql) then 5%nat else
  if decide (q = update_city_price_sql) then 6%nat else
  if decide (q = delete_city_sql) then 7%nat else
  if decide (q = insert_session_sql) then 8%nat else
  if decide (q = update_session_sql) then 9%nat else 10%nat.

(** The result, the tables, the row and the number of changed rows. *)
Definition run_statement (st : statement) (t : tables) : Z * tables * list sql_value * Z :=
  let found (o : option (list sql_value)) :=
    match o with Some r => (SQLITE_ROW, t, r, 0) | None => (SQLITE_DONE, t, [], 0) end in
  let constraint := (19, t, [], 0) in
  match kind_of (stmt_sql st) with
  | 0%nat =>
      found ((fun e => [SqlInteger e.1]) <$>
        first_row (fun e => sql_ge (param st 1) (min_latitude e.2) = true /\
                            sql_le (param st 2) (max_latitude e.2) = true /\
                            sql_ge (param st 3) (min_longitude e.2) = true /\
                            sql_le (param st 4) (max_longitude e.2) = true) (cities t))
  | 1%nat =>
      found ((fun e => [SqlText (city_name e.2); SqlReal (min_latitude e.2); SqlReal (max_latitude e.2);
                        SqlReal (min_longitude e.2); SqlReal (max_longitude e.2);
                        SqlReal (price_per_minute e.2)]) <$>
        first_row (fun e => param st 1 = SqlInteger e.1) (cities t))
  | 2%nat =>
      found ((fun e => [SqlReal (price_per_minute e.2)]) <$>
        first_row (fun e => param st 1 = SqlInteger e.1) (cities t))
  | 3%nat =>
      found ((fun e => [SqlInteger e.1]) <$>
        first_row (fun e => active_for (param st 1) e.2) (sessions t))
  | 4%nat =>
      found ((fun e => [SqlInteger e.1; SqlInteger (s_start_time e.2); SqlReal (s_price_per_minute e.2)]) <$>
        last_row (fun e => active_for (param st 1) e.2) (sessions t))
  | 5%nat =>
      match param st 1, param st 2, param st 3, param st 4, param st 5, param st 6 with
      | SqlText name, SqlReal a, SqlReal b, SqlReal c, SqlReal d, SqlReal p =>
          let new := City name a b c d p in
          if city_checks new &&
             bool_decide (filter (fun e => city_name e.2 = name) (cities t) = ∅)
          then (SQLITE_DONE, set_cities (<[next_key (cities t) := new]> (cities t)) t, [], 1)
          else constraint
      | _, _, _, _, _, _ => constraint
      end
  | 6%nat =>
      let matching := filter (fun e => named (param st 2) e.2) (cities t) in
      if decide (matching = ∅) then (SQLITE_DONE, t, [], 0)
      else match param st 1 with
           | SqlReal p =>
               if double_ge p double_zero then
                 (SQLITE_DONE, set_cities ((fun c => if decide (named (param st 2) c) then set_price p c else c)
                                             <$> cities t) t, [], Z.of_nat (size matching))
               else constraint
           | _ => constraint
           end
  | 7%nat =>
      (SQLITE_DONE, set_cities (filter (fun e => ~ named (param st 1) e.2) (cities t)) t, [],
       Z.of_nat (size (filter (fun e => named (param st 1) e.2) (cities t))))
  | 8%nat =>
      match param st 1, param st 2, param st 3, param st 4, param st 5, param st 6 with
      | SqlText v, SqlReal a, SqlReal o, SqlInteger c, SqlReal p, SqlInteger b =>
          (SQLITE_DONE, set_sessions (<[next_key (sessions t) := Session v a o c p b None None]> (sessions t)) t,
           [], 1)
      | _, _, _, _, _, _ =>
          if decide (SqlNull ∈ param st <$> [1; 2; 3; 4; 5; 6]) then constraint else (SQLITE_DONE, t, [], 0)
      end
  | 9%nat =>
      match param st 3 with
      | SqlInteger i =>
          (SQLITE_DONE,
           set_sessions (alter (close_session (integer_of (param st 1)) (real_of (param st 2))) i (sessions t)) t,
           [], if decide (is_Some (sessions t !! i)) then 1 else 0)
      | _ => (SQLITE_DONE, t, [], 0)
      end
  | _ => (SQLITE_DONE, t, [], 0)
  end.

(** One lemma for each shape of statement. *)
Ltac of_kind k R := match type of R with context [kind_of ?q] => change (kind_of q) with k in R end; cbv iota beta zeta in R.
Ltac bound_values st R := repeat match type of R with context [param st ?k] => destruct (param st k) eqn:? in R end.
Ltac same_params := repeat match goal with E : param ?st ?k = _ |- context [param ?st ?k] => rewrite E end.

Lemma rejected_insert effect t rc t' row n :
  (19, t, @nil sql_value, 0) = (rc, t', row, n) -> modification effect t rc t' n.
Proof. intros [= <- <- _ <-]. by split. Qed.

(** A query for the first row that satisfies [P]. *)
Lemma first_row_query {A} (P : Z * A -> Prop) `{forall e, Decision (P e)} (m : gmap Z A) (columns : Z * A -> list sql_value)
    t rc t' row n (some_row : list sql_value -> Prop) :
  (forall r, some_row r <-> exists i x, m !! i = Some x /\ P (i, x) /\ r = columns (i, x)) ->
  match columns <$> first_row P m with Some r => (SQLITE_ROW, t, r, 0) | None => (SQLITE_DONE, t, [], 0) end
    = (rc, t', row, n) ->
  query some_row some_row t rc t' row.
Proof.
  intros Hrow R. destruct (first_row P m) as [[i x]|] eqn:F; cbn in R; simplify_eq; unfold query; split_and!; try done; intros _.
  - apply Hrow. apply first_row_Some in F as [Hx HP]. by exists i, x.
  - intros r (i & x & Hx & HP & _)%Hrow. by eapply first_row_None in F.
Qed.

Lemma add_city_stepped st t rc t' row n :
  stmt_sql st = add_city_sql -> run_statement st t = (rc, t', row, n) -> modification (add_city_effect st t) t rc t' n.
Proof.
  unfold run_statement. intros -> R. of_kind 5%nat R. bound_values st R; try (by eapply rejected_insert).
  destruct (_ && _) eqn:C in R; [|by eapply rejected_insert]. simplify_eq. split; [done|]. cbn.
  apply andb_prop in C as [C1 C2%bool_decide_eq_true].
  eexists (next_key (cities t)), _, _, _, _, _, _. same_params. split_and!; try done.
  - intros j x Hj Hn. by eapply (map_filter_empty_not_lookup _ _ _ _ C2).
  - apply next_key_fresh.
Qed.

Lemma insert_session_stepped st t rc t' row n :
  stmt_sql st = insert_session_sql -> typed 1 [KText; KReal; KReal; KInteger; KReal; KInteger] st ->
  run_statement st t = (rc, t', row, n) -> modification (insert_session_effect st t) t rc t' n.
Proof.
  unfold run_statement. intros -> (K1 & K2 & K3 & K4 & K5 & K6 & _) R. of_kind 8%nat R.
  change (1 + 1) with 2 in *. change (2 + 1) with 3 in *. change (3 + 1) with 4 in *.
  change (4 + 1) with 5 in *. change (5 + 1) with 6 in *. cbn [fmap list_fmap] in R.
  destruct (param st 1) eqn:P1, (param st 2) eqn:P2; try done;
    destruct (param st 3) eqn:P3, (param st 4) eqn:P4; try done;
    destruct (param st 5) eqn:P5, (param st 6) eqn:P6; try done;
    (destruct (decide (SqlNull ∈ _)) as [Hn|Hn] in R; [by eapply rejected_insert|clear -Hn; set_solver])
    || (simplify_eq; split; [done|]; cbn; eexists (next_key (sessions t)), _, _, _, _, _, _;
        same_params; split_and!; try done; apply next_key_fresh).
Qed.

Lemma update_city_price_stepped st t rc t' row n :
  stmt_sql st = update_city_price_sql -> run_statement st t = (rc, t', row, n) ->
  modification (update_city_price_effect st t) t rc t' n.
Proof.
  unfold run_statement. intros -> R. of_kind 6%nat R. case_decide as Hm; cbn in R.
  - simplify_eq. split; [done|]. cbn. split; [by rewrite Hm, map_size_empty|by left].
  - destruct (param st 1) eqn:P1; simplify_eq; try by split.
    destruct (double_ge d double_zero) eqn:G; simplify_eq; [|by split].
    split; [done|]. cbn. split; [done|]. right. by exists d.
Qed.

Lemma select_session_stepped st t rc t' row n :
  stmt_sql st = select_session_sql -> run_statement st t = (rc, t', row, n) ->
  query (fun r => exists i, select_session_row st t i r)
    (fun r => exists i, select_session_row st t i r /\ forall j r', select_session_row st t j r' -> j <= i) t rc t' row.
Proof.
  unfold run_statement. intros -> R. of_kind 4%nat R.
  destruct (last_row _ _) as [[i c]|] eqn:F; cbn in R; simplify_eq; unfold query; split_and!; try done; intros _.
  - apply last_row_Some in F as (Hc & HP & Hmax). exists i. split; [by exists c|].
    intros j r' (y & Hy & HPy & _). by eapply Hmax.
  - intros r (i & c & Hc & HP & _). by eapply last_row_None in F.
Qed.

(** Every step of this database is one the laws of SQLite allow. *)
Lemma run_statement_stepped st t :
  let '(rc, t', row, n) := run_statement st t in stepped st t rc t' row n.
Proof.
  destruct (run_statement st t) as [[[rc t'] row] n] eqn:R. split; intros E Htyped.
  5: by eapply select_session_stepped.
  5: by eapply add_city_stepped.
  5: by eapply update_city_price_stepped.
  6: by eapply insert_session_stepped.
  all: unfold run_statement in R; rewrite E in R.
  - of_kind 0%nat R. revert R. apply first_row_query. intros r. split; intros (i & c & ?); exists i, c; naive_solver.
  - of_kind 1%nat R. revert R. by apply first_row_query.
  - of_kind 2%nat R. revert R. by apply first_row_query.
  - of_kind 3%nat R. revert R. by apply first_row_query.
  - of_kind 7%nat R. simplify_eq. by split.
  - of_kind 9%nat R. destruct Htyped as (_ & _ & K3 & _). change (1 + 1 + 1) with 3 in K3.
    destruct (param st 3) eqn:P3; try done; simplify_eq; (split; [done|]); cbn; [by left|].
    right. by exists z.
Qed.

(** ** The library *)
Definition statement_connections (m : gmap Z statement) : gset Z :=
  list_to_set (stmt_connection <$> (map_to_list m).*2).
Definition set_statements (m : gmap Z statement) (s : file_db) : file_db :=
  FileDb (f_tables s) m (f_connections s) (f_changes s).
Definition set_connections (c : gset Z) (s : file_db) : file_db :=
  FileDb (f_tables s) (f_statements s) c (f_changes s).
Definition set_tables (t : tables) (s : file_db) : file_db :=
  FileDb t (f_statements s) (f_connections s) (f_changes s).

(** An address no connection has. *)
Definition new_handle (s : file_db) : Z :=
  fresh ({[0]} ∪ f_connections s ∪ statement_connections (f_statements s)).

Definition column (p i : Z) (s : file_db) : sql_value :=
  from_option (fun st => default SqlNull (stmt_row st !! Z.to_nat i)) SqlNull (f_statements s !! p).

#[export] Instance example_sqlite : Sqlite := {|
  sqlite := file_db;
  sqlite3_open _ s := let h := new_handle s in ((SQLITE_OK, h), set_connections ({[h]} ∪ f_connections s) s);
  sqlite3_close h s :=
    if decide (h ∈ statement_connections (f_statements s)) then (5, s)
    else (SQLITE_OK, set_connections (f_connections s ∖ {[h]}) s);
  sqlite3_exec _ q s :=
    if decide (q = initialize_sql) then ((SQLITE_OK, false), set_tables initial_tables s)
    else ((1, true), s);
  sqlite3_free s := s;
  sqlite3_prepare_v2 h q s :=
    let p := next_key (f_statements s) in
    ((SQLITE_OK, p), set_statements (<[p := Statement h q ∅ []]> (f_statements s)) s);
  sqlite3_bind p i v s :=
    match f_statements s !! p with
    | Some st => (SQLITE_OK, set_statements (<[p := bind_param i v st]> (f_statements s)) s)
    | None => (SQLITE_OK, s)
    end;
  sqlite3_step p s :=
    match f_statements s !! p with
    | Some st =>
        let '(rc, t, row, n) := run_statement st (f_tables s) in
        (rc, FileDb t (<[p := set_row row st]> (f_statements s)) (f_connections s) n)
    | None => (21, s)
    end;
  sqlite3_column_int p i s := match column p i s with SqlInteger z => s32 z | _ => 0 end;
  sqlite3_column_int64 p i s := match column p i s with SqlInteger z => z | _ => 0 end;
  sqlite3_column_double p i s := match column p i s with SqlReal d => d | _ => double_zero end;
  sqlite3_column_text p i s := match column p i s with SqlText x => Some x | _ => Some [] end;
  sqlite3_changes _ s := f_changes s;
  sqlite3_finalize p s := (SQLITE_OK, set_statements (delete p (f_statements s)) s);
|}.

Lemma column_row p i s st v : f_statements s !! p = Some st -> stmt_row st !! i = Some v ->
  column p (Z.of_nat i) s = v.
Proof. intros Hst Hv. unfold column. rewrite Hst. cbn. by rewrite Nat2Z.id, Hv. Qed.

Lemma elem_of_statement_connections m p st : m !! p = Some st ->
  stmt_connection st ∈ statement_connections m.
Proof.
  intros Hm. unfold statement_connections. apply elem_of_list_to_set, list_elem_of_fmap.
  exists st. split; [done|]. apply list_elem_of_fmap. exists (p, st). split; [done|].
  by apply elem_of_map_to_list.
Qed.

#[export] Instance example_laws : SqliteLaws.
Proof.
  refine {| tables_of := f_tables; statements := f_statements; connections := f_connections;
            transaction _ := None; rely := eq; |}.
  - intros f s. cbn. pose proof (is_fresh ({[0]} ∪ f_connections s ∪ statement_connections (f_statements s))) as Hf.
    fold (new_handle s) in Hf. apply not_elem_of_union in Hf as [[H0 H1]%not_elem_of_union H2].
    assert (new_handle s <> 0) as Hn by set_solver.
    split_and!; [done|done|done|..].
    + intros _. split; [done|]. intros p st Hst E. apply H2. rewrite <- E.
      by eapply elem_of_statement_connections.
    + by rewrite (proj2 (Z.eqb_neq _ _) Hn).
  - intros h s. cbn. case_decide as Hh; cbn; split_and!; try done.
    intros Hno. unfold statement_connections in Hh.
    apply elem_of_list_to_set, list_elem_of_fmap in Hh as (st & -> & Hin).
    apply list_elem_of_fmap in Hin as ([p st'] & -> & Hin). apply elem_of_map_to_list in Hin.
    by destruct (Hno p st').
  - done.
  - intros h q s. cbn. split_and!; try done. apply next_key_fresh.
  - intros p i v s st Hst. cbn in *. by rewrite Hst.
  - intros p s st Hst Hrow. cbn in *. rewrite Hst.
    pose proof (run_statement_stepped st (f_tables s)) as R.
    destruct (run_statement st (f_tables s)) as [[[rc t] row] n]. cbn. split; [done|]. by eexists _, row.
  - intros p i s st z Hst Hz. cbn. by rewrite (column_row _ _ _ _ _ Hst Hz).
  - intros p i s st z Hst Hz. cbn. by rewrite (column_row _ _ _ _ _ Hst Hz).
  - intros p i s st z Hst Hz. cbn. by rewrite (column_row _ _ _ _ _ Hst Hz).
  - intros p i s st z Hst Hz. cbn. left. by rewrite (column_row _ _ _ _ _ Hst Hz).
  - done.
  - intros h s _. cbn. rewrite decide_True by done. cbn.
    split; [reflexivity|]. split; [reflexivity|]. exists (f_tables s). split; [reflexivity|]. split; reflexivity.
  - intros h s. cbn. by rewrite decide_False by done.
Defined.

Lemma kind_of_inv q :
  (kind_of q = 5%nat -> q = add_city_sql) /\ (kind_of q = 6%nat -> q = update_city_price_sql) /\
  (kind_of q = 8%nat -> q = insert_session_sql).
Proof. unfold kind_of. repeat case_decide; naive_solver. Qed.

Lemma run_statement_reliable st t : complete st ->
  (run_statement st t).1.1.1 = SQLITE_ROW \/ (run_statement st t).1.1.1 = SQLITE_DONE.
Proof.
  intros [C1 C2 C3]. unfold run_statement.
  destruct (kind_of_inv (stmt_sql st)) as (K5 & K6 & K8).
  destruct (kind_of (stmt_sql st)) as [|[|[|[|[|[|[|[|[|[|k]]]]]]]]]]; cbv beta iota zeta.
  - destruct (first_row _ _); cbn; tauto.
  - destruct (first_row _ _); cbn; tauto.
  - destruct (first_row _ _); cbn; tauto.
  - destruct (first_row _ _); cbn; tauto.
  - destruct (last_row _ _); cbn; tauto.
  - by destruct C3; apply K5.
  - case_decide; [cbn; tauto|]. destruct C2 as (p & -> & ->); [by apply K6|]. cbn; tauto.
  - cbn; tauto.
  - assert (~ SqlNull ∈ param st <$> [1; 2; 3; 4; 5; 6]) as Hn.
    { intros Hn. apply list_elem_of_fmap in Hn as (i & Ei & Hi).
      apply (C1 (K8 eq_refl) i); [|done]. set_solver by lia. }
    destruct (param st 1); try (rewrite decide_False by done; cbn; tauto).
    destruct (param st 2); try (rewrite decide_False by done; cbn; tauto).
    destruct (param st 3); try (rewrite decide_False by done; cbn; tauto).
    destruct (param st 4); try (rewrite decide_False by done; cbn; tauto).
    destruct (param st 5); try (rewrite decide_False by done; cbn; tauto).
    destruct (param st 6); try (rewrite decide_False by done; cbn; tauto). cbn; tauto.
  - destruct (param st 3); cbn; tauto.
  - cbn; tauto.
Qed.

Lemma example_reliable : ~ sqlite_failure.
Proof.
  intros [h q s F|p i v s F|p s st Hst Hc F1 F2|p i s F].
  - done.
  - cbn in F. by destruct (f_statements s !! p).
  - cbn in F1, F2, Hst. rewrite Hst in F1, F2.
    pose proof (run_statement_reliable st (f_tables s) Hc) as R.
    destruct (run_statement st (f_tables s)) as [[[rc t'] row] n]. cbn in F1, F2, R. tauto.
  - cbn in F. by destruct (column p i s).
Qed.

Lemma example_private : sessions_private.
Proof. by intros t t' <-. Qed.

(** ** Examples *)

(** A process with connection 1 on the seeded file. *)
Definition seeded : database :=
  DB _ 1 (FileDb initial_tables ∅ {[1]} 0) [].

Definition quiet_env : Environment := fun _ _ => ok 0.

Lemma seeded_sessions_ok : sessions_ok (sessions (tables_of (db_sqlite seeded))).
Proof.
  change (sessions_ok ∅). split; [apply map_Forall_empty|].
  intros i j x y Hx. by rewrite lookup_empty in Hx.
Qed.

Definition car : list byte := bs "12-345-67".
Definition truck : list byte := bs "98-765-43".
Definition at_10_1 : double := double_lit 101 10.
Definition at_20_2 : double := double_lit 202 10.

(** Two vehicles park, the price of Tel Aviv changes and Tel Aviv is even
    deleted; the first vehicle leaves after 61 seconds. *)
Definition busy_day : list db_op :=
  [OpUpdatePrice (bs "Tel Aviv") (double_lit 99 10);
   OpStart truck at_20_2 at_20_2 2 1010;
   OpStart car at_10_1 at_10_1 1 1020;
   OpStop truck 1040;
   OpDeleteCity (bs "Tel Aviv")].

Example busy_day_charge :
  match (r ← @sqlite_database_start_parking quiet_env _ nonnull (Some car) at_10_1 at_10_1 1 1000;
         @run_db_ops quiet_env _ busy_day;;
         q ← @sqlite_database_stop_parking quiet_env _ nonnull (Some car) 1061 nonnull nonnull;
         mret (r, q)) seeded with
  | Ret (rq, _) => rq
  | _ => (-1, (-1, None))
  end = (0, (0, Some (1000, double_lit 1 1))).
Proof. vm_compute. reflexivity. Qed.

Lemma price_fixed_at_start_witness :
  wp (r ← @sqlite_database_start_parking quiet_env _ nonnull (Some car) at_10_1 at_10_1 1 1000;
      @run_db_ops quiet_env _ busy_day;;
      q ← @sqlite_database_stop_parking quiet_env _ nonnull (Some car) 1061 nonnull nonnull;
      mret (r, q)) (fun rq _ =>
    rq.1 = 0 -> exists t c, rely (tables_of (db_sqlite seeded)) t /\ cities t !! 1 = Some c /\
      rq.2 = (0, Some (1000, parking_cost 2 (price_per_minute c)))) seeded.
Proof.
  refine (@price_fixed_at_start quiet_env _ _ car at_10_1 at_10_1 1 1000 1061 2 busy_day seeded _ _ _ _ _ _ _ _).
  - exact example_reliable.
  - exact example_private.
  - exact seeded_sessions_ok.
  - done.
  - repeat constructor; vm_compute; discriminate.
  - repeat constructor; vm_compute; discriminate.
  - split; vm_compute; discriminate.
  - reflexivity.
Defined.

Lemma parking_sessions_invariant_witness :
  wp (@run_db_ops quiet_env _ (OpStart car at_10_1 at_10_1 1 1000 :: busy_day)) (fun _ s' =>
    sessions_ok (sessions (tables_of (db_sqlite s'))) /\
    history (sessions (tables_of (db_sqlite seeded))) (sessions (tables_of (db_sqlite s'))) /\ same_resources seeded s') seeded.
Proof.
  refine (@parking_sessions_invariant quiet_env _ _ (OpStart car at_10_1 at_10_1 1 1000 :: busy_day) seeded _ _ _).
  - exact example_private.
  - repeat constructor; vm_compute; discriminate.
  - exact seeded_sessions_ok.
Defined.

Lemma stop_parking_correct_witness :
  wp (@sqlite_database_stop_parking quiet_env _ nonnull (Some car) 1061 nonnull nonnull) (fun r s' =>
    same_resources seeded s' /\
    stop_outcome (tables_of (db_sqlite seeded)) true car 1061 r (tables_of (db_sqlite s'))) seeded.
Proof.
  refine (@stop_parking_correct quiet_env _ _ nonnull car 1061 nonnull nonnull seeded _ _ _).
  - exact example_private.
  - exact seeded_sessions_ok.
  - vm_compute. discriminate.
Defined.

Lemma start_parking_correct_witness :
  wp (@sqlite_database_start_parking quiet_env _ nonnull (Some car) at_10_1 at_10_1 1 1000) (fun r s' =>
    same_resources seeded s' /\
    start_outcome (tables_of (db_sqlite seeded)) true car at_10_1 at_10_1 1 1000 r (tables_of (db_sqlite s'))) seeded.
Proof.
  exact (@start_parking_correct quiet_env _ _ nonnull car at_10_1 at_10_1 1 1000 seeded).
Defined.

Lemma find_city_correct_witness :
  wp (@sqlite_database_find_city quiet_env _ nonnull at_20_2 at_20_2 nonnull) (fun r s' =>
    same_resources seeded s' /\
    find_outcome (tables_of (db_sqlite seeded)) false at_20_2 at_20_2 r (tables_of (db_sqlite s'))) seeded.
Proof. exact (@find_city_correct quiet_env _ _ nonnull at_20_2 at_20_2 seeded). Defined.

Lemma city_functions_correct_witness :
  wp (@sqlite_database_get_city quiet_env _ nonnull 1 32 nonnull) (fun r s' =>
    same_resources seeded s' /\
    get_outcome (tables_of (db_sqlite seeded)) true 1 32 r (tables_of (db_sqlite s'))) seeded.
Proof.
  exact (proj1 (@city_functions_correct quiet_env _ _ nonnull car at_10_1 at_20_2 at_10_1 at_20_2 at_10_1
                  1 32 nonnull seeded)).
Defined.

(** A process that has not opened the file yet. *)
Definition unopened : database := DB _ 0 (FileDb (Tables ∅ ∅) ∅ ∅ 0) [].

Lemma database_connection_lifecycle_witness :
  wp (r ← @sqlite_database_open quiet_env _ nonnull (Some (bs "parking.db"));
      if r =? 0 then
        i ← @sqlite_database_initialize quiet_env _ nonnull;
        cities_then ← gets (fun s => cities (tables_of (db_sqlite s)));
        (if i =? 0 then @run_db_ops quiet_env _ busy_day else mret tt);;
        sessions_then ← gets (fun s => sessions (tables_of (db_sqlite s)));
        @sqlite_database_close quiet_env _ nonnull;;
        mret (r, i, cities_then, sessions_then)
      else mret (r, -1, ∅, ∅)) (fun x s' =>
    let '(r, i, cities_then, sessions_then) := x in
    db_handle s' = 0 /\ connections (db_sqlite s') = ∅ /\ statements (db_sqlite s') = ∅ /\
    (i = 0 -> cities_then = initial_cities /\ sessions_ok sessions_then)) unopened.
Proof.
  refine (@database_connection_lifecycle quiet_env _ _ (bs "parking.db") busy_day unopened _ _ _ _ _).
  - exact example_private.
  - repeat constructor; vm_compute; discriminate.
  - reflexivity.
  - reflexivity.
  - reflexivity.
Defined.
