(* ===== verification/Database.v ===== *)
(** Database (src/Database): the server process that owns the shared segment
    and the parking database. *)

From S2P Require Import Prelude Machine CLib CNumber Ieee Posix Config Logger IpcProtocol.
From S2P Require Import SharedMemory SharedQueue Sqlite SqliteDatabase.

Definition DEFAULT_DATABASE_PID_FILE : list byte := bs "../Database/database.pid".

(** The data members of class [Database]; [ipc_header_] is an address relative
    to the start of the segment. *)
Record Database := DatabaseObj {
  shared_memory_ : option SharedMemory;
  tcp_to_database_queue_ : option SharedQueue;
  database_to_tcp_queue_ : option SharedQueue;
  ipc_header_ : option Z;
  shared_memory_key_ : Z;
  shared_memory_size_ : Z;
  database_file_ : list byte;
  pid_file_ : list byte;
  log_file_ : list byte;
  enable_console_logging_ : bool;
  running_ : bool;
  request_queue_ : list tcp_to_database_message_t;
  request_queue_mutex_initialized_ : bool;
  request_queue_condition_initialized_ : bool;
  sqlite_database_opened_ : bool;
}.

#[export] Instance Database_fields : Fields Database := fun s =>
  DatabaseObj
    (shared_memory_ s) (tcp_to_database_queue_ s) (database_to_tcp_queue_ s) (ipc_header_ s)
    (shared_memory_key_ s) (shared_memory_size_ s) (database_file_ s) (pid_file_ s) (log_file_
    s) (enable_console_logging_ s) (running_ s) (request_queue_ s)
    (request_queue_mutex_initialized_ s) (request_queue_condition_initialized_ s)
    (sqlite_database_opened_ s).

(** The process: its object, the attached segment, the SQLite connection, the
    logger, and the system. *)
Record server `{Sqlite} := Server {
  this : Database;
  srv_segment : list byte;
  srv_handle : Z;
  srv_sqlite : sqlite;
  srv_log_fd : Z;
  srv_console : Z;
  srv_world : world;
}.

#[export] Instance server_fields `{Sqlite} : Fields server := fun s =>
  Server _
    (this s) (srv_segment s) (srv_handle s) (srv_sqlite s) (srv_log_fd s) (srv_console s)
    (srv_world s).

(** The constructor. *)
Definition new_Database : Database :=
  DatabaseObj None None None None IPC_SHARED_MEMORY_KEY IPC_SHARED_MEMORY_SIZE DEFAULT_DATABASE_FILE
    DEFAULT_DATABASE_PID_FILE DEFAULT_DATABASE_LOG_FILE DEFAULT_ENABLE_CONSOLE_LOGGING false [] false
    false false.

(** What the other threads of the process and the other processes do to the
    shared state while this thread sleeps or waits. *)
Class OtherThreads `{Sqlite} := others : server -> server.

Section Operations.
Context `{Environment} `{Sqlite} `{!OtherThreads}.

(** ** The parts of the process the libraries work on *)
Definition in_world {A} (m : M world A) : M server A :=
  zoom srv_world (fun w s => s <| srv_world := w |>) m.
Definition in_ipc {A} (m : M ipc_state A) : M server A :=
  zoom (fun s => IpcState (srv_segment s) (srv_world s))
       (fun i s => s <| srv_segment := segment i |> <| srv_world := ipc_world i |>) m.
Definition in_sqlite {A} (m : M database A) : M server A :=
  zoom (fun s => DB _ (srv_handle s) (srv_sqlite s) (srv_world s))
       (fun d s => s <| srv_handle := db_handle d |> <| srv_sqlite := db_sqlite d |>
                     <| srv_world := db_world d |>) m.
Definition in_logger {A} (m : M logger A) : M server A :=
  zoom (fun s => LoggerState (srv_log_fd s) (srv_console s) (srv_world s))
       (fun l s => s <| srv_log_fd := log_fd l |> <| srv_console := console_output_enabled l |>
                     <| srv_world := logger_world l |>) m.

Definition field {A} (f : Database -> A) : M server A := gets (fun s => f (this s)).
Definition assign (f : Database -> Database) : M server unit := modify (fun s => s <| this ::= f |>).
Definition log_info (f : string) : M server unit := in_world (LOG_INFO f).
Definition log_error (f : string) : M server unit := in_world (LOG_ERROR f).
Definition call (c : syscall) : M server Z := in_world (sysr c).
Definition call_ (c : syscall) : M server unit := in_world (sys_ c).

(** A call that blocks: others run before it returns. *)
Definition blocking (c : syscall) : M server Z := r ← call c; modify others;; mret r.

(** A member function called through a pointer. *)
Definition deref {A} (p : option A) : M server A := from_option_undef p.

(** ** PID file *)
(** The text fits the buffer of the stream, so [good] holds when it is tested;
    the bytes are written when the destructor closes the file, and nobody asks
    how that went. *)
Definition write_pid_file : M server bool :=
  path ← field pid_file_;
  fd ← call (sys_open path true);
  if fd =? -1 then
    log_error "Failed to open Database PID file '%s'.";; mret false
  else
    pid ← call sys_getpid;
    call_ sys_getpid;;
    log_info "Database PID %lld written to '%s'.";;
    call_ (sys_write fd (dec_of_Z pid ++ [Byte.x0a]));;
    call_ (sys_close fd);;
    mret true.

Definition remove_pid_file : M server bool :=
  path ← field pid_file_;
  a ← in_world (sys (sys_remove path));
  if negb (ans_ret a =? 0) then
    if ans_errno a =? ENOENT then mret true
    else log_error "Failed to remove Database PID file '%s'.";; mret false
  else
    log_info "Database PID file '%s' removed successfully.";; mret true.

(** ** Start-up *)
Definition load_configuration : M server bool :=
  '(result, config) ← in_world (config_load (Some (Config [])) (Some DEFAULT_CONFIG_FILE));
  if negb (result =? 0) then
    log_error "Failed to load configuration file.";; mret false
  else
    let string_setting key default := deref (config_get_string config (Some (bs key)) (Some default)) in
    assign (fun o => o <| shared_memory_key_ :=
      config_get_int 64 config (Some (bs "IPC_SHARED_MEMORY_KEY")) IPC_SHARED_MEMORY_KEY |>);;
    database_file ← string_setting "DATABASE_FILE" DEFAULT_DATABASE_FILE;
    assign (fun o => o <| database_file_ := database_file |>);;
    pid_file ← string_setting "DATABASE_PID_FILE" DEFAULT_DATABASE_PID_FILE;
    assign (fun o => o <| pid_file_ := pid_file |>);;
    log_file ← string_setting "LOG_FILE" DEFAULT_DATABASE_LOG_FILE;
    assign (fun o => o <| log_file_ := log_file |>);;
    assign (fun o => o <| enable_console_logging_ :=
      negb (config_get_int 64 config (Some (bs "ENABLE_CONSOLE_LOGGING"))
              (Z.b2z DEFAULT_ENABLE_CONSOLE_LOGGING) =? 0) |>);;
    mret true.

(** Writing a member of the header at the start of the segment. *)
Definition tcp_to_database_queue_ready : Z := 0.
Definition database_to_tcp_queue_ready : Z := 4.
Definition set_ready (member value : Z) : M server unit :=
  header ← field ipc_header_;
  header ← deref header;
  in_ipc (store_bytes (header + member) (le_bytes 4 value)).

(** A segment that [create] obtains is new, and filled with zeros. *)
Definition initialize_shared_memory : M server bool :=
  key ← field shared_memory_key_;
  '(created, shm) ← in_world (create (new_SharedMemory key IPC_SHARED_MEMORY_SIZE));
  if negb created then
    log_error "Failed to create shared memory";;
    in_world (delete_SharedMemory shm);;
    assign (fun o => o <| shared_memory_ := None |>);;
    mret false
  else
    assign (fun o => o <| shared_memory_ := Some shm |>);;
    modify (fun s => s <| srv_segment := replicate (Z.to_nat (size_ shm)) NUL |>);;
    assign (fun o => o <| ipc_header_ := if data shm =? nullptr then None else Some 0 |>);;
    header ← field ipc_header_;
    match header with
    | None =>
        log_error "Failed to get shared memory address";;
        in_world (delete_SharedMemory shm);;
        assign (fun o => o <| shared_memory_ := None |>);;
        mret false
    | Some _ =>
        set_ready tcp_to_database_queue_ready NOT_READY;;
        set_ready database_to_tcp_queue_ready NOT_READY;;
        log_info "Shared memory initialized.";;
        mret true
    end.

Definition initialize_queues : M server bool :=
  shm ← field shared_memory_;
  header ← field ipc_header_;
  match shm, header with
  | Some shm, Some _ =>
      if negb (is_attached shm) then
        log_error "Shared memory is not ready for queue initialization.";; mret false
      else
      q ← in_ipc (new_SharedQueue (Some shm) TCP_TO_DATABASE_QUEUE_OFFSET
                    (Some TCP_TO_DATABASE_SEMAPHORE_NAME) sizeof_request TCP_TO_DATABASE_QUEUE_CAPACITY true);
      assign (fun o => o <| tcp_to_database_queue_ := Some q |>);;
      if negb (is_valid q) then
        log_error "Failed to initialize TcpServer-to-Database queue.";;
        in_ipc (delete_SharedQueue q);;
        assign (fun o => o <| tcp_to_database_queue_ := None |>);;
        mret false
      else
      set_ready tcp_to_database_queue_ready READY;;
      log_info "TcpServer-to-Database queue initialized.";;
      r ← in_ipc (new_SharedQueue (Some shm) DATABASE_TO_TCP_QUEUE_OFFSET
                    (Some DATABASE_TO_TCP_SEMAPHORE_NAME) sizeof_response DATABASE_TO_TCP_QUEUE_CAPACITY true);
      assign (fun o => o <| database_to_tcp_queue_ := Some r |>);;
      if negb (is_valid r) then
        log_error "Failed to initialize Database-to-TcpServer queue.";;
        set_ready tcp_to_database_queue_ready NOT_READY;;
        in_ipc (delete_SharedQueue r);;
        assign (fun o => o <| database_to_tcp_queue_ := None |>);;
        in_ipc (delete_SharedQueue q);;
        assign (fun o => o <| tcp_to_database_queue_ := None |>);;
        mret false
      else
      set_ready database_to_tcp_queue_ready READY;;
      log_info "Database-to-TcpServer queue initialized.";;
      mret true
  | _, _ => log_error "Shared memory is not ready for queue initialization.";; mret false
  end.

(** ** Shutdown *)

(** [delete] of a queue pointer, which may be null. *)
Definition delete_queue (q : option SharedQueue) : M server unit :=
  match q with Some q => in_ipc (delete_SharedQueue q) | None => mret tt end.

Definition attached_processes (shm : SharedMemory) : M server Z := in_world (attached_count shm).

(** Waiting for the other processes; [fuel] bounds the number of checks. *)
Fixpoint wait_detached (fuel : nat) (shm : SharedMemory) (attached : Z) : M server Z :=
  if 1 <? attached then
    match fuel with
    | O => out_of_fuel
    | S fuel =>
        blocking (sys_sleep 100);;
        attached ← attached_processes shm;
        wait_detached fuel shm attached
    end
  else mret attached.

(** The three stages of [shutdown]; [false] is an early return. *)
Definition release_queues : M server unit :=
  header ← field ipc_header_;
  (if header is Some _ then
     set_ready database_to_tcp_queue_ready NOT_READY;;
     set_ready tcp_to_database_queue_ready NOT_READY
   else mret tt);;
  assign (fun o => o <| ipc_header_ := None |>);;
  log_info "Releasing shared queues.";;
  q ← field database_to_tcp_queue_;
  delete_queue q;;
  assign (fun o => o <| database_to_tcp_queue_ := None |>);;
  q ← field tcp_to_database_queue_;
  delete_queue q;;
  assign (fun o => o <| tcp_to_database_queue_ := None |>).

Definition destroy_condition : M server bool :=
  initialized ← field request_queue_condition_initialized_;
  if (initialized : bool) then
    result ← call (sys_cond_destroy request_queue_condition);
    if negb (result =? 0) then
      log_error "Failed to destroy request queue condition variable. Error: %d";; mret false
    else
      assign (fun o => o <| request_queue_condition_initialized_ := false |>);;
      log_info "Request queue condition variable destroyed.";;
      mret true
  else mret true.

Definition destroy_mutex : M server bool :=
  initialized ← field request_queue_mutex_initialized_;
  if (initialized : bool) then
    result ← call (sys_mutex_destroy request_queue_mutex);
    if negb (result =? 0) then
      log_error "Failed to destroy request queue mutex. Error: %d";; mret false
    else
      assign (fun o => o <| request_queue_mutex_initialized_ := false |>);;
      log_info "Request queue mutex destroyed.";;
      mret true
  else mret true.

Definition close_sqlite : M server unit :=
  opened ← field sqlite_database_opened_;
  if (opened : bool) then
    log_info "Closing SQLite database.";;
    in_sqlite (sqlite_database_close nonnull);;
    assign (fun o => o <| sqlite_database_opened_ := false |>)
  else mret tt.

(** The rest of [shutdown], when there is a segment: wait until the other
    processes have detached, and remove it. *)
Definition shutdown_memory (fuel : nat) (shm : SharedMemory) : M server bool :=
  attached ← attached_processes shm;
  (if 1 <? attached then log_info "Waiting for other processes to detach from shared memory."
   else mret tt);;
  attached ← wait_detached fuel shm attached;
  if attached =? -1 then log_error "Failed to get shared memory attachment count.";; mret false else
  log_info "Detaching Database from shared memory.";;
  '(ok, shm) ← (if is_attached shm then in_world (detach shm) else mret (true, shm));
  assign (fun o => o <| shared_memory_ := Some shm |>);;
  if negb ok then log_error "Failed to detach Database from shared memory.";; mret false else
  log_info "Removing shared memory segment.";;
  '(ok, shm) ← in_world (remove shm);
  assign (fun o => o <| shared_memory_ := Some shm |>);;
  if negb ok then log_error "Failed to remove shared memory segment.";; mret false else
  in_world (delete_SharedMemory shm);;
  assign (fun o => o <| shared_memory_ := None |>);;
  close_sqlite;;
  ok ← remove_pid_file;
  if negb ok then mret false
  else log_info "Database shutdown completed.";; mret true.

Definition shutdown (fuel : nat) : M server bool :=
  log_info "Database shutdown started.";;
  release_queues;;
  ok ← destroy_condition;
  if negb ok then mret false else
  ok ← destroy_mutex;
  if negb ok then mret false else
  shm ← field shared_memory_;
  match shm with
  | None =>
      ok ← remove_pid_file;
      if negb ok then mret false
      else
        log_info "Database shutdown completed.";;
        in_logger logger_close;;
        mret true
  | Some shm => shutdown_memory fuel shm
  end.

Definition initialize (fuel : nat) : M server bool :=
  ok ← load_configuration;
  if negb ok then mret false else
  log_file ← field log_file_;
  result ← in_logger (logger_init (Some log_file) 1);
  if negb (result =? 0) then mret false else
  log_info "Logger initialized.";;
  log_info "Configuration loaded.";;
  ok ← write_pid_file;
  if negb ok then shutdown fuel;; mret false else
  log_info "Opening SQLite database '%s'.";;
  file ← field database_file_;
  result ← in_sqlite (sqlite_database_open nonnull (Some file));
  if negb (result =? 0) then
    log_error "Failed to open SQLite database.";; shutdown fuel;; mret false
  else
  assign (fun o => o <| sqlite_database_opened_ := true |>);;
  result ← in_sqlite (sqlite_database_initialize nonnull);
  if negb (result =? 0) then
    log_error "Failed to initialize SQLite database schema.";; shutdown fuel;; mret false
  else
  ok ← initialize_shared_memory;
  if negb ok then mret false else
  ok ← initialize_queues;
  if negb ok then mret false else
  log_info "Database IPC initialized successfully.";;
  mret true.

(** ** Processing a request *)

(** [snprintf(buffer, sizeof(buffer), "%s", text)] *)
Definition print_into (buffer : list byte) (text : list byte) : list byte :=
  let written := fst (snprintf_s (length buffer) text) in written ++ drop (length written) buffer.

Definition empty_response : database_to_tcp_message_t :=
  DatabaseToTcp 0 0 0 (replicate VEHICLE_NUMBER_SIZE NUL) 0 0 0 double_zero.

#[export] Instance response_fields : Fields database_to_tcp_message_t := fun s =>
  DatabaseToTcp (rs_request_id s) (rs_action s) (rs_status s) (rs_vehicle_number s)
    (rs_parking_start_time s) (rs_parking_end_time s) (rs_parking_duration s) (rs_parking_cost s).

Definition process_start_parking_request (request : tcp_to_database_message_t)
    (response : database_to_tcp_message_t) : M server database_to_tcp_message_t :=
  '(result, city_id) ← in_sqlite (sqlite_database_find_city nonnull (rq_latitude request)
                                    (rq_longitude request) nonnull);
  if negb (result =? 0) then
    log_error "Failed to find a parking city for request %llu. Coordinates: %.2f, %.2f.";;
    mret (response <| rs_action := ACKNOWLEDGE |> <| rs_status := IPC_STATUS_INVALID_REQUEST |>)
  else
    city_id ← deref city_id;
    vehicle ← deref (cstr_of_buf (rq_vehicle_number request));
    result ← in_sqlite (sqlite_database_start_parking nonnull (Some vehicle) (rq_latitude request)
                          (rq_longitude request) city_id (rq_parking_start_time request));
    if negb (result =? 0) then
      log_error "Failed to start parking for vehicle '%s'. Request ID: %llu.";;
      mret (response <| rs_action := ACKNOWLEDGE |> <| rs_status := IPC_STATUS_DATABASE_ERROR |>)
    else
      log_info "Parking start request %llu processed successfully for vehicle '%s'. City ID: %d.";;
      mret (response <| rs_action := ACKNOWLEDGE |> <| rs_status := IPC_STATUS_SUCCESS |>
                     <| rs_parking_start_time := rq_parking_start_time request |>).

Definition process_end_parking_request (request : tcp_to_database_message_t)
    (response : database_to_tcp_message_t) : M server database_to_tcp_message_t :=
  vehicle ← deref (cstr_of_buf (rq_vehicle_number request));
  '(result, output) ← in_sqlite (sqlite_database_stop_parking nonnull (Some vehicle)
                                   (rq_parking_end_time request) nonnull nonnull);
  if negb (result =? 0) then
    log_error "Failed to stop parking for vehicle '%s'. Request ID: %llu.";;
    mret (response <| rs_action := END_PARKING |> <| rs_status := IPC_STATUS_VEHICLE_NOT_FOUND |>)
  else
    '(parking_start_time, parking_cost) ← deref output;
    parking_duration ← deref (int64_sub (rq_parking_end_time request) parking_start_time);
    log_info "Parking end request %llu processed successfully for vehicle '%s'. Duration: %lld second(s), cost: %.2f.";;
    mret (response <| rs_action := END_PARKING |> <| rs_status := IPC_STATUS_SUCCESS |>
                   <| rs_parking_start_time := parking_start_time |>
                   <| rs_parking_end_time := rq_parking_end_time request |>
                   <| rs_parking_duration := parking_duration |>
                   <| rs_parking_cost := parking_cost |>).

Definition process_database_request (request : tcp_to_database_message_t)
    : M server database_to_tcp_message_t :=
  vehicle ← deref (cstr_of_buf (rq_vehicle_number request));
  let response :=
    empty_response <| rs_request_id := rq_request_id request |>
                   <| rs_vehicle_number := print_into (rs_vehicle_number empty_response) vehicle |> in
  if rq_action request =? START_PARKING then process_start_parking_request request response
  else if rq_action request =? END_PARKING then process_end_parking_request request response
  else
    log_error "Invalid parking action received in request %llu.";;
    mret (response <| rs_action := rq_action request |> <| rs_status := IPC_STATUS_INVALID_REQUEST |>).

(** ** Worker threads

    One round of each loop; the result says whether the loop goes on. *)
Definition request_reader_round : M server bool :=
  q ← field tcp_to_database_queue_;
  q ← deref q;
  '(popped, item) ← in_ipc (pop q true);
  if negb popped then blocking (sys_sleep IPC_RETRY_DELAY_MS);; mret true else
  item ← deref item;
  let request := decode_request item in
  result ← blocking (sys_mutex_lock request_queue_mutex);
  if negb (result =? 0) then
    log_error "Failed to lock internal request queue mutex. Error: %d";; mret false
  else
  assign (fun o => o <| request_queue_ ::= fun q => q ++ [request] |>);;
  result ← call (sys_mutex_unlock request_queue_mutex);
  if negb (result =? 0) then
    log_error "Failed to unlock internal request queue mutex. Error: %d";; mret false
  else
  result ← call (sys_cond_signal request_queue_condition);
  if negb (result =? 0) then
    log_error "Failed to signal response writer thread. Error: %d";; mret false
  else
  log_info "Request %llu added to the internal Database queue.";;
  mret true.

(** [while (running_) { ... }] *)
Fixpoint while_running (fuel : nat) (round : M server bool) : M server unit :=
  running ← field running_;
  if negb running then mret tt
  else match fuel with
       | O => out_of_fuel
       | S fuel => again ← round; if (again : bool) then while_running fuel round else mret tt
       end.

Definition request_reader_loop (fuel : nat) : M server unit :=
  log_info "Request reader thread started.";;
  while_running fuel request_reader_round;;
  log_info "Request reader thread stopped.".

(** The inner loop: waits while the internal queue is empty. *)
Fixpoint wait_for_request (fuel : nat) (result : Z) : M server Z :=
  queue ← field request_queue_;
  running ← field running_;
  if bool_decide (queue = []) && running then
    match fuel with
    | O => out_of_fuel
    | S fuel =>
        result ← blocking (sys_cond_wait request_queue_condition request_queue_mutex);
        if negb (result =? 0) then log_error "Failed to wait for an internal request. Error: %d";; mret result
        else wait_for_request fuel result
    end
  else mret result.

Definition response_writer_round (fuel : nat) : M server bool :=
  result ← blocking (sys_mutex_lock request_queue_mutex);
  if negb (result =? 0) then
    log_error "Failed to lock internal request queue mutex. Error: %d";; mret false
  else
  result ← wait_for_request fuel 0;
  running ← field running_;
  queue ← field request_queue_;
  if negb (result =? 0) || (negb running && bool_decide (queue = [])) then
    call_ (sys_mutex_unlock request_queue_mutex);; mret false
  else
  request ← deref (head queue);
  assign (fun o => o <| request_queue_ ::= tail |>);;
  result ← call (sys_mutex_unlock request_queue_mutex);
  if negb (result =? 0) then
    log_error "Failed to unlock internal request queue mutex. Error: %d";; mret false
  else
  response ← process_database_request request;
  q ← field database_to_tcp_queue_;
  q ← deref q;
  sent ← in_ipc (push q (Some (encode_response response)));
  if negb sent then
    log_error "Failed to send response %llu to TcpServer.";; mret true
  else log_info "Response %llu sent to TcpServer.";; mret true.

Definition response_writer_loop (fuel : nat) : M server unit :=
  log_info "Response writer thread started.";;
  while_running fuel (response_writer_round fuel);;
  log_info "Response writer thread stopped.".

Definition request_reader_thread : nat -> M server unit := request_reader_loop.
Definition response_writer_thread : nat -> M server unit := response_writer_loop.

(** ** The main thread *)
Definition SIGINT_NUMBER : Z := 2.
Definition SIGUSR1_NUMBER : Z := 10.

(** Up to the start of the worker threads; [false] is an early return. *)
Definition run_start : M server bool :=
  result ← call (sys_mutex_init request_queue_mutex);
  if negb (result =? 0) then
    log_error "Failed to initialize request queue mutex. Error: %d";; mret false
  else
  assign (fun o => o <| request_queue_mutex_initialized_ := true |>);;
  result ← call (sys_cond_init request_queue_condition);
  if negb (result =? 0) then
    log_error "Failed to initialize request queue condition variable. Error: %d";;
    call_ (sys_mutex_destroy request_queue_mutex);;
    mret false
  else
  assign (fun o => o <| request_queue_condition_initialized_ := true |>);;
  call_ sys_sigemptyset;;
  call_ (sys_sigaddset SIGINT);;
  call_ (sys_sigaddset SIGUSR1);;
  result ← call (sys_sigmask SIG_BLOCK);
  if negb (result =? 0) then
    log_error "Failed to block SIGINT. Error: %d";;
    call_ (sys_cond_destroy request_queue_condition);;
    call_ (sys_mutex_destroy request_queue_mutex);;
    mret false
  else
  assign (fun o => o <| running_ := true |>);;
  result ← call (sys_thread_create request_reader);
  if negb (result =? 0) then
    log_error "Failed to create request reader thread. Error: %d";;
    assign (fun o => o <| running_ := false |>);;
    call_ (sys_sigmask SIG_SETMASK);;
    call_ (sys_cond_destroy request_queue_condition);;
    call_ (sys_mutex_destroy request_queue_mutex);;
    mret false
  else
  result ← call (sys_thread_create response_writer);
  if negb (result =? 0) then
    log_error "Failed to create response writer thread. Error: %d";;
    blocking (sys_mutex_lock request_queue_mutex);;
    assign (fun o => o <| running_ := false |>);;
    call_ (sys_cond_broadcast request_queue_condition);;
    call_ (sys_mutex_unlock request_queue_mutex);;
    blocking (sys_thread_join request_reader);;
    call_ (sys_sigmask SIG_SETMASK);;
    call_ (sys_cond_destroy request_queue_condition);;
    call_ (sys_mutex_destroy request_queue_mutex);;
    mret false
  else mret true.

(** The signal loop; the result is the last result of [sigwait]. *)
Fixpoint wait_for_signals (fuel : nat) (result : Z) : M server Z :=
  running ← field running_;
  if negb running then mret result
  else match fuel with
  | O => out_of_fuel
  | S fuel =>
      a ← in_world (sys sys_sigwait);
      modify others;;
      if negb (ans_ret a =? 0) then
        log_error "Failed while waiting for a signal. Error: %d";; mret (ans_ret a)
      else
        let signal_number := le_val (ans_data a) in
        (if signal_number =? SIGINT_NUMBER then
           log_info "SIGINT received.";; assign (fun o => o <| running_ := false |>)
         else if signal_number =? SIGUSR1_NUMBER then log_info "Parking database has been updated."
         else log_error "Unexpected signal received: %d.");;
        wait_for_signals fuel (ans_ret a)
  end.

(** Stopping and joining the worker threads. *)
Definition run_stop : M server unit :=
  result ← blocking (sys_mutex_lock request_queue_mutex);
  (if negb (result =? 0) then log_error "Failed to lock request queue mutex during stop. Error: %d"
   else
     assign (fun o => o <| running_ := false |>);;
     result ← call (sys_cond_broadcast request_queue_condition);
     (if negb (result =? 0) then log_error "Failed to wake response writer thread. Error: %d" else mret tt);;
     result ← call (sys_mutex_unlock request_queue_mutex);
     (if negb (result =? 0) then log_error "Failed to unlock request queue mutex during stop. Error: %d"
      else mret tt));;
  log_info "Joining Database worker threads.";;
  result ← blocking (sys_thread_join request_reader);
  (if negb (result =? 0) then log_error "Failed to join request reader thread. Error: %d" else mret tt);;
  result ← blocking (sys_thread_join response_writer);
  (if negb (result =? 0) then log_error "Failed to join response writer thread. Error: %d" else mret tt);;
  call_ (sys_sigmask SIG_SETMASK);;
  log_info "Database worker threads stopped.".

Definition run (fuel : nat) : M server unit :=
  started ← run_start;
  if negb started then mret tt else
  log_info "Database is running. Press Ctrl+C to stop.";;
  result ← wait_for_signals fuel 0;
  (if negb (result =? 0) then log_error "Failed while waiting for a signal. Error: %d" else mret tt);;
  run_stop.

(** The destructor. *)
Definition delete_Database : M server unit := in_logger logger_close.

(** Database/Test/main.cpp; the result is the exit status. *)
Definition main (fuel : nat) : M server Z :=
  ok ← initialize fuel;
  if negb ok then delete_Database;; mret 1 else
  run fuel;;
  ok ← shutdown fuel;
  delete_Database;;
  if negb ok then mret 1 else mret 0.
End Operations.
