(* ===== verification/DatabaseProofs.v ===== *)
(** DatabaseProofs: the properties of the Database server: what it answers to
    each request, how requests travel through its two threads, when it
    announces its queues, and how it stops. *)

From S2P Require Import Prelude Machine CLib CNumber Ieee Posix Config Logger IpcProtocol.
From S2P Require Import SharedMemory SharedQueue Sqlite SqliteDatabase SqliteRules.
From S2P Require Import ParkingDatabase SqliteExample Database.

Section Rules.
Context `{Environment} `{Sqlite} `{!OtherThreads}.
Implicit Types s : server.

Lemma wp_in_world {A} (m : M world A) (Q : A -> server -> Prop) s :
  wp m (fun a w => Q a (s <| srv_world := w |>)) (srv_world s) -> wp (in_world m) Q s.
Proof. apply (wp_zoom srv_world (fun w s => s <| srv_world := w |>)). Qed.

Lemma wp_in_sqlite {A} (m : M database A) (Q : A -> server -> Prop) s :
  wp m (fun a d => Q a (s <| srv_handle := db_handle d |> <| srv_sqlite := db_sqlite d |>
                          <| srv_world := db_world d |>)) (DB _ (srv_handle s) (srv_sqlite s) (srv_world s)) ->
  wp (in_sqlite m) Q s.
Proof.
  apply (wp_zoom (fun s => DB _ (srv_handle s) (srv_sqlite s) (srv_world s))
    (fun d s => s <| srv_handle := db_handle d |> <| srv_sqlite := db_sqlite d |>
                  <| srv_world := db_world d |>)).
Qed.

Lemma wp_in_ipc {A} (m : M ipc_state A) (Q : A -> server -> Prop) s :
  wp m (fun a i => Q a (s <| srv_segment := segment i |> <| srv_world := ipc_world i |>))
     (IpcState (srv_segment s) (srv_world s)) ->
  wp (in_ipc m) Q s.
Proof.
  apply (wp_zoom (fun s => IpcState (srv_segment s) (srv_world s))
    (fun i s => s <| srv_segment := segment i |> <| srv_world := ipc_world i |>)).
Qed.

Lemma wp_log c f (Q : unit -> server -> Prop) s :
  Q tt (s <| srv_world := (sys_log c f, respond (srv_world s) (sys_log c f)) :: srv_world s |>) ->
  wp (in_world (sys_ (sys_log c f))) Q s.
Proof. intros HQ. by apply wp_in_world, wp_sys_. Qed.

Lemma wp_deref {A} (o : option A) a (Q : A -> server -> Prop) s : o = Some a -> Q a s -> wp (deref o) Q s.
Proof. apply wp_from_option. Qed.

Lemma wp_field {A} (f : Database -> A) (Q : A -> server -> Prop) s : Q (f (this s)) s -> wp (field f) Q s.
Proof. done. Qed.

Lemma wp_assign f (Q : unit -> server -> Prop) s : Q tt (s <| this ::= f |>) -> wp (assign f) Q s.
Proof. done. Qed.
End Rules.

(** ** Answers *)

(** The vehicle number as the response carries it. *)
Definition echoed_vehicle (v : list byte) : list byte := copy_cstr VEHICLE_NUMBER_SIZE v.

Lemma print_into_empty v : (length v < VEHICLE_NUMBER_SIZE)%nat ->
  print_into (rs_vehicle_number empty_response) v = echoed_vehicle v.
Proof.
  intros Hv. unfold print_into, echoed_vehicle, copy_cstr, strncpy, snprintf_s. cbn [fst].
  change (rs_vehicle_number empty_response) with (replicate 16 NUL).
  unfold VEHICLE_NUMBER_SIZE in *. rewrite length_replicate. change (16 - 1)%nat with 15%nat.
  rewrite length_app, length_take, drop_replicate, <- !(assoc_L (++)). f_equal. cbn [length].
  replace (16 - (15 `min` length v + 1))%nat with (15 - length v)%nat by lia.
  apply replicate_cons_app.
Qed.

(** The response before it is filled in. *)
Definition blank_reply (rq : tcp_to_database_message_t) (v : list byte) : database_to_tcp_message_t :=
  empty_response <| rs_request_id := rq_request_id rq |> <| rs_vehicle_number := echoed_vehicle v |>.

Section Replies.
Context `{SqliteLaws} (rq : tcp_to_database_message_t) (v : list byte) (T T' : tables).

(** Replies to START_PARKING, with the tables before and after. *)
Inductive start_reply : database_to_tcp_message_t -> Prop :=
| start_reply_nowhere :
    sqlite_failure \/ (exists t, rely T t /\
      forall i c, cities t !! i = Some c -> city_contains c (rq_latitude rq) (rq_longitude rq) = false) ->
    sessions T' = sessions T ->
    start_reply ((blank_reply rq v) <| rs_action := ACKNOWLEDGE |> <| rs_status := IPC_STATUS_INVALID_REQUEST |>)
| start_reply_failed t i c :
    rely T t -> cities t !! i = Some c ->
    city_contains c (rq_latitude rq) (rq_longitude rq) = true ->
    sqlite_failure \/ s32 i <= 0 \/ rq_parking_start_time rq <= 0 \/ parked v T \/
      (exists t', rely t t' /\ cities t' !! s32 i = None) \/
      (exists t' c', rely t t' /\ cities t' !! s32 i = Some c' /\
         is_nan (rq_latitude rq) || is_nan (rq_longitude rq) || is_nan (price_per_minute c') = true) ->
    sessions T' = sessions T ->
    start_reply ((blank_reply rq v) <| rs_action := ACKNOWLEDGE |> <| rs_status := IPC_STATUS_DATABASE_ERROR |>)
| start_reply_done t i c k :
    rely T t -> cities t !! i = Some c ->
    city_contains c (rq_latitude rq) (rq_longitude rq) = true ->
    (exists t' c', rely t t' /\ cities t' !! s32 i = Some c' /\
      sessions T' = <[k := Session v (rq_latitude rq) (rq_longitude rq) (s32 i) (price_per_minute c')
                             (rq_parking_start_time rq) None None]> (sessions T)) ->
    0 < rq_parking_start_time rq -> ~ parked v T -> fresh_key k (sessions T) ->
    start_reply ((blank_reply rq v) <| rs_action := ACKNOWLEDGE |> <| rs_status := IPC_STATUS_SUCCESS |>
                                  <| rs_parking_start_time := rq_parking_start_time rq |>).

(** Replies to END_PARKING. *)
Inductive end_reply : database_to_tcp_message_t -> Prop :=
| end_reply_refused :
    sqlite_failure \/ rq_parking_end_time rq <= 0 \/ ~ parked v T \/
      (exists i x, latest_active v T i x /\ rq_parking_end_time rq < s_start_time x) ->
    sessions T' = sessions T ->
    end_reply ((blank_reply rq v) <| rs_action := END_PARKING |> <| rs_status := IPC_STATUS_VEHICLE_NOT_FOUND |>)
| end_reply_done i x minutes cost :
    latest_active v T i x -> s_start_time x <= rq_parking_end_time rq ->
    parking_minutes (s_start_time x) (rq_parking_end_time rq) = Some minutes ->
    cost = parking_cost minutes (s_price_per_minute x) ->
    sessions T' = alter (close_session (Some (rq_parking_end_time rq)) (stored_real cost)) i (sessions T) ->
    end_reply ((blank_reply rq v) <| rs_action := END_PARKING |> <| rs_status := IPC_STATUS_SUCCESS |>
                 <| rs_parking_start_time := s_start_time x |>
                 <| rs_parking_end_time := rq_parking_end_time rq |>
                 <| rs_parking_duration := rq_parking_end_time rq - s_start_time x |>
                 <| rs_parking_cost := cost |>).

(** The cities are those other processes have left; only sessions were written. *)
Definition cities_by_others : Prop := exists t, rely T t /\ rely (set_sessions (sessions T') t) T'.

(** The reply to any request. *)
Definition reply (rs : database_to_tcp_message_t) : Prop :=
  cities_by_others /\
  if rq_action rq =? START_PARKING then start_reply rs
  else if rq_action rq =? END_PARKING then end_reply rs
  else rs = (blank_reply rq v) <| rs_action := rq_action rq |> <| rs_status := IPC_STATUS_INVALID_REQUEST |> /\
       sessions T' = sessions T.
End Replies.

Lemma cities_by_others_only `{SqliteLaws} T T' : rely T T' -> cities_by_others T T'.
Proof. intros Hr. exists T'. split; [done|]. by destruct T'. Qed.

Lemma cities_by_others_written `{SqliteLaws} T t m T' : sessions_private -> rely T t -> rely (set_sessions m t) T' ->
  cities_by_others T T'.
Proof. intros Hpriv Hr Hw. exists t. split; [done|]. pose proof (Hpriv _ _ Hw) as E. cbn in E. by rewrite E. Qed.

(** Nothing of the process differs but the tables and the history of calls. *)
Definition same_server `{SqliteLaws} (s s' : server) : Prop :=
  this s' = this s /\ srv_segment s' = srv_segment s /\ srv_handle s' = srv_handle s /\
  connections (srv_sqlite s') = connections (srv_sqlite s) /\
  statements (srv_sqlite s') = statements (srv_sqlite s) /\
  srv_log_fd s' = srv_log_fd s /\ srv_console s' = srv_console s.

Section Processing.
Context `{Environment} `{SqliteLaws} `{!OtherThreads} (Hpriv : sessions_private).
Implicit Types s : server.

Abbreviation tables_in s := (tables_of (srv_sqlite s)).

Lemma database_missing_open s : srv_handle s <> 0 ->
  database_missing nonnull (DB _ (srv_handle s) (srv_sqlite s) (srv_world s)) = false.
Proof. intros Hh. unfold database_missing. cbn. by apply Z.eqb_neq. Qed.

Lemma end_parking_reply rq v s :
  cstr_of_buf (rq_vehicle_number rq) = Some v -> srv_handle s <> 0 ->
  sessions_ok (sessions (tables_in s)) -> rq_parking_end_time rq <= LAST_END_TIME ->
  wp (process_end_parking_request rq (blank_reply rq v)) (fun rs s' =>
    same_server s s' /\ cities_by_others (tables_in s) (tables_in s') /\
    end_reply rq v (tables_in s) (tables_in s') rs) s.
Proof using Hpriv.
  intros Hv Hh Hok He. unfold process_end_parking_request.
  apply wp_bind, (wp_deref _ v); [done|]. apply wp_bind, wp_in_sqlite.
  eapply wp_mono; [apply stop_parking_spec; by apply charge_defined_ok|].
  cbn beta. rewrite (database_missing_open s) by done. cbn [is_null orb negb].
  intros [r out] d [(E1 & E2 & E3) Ho]. cbn in E1, E2, E3. cbn [db_sqlite] in Ho.
  destruct (Z.eqb_spec r 0) as [->|Hr]; cbn [negb].
  - inversion Ho as [| | | |t1 t2 t' i x k cost Ha R1 Hx Hle Hk Hc R2 R3]; subst.
    apply wp_bind, (wp_deref _ (s_start_time x, parking_cost k (s_price_per_minute x))); [done|].
    apply wp_bind, (wp_deref _ (rq_parking_end_time rq - s_start_time x)).
    { unfold int64_sub. destruct (in_int64 _) eqn:Hi; [done|].
      unfold parking_minutes, int64_sub in Hk. by rewrite Hi in Hk. }
    apply wp_bind, wp_log, wp_ret. split; [by split_and!|].
    split. { eapply cities_by_others_written; [done| |exact R3]. by transitivity t1. }
    assert (latest_active v (tables_in s) i x) as Hx0.
    { unfold latest_active in *. by rewrite <- (Hpriv _ _ R1). }
    eapply end_reply_done; [exact Hx0|done|exact Hk|done|].
    cbn. rewrite (Hpriv _ _ R3). cbn. by rewrite (Hpriv _ _ R2), (Hpriv _ _ R1).
  - apply wp_bind, wp_log, wp_ret. split; [by split_and!|]. cbn.
    inversion Ho as [t' Hacc R|t t' R1 Hnp R2|t t' i x R1 Hx Hlt R2|t' F R|]; subst; [..|done];
      (split; [apply cities_by_others_only; by (done || transitivity t)|]).
    + apply end_reply_refused; [right; left|by apply Hpriv].
      apply negb_false_iff in Hacc. rewrite !orb_false_r in Hacc. lia.
    + apply end_reply_refused; [right; right; left|by rewrite (Hpriv _ _ R2), (Hpriv _ _ R1)].
      unfold parked in *. by rewrite <- (Hpriv _ _ R1).
    + apply end_reply_refused; [do 3 right|by rewrite (Hpriv _ _ R2), (Hpriv _ _ R1)].
      exists i, x. split; [|done]. unfold latest_active in *. by rewrite <- (Hpriv _ _ R1).
    + apply end_reply_refused; [by left|by apply Hpriv].
Qed.

(** The outcomes of the two calls of [process_start_parking_request], as replies. *)
Lemma find_outcome_nowhere rq v T T' r out :
  find_outcome T false (rq_latitude rq) (rq_longitude rq) (r, out) T' -> r <> 0 ->
  cities_by_others T T' /\
  start_reply rq v T T' ((blank_reply rq v) <| rs_action := ACKNOWLEDGE |> <| rs_status := IPC_STATUS_INVALID_REQUEST |>).
Proof using Hpriv.
  intros Ho Hr. assert (rely T T') as R by (inversion Ho; subst; by (done || etrans)).
  split; [by apply cities_by_others_only|]. apply start_reply_nowhere; [|by apply Hpriv].
  inversion Ho as [|t' F _|t t' Rt Hno _|]; subst; [done|by left|right; by exists t|done].
Qed.

Lemma start_outcome_failed rq v T t t1 T' i c :
  rely T t -> cities t !! i = Some c -> city_contains c (rq_latitude rq) (rq_longitude rq) = true -> rely t t1 ->
  start_outcome t1 (negb ((s32 i <=? 0) || (rq_parking_start_time rq <=? 0))) v (rq_latitude rq) (rq_longitude rq)
    (s32 i) (rq_parking_start_time rq) (-1) T' ->
  cities_by_others T T' /\
  start_reply rq v T T' ((blank_reply rq v) <| rs_action := ACKNOWLEDGE |> <| rs_status := IPC_STATUS_DATABASE_ERROR |>).
Proof using Hpriv.
  intros R Hc Hin R1 Ho. assert (rely t1 T') as R2 by (inversion Ho; by (done || etrans)).
  assert (rely T T') as R' by (etrans; [exact R|by etrans]).
  split; [by apply cities_by_others_only|]. eapply (start_reply_failed _ _ _ _ t i c); [done..| |by apply Hpriv].
  inversion Ho as [t'' Ha _|t2 t'' S Hp _|t2 t'' S Hno _|t2 t'' c' S Hc' Hnan _|t'' F _|]; subst.
  - apply negb_false_iff, orb_prop in Ha as [Ha%Z.leb_le|Ha%Z.leb_le]; [by right; left|by do 2 right; left].
  - do 3 right. left. unfold parked in *. by rewrite <- (Hpriv _ _ R), <- (Hpriv _ _ R1), <- (Hpriv _ _ S).
  - do 4 right. left. exists t2. split; [by transitivity t1|done].
  - do 5 right. exists t2, c'. split; [by transitivity t1|done].
  - by left.
Qed.

Lemma start_outcome_done rq v T t t1 T' i c acceptable :
  rely T t -> cities t !! i = Some c -> city_contains c (rq_latitude rq) (rq_longitude rq) = true -> rely t t1 ->
  acceptable = negb ((s32 i <=? 0) || (rq_parking_start_time rq <=? 0)) ->
  start_outcome t1 acceptable v (rq_latitude rq) (rq_longitude rq) (s32 i) (rq_parking_start_time rq) 0 T' ->
  cities_by_others T T' /\
  start_reply rq v T T' ((blank_reply rq v) <| rs_action := ACKNOWLEDGE |> <| rs_status := IPC_STATUS_SUCCESS |>
                                    <| rs_parking_start_time := rq_parking_start_time rq |>).
Proof using Hpriv.
  intros R Hc Hin R1 Ha Ho. inversion Ho as [| | | | |t2 t3 t4 t'' c' k Hacc R2 Hnp R3 Hc' R4 Hk R5]; subst.
  assert (sessions t2 = sessions T) as E2 by (by rewrite (Hpriv _ _ R2), (Hpriv _ _ R1), (Hpriv _ _ R)).
  assert (sessions t4 = sessions T) as E4 by (by rewrite (Hpriv _ _ R4), (Hpriv _ _ R3)).
  assert (rely t t3) as R3' by (transitivity t1; [done|by transitivity t2]). split.
  { eapply cities_by_others_written; [done| |exact R5]. transitivity t; [done|by transitivity t3]. }
  eapply start_reply_done; [exact R|exact Hc|exact Hin| | | |].
  - exists t3, c'. split_and!; [done..|]. rewrite (Hpriv _ _ R5). cbn [sessions set_sessions]. by rewrite E4.
  - by apply negb_true_iff, orb_false_elim in Hacc as [_ Hst%Z.leb_gt].
  - unfold parked in *. by rewrite <- E2.
  - by rewrite <- E4.
Qed.

Lemma start_parking_reply rq v s :
  cstr_of_buf (rq_vehicle_number rq) = Some v -> srv_handle s <> 0 ->
  wp (process_start_parking_request rq (blank_reply rq v)) (fun rs s' =>
    same_server s s' /\ cities_by_others (tables_in s) (tables_in s') /\
    start_reply rq v (tables_in s) (tables_in s') rs) s.
Proof using Hpriv.
  intros Hv Hh. unfold process_start_parking_request.
  apply wp_bind, wp_in_sqlite. eapply wp_mono; [apply find_city_spec|]. rewrite (database_missing_open s) by done.
  intros [r out] d [(E1 & E2 & E3) Ho]. cbn in E1, E2, E3. cbn [db_sqlite] in Ho.
  destruct (Z.eqb_spec r 0) as [->|Hr]; cbn [negb].
  2: { apply wp_bind, wp_log, wp_ret. split; [by split_and!|]. by eapply find_outcome_nowhere. }
  inversion Ho as [| | |t t' i c _ R1 Hc Hin R2]; subst.
  apply wp_bind, (wp_deref _ (s32 i)); [done|]. apply wp_bind, (wp_deref _ v); [done|].
  apply wp_bind, wp_in_sqlite. eapply wp_mono; [apply start_parking_spec|].
  rewrite database_missing_open by (cbn; congruence).
  intros r2 d2 [(F1 & F2 & F3) Ho2]. cbn in F1, F2, F3. cbn [db_sqlite srv_sqlite set_field orb] in Ho2.
  destruct (Z.eqb_spec r2 0) as [->|Hr2]; cbn [negb];
    apply wp_bind, wp_log, wp_ret; (split; [split_and!; cbn; congruence|]).
  - by eapply start_outcome_done.
  - assert (r2 = -1) as -> by (by inversion Ho2). by eapply (start_outcome_failed rq v _ t _ _ i c).
Qed.

Lemma cstr_vehicle_short rq v : cstr_of_buf (rq_vehicle_number rq) = Some v ->
  length (rq_vehicle_number rq) = VEHICLE_NUMBER_SIZE -> (length v < VEHICLE_NUMBER_SIZE)%nat.
Proof. intros Hv <-. by apply cstr_of_buf_length. Qed.

Lemma process_request_spec rq v s :
  cstr_of_buf (rq_vehicle_number rq) = Some v ->
  length (rq_vehicle_number rq) = VEHICLE_NUMBER_SIZE ->
  srv_handle s <> 0 -> sessions_ok (sessions (tables_in s)) ->
  rq_parking_end_time rq <= LAST_END_TIME ->
  wp (process_database_request rq) (fun rs s' =>
    same_server s s' /\ reply rq v (tables_in s) (tables_in s') rs) s.
Proof using Hpriv.
  intros Hv Hlen Hh Hok He. unfold process_database_request, reply.
  apply wp_bind, (wp_deref _ v); [done|].
  rewrite print_into_empty by (by eapply cstr_vehicle_short). fold (blank_reply rq v).
  destruct (rq_action rq =? START_PARKING); [by apply start_parking_reply|].
  destruct (rq_action rq =? END_PARKING); [by apply end_parking_reply|].
  apply wp_bind, wp_log, wp_ret. split; [by split_and!|]. split; [|done]. by apply cities_by_others_only.
Qed.
End Processing.

Lemma reply_keeps_sessions_ok `{SqliteLaws} rq v T T' rs :
  reply rq v T T' rs -> sessions_ok (sessions T) -> sessions_ok (sessions T').
Proof.
  unfold reply. intros [_ Hr] Hok.
  destruct (rq_action rq =? START_PARKING); [|destruct (rq_action rq =? END_PARKING)].
  - destruct Hr as [_ ->|t i c _ _ _ _ ->|t i c k _ _ _ (t' & c' & _ & _ & ->) Hst Hnp [Hk _]]; [done..|].
    eapply session_change_ok; [|exact Hok]. constructor; [done|done|].
    intros j y Hy Hvy Hey. apply Hnp. by exists j, y.
  - destruct Hr as [_ ->|i x m cost (Hx & _ & Hex & _) Hle Hm -> ->]; [done|].
    eapply session_change_ok; [|exact Hok]. by constructor.
  - by destruct Hr as [_ ->].
Qed.

(** C12: the answer to every request: the response echoes the request's
    identifier and vehicle number; a START_PARKING request that succeeds adds
    exactly one active session, in a city that contains the position and at
    that city's price, and any other outcome leaves the sessions alone; an
    END_PARKING request that succeeds closes the latest active session of the
    vehicle and reports its start, the exact duration and the charge, and is
    refused only for the reasons of [end_reply]; any other action is answered
    INVALID_REQUEST.  The sessions stay in order and no statement is left. *)
Theorem process_request_correct `{Environment} `{SqliteLaws} `{!OtherThreads}
    (rq : tcp_to_database_message_t) (v : list byte) (s : server) :
  sessions_private -> cstr_of_buf (rq_vehicle_number rq) = Some v ->
  length (rq_vehicle_number rq) = VEHICLE_NUMBER_SIZE -> srv_handle s <> 0 ->
  sessions_ok (sessions (tables_of (srv_sqlite s))) -> rq_parking_end_time rq <= LAST_END_TIME ->
  wp (process_database_request rq) (fun rs s' =>
    same_server s s' /\ reply rq v (tables_of (srv_sqlite s)) (tables_of (srv_sqlite s')) rs /\
    sessions_ok (sessions (tables_of (srv_sqlite s')))) s.
Proof.
  intros Hpriv Hv Hlen Hh Hok He. eapply wp_mono; [by apply process_request_spec|].
  intros rs s' [Hs Hr]. split; [done|]. split; [done|]. by eapply reply_keeps_sessions_ok.
Qed.

(** ** The two worker threads *)

(** The pthread calls of the workers succeed. *)
Definition pthreads_work (env : Environment) : Prop := forall w,
  ans_ret (respond w (sys_mutex_lock request_queue_mutex)) = 0 /\
  ans_ret (respond w (sys_mutex_unlock request_queue_mutex)) = 0 /\
  ans_ret (respond w (sys_cond_signal request_queue_condition)) = 0.

(** The server is running with its queues [q1] and [q2], whose contents are
    [xs] and [ys], and [rqs] waiting inside. *)
Record serving `{SqliteLaws} (q1 q2 : SharedQueue) (sem1 sem2 : Z) (xs ys : list (list byte))
    (rqs : list tcp_to_database_message_t) (s : server) : Prop := {
  sv_request : tcp_to_database_queue_ (this s) = Some q1;
  sv_response : database_to_tcp_queue_ (this s) = Some q2;
  sv_request_queue : is_request_queue q1 sem1;
  sv_response_queue : is_response_queue q2 sem2;
  sv_segment : ipc_segment (srv_segment s) xs ys;
  sv_internal : request_queue_ (this s) = rqs;
  sv_handle : srv_handle s <> 0;
  sv_sessions : sessions_ok (sessions (tables_of (srv_sqlite s)));
}.

(** A request that respects the protocol, for vehicle [v]. *)
Record good_request (rq : tcp_to_database_message_t) (v : list byte) : Prop := {
  gr_wf : wf_request rq;
  gr_vehicle : cstr_of_buf (rq_vehicle_number rq) = Some v;
  gr_end : rq_parking_end_time rq <= LAST_END_TIME;
}.

(** The responses to a sequence of requests, with the tables they go through. *)
Inductive replies `{SqliteLaws}
    : tables -> list tcp_to_database_message_t -> list database_to_tcp_message_t -> tables -> Prop :=
| replies_nil T : replies T [] [] T
| replies_cons T T1 T2 rq rqs v rs rss :
    good_request rq v -> reply rq v T T1 rs -> replies T1 rqs rss T2 ->
    replies T (rq :: rqs) (rs :: rss) T2.

(** A schedule of the two threads, one round at a time.  A writer that finds no
    request stays in [pthread_cond_wait] and its turn changes nothing. *)
Inductive worker := Reader | Writer.

Definition worker_round `{Environment} `{Sqlite} `{!OtherThreads} (w : worker) : M server unit :=
  match w with
  | Reader => request_reader_round;; mret tt
  | Writer =>
      waiting ← field request_queue_;
      if bool_decide (waiting = []) then mret tt else response_writer_round 0;; mret tt
  end.

Definition run_workers `{Environment} `{Sqlite} `{!OtherThreads} (schedule : list worker) : M server unit :=
  foldr (fun w rest => worker_round w;; rest) (mret tt) schedule.

(** The specification of the pipeline: requests that are answered, inside, and
    still in the shared queue. *)
Record pipeline := Pipeline {
  answered : list tcp_to_database_message_t;
  inside : list tcp_to_database_message_t;
  queued : list tcp_to_database_message_t;
}.

Definition pipeline_step (p : pipeline) (w : worker) : pipeline :=
  match w with
  | Reader =>
      match queued p with
      | [] => p
      | rq :: rest => Pipeline (answered p) (inside p ++ [rq]) rest
      end
  | Writer =>
      match inside p with
      | [] => p
      | rq :: rest => Pipeline (answered p ++ [rq]) rest (queued p)
      end
  end.

Lemma length_reply `{SqliteLaws} rq v T T' rs : good_request rq v -> reply rq v T T' rs ->
  Z.of_nat (length (encode_response rs)) = sizeof_response.
Proof.
  intros [[_ _ Hl _ _ _ _] Hv _] Hr.
  assert (length (rs_vehicle_number rs) = VEHICLE_NUMBER_SIZE) as E.
  { assert (length (echoed_vehicle v) = VEHICLE_NUMBER_SIZE) as Ee
      by (apply length_copy_cstr; unfold VEHICLE_NUMBER_SIZE; lia).
    destruct Hr as [_ Hr]. destruct (rq_action rq =? START_PARKING); [by destruct Hr|].
    destruct (rq_action rq =? END_PARKING); [by destruct Hr|]. by destruct Hr as [-> _]. }
  unfold encode_response. rewrite !length_app, !length_le_bytes, E. reflexivity.
Qed.

Lemma replies_length `{SqliteLaws} T rqs rss T' : replies T rqs rss T' -> length rss = length rqs.
Proof. induction 1; cbn; congruence. Qed.

Lemma replies_snoc `{SqliteLaws} T rqs rss T1 rq v rs T2 :
  replies T rqs rss T1 -> good_request rq v -> reply rq v T1 T2 rs ->
  replies T (rqs ++ [rq]) (rss ++ [rs]) T2.
Proof.
  induction 1 as [T|T T1 T3 rq' rqs v' rs' rss]; cbn; intros Hg Hr.
  - econstructor; [done..|constructor].
  - econstructor; eauto.
Qed.

Lemma pipeline_conserves p schedule :
  let p' := foldl pipeline_step p schedule in
  answered p' ++ inside p' ++ queued p' = answered p ++ inside p ++ queued p.
Proof.
  revert p. induction schedule as [|w schedule IH]; intros p; [done|]. cbn in *. rewrite IH.
  destruct p as [a i q], w; cbn.
  - destruct q; cbn; by rewrite <- ?(assoc_L (++)).
  - destruct i; cbn; by rewrite <- ?(assoc_L (++)).
Qed.

Lemma pipeline_reads n i q : (length q <= n)%nat ->
  foldl pipeline_step (Pipeline [] i q) (replicate n Reader) = Pipeline [] (i ++ q) [].
Proof.
  revert i q. induction n as [|n IH]; intros i [|r q] Hn; cbn in *; try lia.
  - by rewrite app_nil_r.
  - rewrite IH by (cbn; lia). done.
  - rewrite IH by lia. by rewrite <- (assoc_L (++)).
Qed.

Lemma pipeline_writes n a i : (length i <= n)%nat ->
  foldl pipeline_step (Pipeline a i []) (replicate n Writer) = Pipeline (a ++ i) [] [].
Proof.
  revert a i. induction n as [|n IH]; intros a [|r i] Hn; cbn in *; try lia.
  - by rewrite app_nil_r.
  - rewrite IH by (cbn; lia). done.
  - rewrite IH by lia. by rewrite <- (assoc_L (++)).
Qed.

Lemma pipeline_drains n rqs : (length rqs <= n)%nat ->
  foldl pipeline_step (Pipeline [] [] rqs) (replicate n Reader ++ replicate n Writer) = Pipeline rqs [] [].
Proof. intros Hn. by rewrite foldl_app, pipeline_reads, pipeline_writes. Qed.

Section Workers.
Context `{Environment} `{SqliteLaws} `{!OtherThreads}.
Context (Hpriv : sessions_private) (Hquiet : forall s : server, others s = s)
  (Hpt : pthreads_work _) (q1 q2 : SharedQueue) (sem1 sem2 : Z)
  (Hsem1 : semaphore_works _ sem1) (Hsem2 : semaphore_works _ sem2).
Implicit Types s : server.

Lemma wp_call_ok c (Q : Z -> server -> Prop) s :
  Q (ans_ret (respond (srv_world s) c)) (s <| srv_world := (c, respond (srv_world s) c) :: srv_world s |>) ->
  wp (Database.call c) Q s.
Proof. intros HQ. by apply wp_in_world, wp_sysr. Qed.

Lemma wp_blocking_ok c (Q : Z -> server -> Prop) s :
  Q (ans_ret (respond (srv_world s) c)) (s <| srv_world := (c, respond (srv_world s) c) :: srv_world s |>) ->
  wp (blocking c) Q s.
Proof using Hquiet.
  intros HQ. apply wp_bind, wp_call_ok, wp_bind, wp_modify, wp_ret. by rewrite Hquiet.
Qed.

Lemma wp_lock (Q : Z -> server -> Prop) s :
  (forall w, Q 0 (s <| srv_world := w |>)) -> wp (blocking (sys_mutex_lock request_queue_mutex)) Q s.
Proof using Hquiet Hpt.
  intros HQ. apply wp_blocking_ok. by destruct (Hpt (srv_world s)) as (-> & _ & _).
Qed.

Lemma wp_unlock (Q : Z -> server -> Prop) s :
  (forall w, Q 0 (s <| srv_world := w |>)) -> wp (Database.call (sys_mutex_unlock request_queue_mutex)) Q s.
Proof using Hpt.
  intros HQ. apply wp_call_ok. by destruct (Hpt (srv_world s)) as (_ & -> & _).
Qed.

Lemma wp_signal (Q : Z -> server -> Prop) s :
  (forall w, Q 0 (s <| srv_world := w |>)) -> wp (Database.call (sys_cond_signal request_queue_condition)) Q s.
Proof using Hpt.
  intros HQ. apply wp_call_ok. by destruct (Hpt (srv_world s)) as (_ & _ & ->).
Qed.

Ltac passes := intros ?w; change (negb (0 =? 0)) with false; cbv iota.

Lemma reader_round_spec x xs ys rqs s :
  serving q1 q2 sem1 sem2 (x :: xs) ys rqs s ->
  wp request_reader_round (fun again s' =>
    again = true /\ serving q1 q2 sem1 sem2 xs ys (rqs ++ [decode_request x]) s' /\
    srv_sqlite s' = srv_sqlite s) s.
Proof using Hquiet Hpt Hsem1.
  intros [Hq1 Hq2 Ho1 Ho2 Hseg Hin Hh Hok]. unfold request_reader_round.
  apply wp_bind, wp_field. rewrite Hq1. apply wp_bind, (wp_deref _ q1); [done|].
  apply wp_bind, wp_in_ipc.
  eapply wp_mono; [eapply (pop_request q1 sem1 Hsem1 (x :: xs) ys); [done|exact Hseg]|].
  intros r i [-> Hseg']. cbn [fifo_pop fst snd] in *. rewrite bool_decide_eq_true_2 by done. cbv [negb].
  apply wp_bind, (wp_deref _ x); [done|].
  apply wp_bind, wp_lock. passes. apply wp_bind, wp_assign, wp_bind, wp_unlock. passes.
  apply wp_bind, wp_signal. passes. apply wp_bind, wp_log, wp_ret. split; [done|]. split; [|done].
  constructor; try done. cbn. by rewrite Hin.
Qed.

Lemma serving_world xs ys rqs s w :
  serving q1 q2 sem1 sem2 xs ys rqs s -> serving q1 q2 sem1 sem2 xs ys rqs (s <| srv_world := w |>).
Proof. by intros []. Qed.

Lemma reader_round_empty ys rqs s :
  serving q1 q2 sem1 sem2 [] ys rqs s ->
  wp request_reader_round (fun again s' =>
    again = true /\ serving q1 q2 sem1 sem2 [] ys rqs s' /\ srv_sqlite s' = srv_sqlite s) s.
Proof using Hquiet Hsem1.
  intros [Hq1 Hq2 Ho1 Ho2 Hseg Hin Hh Hok]. unfold request_reader_round.
  apply wp_bind, wp_field. rewrite Hq1. apply wp_bind, (wp_deref _ q1); [done|].
  apply wp_bind, wp_in_ipc.
  eapply wp_mono; [eapply (pop_request q1 sem1 Hsem1 [] ys); [done|exact Hseg]|].
  intros r i [-> Hseg']. cbn [fifo_pop fst snd] in *.
  rewrite bool_decide_eq_false_2 by (by intros []). cbv [negb].
  apply wp_bind, wp_blocking_ok, wp_ret. by split_and!.
Qed.

Lemma wait_for_request_ready fuel s : request_queue_ (this s) <> [] ->
  wp (wait_for_request fuel 0) (fun r s' => r = 0 /\ s' = s) s.
Proof.
  intros Hne. destruct fuel as [|fuel]; cbn [wait_for_request].
  all: apply wp_bind, wp_field, wp_bind, wp_field; by rewrite bool_decide_eq_false_2.
Qed.

Lemma writer_round_spec fuel rq v xs ys rqs s :
  serving q1 q2 sem1 sem2 xs ys (rq :: rqs) s -> good_request rq v ->
  (Z.of_nat (length ys) < DATABASE_TO_TCP_QUEUE_CAPACITY) ->
  wp (response_writer_round fuel) (fun again s' =>
    again = true /\ exists rs, reply rq v (tables_of (srv_sqlite s)) (tables_of (srv_sqlite s')) rs /\
    serving q1 q2 sem1 sem2 xs (ys ++ [encode_response rs]) rqs s') s.
Proof using Hpriv Hquiet Hpt Hsem2.
  intros [Hq1 Hq2 Ho1 Ho2 Hseg Hin Hh Hok] Hgood Hroom. unfold response_writer_round.
  apply wp_bind, wp_lock. passes.
  apply wp_bind. eapply wp_mono; [apply wait_for_request_ready; cbn; by rewrite Hin|].
  intros r s0 [-> ->]. apply wp_bind, wp_field, wp_bind, wp_field.
  cbn [this set_field]. rewrite Hin, bool_decide_eq_false_2, andb_false_r by done.
  change (negb (0 =? 0) || false) with false. cbv iota.
  apply wp_bind, (wp_deref _ rq); [done|]. apply wp_bind, wp_assign, wp_bind, wp_unlock. passes.
  apply wp_bind. eapply wp_mono; [apply process_request_spec; try done; by destruct Hgood as [[]]|].
  intros rs s1 [(E1 & E2 & E3 & E4 & E5 & _) Hr]. cbn in E1, E2, E3, E4, E5, Hr.
  apply wp_bind, wp_field. rewrite E1. apply wp_bind, (wp_deref _ q2); [done|].
  apply wp_bind, wp_in_ipc.
  eapply wp_mono; [eapply (push_response q2 sem2 Hsem2 _ xs ys); [done| |by eapply length_reply]|].
  { cbn [segment]. by rewrite E2. }
  unfold fifo_push. rewrite (proj2 (Z.ltb_lt _ _) Hroom). intros b i [-> Hseg'].
  cbn [fst snd negb]. apply wp_bind, wp_log, wp_ret. split; [done|]. exists rs. split; [done|].
  constructor; cbn; rewrite ?E1; cbn; try done; try congruence.
  - by rewrite Hin.
  - by eapply reply_keeps_sessions_ok.
Qed.

(** The states of the server that stand for [p], when the pipeline started
    from [T0] with [ys] already in the response queue. *)
Definition pipeline_repr (T0 : tables) (ys : list (list byte)) (p : pipeline) (s : server) : Prop :=
  exists rss, replies T0 (answered p) rss (tables_of (srv_sqlite s)) /\
    serving q1 q2 sem1 sem2 (encode_request <$> queued p) (ys ++ (encode_response <$> rss)) (inside p) s.

Definition pipeline_ok (ys : list (list byte)) (p : pipeline) : Prop :=
  Forall (fun rq => exists v, good_request rq v) (inside p ++ queued p) /\
  Z.of_nat (length ys + length (answered p ++ inside p ++ queued p)) <= DATABASE_TO_TCP_QUEUE_CAPACITY.

Lemma pipeline_step_ok ys p w : pipeline_ok ys p -> pipeline_ok ys (pipeline_step p w).
Proof.
  unfold pipeline_ok. destruct p as [a i q], w; cbn.
  - destruct q; cbn; [done|]. by rewrite <- (assoc_L (++)).
  - destruct i as [|r i]; cbn; [done|]. rewrite <- (assoc_L (++)). cbn.
    intros [[_ Hf]%Forall_cons Hl]. done.
Qed.

Lemma worker_round_spec T0 ys p w s :
  pipeline_ok ys p -> pipeline_repr T0 ys p s ->
  wp (worker_round w) (fun _ s' => pipeline_repr T0 ys (pipeline_step p w) s') s.
Proof using Hpriv Hquiet Hpt Hsem1 Hsem2.
  intros [Hgood Hroom] (rss & Hr & Hs). destruct p as [a i q], w; cbn in *.
  - destruct q as [|rq q]; cbn in *; apply wp_bind.
    + eapply wp_mono; [by apply reader_round_empty|].
      intros b s' (_ & Hs' & E). apply wp_ret. exists rss. cbn. by rewrite E.
    + eapply wp_mono; [exact (reader_round_spec (encode_request rq) _ _ _ _ Hs)|].
      apply Forall_app in Hgood as [_ [(v & Hv) _]%Forall_cons].
      rewrite (decode_encode_request rq) by apply Hv.
      intros b s' (_ & Hs' & E). apply wp_ret. exists rss. cbn [answered inside queued]. by rewrite E.
  - apply wp_bind, wp_field. rewrite (sv_internal _ _ _ _ _ _ _ _ Hs).
    destruct i as [|rq i]; cbn; [by exists rss|]. cbn in Hgood.
    apply Forall_cons in Hgood as [(v & Hv) _].
    pose proof (replies_length _ _ _ _ Hr) as El. rewrite !length_app in Hroom. cbn in Hroom.
    apply wp_bind. eapply wp_mono; [eapply writer_round_spec; [exact Hs|exact Hv|]|].
    { rewrite length_app, length_fmap. lia. }
    intros b s' (_ & rs & Hrs & Hs'). apply wp_ret. exists (rss ++ [rs]). cbn.
    split; [by eapply replies_snoc|]. by rewrite fmap_app, (assoc_L (++)).
Qed.

Lemma run_workers_spec T0 ys schedule p s :
  pipeline_ok ys p -> pipeline_repr T0 ys p s ->
  wp (run_workers schedule) (fun _ s' => pipeline_repr T0 ys (foldl pipeline_step p schedule) s') s.
Proof using Hpriv Hquiet Hpt Hsem1 Hsem2.
  revert p s. induction schedule as [|w schedule IH]; intros p s Hok Hr; [done|]. cbn.
  apply wp_bind. eapply wp_mono; [by apply worker_round_spec|].
  intros u s' Hs'. apply IH; [by apply pipeline_step_ok|done].
Qed.
End Workers.

(** C13: the pipeline through the two threads.  With [rqs] in the request queue
    and room for the answers, any interleaving of rounds of the reader and the
    writer implements the abstract pipeline: no request is lost, duplicated or
    reordered, and the responses in the shared queue are the answers to the
    answered requests, in order, each computed from the tables its predecessor
    left.  When the schedule lets each thread run often enough, every request
    is answered. *)
Theorem pipeline_refinement `{Environment} `{SqliteLaws} `{!OtherThreads}
    (q1 q2 : SharedQueue) (sem1 sem2 : Z) (rqs : list tcp_to_database_message_t)
    (ys : list (list byte)) (schedule : list worker) (s : server) :
  sessions_private -> (forall s : server, others s = s) -> pthreads_work _ ->
  semaphore_works _ sem1 -> semaphore_works _ sem2 ->
  Forall (fun rq => exists v, good_request rq v) rqs ->
  Z.of_nat (length ys + length rqs) <= DATABASE_TO_TCP_QUEUE_CAPACITY ->
  serving q1 q2 sem1 sem2 (encode_request <$> rqs) ys [] s ->
  wp (run_workers schedule) (fun _ s' =>
    let p := foldl pipeline_step (Pipeline [] [] rqs) schedule in
    answered p ++ inside p ++ queued p = rqs /\
    pipeline_repr q1 q2 sem1 sem2 (tables_of (srv_sqlite s)) ys p s' /\
    (forall n, schedule = replicate n Reader ++ replicate n Writer -> (length rqs <= n)%nat ->
       p = Pipeline rqs [] [])) s.
Proof.
  intros Hpriv Hquiet Hpt Hsem1 Hsem2 Hgood Hroom Hs.
  eapply wp_mono; [eapply (run_workers_spec Hpriv Hquiet Hpt q1 q2 sem1 sem2 Hsem1 Hsem2
    (tables_of (srv_sqlite s)) ys schedule (Pipeline [] [] rqs))|].
  - by split.
  - exists []. cbn. rewrite app_nil_r. split; [constructor|done].
  - intros u s' Hs'. cbn zeta. split; [by rewrite pipeline_conserves|]. split; [done|].
    intros n -> Hn. by apply pipeline_drains.
Qed.
