(* ===== verification/DatabaseLife.v ===== *)
(** DatabaseLife: how the Database server announces its queues, how it stops,
    and what its error paths leave behind, by an account of what the process
    holds. *)

From stdpp Require Import gmultiset.
From S2P Require Import Prelude Machine CLib Posix Config Logger IpcProtocol SharedMemory.
From S2P Require Import SharedQueue Resources Sqlite SqliteDatabase SqliteRules ParkingDatabase Database.
From S2P Require Import DatabaseProofs.

#[local] Arguments gmultiset_disj_union : simpl never.
#[local] Arguments gmultiset_difference : simpl never.
#[local] Arguments gmultiset_singleton : simpl never.

(** ** What the process holds

    As its object has it: the segment and its mapping, the semaphores of the two
    queues, the condition variable and the mutex. *)
Definition queue_holdings (o : Database) : gmultiset resource :=
  queue_semaphore (tcp_to_database_queue_ o) ⊎ queue_semaphore (database_to_tcp_queue_ o).
Definition condition_holding (initialized : bool) : gmultiset resource :=
  if initialized then {[+ Condition +]} else ∅.
Definition mutex_holding (initialized : bool) : gmultiset resource :=
  if initialized then {[+ Mutex request_queue_mutex +]} else ∅.
Definition holdings (o : Database) : gmultiset resource :=
  memory_holdings (shared_memory_ o) ⊎ (queue_holdings o ⊎
    (condition_holding (request_queue_condition_initialized_ o) ⊎ mutex_holding (request_queue_mutex_initialized_ o))).

(** By the account of its calls the process holds what its object says, and
    [rest]. *)
Definition accounted `{Sqlite} (rest : gmultiset resource) (s : server) : Prop :=
  owned (srv_world s) = Some (holdings (this s) ⊎ rest).

(** An equation between two sums of holdings. *)
Ltac same_holdings :=
  apply (f_equal Some); unfold holdings, queue_holdings;
  cbn [this set_field server_fields Database_fields shared_memory_ tcp_to_database_queue_ database_to_tcp_queue_
       request_queue_condition_initialized_ request_queue_mutex_initialized_];
  repeat match goal with
  | E : shared_memory_ (this ?s) = _ |- context [shared_memory_ (this ?s)] => rewrite E
  | E : tcp_to_database_queue_ (this ?s) = _ |- context [tcp_to_database_queue_ (this ?s)] => rewrite E
  | E : database_to_tcp_queue_ (this ?s) = _ |- context [database_to_tcp_queue_ (this ?s)] => rewrite E
  end;
  cbn [queue_semaphore memory_holdings condition_holding mutex_holding]; multiset_solver.

(** The two flags at the start of the segment. *)
Definition flags_at (m : list byte) (request response : Z) : Prop :=
  mem_read m (Z.to_nat tcp_to_database_queue_ready) 4 = Some (le_bytes 4 request) /\
  mem_read m (Z.to_nat database_to_tcp_queue_ready) 4 = Some (le_bytes 4 response).

Lemma flags_same_except m m' lo hi r1 r2 :
  flags_at m r1 r2 -> same_except lo hi m m' -> sizeof_ipc_header <= lo -> flags_at m' r1 r2.
Proof.
  intros [H1 H2] [_ Hs] Hlo. change sizeof_ipc_header with 8 in Hlo.
  split; (rewrite Hs; [done|]; left; unfold database_to_tcp_queue_ready, tcp_to_database_queue_ready; lia).
Qed.

Lemma flags_of_zeros n : (8 <= n)%nat -> flags_at (replicate n NUL) 0 0.
Proof.
  intros Hn. split; (rewrite mem_read_Some; [|rewrite length_replicate; vm_compute Z.to_nat; lia]);
    by rewrite drop_replicate, take_replicate, Nat.min_l by (vm_compute Z.to_nat; lia).
Qed.

Section Flags.
Context `{Environment} `{Sqlite} `{!OtherThreads}.
Implicit Types s : server.

Lemma wp_set_ready_request v r1 r2 (Q : unit -> server -> Prop) s :
  ipc_header_ (this s) = Some 0 -> flags_at (srv_segment s) r1 r2 ->
  (forall m', flags_at m' v r2 -> same_except 0 sizeof_ipc_header (srv_segment s) m' ->
     Q tt (s <| srv_segment := m' |>)) ->
  wp (set_ready tcp_to_database_queue_ready v) Q s.
Proof.
  intros Hh [F1 F2] HQ. pose proof (mem_read_lookup_bound _ _ _ _ F2) as Hl.
  unfold set_ready. apply wp_bind, wp_field. rewrite Hh. apply wp_bind, (wp_deref _ 0); [done|].
  apply wp_in_ipc, wp_store_bytes.
  - done.
  - cbn [segment]. rewrite length_le_bytes. unfold tcp_to_database_queue_ready, database_to_tcp_queue_ready in *. lia.
  - cbn [segment]. intros m' E. apply HQ.
    + split.
      * by pose proof (mem_read_write_same _ _ _ _ E).
      * by rewrite (mem_read_write_disjoint _ _ _ _ _ _ E) by (vm_compute; lia).
    + split; [by eapply mem_write_length|]. intros a n Hd. change sizeof_ipc_header with 8 in Hd.
      apply (mem_read_write_disjoint _ _ _ _ _ _ E). rewrite length_le_bytes.
      change (Z.to_nat (0 + tcp_to_database_queue_ready)) with 0%nat. lia.
Qed.

Lemma wp_set_ready_response v r1 r2 (Q : unit -> server -> Prop) s :
  ipc_header_ (this s) = Some 0 -> flags_at (srv_segment s) r1 r2 ->
  (forall m', flags_at m' r1 v -> same_except 0 sizeof_ipc_header (srv_segment s) m' ->
     Q tt (s <| srv_segment := m' |>)) ->
  wp (set_ready database_to_tcp_queue_ready v) Q s.
Proof.
  intros Hh [F1 F2] HQ. pose proof (mem_read_lookup_bound _ _ _ _ F2) as Hl.
  unfold set_ready. apply wp_bind, wp_field. rewrite Hh. apply wp_bind, (wp_deref _ 0); [done|].
  apply wp_in_ipc, wp_store_bytes.
  - done.
  - cbn [segment]. rewrite length_le_bytes. unfold tcp_to_database_queue_ready, database_to_tcp_queue_ready in *. lia.
  - cbn [segment]. intros m' E. apply HQ.
    + split.
      * by rewrite (mem_read_write_disjoint _ _ _ _ _ _ E) by (vm_compute; lia).
      * by pose proof (mem_read_write_same _ _ _ _ E).
    + split; [by eapply mem_write_length|]. intros a n Hd. change sizeof_ipc_header with 8 in Hd.
      apply (mem_read_write_disjoint _ _ _ _ _ _ E). rewrite length_le_bytes.
      change (Z.to_nat (0 + database_to_tcp_queue_ready)) with 4%nat. lia.
Qed.

Lemma wp_delete_queue q (Q : unit -> server -> Prop) s :
  (forall w, released (queue_semaphore q) (srv_world s) w -> Q tt (s <| srv_world := w |>)) -> wp (delete_queue q) Q s.
Proof.
  intros HQ. destruct q as [q|]; cbn [delete_queue].
  - apply wp_in_ipc. eapply wp_mono; [apply delete_queue_accounted|]. cbn [segment ipc_world]. intros [] i [-> R].
    specialize (HQ _ R). by destruct s.
  - apply wp_ret. destruct s. apply HQ, released_refl.
Qed.
End Flags.

(** ** Announcing the queues *)
Section Announcing.
Context `{Environment} `{Sqlite} `{!OtherThreads}.
Implicit Types s : server.

(** Both queues exist, are empty, and are announced. *)
Definition ipc_up s : Prop := exists shm q1 q2 sem1 sem2,
  shared_memory_ (this s) = Some shm /\ is_attached shm = true /\ ipc_header_ (this s) = Some 0 /\
  tcp_to_database_queue_ (this s) = Some q1 /\ database_to_tcp_queue_ (this s) = Some q2 /\
  is_request_queue q1 sem1 /\ is_response_queue q2 sem2 /\ ipc_segment (srv_segment s) [] [] /\
  flags_at (srv_segment s) READY READY.

(** No queue is open, and none is announced. *)
Definition ipc_down s : Prop :=
  tcp_to_database_queue_ (this s) = None /\ database_to_tcp_queue_ (this s) = None /\
  match ipc_header_ (this s) with
  | Some h => h = 0 /\ flags_at (srv_segment s) NOT_READY NOT_READY
  | None => True
  end.

(** A segment is mapped, and nothing is announced yet. *)
Definition memory_up s : Prop := exists shm,
  shared_memory_ (this s) = Some shm /\ is_attached shm = true /\ ipc_header_ (this s) = Some 0 /\
  length (srv_segment s) = Z.to_nat IPC_SHARED_MEMORY_SIZE /\ ipc_down s.

(** How a start-up that fails leaves the process: no queue is announced or
    open; it holds what its object says, that is the segment when that is still
    mapped, and no semaphore; [create] may have left a new segment behind. *)
Definition ipc_failed (rest : gmultiset resource) s : Prop := ipc_down s /\
  (accounted rest s \/ shared_memory_ (this s) = None /\ exists i, accounted ({[+ Segment i +]} ⊎ rest) s).

Lemma create_new key size w : shmat_not_null _ ->
  wp (create (new_SharedMemory key size)) (fun r w' => size_ r.2 = size /\
    is_attached r.2 = r.1 /\ obtained (memory_holdings (Some r.2)) w w') w.
Proof.
  intros Hnn. apply wp_conj; [|by apply create_accounted]. unfold create, is_attached. wp_go; done.
Qed.

Lemma initialize_shared_memory_spec rest s : shmat_not_null _ ->
  ipc_down s -> ipc_header_ (this s) = None -> shared_memory_ (this s) = None -> accounted rest s ->
  wp initialize_shared_memory (fun ok s' => if ok then memory_up s' /\ accounted rest s' else ipc_failed rest s') s.
Proof.
  intros Hnn (Hq1 & Hq2 & _) Hh Hm Ha. unfold initialize_shared_memory.
  apply wp_bind, wp_field, wp_bind, wp_in_world.
  eapply wp_mono; [by apply create_new|]. intros [created shm] w (Es & Eat & Ho). cbn [fst snd] in *.
  specialize (Ho _ Ha). destruct created; cbn [negb].
  2: { apply wp_bind, wp_log, wp_bind, wp_in_world. eapply wp_mono; [by apply delete_unattached|].
       intros _u w' ->. apply wp_bind, wp_assign, wp_ret. split; [by split_and!; cbn; try done; rewrite Hh|].
       unfold accounted. cbn [this srv_world set_field server_fields Database_fields shared_memory_].
       cbn [memory_holdings] in Ho. rewrite Eat in Ho. destruct (shm_id_ shm =? -1).
       - left. cbn [owned]. rewrite Ho. cbn [mbind option_bind account]. same_holdings.
       - right. split; [done|]. exists (shm_id_ shm). cbn [owned]. rewrite Ho. cbn [mbind option_bind account].
         same_holdings. }
  apply wp_bind, wp_assign, wp_bind, wp_modify, wp_bind, wp_assign, wp_bind, wp_field. cbn [this set_field ipc_header_].
  pose proof Eat as Ea. unfold is_attached in Ea. apply negb_true_iff in Ea. unfold data. rewrite Ea.
  rewrite Es. eapply wp_bind, (wp_set_ready_request _ 0 0); [done|by apply flags_of_zeros; vm_compute; lia|].
  intros m1 F1 [L1 _]. eapply wp_bind, (wp_set_ready_response _ NOT_READY 0); [done|done|].
  intros m2 F2 [L2 _]. apply wp_bind, wp_log, wp_ret. split.
  - exists shm. cbn. do 3 (split; [done|]). cbn in L1, L2. split; [by rewrite L2, L1, length_replicate|].
    split; [exact Hq1|]. split; [exact Hq2|]. by split.
  - unfold accounted. cbn [this srv_world set_field server_fields Database_fields owned]. rewrite Ho.
    cbn [mbind option_bind account]. same_holdings.
Qed.

(** Creating a queue: its bytes, and its semaphore. *)
Lemma create_queue_accounted shm off name esize cap i :
  data shm <> nullptr -> queue_fits off esize cap (length (segment i)) ->
  wp (new_SharedQueue (Some shm) off (Some name) esize cap true) (fun q i' =>
    (if sem_of name (ipc_world i) =? 0 then is_valid q = false /\ segment i' = segment i
     else queue_object q off esize cap (sem_of name (ipc_world i)) /\ is_valid q = true /\
          queue_repr off esize cap (segment i') [] /\ same_outside off esize cap (segment i) (segment i')) /\
    obtained (queue_semaphore (Some q)) (ipc_world i) (ipc_world i')) i.
Proof. intros Hd Hf. apply wp_wlp_conj; [by apply create_queue_spec|apply new_queue_accounted]. Qed.

(** Deleting a queue that the object of the process points to. *)
Lemma wp_delete_open_queue q (Q : unit -> server -> Prop) s :
  (forall w, released (queue_semaphore (Some q)) (srv_world s) w -> Q tt (s <| srv_world := w |>)) ->
  wp (in_ipc (delete_SharedQueue q)) Q s.
Proof. apply (wp_delete_queue (Some q)). Qed.

Lemma initialize_queues_spec rest s :
  memory_up s -> accounted rest s ->
  wp initialize_queues (fun ok s' => if ok then ipc_up s' /\ accounted rest s' else ipc_failed rest s') s.
Proof.
  intros (shm & Hshm & Hat & Hh & Hlen & Hdown) Ha. pose proof Hdown as (Hq1 & Hq2 & Hf).
  rewrite Hh in Hf. destruct Hf as [_ Hf].
  unfold initialize_queues. apply wp_bind, wp_field, wp_bind, wp_field. rewrite Hshm, Hh, Hat. cbn [negb].
  assert (data shm <> nullptr) as Hd by (by apply Z.eqb_neq, negb_true_iff).
  apply wp_bind, wp_in_ipc. eapply wp_mono; [by apply create_queue_accounted; [|apply request_region]|].
  intros q1 i1 [Hc1 O1]. cbn [ipc_world segment] in Hc1, O1. specialize (O1 _ Ha).
  apply wp_bind, wp_assign.
  destruct (sem_of _ _ =? 0); [destruct Hc1 as [Hv Es]|destruct Hc1 as (Ho1 & Hv & Hr1 & Hs1)];
    rewrite Hv; cbn [negb].
  { apply wp_bind, wp_log, wp_bind, wp_delete_open_queue. intros w R. apply wp_bind, wp_assign, wp_ret. split.
    - split_and!; cbn; try done. by rewrite Hh, Es.
    - left. unfold accounted. cbn [this srv_world set_field server_fields Database_fields]. apply R.
      cbn [srv_world set_field server_fields owned]. rewrite O1. cbn [mbind option_bind account].
      same_holdings. }
  pose proof (proj1 Hs1) as L1.
  eapply wp_bind, (wp_set_ready_request _ NOT_READY NOT_READY); [done|by eapply flags_same_except|].
  intros m2 F2 S2. pose proof (proj1 S2) as L2. cbn in L2, F2, S2. apply wp_bind, wp_log.
  apply wp_bind, wp_in_ipc. eapply wp_mono; [apply create_queue_accounted; [done|apply response_region]|].
  { cbn. by rewrite L2, L1. }
  intros q2 i3 [Hc2 O2]. cbn [ipc_world segment srv_segment srv_world set_field server_fields] in Hc2, O2.
  assert (owned (ipc_world i3) = Some (queue_semaphore (Some q2) ⊎ (queue_semaphore (Some q1) ⊎ (holdings (this s) ⊎ rest)))) as O3
    by (apply O2; cbn [owned]; by rewrite O1).
  clear O1 O2. apply wp_bind, wp_assign.
  destruct (sem_of _ _ =? 0); [destruct Hc2 as [Hv2 Es]|destruct Hc2 as (Ho2 & Hv2 & Hr2 & Hs2)];
    rewrite Hv2; cbn [negb].
  { apply wp_bind, wp_log.
    eapply wp_bind, (wp_set_ready_request _ READY NOT_READY); [done|cbn; by rewrite Es|].
    intros m4 F4 S4. apply wp_bind, wp_delete_open_queue. intros w5 R5.
    apply wp_bind, wp_assign, wp_bind, wp_delete_open_queue.
    intros w6 R6. apply wp_bind, wp_assign, wp_ret. split; [split_and!; cbn; try done; by rewrite Hh|].
    left. unfold accounted. cbn [this srv_world set_field server_fields Database_fields]. apply R6, R5.
    cbn [srv_world set_field server_fields owned]. rewrite O3. cbn [mbind option_bind account].
    same_holdings. }
  eapply wp_bind, (wp_set_ready_response _ READY NOT_READY); [done|by eapply flags_same_except|].
  intros m4 F4 S4. cbn in F4, S4. apply wp_bind, wp_log, wp_ret. split.
  2: { unfold accounted. cbn [this srv_world set_field server_fields Database_fields owned]. rewrite O3.
       cbn [mbind option_bind account]. same_holdings. }
  exists shm, q1, q2. do 2 eexists. cbn.
  do 3 (split; [assumption|]). do 2 (split; [reflexivity|]). do 2 (split; [eassumption|]).
  split; [|exact F4]. split.
  - eapply repr_frame; [|exact S4|by left].
    eapply repr_frame; [|exact Hs2|by right].
    eapply repr_frame; [exact Hr1|exact S2|by left].
  - eapply repr_frame; [exact Hr2|exact S4|by left].
Qed.
End Announcing.

(** C20: when and how the queues are announced, and what they cost.  Whatever
    the system does, start-up either succeeds, and then the segment holds two
    well-formed empty queues at their offsets, the process holds valid objects
    for both, both readiness flags are set, and the calls it has made account
    for exactly the mapped segment and the two semaphores, besides the [rest]
    it held before; or it fails, and then no flag of the segment is set, no
    queue stays open and every semaphore has been closed again.  What a failure
    leaves is the segment alone: still mapped when a queue could not be created,
    and a new one behind when it could not be mapped. *)
Theorem ipc_initialisation `{Environment} `{Sqlite} `{!OtherThreads} (rest : gmultiset resource) (s : server) :
  shmat_not_null _ ->
  tcp_to_database_queue_ (this s) = None -> database_to_tcp_queue_ (this s) = None ->
  ipc_header_ (this s) = None -> shared_memory_ (this s) = None -> accounted rest s ->
  wp (ok ← initialize_shared_memory;
      if negb ok then mret false else initialize_queues)
     (fun ok s' => if ok then ipc_up s' /\ accounted rest s' else ipc_failed rest s') s.
Proof.
  intros Hnn Hq1 Hq2 Hh Hm Ha. apply wp_bind.
  eapply wp_mono; [apply (initialize_shared_memory_spec rest); [done| |done..]|].
  { split_and!; [done|done|]. by rewrite Hh. }
  intros [] s' Hs'; cbn [negb]; [destruct Hs'; by apply initialize_queues_spec|by apply wp_ret].
Qed.

(** ** Shutting down *)
Definition is_stat (c : syscall) : bool := match c with sys_shm_stat _ => true | _ => false end.

(** From the [n]th status call on, no other process is attached. *)
Definition detaches (env : Environment) (n : nat) : Prop := forall w i,
  (n <= calls is_stat w)%nat -> s32 (shm_nattch (respond w (sys_shm_stat i))) <= 1.

(** The SQLite connection of the process. *)
Definition connected `{SqliteLaws} (s : server) : Prop :=
  connection_ok (DB _ (srv_handle s) (srv_sqlite s) []).

(** What other processes cannot change, once the workers have been joined. *)
Record others_are_processes `{SqliteLaws} `{!OtherThreads} : Prop := {
  op_this : forall s, this (others s) = this s;
  op_connected : forall s, connected s -> connected (others s);
  op_handle : forall s, srv_handle (others s) = srv_handle s;
  op_flags : forall s r1 r2, flags_at (srv_segment s) r1 r2 -> flags_at (srv_segment (others s)) r1 r2;
  op_calls : forall s, (calls is_stat (srv_world s) <= calls is_stat (srv_world (others s)))%nat;
  op_owned : forall s, owned (srv_world (others s)) = owned (srv_world s);
}.

(** The last thing the process did to this file was to remove it, or to find
    that it does not exist. *)
Fixpoint file_gone (path : list byte) (w : world) : Prop :=
  match w with
  | (sys_remove p, a) :: w =>
      if decide (p = path) then ans_ret a = 0 \/ ans_errno a = ENOENT else file_gone path w
  | (sys_open p _, _) :: w => p <> path /\ file_gone path w
  | _ :: w => file_gone path w
  | [] => False
  end.

Section Stages.
Context `{Environment} `{SqliteLaws} `{!OtherThreads}.
Implicit Types s : server.

Lemma wp_release_queues (Q : unit -> server -> Prop) s :
  match ipc_header_ (this s) with
  | Some h => h = 0 /\ exists r1 r2, flags_at (srv_segment s) r1 r2
  | None => True
  end ->
  (forall m w, (ipc_header_ (this s) <> None -> flags_at m NOT_READY NOT_READY) ->
     released (queue_holdings (this s)) (srv_world s) w ->
     Q tt (s <| this ::= fun o => o <| ipc_header_ := None |> <| database_to_tcp_queue_ := None |>
                                    <| tcp_to_database_queue_ := None |> |>
             <| srv_segment := m |> <| srv_world := w |>)) ->
  wp release_queues Q s.
Proof.
  intros Hf HQ. unfold release_queues. apply wp_bind, wp_field, wp_bind.
  assert (forall m, (ipc_header_ (this s) <> None -> flags_at m NOT_READY NOT_READY) ->
    wp (assign (fun o => o <| ipc_header_ := None |>);;
        log_info "Releasing shared queues.";;
        q ← field database_to_tcp_queue_;
        delete_queue q;;
        assign (fun o => o <| database_to_tcp_queue_ := None |>);;
        q ← field tcp_to_database_queue_;
        delete_queue q;;
        assign (fun o => o <| tcp_to_database_queue_ := None |>)) Q
       (s <| srv_segment := m |>)) as Hrest.
  { intros m Hm. apply wp_bind, wp_assign, wp_bind, wp_log, wp_bind, wp_field, wp_bind, wp_delete_queue.
    intros w1 R1. apply wp_bind, wp_assign, wp_bind, wp_field, wp_bind, wp_delete_queue.
    intros w2 R2. apply wp_assign. apply (HQ m); [exact Hm|]. intros own E. apply R2, R1.
    cbn [srv_world set_field server_fields owned]. rewrite E. apply (f_equal Some). unfold queue_holdings.
    cbn [this set_field server_fields Database_fields tcp_to_database_queue_ database_to_tcp_queue_]. multiset_solver. }
  destruct (ipc_header_ (this s)) as [h|] eqn:Eh.
  - destruct Hf as (-> & r1 & r2 & Hf).
    eapply wp_bind, wp_set_ready_response; [done|done|]. intros m1 F1 _.
    eapply wp_set_ready_request; [done|done|]. intros m2 F2 _. by apply (Hrest m2).
  - apply wp_ret. specialize (Hrest (srv_segment s)). destruct s. by apply Hrest.
Qed.

(** A call that gives back [r] when it succeeds and nothing when it fails. *)
Lemma released_if c a r w : (forall own, account c a own = if ans_ret a =? 0 then give_back r own else Some own) ->
  released (if ans_ret a =? 0 then {[+ r +]} else ∅) w ((c, a) :: w).
Proof.
  intros Hc. apply released_call. intros own. rewrite Hc. destruct (ans_ret a =? 0); [apply give_back_head|].
  f_equal. multiset_solver.
Qed.

Lemma wp_destroy_condition (Q : bool -> server -> Prop) s :
  (forall w, released ∅ (srv_world s) w -> ans_ret (respond (srv_world s) (sys_cond_destroy request_queue_condition)) <> 0 ->
     Q false (s <| srv_world := w |>)) ->
  (forall w, released (condition_holding (request_queue_condition_initialized_ (this s))) (srv_world s) w ->
     Q true (s <| this ::= fun o => o <| request_queue_condition_initialized_ := false |> |> <| srv_world := w |>)) ->
  wp destroy_condition Q s.
Proof.
  intros Hfail Hok. unfold destroy_condition. apply wp_bind, wp_field.
  destruct (request_queue_condition_initialized_ (this s)) eqn:E.
  - apply wp_bind, wp_call_ok.
    pose proof (released_if (sys_cond_destroy request_queue_condition) (respond (srv_world s) (sys_cond_destroy request_queue_condition))
      Condition (srv_world s) ltac:(done)) as R.
    destruct (Z.eqb_spec (ans_ret (respond (srv_world s) (sys_cond_destroy request_queue_condition))) 0) as [Ec|Ec]; cbn [negb].
    + apply wp_bind, wp_assign, wp_bind, wp_log, wp_ret, Hok. eapply released_nothing; [exact R|apply released_log].
    + apply wp_bind, wp_log, wp_ret, Hfail; [eapply released_nothing; [exact R|apply released_log]|exact Ec].
  - apply wp_ret. specialize (Hok (srv_world s) (released_refl _)). destruct s as [[]]. cbn in E. by subst.
Qed.

Lemma wp_destroy_mutex (Q : bool -> server -> Prop) s :
  (forall w, released ∅ (srv_world s) w -> ans_ret (respond (srv_world s) (sys_mutex_destroy request_queue_mutex)) <> 0 ->
     Q false (s <| srv_world := w |>)) ->
  (forall w, released (mutex_holding (request_queue_mutex_initialized_ (this s))) (srv_world s) w ->
     Q true (s <| this ::= fun o => o <| request_queue_mutex_initialized_ := false |> |> <| srv_world := w |>)) ->
  wp destroy_mutex Q s.
Proof.
  intros Hfail Hok. unfold destroy_mutex. apply wp_bind, wp_field.
  destruct (request_queue_mutex_initialized_ (this s)) eqn:E.
  - apply wp_bind, wp_call_ok.
    pose proof (released_if (sys_mutex_destroy request_queue_mutex) (respond (srv_world s) (sys_mutex_destroy request_queue_mutex))
      (Mutex request_queue_mutex) (srv_world s) ltac:(done)) as R.
    destruct (Z.eqb_spec (ans_ret (respond (srv_world s) (sys_mutex_destroy request_queue_mutex))) 0) as [Ec|Ec]; cbn [negb].
    + apply wp_bind, wp_assign, wp_bind, wp_log, wp_ret, Hok. eapply released_nothing; [exact R|apply released_log].
    + apply wp_bind, wp_log, wp_ret, Hfail; [eapply released_nothing; [exact R|apply released_log]|exact Ec].
  - apply wp_ret. specialize (Hok (srv_world s) (released_refl _)). destruct s as [[]]. cbn in E. by subst.
Qed.

Lemma wp_remove_pid_file (Q : bool -> server -> Prop) s :
  (forall b w, released ∅ (srv_world s) w -> (b = true -> file_gone (pid_file_ (this s)) w) ->
     (b = false -> ans_ret (respond (srv_world s) (sys_remove (pid_file_ (this s)))) <> 0) ->
     Q b (s <| srv_world := w |>)) -> wp remove_pid_file Q s.
Proof.
  intros HQ. unfold remove_pid_file. apply wp_bind, wp_field, wp_bind, wp_in_world, wp_sys.
  set (a := respond _ _).
  assert (released ∅ (srv_world s) ((sys_remove (pid_file_ (this s)), a) :: srv_world s)) as R
    by (apply released_call; intros own; unfold account; f_equal; multiset_solver).
  assert (ans_ret a = 0 \/ ans_errno a = ENOENT -> file_gone (pid_file_ (this s)) ((sys_remove (pid_file_ (this s)), a) :: srv_world s)) as G
    by (cbn; by rewrite decide_True).
  destruct (Z.eqb_spec (ans_ret a) 0) as [Er|Er]; cbn [negb]; [|destruct (Z.eqb_spec (ans_errno a) ENOENT) as [Ee|Ee]].
  - apply wp_bind, wp_log, wp_ret, HQ; [by eapply released_nothing, released_log|intros _; apply G; by left|done].
  - apply wp_ret, HQ; [done|intros _; apply G; by right|done].
  - apply wp_bind, wp_log, wp_ret, HQ; [by eapply released_nothing, released_log|done|done].
Qed.

Lemma wp_logger_close (Q : unit -> server -> Prop) s :
  (forall fd w, released ∅ (srv_world s) w -> (forall p, file_gone p (srv_world s) -> file_gone p w) ->
     Q tt (s <| srv_log_fd := fd |> <| srv_world := w |>)) -> wp (in_logger logger_close) Q s.
Proof.
  intros HQ.
  apply (wp_zoom (fun s => LoggerState (srv_log_fd s) (srv_console s) (srv_world s))
       (fun l s => s <| srv_log_fd := log_fd l |> <| srv_console := console_output_enabled l |>
                     <| srv_world := logger_world l |>)).
  assert (forall c a w, (forall own, account c a own = Some own) -> released ∅ w ((c, a) :: w)) as Hplain
    by (intros c a w Hc; apply released_call; intros own; rewrite Hc; f_equal; multiset_solver).
  unfold logger_close. apply wp_bind, wp_zoom, wp_sys_, wp_bind, wp_gets, wp_bind. cbn.
  destruct (srv_log_fd s =? -1); cbn [negb].
  - apply wp_ret, wp_zoom, wp_sys_, HQ; [|done]. eapply released_nothing; [|by apply Hplain]. by apply Hplain.
  - apply wp_bind, wp_zoom, wp_sys_, wp_modify, wp_zoom, wp_sys_, HQ; [|done].
    eapply released_nothing; [|by apply Hplain]. eapply released_nothing; by apply Hplain.
Qed.
(** The status call, and what it leaves. *)
Lemma attached_processes_spec n shm s : detaches _ n ->
  wp (attached_processes shm) (fun a s' => exists w, s' = s <| srv_world := w |> /\ released ∅ (srv_world s) w /\
    (a <= 1 \/ (calls is_stat (srv_world s) < n)%nat /\ calls is_stat w = S (calls is_stat (srv_world s)))) s.
Proof.
  intros Hn. unfold attached_processes. apply wp_in_world.
  eapply wp_mono; [apply wp_conj; [apply attached_count_accounted|]|].
  2: { intros a w [R Hc]. exists w. split; [done|]. split; [exact R|exact Hc]. }
  unfold attached_count. destruct (_ =? -1); [by apply wp_bind, wp_sys_, wp_ret; left|].
  apply wp_bind, wp_sys. set (c := sys_shm_stat _). destruct (_ =? -1); [by apply wp_bind, wp_sys_, wp_ret; left|].
  apply wp_ret. destruct (decide (n <= calls is_stat (srv_world s))%nat) as [Hle|Hgt].
  - left. by apply Hn.
  - right. split; [lia|]. by rewrite calls_cons.
Qed.

Lemma wait_detached_spec fuel n shm a (I : server -> Prop) s :
  detaches _ n -> others_are_processes ->
  (forall s, I s -> I (others s)) ->
  (forall s w, released ∅ (srv_world s) w -> I s -> I (s <| srv_world := w |>)) -> I s ->
  a <= 1 \/ (n < fuel + calls is_stat (srv_world s))%nat /\ (0 < fuel)%nat ->
  wp (wait_detached fuel shm a) (fun a' s' => a' <= 1 /\ I s') s.
Proof.
  intros Hn Ho Hio Hiw. revert a s. induction fuel as [|fuel IH]; intros a s Hi Hf; cbn [wait_detached].
  - destruct (1 <? a) eqn:Ea; [apply Z.ltb_lt in Ea; lia|]. apply Z.ltb_ge in Ea. by apply wp_ret.
  - destruct (1 <? a) eqn:Ea; [|apply Z.ltb_ge in Ea; by apply wp_ret].
    apply Z.ltb_lt in Ea. destruct Hf as [?|[Hf _]]; [lia|].
    unfold blocking. apply wp_bind, wp_bind, wp_call_ok, wp_bind, wp_modify, wp_ret, wp_bind.
    set (s1 := s <| srv_world := _ |>).
    assert (calls is_stat (srv_world s) <= calls is_stat (srv_world (others s1)))%nat as Hc.
    { etransitivity; [|apply (op_calls Ho)]. unfold s1. cbn [srv_world set_field server_fields].
      by rewrite (calls_cons is_stat (sys_sleep 100)). }
    eapply wp_mono; [by apply (attached_processes_spec n)|].
    intros a1 s2 (w & -> & R & Hcase). apply IH.
    { apply Hiw; [exact R|]. apply Hio, Hiw; [|exact Hi]. apply released_call. intros own. unfold account. f_equal. multiset_solver. }
    cbn [srv_world set_field server_fields]. destruct Hcase as [?|[Hlt ->]]; [by left|].
    right. lia.
Qed.

(** Closing the SQLite connection makes no call but those of the logger. *)
Lemma close_accounted p d : connection_ok d ->
  wp (sqlite_database_close p) (fun _ d' => released ∅ (db_world d) (db_world d')) d.
Proof.
  intros Hd. destruct (wp_returns _ _ _ (close_spec p d Hd)) as (u & d' & E & _). unfold wp. rewrite E. revert E.
  unfold sqlite_database_close. destruct p; cbn [is_null].
  { intros [= _ <-]. apply released_log. }
  unfold mbind at 1, M_bind at 1, gets. destruct (db_handle d =? 0); [intros [= _ <-]; apply released_refl|].
  unfold mbind at 1, M_bind at 1, SqliteDatabase.call, zoom. destruct (sqlite3_close _ _) as [rc q]. cbn.
  destruct (negb _); intros [= _ <-]; apply released_log.
Qed.

Lemma wp_close_sqlite (Q : unit -> server -> Prop) s : connected s ->
  (sqlite_database_opened_ (this s) = false -> Q tt s) ->
  (forall q w, connected (s <| srv_handle := 0 |> <| srv_sqlite := q |>) ->
     sqlite_database_opened_ (this s) = true -> released ∅ (srv_world s) w ->
     Q tt (s <| srv_handle := 0 |> <| srv_sqlite := q |> <| srv_world := w |>
             <| this ::= fun o => o <| sqlite_database_opened_ := false |> |>)) ->
  wp close_sqlite Q s.
Proof.
  intros Hc Hclosed Hopen. unfold close_sqlite. apply wp_bind, wp_field.
  destruct (sqlite_database_opened_ (this s)); [|by apply wp_ret, Hclosed].
  apply wp_bind, wp_log, wp_bind, wp_in_sqlite.
  eapply wp_mono; [apply wp_conj; [apply close_spec, Hc|apply close_accounted, Hc]|].
  intros _u d [(Hd & _ & Eh) R]. cbn in Eh. apply wp_assign. cbn. rewrite Eh.
  apply Hopen; [unfold connection_ok in Hd; by rewrite Eh in Hd|done|].
  intros own E. apply R. cbn [db_world srv_world set_field server_fields owned]. by rewrite E.
Qed.
End Stages.

(** The header, when it is mapped, is at the start of the segment. *)
Definition header_ok `{Sqlite} (s : server) : Prop :=
  match ipc_header_ (this s) with
  | Some h => h = 0 /\ exists r1 r2, flags_at (srv_segment s) r1 r2
  | None => True
  end.

(** What a shutdown that reports success has done: everything the object
    accounted for is given back, and the PID file is gone; a server that had a
    segment has closed its SQLite connection. *)
Record completed `{SqliteLaws} (s s' : server) : Prop := {
  cp_condition : request_queue_condition_initialized_ (this s') = false;
  cp_mutex : request_queue_mutex_initialized_ (this s') = false;
  cp_memory : shared_memory_ (this s') = None;
  cp_account : forall rest, accounted rest s -> owned (srv_world s') = Some rest;
  cp_pid_file : file_gone (pid_file_ (this s)) (srv_world s');
  cp_sqlite : match shared_memory_ (this s) with
    | Some _ => sqlite_database_opened_ (this s') = false /\
                (sqlite_database_opened_ (this s) = true -> srv_handle s' = 0)
    | None => sqlite_database_opened_ (this s') = sqlite_database_opened_ (this s) /\
              srv_handle s' = srv_handle s
    end;
}.

(** The state a shutdown leaves.  If the calls accounted for the object before,
    they do so after: what is still held after a failure is what the object
    still names, and it names no queue. *)
Record stopped `{SqliteLaws} (s : server) (ok : bool) (s' : server) : Prop := {
  sp_requests : tcp_to_database_queue_ (this s') = None;
  sp_responses : database_to_tcp_queue_ (this s') = None;
  sp_header : ipc_header_ (this s') = None;
  sp_flags : ipc_header_ (this s) <> None -> flags_at (srv_segment s') NOT_READY NOT_READY;
  sp_connected : connected s';
  sp_account : forall rest, accounted rest s -> accounted rest s';
  sp_completed : ok = true -> completed s s';
}.

Section Shutdown.
Context `{Environment} `{SqliteLaws} `{!OtherThreads}.
Implicit Types s : server.

(** Ready to release the segment [p]. *)
Record prepared s (p : option SharedMemory) s1 : Prop := {
  pp_requests : tcp_to_database_queue_ (this s1) = None;
  pp_responses : database_to_tcp_queue_ (this s1) = None;
  pp_header : ipc_header_ (this s1) = None;
  pp_condition : request_queue_condition_initialized_ (this s1) = false;
  pp_mutex : request_queue_mutex_initialized_ (this s1) = false;
  pp_memory : shared_memory_ (this s1) = p;
  pp_opened : sqlite_database_opened_ (this s1) = sqlite_database_opened_ (this s);
  pp_pid_file : pid_file_ (this s1) = pid_file_ (this s);
  pp_flags : ipc_header_ (this s) <> None -> flags_at (srv_segment s1) NOT_READY NOT_READY;
  pp_connected : connected s1;
  pp_account : forall rest, accounted rest s -> owned (srv_world s1) = Some (memory_holdings p ⊎ rest);
}.

Lemma prepared_account s p s1 rest : prepared s p s1 -> accounted rest s -> accounted rest s1.
Proof.
  intros [P1 P2 _ P4 P5 P6 _ _ _ _ Pa] Ha. unfold accounted. rewrite (Pa _ Ha). apply (f_equal Some).
  unfold holdings, queue_holdings. rewrite P1, P2, P4, P5, P6. cbn [queue_semaphore condition_holding mutex_holding].
  multiset_solver.
Qed.

Lemma prepared_world s p s1 w : released ∅ (srv_world s1) w -> prepared s p s1 -> prepared s p (s1 <| srv_world := w |>).
Proof.
  intros R [P1 P2 P3 P4 P5 P6 P7 P8 P9 Pc Pa]. split; try done. intros rest Ha. apply R. cbn. rewrite (Pa _ Ha).
  apply (f_equal Some). multiset_solver.
Qed.

Lemma prepared_memory s p p' s1 w : memory_released p p' (srv_world s1) w -> prepared s (Some p) s1 ->
  prepared s (Some p') (s1 <| srv_world := w |> <| this ::= fun o => o <| shared_memory_ := Some p' |> |>).
Proof.
  intros (r & Er & R) [P1 P2 P3 P4 P5 P6 P7 P8 P9 Pc Pa]. split; try done. intros rest Ha. apply R.
  rewrite (Pa _ Ha), Er. apply (f_equal Some). multiset_solver.
Qed.

Lemma prepared_gone s p s1 : memory_holdings (Some p) = ∅ -> prepared s (Some p) s1 ->
  prepared s None (s1 <| this ::= fun o => o <| shared_memory_ := None |> |>).
Proof.
  intros E [P1 P2 P3 P4 P5 P6 P7 P8 P9 Pc Pa]. split; try done. intros rest Ha. cbn [srv_world set_field server_fields].
  by rewrite (Pa _ Ha), E.
Qed.

Lemma prepared_others s p s1 : others_are_processes -> prepared s p s1 -> prepared s p (others s1).
Proof.
  intros Ho [P1 P2 P3 P4 P5 P6 P7 P8 P9 Pc Pa]. split; rewrite ?(op_this Ho), ?(op_owned Ho); try done.
  - intros Hh. apply (op_flags Ho). by apply P9.
  - by apply (op_connected Ho).
Qed.

Lemma prepared_log s p s1 l f : prepared s p s1 ->
  prepared s p (s1 <| srv_world := (sys_log l f, respond (srv_world s1) (sys_log l f)) :: srv_world s1 |>).
Proof. apply prepared_world, released_log. Qed.

(** A stage that fails leaves the process as prepared. *)
Lemma prepared_failed s p s1 : prepared s p s1 -> stopped s false s1.
Proof. intros Hp. pose proof Hp as [P1 P2 P3 _ _ _ _ _ P9 Pc _]. split; try done. intros rest. by apply (prepared_account s p). Qed.

Lemma prepared_done s s1 : prepared s None s1 -> file_gone (pid_file_ (this s)) (srv_world s1) ->
  match shared_memory_ (this s) with
  | Some _ => sqlite_database_opened_ (this s1) = false /\ (sqlite_database_opened_ (this s) = true -> srv_handle s1 = 0)
  | None => sqlite_database_opened_ (this s1) = sqlite_database_opened_ (this s) /\ srv_handle s1 = srv_handle s
  end -> stopped s true s1.
Proof.
  intros Hp Hg Hq. pose proof Hp as [P1 P2 P3 P4 P5 P6 _ _ P9 Pc Pa].
  split; try done. { intros rest. by apply (prepared_account s None). }
  intros _. split; try done. intros rest Ha. rewrite (Pa _ Ha). apply (f_equal Some). cbn. multiset_solver.
Qed.

Lemma shutdown_last_spec s s3 : prepared s None s3 -> is_Some (shared_memory_ (this s)) ->
  wp (close_sqlite;;
      ok ← remove_pid_file;
      if negb ok then mret false
      else log_info "Database shutdown completed.";; mret true) (stopped s) s3.
Proof.
  intros Hp [shm0 Eshm]. apply wp_bind.
  eapply (wp_mono _ (fun _ s4 => (exists h q w b, s4 = s3 <| srv_handle := h |> <| srv_sqlite := q |> <| srv_world := w |>
      <| this ::= fun o => o <| sqlite_database_opened_ := b |> |> /\ released ∅ (srv_world s3) w) /\ connected s4 /\
    sqlite_database_opened_ (this s4) = false /\ (sqlite_database_opened_ (this s) = true -> srv_handle s4 = 0))).
  { apply wp_close_sqlite; [apply Hp|intros Eo|intros q w Hq Eo R].
    - split; [|split; [apply Hp|split; [done|]]].
      + exists (srv_handle s3), (srv_sqlite s3), (srv_world s3), (sqlite_database_opened_ (this s3)).
        split; [by destruct s3 as [[]]|apply released_refl].
      + rewrite <- (pp_opened _ _ _ Hp), Eo. done.
    - split; [|by split_and!]. by exists 0, q, w, false. }
  intros _u s4 ((h & q & w & b & -> & R) & Hc & Hopen & Hhandle).
  apply wp_bind, wp_remove_pid_file. intros ok w5 R5 Hg _.
  assert (released ∅ (srv_world s3) w5) as R' by (by eapply released_nothing).
  assert (prepared s None (s3 <| srv_world := w5 |>)) as [P1 P2 P3 P4 P5 P6 P7 P8 P9 _ Pa] by (by apply prepared_world).
  assert (stopped s false (s3 <| srv_handle := h |> <| srv_sqlite := q |> <| srv_world := w |>
      <| this ::= fun o => o <| sqlite_database_opened_ := b |> |> <| srv_world := w5 |>)) as Hstop.
  { split; try done. intros rest Ha. exact (prepared_account s None _ _ (prepared_world _ _ _ _ R' Hp) Ha). }
  destruct ok; cbn [negb]; [|by apply wp_ret]. apply wp_bind, wp_log, wp_ret.
  destruct Hstop as [S1 S2 S3 S4 S5 S6 _]. split; try done.
  { intros rest Ha. specialize (S6 _ Ha). unfold accounted in *. cbn [srv_world set_field server_fields owned] in *.
    by rewrite S6. }
  intros _. split; try done.
  - intros rest Ha. specialize (Pa _ Ha). cbn [srv_world set_field server_fields owned] in *. rewrite Pa.
    cbn. apply (f_equal Some). multiset_solver.
  - cbn. rewrite <- P8. by apply Hg.
  - rewrite Eshm. by split.
Qed.

(** Detaching, when the segment is mapped. *)
Lemma detach_stage shm w :
  wp (if is_attached shm then detach shm else mret (true, shm)) (fun r w' =>
    (r.1 = true -> is_attached r.2 = false) /\ memory_released shm r.2 w w') w.
Proof.
  destruct (is_attached shm) eqn:E.
  - eapply wp_mono; [apply detach_accounted|]. by intros r w' (H1' & _ & H2').
  - apply wp_ret. split; [done|]. exists ∅. split; [multiset_solver|apply released_refl].
Qed.

Lemma in_world_if {A} (b : bool) (m : M world A) (a : A) s :
  (if b then in_world m else mret a) s = in_world (if b then m else mret a) s.
Proof. destruct b; [done|]. by destruct s. Qed.

Lemma shutdown_memory_spec fuel n shm s s1 :
  others_are_processes -> detaches _ n -> (n < fuel)%nat ->
  is_Some (shared_memory_ (this s)) -> prepared s (Some shm) s1 ->
  wp (shutdown_memory fuel shm) (stopped s) s1.
Proof.
  intros Ho Hn Hfuel Hsome Hp. unfold shutdown_memory.
  apply wp_bind. eapply wp_mono; [by apply (attached_processes_spec n)|].
  intros a s2 (w & -> & R & Hcase). apply (prepared_world _ _ _ w R) in Hp. apply wp_bind.
  eapply (wp_mono _ (fun _ s3 => prepared s (Some shm) s3 /\ calls is_stat (srv_world s3) = calls is_stat w)).
  { destruct (1 <? a); [apply wp_log|by apply wp_ret]. split; [by apply prepared_log|done]. }
  clear Hp. intros _u s3 [Hp Ec]. apply wp_bind.
  eapply wp_mono; [apply (wait_detached_spec fuel n shm a (prepared s (Some shm))); try done|].
  { intros s4. by apply prepared_others. }
  { intros s4 w4. apply prepared_world. }
  { destruct Hcase as [?|[Hlt Ew]]; [by left|]. right. lia. }
  clear s3 Hp Ec w R Hcase. intros a' s3 [_ Hp].
  destruct (a' =? -1); [by apply wp_bind, wp_log, wp_ret; eapply prepared_failed, prepared_log|].
  apply wp_bind, wp_log. apply (prepared_log _ _ _ LOG_LEVEL_INFO "Detaching Database from shared memory.") in Hp.
  revert Hp. match goal with |- prepared _ _ ?x -> wp _ _ ?y => change y with x; generalize x end.
  clear s3. intros s3 Hp. apply wp_bind. unfold wp at 1. rewrite in_world_if. apply wp_in_world.
  eapply wp_mono; [apply detach_stage|]. intros [ok shm1] w [Hd R]. cbn [fst snd] in Hd, R. apply wp_bind, wp_assign.
  apply (prepared_memory _ _ shm1 _ w R) in Hp.
  destruct ok; cbn [negb]; [|by apply wp_bind, wp_log, wp_ret; eapply prepared_failed, prepared_log].
  specialize (Hd eq_refl). apply wp_bind, wp_log, wp_bind, wp_in_world.
  eapply (prepared_log _ _ _ LOG_LEVEL_INFO "Removing shared memory segment.") in Hp.
  eapply wp_mono; [apply remove_accounted|]. intros [ok shm2] w2 (Hr & Ea & R2). cbn [fst snd] in Hr, Ea, R2.
  apply wp_bind, wp_assign. apply (prepared_memory _ _ shm2 _ w2 R2) in Hp.
  destruct ok; cbn [negb]; [|by apply wp_bind, wp_log, wp_ret; eapply prepared_failed, prepared_log].
  specialize (Hr eq_refl). assert (is_attached shm2 = false) as Hd2 by (unfold is_attached in *; by rewrite Ea).
  apply wp_bind, wp_in_world. eapply wp_mono; [by apply delete_unattached|]. intros _v w3 ->.
  apply prepared_gone in Hp; [|cbn [memory_holdings]; rewrite Hd2, Hr; cbn; multiset_solver].
  apply wp_bind, wp_assign. by apply shutdown_last_spec.
Qed.

Lemma shutdown_spec fuel n s :
  others_are_processes -> detaches _ n -> (n < fuel)%nat -> connected s -> header_ok s ->
  wp (shutdown fuel) (stopped s) s.
Proof.
  intros Ho Hn Hfuel Hc Hh. unfold shutdown.
  apply wp_bind, wp_log, wp_bind, wp_release_queues; [exact Hh|]. intros m w Hm R.
  assert (forall w' own, released ∅ w w' -> owned (srv_world s) = Some (queue_holdings (this s) ⊎ own) -> owned w' = Some own) as Hw.
  { intros w' own R' E. apply R'. rewrite (left_id_L ∅ (⊎)). apply R. cbn [srv_world set_field server_fields owned]. by rewrite E. }
  apply wp_bind, wp_destroy_condition; [intros w1 R1 _|intros w1 R1]; cbn [negb].
  { apply wp_ret. split; try done. intros rest Ha. apply (Hw w1); [exact R1|]. rewrite Ha. same_holdings. }
  apply wp_bind, wp_destroy_mutex; [intros w2 R2 _|intros w2 R2]; cbn [negb].
  { apply wp_ret. split; try done. intros rest Ha. apply R2, R1, (Hw w); [apply released_refl|]. rewrite Ha. same_holdings. }
  apply wp_bind, wp_field. cbn [this set_field Database_fields server_fields shared_memory_].
  match goal with |- wp _ _ ?x => assert (prepared s (shared_memory_ (this s)) x) as Hp end.
  { split; try done. intros rest Ha. apply R2, R1, (Hw w); [apply released_refl|]. rewrite Ha. same_holdings. }
  revert Hp. destruct (shared_memory_ (this s)) as [shm|] eqn:Eshm; intros Hp.
  - apply (shutdown_memory_spec _ n); [done..|by rewrite Eshm|exact Hp].
  - apply wp_bind, wp_remove_pid_file. intros ok w3 R3 Hg _. apply (prepared_world _ _ _ w3 R3) in Hp.
    destruct ok; cbn [negb]; [|by apply wp_ret; eapply prepared_failed].
    apply wp_bind, wp_log, wp_bind, wp_logger_close. intros fd w4 R4 Hg4. apply wp_ret.
    apply (prepared_log _ _ _ LOG_LEVEL_INFO "Database shutdown completed."), (prepared_world _ _ _ w4 R4) in Hp.
    apply (prepared_done s) in Hp; [|apply Hg4, Hg; done|by rewrite Eshm].
    destruct Hp as [S1 S2 S3 S4 S5 S6 S7]. split; try done. intros E. destruct (S7 E). by split.
Qed.
End Shutdown.

(** *** A system that helps *)

(** Every call of a shutdown succeeds, and another process is attached to the
    segment for [n] checks. *)
Definition obliging (env : Environment) (n : nat) : Prop := forall w c,
  match c with
  | sys_cond_destroy _ | sys_mutex_destroy _ | sys_shmdt _ | sys_shm_rmid _ | sys_remove _ => ans_ret (respond w c) = 0
  | sys_shm_stat _ => ans_ret (respond w c) = 0 /\
      s32 (shm_nattch (respond w c)) = if decide (n <= calls is_stat w)%nat then 1 else 2
  | _ => True
  end.

Section Obliging.
Context `{Environment} `{SqliteLaws} `{!OtherThreads} (n : nat) (Hob : obliging _ n) (Ho : others_are_processes).
Implicit Types s : server.

Lemma count_obliged shm w : shm_id_ shm <> -1 ->
  wp (attached_count shm) (fun a w' => a = (if decide (n <= calls is_stat w)%nat then 1 else 2) /\
    calls is_stat w' = S (calls is_stat w)) w.
Proof using Hob.
  intros Hi. unfold attached_count. rewrite (proj2 (Z.eqb_neq _ _) Hi). apply wp_bind, wp_sys.
  destruct (Hob w (sys_shm_stat (shm_id_ shm))) as [-> ->]. cbn [Z.eqb Z.opp]. apply wp_ret. split; [done|].
  by rewrite calls_cons.
Qed.

Lemma wait_obliged fuel shm a s : shm_id_ shm <> -1 -> connected s ->
  a = 1 /\ (n <= calls is_stat (srv_world s))%nat \/ a = 2 /\ (n < fuel + calls is_stat (srv_world s))%nat /\ (0 < fuel)%nat ->
  wp (wait_detached fuel shm a) (fun a' s' => a' = 1 /\ (n <= calls is_stat (srv_world s'))%nat /\ connected s') s.
Proof using Hob Ho.
  intros Hi. revert a s. induction fuel as [|fuel IH]; intros a s Hc [[-> Hn]|(-> & Hf & Hp)]; cbn [wait_detached Z.ltb Z.compare Pos.compare Pos.compare_cont];
    [by apply wp_ret|lia|by apply wp_ret|].
  apply wp_bind, wp_bind, wp_call_ok, wp_bind, wp_modify, wp_ret, wp_bind. set (s1 := s <| srv_world := _ |>).
  assert (calls is_stat (srv_world s) <= calls is_stat (srv_world (others s1)))%nat as Hcalls
    by (etransitivity; [|apply (op_calls Ho)]; unfold s1; cbn [srv_world set_field server_fields]; by rewrite calls_cons).
  apply wp_in_world. eapply wp_mono; [by apply count_obliged|]. intros a1 w [-> Ew]. apply IH.
  - apply (op_connected Ho s1). exact Hc.
  - cbn [srv_world set_field server_fields]. destruct (decide _); [left; split; [done|lia]|right; split; [done|lia]].
Qed.

Lemma detach_obliged shm w :
  wp (if is_attached shm then detach shm else mret (true, shm)) (fun r w' =>
    r.1 = true /\ shm_id_ r.2 = shm_id_ shm /\ calls is_stat w' = calls is_stat w) w.
Proof using Hob.
  destruct (is_attached shm) eqn:E; [|by apply wp_ret]. unfold detach. unfold is_attached in E.
  apply negb_true_iff in E. rewrite E. apply wp_bind, wp_sysr. rewrite (Hob w (sys_shmdt (addr_ shm))). apply wp_ret.
  split; [done|]. split; [done|]. by rewrite calls_cons.
Qed.

Lemma remove_obliged shm w : shm_id_ shm <> -1 -> (n <= calls is_stat w)%nat ->
  wp (remove shm) (fun r _ => r.1 = true) w.
Proof using Hob.
  intros Hi Hn. unfold remove. rewrite (proj2 (Z.eqb_neq _ _) Hi). apply wp_bind.
  eapply wp_mono; [by apply count_obliged|]. intros a w1 [-> _]. rewrite decide_True by done. cbn [Z.ltb Z.compare Pos.compare Pos.compare_cont].
  apply wp_bind, wp_sysr. rewrite (Hob w1 (sys_shm_rmid (shm_id_ shm))). by apply wp_ret.
Qed.

Lemma shutdown_memory_obliged fuel shm s : (n < fuel)%nat -> shm_id_ shm <> -1 -> connected s ->
  wp (shutdown_memory fuel shm) (fun ok _ => ok = true) s.
Proof using Hob Ho.
  intros Hf Hi Hc. unfold shutdown_memory. apply wp_bind, wp_in_world.
  eapply wp_mono; [by apply count_obliged|]. intros a w [-> Ew]. apply wp_bind.
  eapply (wp_mono _ (fun _ s1 => connected s1 /\ calls is_stat (srv_world s1) = calls is_stat w)); [by destruct (1 <? _)|].
  intros _u s1 [Hc1 Ec1]. apply wp_bind.
  eapply wp_mono; [apply (wait_obliged _ _ _ s1 Hi Hc1); rewrite Ec1, Ew; destruct (decide _); [left; split; [done|lia]|right; split; [done|lia]]|].
  intros a2 s2 (-> & Hn2 & Hc2). cbn [Z.eqb Z.opp]. apply wp_bind, wp_log, wp_bind. unfold wp at 1. rewrite in_world_if.
  apply wp_in_world. eapply wp_mono; [apply detach_obliged|]. intros [ok shm3] w3 (Eok & Ei & Ew3). cbn [fst snd] in *. subst ok.
  apply wp_bind, wp_assign. cbn [negb]. apply wp_bind, wp_log, wp_bind, wp_in_world.
  eapply wp_mono; [apply remove_obliged; [by rewrite Ei|]|].
  { cbn [srv_world set_field server_fields] in *. rewrite calls_cons, Ew3, calls_cons. cbn [is_stat]. exact Hn2. }
  intros [ok shm4] w4 Eok. cbn [fst] in Eok. subst ok. apply wp_bind, wp_assign. cbn [negb]. apply wp_bind, wp_in_world.
  eapply wp_mono; [apply delete_returns|]. intros _v w5 _. apply wp_bind, wp_assign, wp_bind.
  apply wp_close_sqlite; [exact Hc2|intros _|intros q w6 _ _ _];
    (apply wp_bind, wp_remove_pid_file; intros [] w7 _ _ Hp; [by apply wp_bind, wp_log, wp_ret|by destruct (Hp eq_refl); apply (Hob _ (sys_remove _))]).
Qed.

Lemma shutdown_obliged fuel s : (n < fuel)%nat -> connected s -> header_ok s ->
  (forall shm, shared_memory_ (this s) = Some shm -> shm_id_ shm <> -1) ->
  wp (shutdown fuel) (fun ok _ => ok = true) s.
Proof using Hob Ho.
  intros Hf Hc Hh Hi. unfold shutdown. apply wp_bind, wp_log, wp_bind, wp_release_queues; [exact Hh|]. intros m w _ _.
  apply wp_bind, wp_destroy_condition; [intros w1 _ []; apply (Hob _ (sys_cond_destroy _))|intros w1 _]. cbn [negb].
  apply wp_bind, wp_destroy_mutex; [intros w2 _ []; apply (Hob _ (sys_mutex_destroy _))|intros w2 _]. cbn [negb].
  apply wp_bind, wp_field. cbn [this set_field Database_fields server_fields shared_memory_].
  destruct (shared_memory_ (this s)) as [shm|] eqn:E; [by apply shutdown_memory_obliged; [|apply Hi|]|].
  apply wp_bind, wp_remove_pid_file. intros [] w3 _ _ Hp; cbn [negb]; [|by destruct (Hp eq_refl); apply (Hob _ (sys_remove _))].
  apply wp_bind, wp_log, wp_bind, wp_logger_close. intros fd w4 _ _. by apply wp_ret.
Qed.
End Obliging.

(** C21: shutting down.  When the other processes detach after at most [n]
    checks, [shutdown] returns whatever else the system does; by then the
    readiness flags are withdrawn, no queue is open, and the semaphores of both
    are closed.  Whether it succeeds or not, the process holds exactly what its
    object still names, if it did so before: nothing is given back twice and
    nothing is lost.  If it reports success it has given back everything the
    object named: the condition variable, the mutex, the mapping and the segment
    itself, which is removed; the PID file is gone; and a server that had a
    segment has closed its SQLite connection.  A server without one leaves the
    connection as it was.  And it does report success when the calls it makes
    succeed, although another process stays attached for [n] checks: it waits
    for it. *)
Theorem shutdown_correct `{Environment} `{SqliteLaws} `{!OtherThreads} (fuel n : nat) (s : server) :
  others_are_processes -> (n < fuel)%nat -> connected s -> header_ok s ->
  (detaches _ n -> wp (shutdown fuel) (stopped s) s) /\
  (obliging _ n -> (forall shm, shared_memory_ (this s) = Some shm -> shm_id_ shm <> -1) ->
   wp (shutdown fuel) (fun ok s' => ok = true /\ stopped s true s') s).
Proof.
  intros Ho Hf Hc Hh. split; [intros Hn; by apply (shutdown_spec fuel n)|]. intros Hob Hi.
  assert (detaches _ n) as Hn.
  { intros w i Hw. destruct (Hob w (sys_shm_stat i)) as [_ ->]. by rewrite decide_True. }
  eapply wp_mono; [apply wp_conj; [by apply (shutdown_obliged n)|by apply (shutdown_spec fuel n)]|].
  intros ok s' [-> Hs]. by split.
Qed.

(** ** Starting the workers *)
Definition is_cond_destroy (c : syscall) : bool := match c with sys_cond_destroy _ => true | _ => false end.
Definition is_mutex_destroy (c : syscall) : bool := match c with sys_mutex_destroy _ => true | _ => false end.

(** Calls that destroy the condition variable and the mutex. *)
Definition destroys (w : world) : nat * nat := (calls is_cond_destroy w, calls is_mutex_destroy w).

(** What the start of the workers changes: the three flags of the object, and
    how often the two objects were destroyed. *)
Record progress := Progress {
  pr_running : bool;
  pr_mutex : bool;
  pr_condition : bool;
  pr_destroys : nat * nat;
}.
Definition progress_of `{Sqlite} (s : server) : progress :=
  Progress (running_ (this s)) (request_queue_mutex_initialized_ (this s))
    (request_queue_condition_initialized_ (this s)) (destroys (srv_world s)).
Definition count_call (c : syscall) (p : progress) : progress :=
  Progress (pr_running p) (pr_mutex p) (pr_condition p)
    (((if is_cond_destroy c then 1 else 0) + (pr_destroys p).1)%nat,
     ((if is_mutex_destroy c then 1 else 0) + (pr_destroys p).2)%nat).

(** The ways [run_start] ends, by the progress it made. *)
Inductive started (c m : nat) (r : bool) : bool -> progress -> Prop :=
| started_all : started c m r true (Progress true true true (c, m))
| started_no_mutex : started c m r false (Progress r false false (c, m))
| started_no_condition : started c m r false (Progress r true false (c, S m))
| started_no_mask : started c m r false (Progress r true true (S c, S m))
| started_no_thread : started c m r false (Progress false true true (S c, S m)).

Section Progress.
Context `{Environment} `{Sqlite} `{!OtherThreads}.
Implicit Types s : server.

Lemma wp_call_progress p c (Q : Z -> server -> Prop) s : progress_of s = p ->
  (forall r s', progress_of s' = count_call c p -> Q r s') -> wp (Database.call c) Q s.
Proof.
  intros <- HQ. apply wp_call_ok, HQ. unfold progress_of, destroys. cbn [srv_world this set_field server_fields].
  by rewrite !calls_cons.
Qed.

Lemma wp_blocking_progress p c (Q : Z -> server -> Prop) s :
  (forall s : server, others s = s) -> progress_of s = p ->
  (forall r s', progress_of s' = count_call c p -> Q r s') -> wp (blocking c) Q s.
Proof.
  intros Hquiet Hp HQ. unfold blocking. eapply wp_bind, wp_call_progress; [exact Hp|].
  intros r s' Hs'. apply wp_bind, wp_modify, wp_ret. rewrite Hquiet. by apply HQ.
Qed.

Lemma wp_call_progress_ p c (Q : unit -> server -> Prop) s : progress_of s = p ->
  (forall s', progress_of s' = count_call c p -> Q tt s') -> wp (call_ c) Q s.
Proof.
  intros <- HQ. apply wp_in_world, wp_sys_, HQ. unfold progress_of, destroys.
  cbn [srv_world this set_field server_fields]. by rewrite !calls_cons.
Qed.

Lemma wp_log_progress p c f (Q : unit -> server -> Prop) s : progress_of s = p ->
  (forall s', progress_of s' = p -> Q tt s') -> wp (in_world (sys_ (sys_log c f))) Q s.
Proof. intros <- HQ. by apply wp_log, HQ. Qed.

Lemma wp_assign_progress p f (Q : unit -> server -> Prop) s : progress_of s = p ->
  (forall s', progress_of s' = Progress (running_ (f (this s))) (request_queue_mutex_initialized_ (f (this s)))
    (request_queue_condition_initialized_ (f (this s))) (pr_destroys p) -> Q tt s') ->
  wp (assign f) Q s.
Proof. intros <- HQ. by apply wp_assign, HQ. Qed.
End Progress.

(** One step of a function that makes calls and tests their results. *)
Ltac progress_step :=
  cbv beta;
  match goal with
  | |- wp (if negb (?r =? 0) then _ else _) _ _ => destruct (r =? 0); cbn [negb]
  | |- wp (mbind _ _) _ _ => apply wp_bind
  | P : progress_of ?s = _ |- wp (Database.call _) _ ?s =>
      eapply wp_call_progress; [exact P|]; clear P; intros ? ? P; cbn in P
  | P : progress_of ?s = _ |- wp (call_ _) _ ?s =>
      eapply wp_call_progress_; [exact P|]; clear P; intros ? P; cbn in P
  | P : progress_of ?s = _ |- wp (blocking _) _ ?s =>
      eapply wp_blocking_progress; [assumption|exact P|]; clear P; intros ? ? P; cbn in P
  | P : progress_of ?s = _ |- wp (assign _) _ ?s =>
      eapply wp_assign_progress; [exact P|]; unfold progress_of in P; injection P as ? ? ? ?;
      let P := fresh P in intros ? P; cbn in P; congruence_progress P
  | P : progress_of ?s = _ |- wp (log_info _) _ ?s => eapply wp_log_progress; [exact P|]; clear P; intros ? P
  | P : progress_of ?s = _ |- wp (log_error _) _ ?s => eapply wp_log_progress; [exact P|]; clear P; intros ? P
  | |- wp (mret _) _ _ => apply wp_ret
  end
with congruence_progress P :=
  repeat match goal with E : _ (this _) = _ |- _ => rewrite E in P; clear E end.

(** C23: starting the workers: on success both threads run over initialised
    objects.  Every failure after the objects were initialised destroys them
    and returns with the flags that [shutdown] consults still set, so that
    [shutdown] destroys them again. *)
Theorem run_start_correct `{Environment} `{Sqlite} `{!OtherThreads} (s : server) :
  (forall s : server, others s = s) ->
  request_queue_mutex_initialized_ (this s) = false ->
  request_queue_condition_initialized_ (this s) = false ->
  wp run_start (fun ok s' =>
    started (calls is_cond_destroy (srv_world s)) (calls is_mutex_destroy (srv_world s))
      (running_ (this s)) ok (progress_of s')) s.
Proof.
  intros Hquiet Hm Hc.
  assert (progress_of s = Progress (running_ (this s)) false false (destroys (srv_world s))) as P
    by (unfold progress_of; congruence).
  unfold destroys in P. revert P.
  generalize (calls is_cond_destroy (srv_world s)) (calls is_mutex_destroy (srv_world s)) (running_ (this s)).
  intros c m r P. clear Hm Hc. unfold run_start.
  repeat progress_step.
  all: rewrite P; constructor.
Qed.
