(* ===== verification/DatabaseExample.v ===== *)
(** DatabaseExample: the theorems about the Database server at work on a
    concrete process. *)

From stdpp Require Import gmultiset.
From S2P Require Import Prelude Machine CLib Ieee Posix IpcProtocol SharedMemory SharedQueue Resources.
From S2P Require Import Sqlite SqliteDatabase SqliteRules ParkingDatabase SqliteExample.
From S2P Require Import Database DatabaseProofs DatabaseLife.

(** A process with no other threads or processes at work. *)
#[export] Instance alone : @OtherThreads example_sqlite := fun s => s.

(** A serving process: both queues created, the seeded file open. *)
Definition serving_object : Database :=
  new_Database <| shared_memory_ := Some mapped_segment |>
    <| tcp_to_database_queue_ := Some request_queue_object |>
    <| database_to_tcp_queue_ := Some response_queue_object |>
    <| ipc_header_ := Some 0 |> <| running_ := true |>
    <| request_queue_mutex_initialized_ := true |> <| request_queue_condition_initialized_ := true |>
    <| sqlite_database_opened_ := true |>.

Definition process (o : Database) (m : list byte) (h : Z) : server :=
  Server _ o m h (db_sqlite seeded) (-1) 0 [].

Definition arrival : tcp_to_database_message_t :=
  TcpToDatabase 7 START_PARKING (copy_cstr VEHICLE_NUMBER_SIZE car) at_10_1 at_10_1 1000 0.
Definition departure : tcp_to_database_message_t :=
  TcpToDatabase 8 END_PARKING (copy_cstr VEHICLE_NUMBER_SIZE car) double_zero double_zero 0 1061.

Lemma arrival_good : good_request arrival car.
Proof. split; [constructor; vm_compute; done..| reflexivity|vm_compute; discriminate]. Qed.
Lemma departure_good : good_request departure car.
Proof. split; [constructor; vm_compute; done..| reflexivity|vm_compute; discriminate]. Qed.

(** What the server answers to them: 61 seconds are two minutes. *)
Example arrival_departure_replies :
  match (r ← @process_database_request quiet_env _ arrival;
         q ← @process_database_request quiet_env _ departure; mret (r, q))
        (process serving_object [] 1) with
  | Ret ((r, q), _) => (rs_status r, rs_action r, rs_status q, rs_parking_duration q,
                        rs_parking_cost q)
  | _ => (0, 0, 0, 0, double_zero)
  end = (IPC_STATUS_SUCCESS, ACKNOWLEDGE, IPC_STATUS_SUCCESS, 61, double_lit 1 1).
Proof. vm_compute. reflexivity. Qed.

Lemma process_request_correct_witness :
  wp (@process_database_request quiet_env _ arrival) (fun rs s' =>
    same_server (process serving_object [] 1) s' /\
    reply arrival car (tables_of (srv_sqlite (process serving_object [] 1))) (tables_of (srv_sqlite s')) rs /\
    sessions_ok (sessions (tables_of (srv_sqlite s')))) (process serving_object [] 1).
Proof.
  refine (@process_request_correct quiet_env _ _ _ arrival car (process serving_object [] 1) _ _ _ _ _ _).
  - exact example_private.
  - reflexivity.
  - reflexivity.
  - discriminate.
  - exact seeded_sessions_ok.
  - vm_compute. discriminate.
Defined.

(** The segment with both requests waiting. *)
Definition load_requests : M ipc_state bool :=
  @push sem_env request_queue_object (Some (encode_request arrival));;
  @push sem_env request_queue_object (Some (encode_request departure)).

Definition loaded_segment : list byte :=
  match load_requests (IpcState created_segment []) with Ret (_, i) => segment i | _ => [] end.

#[local] Opaque created_segment.

Lemma loaded_segment_repr :
  ipc_segment loaded_segment [encode_request arrival; encode_request departure] [].
Proof.
  assert (wp load_requests
    (fun _ i => ipc_segment (segment i) [encode_request arrival; encode_request departure] [])
    (IpcState created_segment [])) as Hrun.
  { apply wp_bind. eapply wp_mono.
    - apply (@push_request sem_env request_queue_object 3 sem_env_works _ [] []);
        [by constructor|apply created_segment_repr|apply length_encode_request, arrival_good].
    - intros b i [_ Hi]. eapply wp_mono.
      + apply (@push_request sem_env request_queue_object 3 sem_env_works _ [encode_request arrival] []);
          [by constructor|exact Hi|apply length_encode_request, departure_good].
      + by intros b' i' [_ Hi']. }
  unfold loaded_segment. unfold wp in Hrun.
  destruct (load_requests _) as [[b i]| |]; [exact Hrun|done|done].
Qed.

#[local] Opaque loaded_segment.

Lemma sem_env_pthreads : pthreads_work sem_env.
Proof. by intros w. Qed.

Lemma pipeline_refinement_witness :
  wp (@run_workers sem_env _ _ [Reader; Writer; Reader; Writer]) (fun _ s' =>
    let p := foldl pipeline_step (Pipeline [] [] [arrival; departure]) [Reader; Writer; Reader; Writer] in
    answered p ++ inside p ++ queued p = [arrival; departure] /\
    pipeline_repr request_queue_object response_queue_object 3 3
      (tables_of (srv_sqlite (process serving_object loaded_segment 1))) [] p s' /\
    (forall n, [Reader; Writer; Reader; Writer] = replicate n Reader ++ replicate n Writer ->
       (length [arrival; departure] <= n)%nat -> p = Pipeline [arrival; departure] [] []))
    (process serving_object loaded_segment 1).
Proof.
  refine (@pipeline_refinement sem_env _ _ _ request_queue_object response_queue_object 3 3
    [arrival; departure] [] [Reader; Writer; Reader; Writer] (process serving_object loaded_segment 1)
    _ _ _ _ _ _ _ _).
  - exact example_private.
  - done.
  - exact sem_env_pthreads.
  - exact sem_env_works.
  - exact sem_env_works.
  - repeat constructor; exists car; [exact arrival_good|exact departure_good].
  - vm_compute. discriminate.
  - constructor.
    + reflexivity.
    + reflexivity.
    + by constructor.
    + by constructor.
    + exact loaded_segment_repr.
    + reflexivity.
    + discriminate.
    + exact seeded_sessions_ok.
Defined.

(** Start-up and shutdown, with another process attached for two checks. *)
Definition station_env : Environment := fun w c =>
  match c with
  | sys_shmget _ _ _ _ => ok (id mapped_segment)
  | sys_shmat _ => ok (data mapped_segment)
  | sys_sem_open _ => ok 3
  | sys_shm_stat _ => Answer 0 0 (le_bytes 8 (if (calls is_stat w <? 2)%nat then 2 else 1)) ∅
  | _ => ok 0
  end.

Lemma ipc_initialisation_witness :
  wp (ok ← @initialize_shared_memory station_env _;
      if negb ok then mret false else @initialize_queues station_env _)
     (fun ok s' => if ok then ipc_up s' /\ accounted ∅ s' else ipc_failed ∅ s') (process new_Database [] 1).
Proof.
  refine (@ipc_initialisation station_env _ _ ∅ (process new_Database [] 1) _ _ _ _ _ _).
  - intros w i. discriminate.
  - reflexivity.
  - reflexivity.
  - reflexivity.
  - reflexivity.
  - vm_compute. reflexivity.
Defined.

(** It succeeds, and where the second semaphore cannot be opened only the
    segment is left. *)
Definition one_semaphore_env : Environment := fun w c =>
  match c with
  | sys_sem_open name => ok (if decide (name = TCP_TO_DATABASE_SEMAPHORE_NAME) then 3 else 0)
  | _ => station_env w c
  end.

Definition ipc_start `{Environment} : M server bool :=
  ok ← initialize_shared_memory; if negb ok then mret false else initialize_queues.

Example ipc_starts :
  match @ipc_start station_env (process new_Database [] 1) with
  | Ret (b, s') => (b, bool_decide (owned (srv_world s') = Some ({[+ Semaphore 3; Semaphore 3; Mapping; Segment 7 +]})))
  | _ => (false, false)
  end = (true, true).
Proof. vm_compute. reflexivity. Qed.

Example ipc_start_fails :
  match @ipc_start one_semaphore_env (process new_Database [] 1) with
  | Ret (b, s') => (b, bool_decide (owned (srv_world s') = Some ({[+ Mapping; Segment 7 +]})))
  | _ => (true, false)
  end = (false, true).
Proof. vm_compute. reflexivity. Qed.

Lemma alone_processes : @others_are_processes _ _ alone.
Proof. by constructor. Qed.

Lemma station_obliging : obliging station_env 2.
Proof.
  intros w c. destruct c; try done. split; [done|]. unfold respond, station_env.
  destruct (decide _) as [Hn|Hn]; [rewrite (proj2 (Nat.ltb_ge _ _)) by done|rewrite (proj2 (Nat.ltb_lt _ _)) by lia];
    vm_compute; reflexivity.
Qed.

(** The serving process has made these calls. *)
Definition serving_world : list (syscall * answer) :=
  [(sys_cond_init request_queue_condition, ok 0); (sys_mutex_init request_queue_mutex, ok 0);
   (sys_sem_open DATABASE_TO_TCP_SEMAPHORE_NAME, ok 3); (sys_sem_open TCP_TO_DATABASE_SEMAPHORE_NAME, ok 3);
   (sys_shmat (id mapped_segment), ok (data mapped_segment));
   (sys_shmget IPC_SHARED_MEMORY_KEY IPC_SHARED_MEMORY_SIZE true true, ok (id mapped_segment))].

Definition serving_segment : list byte := le_bytes 4 READY ++ le_bytes 4 READY ++ drop 8 created_segment.

Definition serving_process : server :=
  Server _ serving_object serving_segment 1 (db_sqlite seeded) (-1) 0 serving_world.

Lemma serving_accounted : accounted ∅ serving_process.
Proof. vm_compute. reflexivity. Qed.

(** It waits twice, removes the segment, and has nothing left. *)
Example serving_stops :
  match @shutdown station_env _ _ 3 serving_process with
  | Ret (b, s') => (b, calls (fun c => match c with sys_sleep _ => true | _ => false end) (srv_world s'),
                    calls is_rmid (srv_world s'), bool_decide (owned (srv_world s') = Some ∅))
  | _ => (false, 0%nat, 0%nat, false)
  end = (true, 2%nat, 1%nat, true).
Proof. vm_compute. reflexivity. Qed.

Lemma shutdown_correct_witness :
  accounted ∅ serving_process /\
  wp (@shutdown station_env _ _ 3) (fun ok s' => ok = true /\ stopped serving_process true s') serving_process.
Proof.
  split; [exact serving_accounted|].
  refine (proj2 (@shutdown_correct station_env _ _ _ 3 2 serving_process _ _ _ _) _ _).
  - exact alone_processes.
  - lia.
  - split; [reflexivity|]. intros _ q st Hq. exfalso. revert Hq. vm_compute. discriminate.
  - split; [reflexivity|]. exists READY, READY. split; vm_compute; reflexivity.
  - exact station_obliging.
  - intros shm [= <-]. discriminate.
Defined.

Lemma run_start_correct_witness :
  wp (@run_start quiet_env _ _) (fun ok s' =>
    started (calls is_cond_destroy (srv_world (process new_Database [] 1)))
      (calls is_mutex_destroy (srv_world (process new_Database [] 1)))
      (running_ (this (process new_Database [] 1))) ok (progress_of s')) (process new_Database [] 1).
Proof. by apply (@run_start_correct quiet_env _ _ (process new_Database [] 1)). Defined.
