(* ===== verification/TcpServer.v ===== *)
(** TcpServer (src/TcpServer): the server process that accepts TCP clients,
    forwards their requests to Database through the shared queues and sends the
    responses back. *)

From S2P Require Import Prelude Machine CLib Posix Config Logger IpcProtocol SharedMemory SharedQueue.

(** Descriptors [select] can handle. *)
Definition FD_SETSIZE : Z := 1024.

Record tcp_client_t := TcpClient { socket_fd : Z }.

(** The data members of class [TcpServer]; [ipc_header_] is an address relative
    to the start of the segment. *)
Record TcpServer := TcpServerObj {
  shared_memory_ : option SharedMemory;
  tcp_to_database_queue_ : option SharedQueue;
  database_to_tcp_queue_ : option SharedQueue;
  ipc_header_ : option Z;
  shared_memory_key_ : Z;
  log_file_ : list byte;
  enable_console_logging_ : bool;
  request_queue_ : list tcp_to_database_message_t;
  request_queue_mutex_initialized_ : bool;
  request_queue_condition_initialized_ : bool;
  clients_ : gmap Z tcp_client_t;
  pending_requests_ : gmap Z Z;
  clients_mutex_initialized_ : bool;
  running_ : bool;
  server_socket_ : Z;
  server_port_ : Z;
  listen_backlog_ : Z;
}.

#[export] Instance TcpServer_fields : Fields TcpServer := fun s =>
  TcpServerObj
    (shared_memory_ s) (tcp_to_database_queue_ s) (database_to_tcp_queue_ s) (ipc_header_ s)
    (shared_memory_key_ s) (log_file_ s) (enable_console_logging_ s) (request_queue_ s)
    (request_queue_mutex_initialized_ s) (request_queue_condition_initialized_ s) (clients_ s)
    (pending_requests_ s) (clients_mutex_initialized_ s) (running_ s) (server_socket_ s)
    (server_port_ s) (listen_backlog_ s).

(** The process: its object, the segment (as the processes share it), the
    logger and the system. *)
Record tcp_process := TcpProcess {
  this : TcpServer;
  tcp_segment : list byte;
  tcp_log_fd : Z;
  tcp_console : Z;
  tcp_world : world;
}.

#[export] Instance tcp_process_fields : Fields tcp_process := fun s =>
  TcpProcess (this s) (tcp_segment s) (tcp_log_fd s) (tcp_console s) (tcp_world s).

(** The constructor. *)
Definition new_TcpServer : TcpServer :=
  TcpServerObj None None None None IPC_SHARED_MEMORY_KEY DEFAULT_TCP_SERVER_LOG_FILE
    DEFAULT_ENABLE_CONSOLE_LOGGING [] false false ∅ ∅ false false (-1) DEFAULT_TCP_SERVER_PORT
    DEFAULT_TCP_LISTEN_BACKLOG.

(** What the other threads of the process and the other processes do to the
    shared state while this thread sleeps or waits. *)
Class OtherThreads := others : tcp_process -> tcp_process.

(** Whether a worker thread comes to its end, from the state in which the main
    thread begins to wait for it. *)
Class Threads := ends : thread -> tcp_process -> bool.

Section Operations.
Context `{Environment} `{!OtherThreads} `{!Threads}.

(** ** The parts of the process the libraries work on *)
Definition in_world {A} (m : M world A) : M tcp_process A :=
  zoom tcp_world (fun w s => s <| tcp_world := w |>) m.
Definition in_ipc {A} (m : M ipc_state A) : M tcp_process A :=
  zoom (fun s => IpcState (tcp_segment s) (tcp_world s))
       (fun i s => s <| tcp_segment := segment i |> <| tcp_world := ipc_world i |>) m.
Definition in_logger {A} (m : M logger A) : M tcp_process A :=
  zoom (fun s => LoggerState (tcp_log_fd s) (tcp_console s) (tcp_world s))
       (fun l s => s <| tcp_log_fd := log_fd l |> <| tcp_console := console_output_enabled l |>
                     <| tcp_world := logger_world l |>) m.

Definition field {A} (f : TcpServer -> A) : M tcp_process A := gets (fun s => f (this s)).
Definition assign (f : TcpServer -> TcpServer) : M tcp_process unit := modify (fun s => s <| this ::= f |>).
Definition log_info (f : string) : M tcp_process unit := in_world (LOG_INFO f).
Definition log_error (f : string) : M tcp_process unit := in_world (LOG_ERROR f).
Definition call (c : syscall) : M tcp_process Z := in_world (sysr c).
Definition call_ (c : syscall) : M tcp_process unit := in_world (sys_ c).

(** A call that blocks: others run before it returns. *)
Definition waiting (c : syscall) : M tcp_process answer := a ← in_world (sys c); modify others;; mret a.
Definition blocking (c : syscall) : M tcp_process Z := a ← waiting c; mret (ans_ret a).

(** A member function called through a pointer. *)
Definition deref {A} (p : option A) : M tcp_process A := from_option_undef p.

(** ** Start-up *)
Definition load_configuration : M tcp_process bool :=
  '(result, config) ← in_world (config_load (Some (Config [])) (Some DEFAULT_CONFIG_FILE));
  if negb (result =? 0) then mret false
  else
    let int_setting key default := config_get_int 64 config (Some (bs key)) default in
    assign (fun o => o <| shared_memory_key_ := int_setting "IPC_SHARED_MEMORY_KEY" IPC_SHARED_MEMORY_KEY |>);;
    log_file ← deref (config_get_string config (Some (bs "TCP_SERVER_LOG_FILE"))
                        (Some DEFAULT_TCP_SERVER_LOG_FILE));
    assign (fun o => o <| log_file_ := log_file |>);;
    assign (fun o => o <| enable_console_logging_ :=
      negb (int_setting "ENABLE_CONSOLE_LOGGING" (Z.b2z DEFAULT_ENABLE_CONSOLE_LOGGING) =? 0) |>);;
    assign (fun o => o <| server_port_ :=
      wrap_u 16 (int_setting "TCP_SERVER_PORT" DEFAULT_TCP_SERVER_PORT) |>);;
    assign (fun o => o <| listen_backlog_ := int_setting "TCP_LISTEN_BACKLOG" DEFAULT_TCP_LISTEN_BACKLOG |>);;
    mret true.

(** [steady_clock::now()], in nanoseconds. *)
Definition now : M tcp_process Z := call sys_clock.

(** [while (!shared_memory_->attach())]: [None] after the time-out. *)
Fixpoint attach_loop (fuel : nat) (start_time : Z) (shm : SharedMemory) : M tcp_process (bool * SharedMemory) :=
  '(attached, shm) ← in_world (attach shm);
  if (attached : bool) then mret (true, shm)
  else
    time ← now;
    let elapsed := (time - start_time) `quot` 1000000 in
    if IPC_ATTACH_TIMEOUT_MS <=? elapsed then
      log_error "Timed out while waiting for shared memory.";; mret (false, shm)
    else match fuel with
    | O => out_of_fuel
    | S fuel =>
        blocking (sys_sleep IPC_RETRY_DELAY_MS);;
        attach_loop fuel start_time shm
    end.

Definition attach_shared_memory (fuel : nat) : M tcp_process bool :=
  key ← field shared_memory_key_;
  let shm := new_SharedMemory key IPC_SHARED_MEMORY_SIZE in
  assign (fun o => o <| shared_memory_ := Some shm |>);;
  log_info "Waiting for shared memory.";;
  start_time ← now;
  '(attached, shm) ← attach_loop fuel start_time shm;
  assign (fun o => o <| shared_memory_ := Some shm |>);;
  if negb attached then
    in_world (delete_SharedMemory shm);;
    assign (fun o => o <| shared_memory_ := None |>);;
    mret false
  else
    assign (fun o => o <| ipc_header_ := if data shm =? nullptr then None else Some 0 |>);;
    header ← field ipc_header_;
    match header with
    | None =>
        log_error "Failed to get shared memory address.";;
        in_world (delete_SharedMemory shm);;
        assign (fun o => o <| shared_memory_ := None |>);;
        mret false
    | Some _ => log_info "Shared memory attached.";; mret true
    end.

(** Reading a member of the header. *)
Definition tcp_to_database_queue_ready : Z := 0.
Definition database_to_tcp_queue_ready : Z := 4.
Definition load_ready (header member : Z) : M tcp_process Z :=
  b ← in_ipc (load_bytes (header + member) 4);
  mret (le_val b).

Definition queues_ready (header : Z) : M tcp_process bool :=
  first ← load_ready header tcp_to_database_queue_ready;
  if negb (first =? READY) then mret false
  else
    second ← load_ready header database_to_tcp_queue_ready;
    mret (second =? READY).

Fixpoint ready_loop (fuel : nat) (header : Z) : M tcp_process unit :=
  ready ← queues_ready header;
  if (ready : bool) then mret tt
  else match fuel with
  | O => out_of_fuel
  | S fuel => blocking (sys_sleep IPC_RETRY_DELAY_MS);; ready_loop fuel header
  end.

Definition wait_for_queues (fuel : nat) : M tcp_process bool :=
  header ← field ipc_header_;
  match header with
  | None => log_error "IPC header is not available.";; mret false
  | Some header =>
      log_info "Waiting for shared queues.";;
      ready_loop fuel header;;
      log_info "Shared queues are ready.";;
      mret true
  end.

Definition attach_queues : M tcp_process bool :=
  shm ← field shared_memory_;
  header ← field ipc_header_;
  match shm, header with
  | Some shm, Some _ =>
      if negb (is_attached shm) then
        log_error "Shared memory is not ready for queue attachment.";; mret false
      else
      q ← in_ipc (new_SharedQueue (Some shm) TCP_TO_DATABASE_QUEUE_OFFSET
                    (Some TCP_TO_DATABASE_SEMAPHORE_NAME) sizeof_request TCP_TO_DATABASE_QUEUE_CAPACITY false);
      assign (fun o => o <| tcp_to_database_queue_ := Some q |>);;
      if negb (is_valid q) then
        log_error "Failed to attach to TcpServer-to-Database queue.";;
        in_ipc (delete_SharedQueue q);;
        assign (fun o => o <| tcp_to_database_queue_ := None |>);;
        mret false
      else
      log_info "Attached to TcpServer-to-Database queue.";;
      r ← in_ipc (new_SharedQueue (Some shm) DATABASE_TO_TCP_QUEUE_OFFSET
                    (Some DATABASE_TO_TCP_SEMAPHORE_NAME) sizeof_response DATABASE_TO_TCP_QUEUE_CAPACITY false);
      assign (fun o => o <| database_to_tcp_queue_ := Some r |>);;
      if negb (is_valid r) then
        log_error "Failed to attach to Database-to-TcpServer queue.";;
        in_ipc (delete_SharedQueue r);;
        assign (fun o => o <| database_to_tcp_queue_ := None |>);;
        in_ipc (delete_SharedQueue q);;
        assign (fun o => o <| tcp_to_database_queue_ := None |>);;
        mret false
      else
      log_info "Attached to Database-to-TcpServer queue.";;
      mret true
  | _, _ => log_error "Shared memory is not ready for queue attachment.";; mret false
  end.

(** The synchronisation objects, at the end of [initialize]. *)
Definition initialize_synchronization : M tcp_process bool :=
  result ← call (sys_mutex_init request_queue_mutex);
  if negb (result =? 0) then
    log_error "Failed to initialize request queue mutex. Error: %d";; mret false
  else
  assign (fun o => o <| request_queue_mutex_initialized_ := true |>);;
  result ← call (sys_cond_init request_queue_condition);
  if negb (result =? 0) then
    log_error "Failed to initialize request queue condition variable. Error: %d";;
    call_ (sys_mutex_destroy request_queue_mutex);;
    assign (fun o => o <| request_queue_mutex_initialized_ := false |>);;
    mret false
  else
  assign (fun o => o <| request_queue_condition_initialized_ := true |>);;
  result ← call (sys_mutex_init clients_mutex);
  if negb (result =? 0) then
    log_error "Failed to initialize clients mutex. Error: %d";;
    call_ (sys_cond_destroy request_queue_condition);;
    assign (fun o => o <| request_queue_condition_initialized_ := false |>);;
    call_ (sys_mutex_destroy request_queue_mutex);;
    assign (fun o => o <| request_queue_mutex_initialized_ := false |>);;
    mret false
  else
  assign (fun o => o <| clients_mutex_initialized_ := true |>);;
  log_info "TcpServer synchronization initialized successfully.";;
  log_info "TcpServer IPC initialized successfully.";;
  mret true.

Definition initialize (fuel : nat) : M tcp_process bool :=
  ok ← load_configuration;
  if negb ok then mret false else
  log_file ← field log_file_;
  console ← field enable_console_logging_;
  result ← in_logger (logger_init (Some log_file) (Z.b2z console));
  if negb (result =? 0) then mret false else
  log_info "Logger initialized.";;
  log_info "Configuration loaded.";;
  ok ← attach_shared_memory fuel;
  if negb ok then mret false else
  ok ← wait_for_queues fuel;
  if negb ok then mret false else
  ok ← attach_queues;
  if negb ok then mret false else
  initialize_synchronization.

(** ** Shutdown *)

(** [delete] of a queue pointer, which may be null. *)
Definition delete_queue (q : option SharedQueue) : M tcp_process unit :=
  match q with Some q => in_ipc (delete_SharedQueue q) | None => mret tt end.

(** Destroying one synchronisation object, when its flag is set; the result
    says whether that went well. *)
Definition destroy (initialized : bool) (c : syscall) (failure success : string)
    (clear : TcpServer -> TcpServer) : M tcp_process bool :=
  if initialized then
    result ← call c;
    if negb (result =? 0) then log_error failure;; mret false
    else assign clear;; log_info success;; mret true
  else mret true.

(** The last part of [shutdown]. *)
Definition detach_memory : M tcp_process bool :=
  shm ← field shared_memory_;
  match shm with
  | None => mret true
  | Some shm =>
      log_info "Detaching TcpServer from shared memory.";;
      '(ok, shm) ← (if is_attached shm then in_world (detach shm) else mret (true, shm));
      (if negb ok then log_error "Failed to detach TcpServer from shared memory." else mret tt);;
      in_world (delete_SharedMemory shm);;
      assign (fun o => o <| shared_memory_ := None |>);;
      mret ok
  end.

Definition shutdown : M tcp_process bool :=
  log_info "TcpServer shutdown started.";;
  initialized ← field request_queue_condition_initialized_;
  ok1 ← destroy initialized (sys_cond_destroy request_queue_condition)
    "Failed to destroy request queue condition variable. Error: %d"
    "Request queue condition variable destroyed."
    (fun o => o <| request_queue_condition_initialized_ := false |>);
  initialized ← field request_queue_mutex_initialized_;
  ok2 ← destroy initialized (sys_mutex_destroy request_queue_mutex)
    "Failed to destroy request queue mutex. Error: %d" "Request queue mutex destroyed."
    (fun o => o <| request_queue_mutex_initialized_ := false |>);
  initialized ← field clients_mutex_initialized_;
  ok3 ← destroy initialized (sys_mutex_destroy clients_mutex)
    "Failed to destroy clients table mutex. Error: %d" "Clients table mutex destroyed."
    (fun o => o <| clients_mutex_initialized_ := false |>);
  log_info "Releasing shared queues.";;
  q ← field database_to_tcp_queue_;
  delete_queue q;;
  assign (fun o => o <| database_to_tcp_queue_ := None |>);;
  q ← field tcp_to_database_queue_;
  delete_queue q;;
  assign (fun o => o <| tcp_to_database_queue_ := None |>);;
  assign (fun o => o <| ipc_header_ := None |>);;
  ok4 ← detach_memory;
  let shutdown_successful := ok1 && ok2 && ok3 && ok4 in
  (if shutdown_successful then log_info "TcpServer shutdown completed."
   else log_error "TcpServer shutdown completed with errors.");;
  in_logger logger_close;;
  mret shutdown_successful.

(** ** Receiving a request *)

(** The loop over [recv], from the bytes received so far: the whole request,
    or [None] when the client is gone. *)
Fixpoint receive_bytes (fuel : nat) (client_socket : Z) (received : list byte)
    : M tcp_process (option (list byte)) :=
  if Z.of_nat (length received) <? sizeof_request then
    match fuel with
    | O => out_of_fuel
    | S fuel =>
        a ← waiting (sys_recv client_socket (sizeof_request - Z.of_nat (length received)));
        if ans_ret a =? 0 then log_info "TCP client socket %d disconnected.";; mret None
        else if ans_ret a =? -1 then
          if ans_errno a =? EINTR then receive_bytes fuel client_socket received
          else
            log_error "Failed to receive request from TCP client socket %d. Error: %s";; mret None
        else receive_bytes fuel client_socket (received ++ take (Z.to_nat (ans_ret a)) (ans_data a))
    end
  else mret (Some received).

Definition receive_client_request (fuel : nat) (client_socket : Z) : M tcp_process bool :=
  received ← receive_bytes fuel client_socket [];
  match received with
  | None => mret false
  | Some bytes =>
      let request := decode_request bytes in
      log_info "Request %llu received from TCP client socket %d.";;
      result ← blocking (sys_mutex_lock clients_mutex);
      if negb (result =? 0) then log_error "Failed to lock clients mutex. Error: %d";; mret false else
      assign (fun o => o <| pending_requests_ ::= <[rq_request_id request := client_socket]> |>);;
      result ← call (sys_mutex_unlock clients_mutex);
      if negb (result =? 0) then log_error "Failed to unlock clients mutex. Error: %d";; mret false else
      result ← blocking (sys_mutex_lock request_queue_mutex);
      if negb (result =? 0) then log_error "Failed to lock request queue mutex. Error: %d";; mret false else
      assign (fun o => o <| request_queue_ ::= fun q => q ++ [request] |>);;
      result ← call (sys_cond_signal request_queue_condition);
      if negb (result =? 0) then
        log_error "Failed to signal request queue condition. Error: %d";;
        call_ (sys_mutex_unlock request_queue_mutex);;
        mret false
      else
      result ← call (sys_mutex_unlock request_queue_mutex);
      if negb (result =? 0) then log_error "Failed to unlock request queue mutex. Error: %d";; mret false else
      log_info "Request %llu added to the internal request queue.";;
      mret true
  end.

(** ** Sending a response *)

(** The loop over [send], from the bytes sent so far: how many were sent. *)
Fixpoint send_bytes (fuel : nat) (client_socket : Z) (response : list byte) (sent : nat)
    : M tcp_process nat :=
  if Z.of_nat sent <? sizeof_response then
    match fuel with
    | O => out_of_fuel
    | S fuel =>
        a ← waiting (sys_send client_socket (drop sent response) true);
        if ans_ret a =? -1 then
          if ans_errno a =? EINTR then send_bytes fuel client_socket response sent
          else
            log_error "Failed to send response %llu to TCP client socket %d. Error: %s";; mret sent
        else send_bytes fuel client_socket response (sent + Z.to_nat (ans_ret a))
    end
  else mret sent.

(** One round of [response_reader_loop]. *)
Definition response_reader_round (fuel : nat) : M tcp_process unit :=
  q ← field database_to_tcp_queue_;
  q ← deref q;
  '(popped, item) ← in_ipc (pop q true);
  if negb popped then blocking (sys_sleep IPC_RETRY_DELAY_MS);; mret tt else
  item ← deref item;
  let response := decode_response item in
  result ← blocking (sys_mutex_lock clients_mutex);
  if negb (result =? 0) then log_error "Failed to lock clients mutex. Error: %d" else
  pending ← field pending_requests_;
  match pending !! rs_request_id response with
  | None =>
      call_ (sys_mutex_unlock clients_mutex);;
      log_error "No TCP client found for response %llu."
  | Some client_socket =>
      assign (fun o => o <| pending_requests_ ::= delete (rs_request_id response) |>);;
      result ← call (sys_mutex_unlock clients_mutex);
      if negb (result =? 0) then log_error "Failed to unlock clients mutex. Error: %d" else
      total_bytes_sent ← send_bytes fuel client_socket item 0;
      if negb (Z.of_nat total_bytes_sent =? sizeof_response) then mret tt
      else if negb (rs_status response =? IPC_STATUS_SUCCESS) then
        log_error "Database failed to process request %llu."
      else
        log_info "Response %llu sent successfully to TCP client socket %d. Parking duration: %u, parking cost: %.2f"
  end.

(** [while (running_) { ... }] *)
Fixpoint while_running (fuel : nat) (round : M tcp_process unit) : M tcp_process unit :=
  running ← field running_;
  if negb running then mret tt
  else match fuel with
       | O => out_of_fuel
       | S fuel => round;; while_running fuel round
       end.

Definition response_reader_loop (fuel : nat) : M tcp_process unit :=
  log_info "Response reader thread started.";;
  while_running fuel (response_reader_round fuel);;
  log_info "Response reader thread stopped.".

Definition response_reader_thread : nat -> M tcp_process unit := response_reader_loop.

(** ** Forwarding requests *)

(** The inner loop: waits while the internal queue is empty; the last result of
    [pthread_cond_wait]. *)
Fixpoint wait_for_request (fuel : nat) : M tcp_process Z :=
  queue ← field request_queue_;
  running ← field running_;
  if bool_decide (queue = []) && running then
    match fuel with
    | O => out_of_fuel
    | S fuel =>
        result ← blocking (sys_cond_wait request_queue_condition request_queue_mutex);
        if negb (result =? 0) then mret result else wait_for_request fuel
    end
  else mret 0.

(** One round of [request_writer_loop]; [false] leaves the loop. *)
Definition request_writer_round (fuel : nat) : M tcp_process bool :=
  result ← blocking (sys_mutex_lock request_queue_mutex);
  if negb (result =? 0) then log_error "Failed to lock request queue mutex. Error: %d";; mret false else
  result ← wait_for_request fuel;
  if negb (result =? 0) then
    log_error "Failed while waiting for request queue condition. Error: %d";;
    call_ (sys_mutex_unlock request_queue_mutex);;
    mret false
  else
  running ← field running_;
  queue ← field request_queue_;
  if negb running && bool_decide (queue = []) then
    result ← call (sys_mutex_unlock request_queue_mutex);
    (if negb (result =? 0) then log_error "Failed to unlock request queue mutex. Error: %d" else mret tt);;
    mret false
  else
  request ← deref (head queue);
  assign (fun o => o <| request_queue_ ::= tail |>);;
  result ← call (sys_mutex_unlock request_queue_mutex);
  if negb (result =? 0) then log_error "Failed to unlock request queue mutex. Error: %d";; mret false else
  q ← field tcp_to_database_queue_;
  q ← deref q;
  sent ← in_ipc (push q (Some (encode_request request)));
  (if negb sent then log_error "Failed to send request %llu to Database."
   else log_info "Request %llu sent to Database.");;
  mret true.

(** [while (true) { ... }] *)
Fixpoint while_true (fuel : nat) (round : M tcp_process bool) : M tcp_process unit :=
  match fuel with
  | O => out_of_fuel
  | S fuel => again ← round; if (again : bool) then while_true fuel round else mret tt
  end.

Definition request_writer_loop (fuel : nat) : M tcp_process unit :=
  log_info "Request writer thread started.";;
  while_true fuel (request_writer_round fuel);;
  log_info "Request writer thread stopped.".

Definition request_writer_thread : nat -> M tcp_process unit := request_writer_loop.

(** ** The table of clients *)
Definition add_client (client_socket : Z) : M tcp_process bool :=
  if client_socket <? 0 then
    log_error "Cannot register an invalid TCP client socket.";; mret false
  else
  result ← blocking (sys_mutex_lock clients_mutex);
  if negb (result =? 0) then log_error "Failed to lock clients table mutex. Error: %d";; mret false else
  clients ← field clients_;
  match clients !! client_socket with
  | Some _ =>
      log_error "TCP client socket %d is already registered.";;
      result ← call (sys_mutex_unlock clients_mutex);
      (if negb (result =? 0) then log_error "Failed to unlock clients table mutex. Error: %d" else mret tt);;
      mret false
  | None =>
      assign (fun o => o <| clients_ ::= <[client_socket := TcpClient client_socket]> |>);;
      result ← call (sys_mutex_unlock clients_mutex);
      if negb (result =? 0) then log_error "Failed to unlock clients table mutex. Error: %d";; mret false else
      log_info "TCP client socket %d added to clients table.";;
      mret true
  end.

Definition remove_client (client_socket : Z) : M tcp_process unit :=
  result ← blocking (sys_mutex_lock clients_mutex);
  if negb (result =? 0) then log_error "Failed to lock clients table mutex. Error: %d" else
  clients ← field clients_;
  assign (fun o => o <| clients_ ::= delete client_socket |>);;
  result ← call (sys_mutex_unlock clients_mutex);
  (if negb (result =? 0) then log_error "Failed to unlock clients table mutex. Error: %d" else mret tt);;
  match clients !! client_socket with
  | None => log_error "TCP client socket %d was not found in clients table."
  | Some _ => log_info "TCP client socket %d removed from clients table."
  end.

(** ** The TCP server thread *)

(** What every failure before [listen] does. *)
Definition close_server_socket : M tcp_process unit :=
  server_socket ← field server_socket_;
  call_ (sys_close server_socket);;
  assign (fun o => o <| server_socket_ := -1 |>);;
  assign (fun o => o <| running_ := false |>).

(** The first part of [tcp_server_loop]: the listening socket. *)
Definition open_server_socket : M tcp_process bool :=
  fd ← call sys_socket;
  assign (fun o => o <| server_socket_ := fd |>);;
  if fd =? -1 then
    log_error "Failed to create TCP server socket. Error: %s";;
    assign (fun o => o <| running_ := false |>);;
    mret false
  else
  log_info "TCP server socket created.";;
  result ← call (sys_setsockopt fd);
  if result =? -1 then
    log_error "Failed to set SO_REUSEADDR on TCP server socket. Error: %s";;
    close_server_socket;; mret false
  else
  port ← field server_port_;
  result ← call (sys_bind fd port);
  if result =? -1 then
    log_error "Failed to bind TCP server socket to port %u. Error: %s";;
    close_server_socket;; mret false
  else
  log_info "TCP server socket bound to port %u.";;
  backlog ← field listen_backlog_;
  result ← call (sys_listen fd backlog);
  if result =? -1 then
    log_error "Failed to listen on TCP server socket. Error: %s";;
    close_server_socket;; mret false
  else
  log_info "TCP server is listening on port %u.";;
  mret true.

(** The local variables of the loop: [master_socket_set] and
    [maximum_socket_descriptor]. *)
Record monitored := Monitored {
  master_socket_set : gset Z;
  maximum_socket_descriptor : Z;
}.

(** [FD_SET] outside the range of the set is undefined. *)
Definition FD_SET (fd : Z) (set : gset Z) : M tcp_process (gset Z) :=
  if (0 <=? fd) && (fd <? FD_SETSIZE) then mret ({[fd]} ∪ set) else undef.
Definition FD_CLR (fd : Z) (set : gset Z) : gset Z := set ∖ {[fd]}.
Definition FD_ISSET (fd : Z) (set : gset Z) : bool := bool_decide (fd ∈ set).

(** The listening socket is ready. *)
Definition accept_client (m : monitored) : M tcp_process monitored :=
  server_socket ← field server_socket_;
  a ← waiting (sys_accept server_socket);
  let client_socket := ans_ret a in
  if client_socket =? -1 then
    (if ans_errno a =? EINTR then mret tt
     else log_error "Failed to accept TCP client connection. Error: %s");;
    mret m
  else if FD_SETSIZE <=? client_socket then
    log_error "TCP client socket %d exceeds FD_SETSIZE.";;
    call_ (sys_close client_socket);;
    mret m
  else
    address_result ← call sys_inet_ntop;
    (if negb (address_result =? nullptr)
     then log_info "TCP client connected. Address: %s, port: %u, socket: %d."
     else log_info "TCP client connected. Socket: %d.");;
    added ← add_client client_socket;
    if negb added then
      log_error "Failed to register TCP client socket %d.";;
      call_ (sys_close client_socket);;
      mret m
    else
      set ← FD_SET client_socket (master_socket_set m);
      log_info "TCP client socket %d registered successfully.";;
      mret (Monitored set (Z.max client_socket (maximum_socket_descriptor m))).

(** [while ((maximum >= 0) && !FD_ISSET(maximum, &master)) --maximum] *)
Fixpoint lower_maximum (fuel : nat) (maximum : Z) (set : gset Z) : Z :=
  match fuel with
  | O => maximum
  | S fuel =>
      if (0 <=? maximum) && negb (FD_ISSET maximum set) then lower_maximum fuel (maximum - 1) set
      else maximum
  end.

(** A client socket is ready. *)
Definition serve_client (fuel : nat) (fd : Z) (m : monitored) : M tcp_process monitored :=
  served ← receive_client_request fuel fd;
  if (served : bool) then mret m
  else
    log_info "Disconnecting TCP client socket %d.";;
    let set := FD_CLR fd (master_socket_set m) in
    remove_client fd;;
    call_ (sys_close fd);;
    let maximum := maximum_socket_descriptor m in
    mret (Monitored set (if fd =? maximum then lower_maximum (Z.to_nat (maximum + 1)) maximum set
                         else maximum)).

(** The loop over the descriptors, from [fd] on. *)
Fixpoint check_descriptors (steps fuel : nat) (fd : Z) (ready : gset Z) (m : monitored)
    : M tcp_process monitored :=
  if fd <=? maximum_socket_descriptor m then
    match steps with
    | O => out_of_fuel
    | S steps =>
        m ← (if negb (FD_ISSET fd ready) then mret m
             else
               server_socket ← field server_socket_;
               if fd =? server_socket then accept_client m else serve_client fuel fd m);
        check_descriptors steps fuel (fd + 1) ready m
    end
  else mret m.

(** One round of the loop over [select]; [None] leaves the loop. *)
Definition select_round (fuel : nat) (m : monitored) : M tcp_process (bool * monitored) :=
  a ← waiting (sys_select (maximum_socket_descriptor m + 1) (master_socket_set m));
  if ans_ret a =? -1 then
    if ans_errno a =? EINTR then mret (true, m)
    else
      log_error "Failed while waiting for TCP socket activity. Error: %s";;
      assign (fun o => o <| running_ := false |>);;
      mret (false, m)
  else
    m ← check_descriptors (S (Z.to_nat FD_SETSIZE)) fuel 0 (ans_fds a) m;
    mret (true, m).

Fixpoint select_loop (fuel : nat) (m : monitored) : M tcp_process monitored :=
  running ← field running_;
  if negb running then mret m
  else match fuel with
  | O => out_of_fuel
  | S fuel =>
      '(again, m) ← select_round fuel m;
      if (again : bool) then select_loop fuel m else mret m
  end.

(** The descriptors from [fd] on, [steps] of them. *)
Fixpoint close_clients (steps : nat) (fd : Z) (server_socket : Z) (set : gset Z) : M tcp_process unit :=
  match steps with
  | O => mret tt
  | S steps =>
      (if negb (fd =? server_socket) && FD_ISSET fd set then
         call_ (sys_shutdown fd);; call_ (sys_close fd)
       else mret tt);;
      close_clients steps (fd + 1) server_socket set
  end.

Definition tcp_server_loop (fuel : nat) : M tcp_process unit :=
  log_info "TCP server thread started.";;
  opened ← open_server_socket;
  if negb opened then mret tt
  else
    server_socket ← field server_socket_;
    set ← FD_SET server_socket ∅;
    m ← select_loop fuel (Monitored set server_socket);
    server_socket ← field server_socket_;
    close_clients (Z.to_nat (maximum_socket_descriptor m + 1)) 0 server_socket (master_socket_set m);;
    (if negb (server_socket =? -1) then
       call_ (sys_close server_socket);;
       assign (fun o => o <| server_socket_ := -1 |>)
     else mret tt);;
    log_info "TCP server thread stopped.".

Definition tcp_server_thread : nat -> M tcp_process unit := tcp_server_loop.

(** ** The main thread *)

(** [pthread_join] of a thread that does not end does not return: no amount of
    fuel is enough. *)
Definition join (t : thread) (failure : string) : M tcp_process unit :=
  s ← get;
  if ends t s then
    result ← blocking (sys_thread_join t);
    if negb (result =? 0) then log_error failure else mret tt
  else out_of_fuel.

(** Up to the start of the worker threads; [false] is an early return. *)
Definition run_start : M tcp_process bool :=
  result ← call sys_sigemptyset;
  if negb (result =? 0) then log_error "Failed to initialize signal set.";; mret false else
  result ← call (sys_sigaddset SIGINT);
  if negb (result =? 0) then log_error "Failed to add SIGINT to signal set.";; mret false else
  result ← call (sys_sigmask SIG_BLOCK);
  if negb (result =? 0) then log_error "Failed to block SIGINT. Error: %d";; mret false else
  assign (fun o => o <| running_ := true |>);;
  result ← call (sys_thread_create request_writer);
  if negb (result =? 0) then
    log_error "Failed to create request writer thread. Error: %d";;
    assign (fun o => o <| running_ := false |>);;
    call_ (sys_sigmask SIG_SETMASK);;
    mret false
  else
  log_info "Request writer thread created.";;
  result ← call (sys_thread_create response_reader);
  if negb (result =? 0) then
    log_error "Failed to create response reader thread. Error: %d";;
    assign (fun o => o <| running_ := false |>);;
    join request_writer "Failed to join request writer thread. Error: %d";;
    call_ (sys_sigmask SIG_SETMASK);;
    mret false
  else
  log_info "Response reader thread created.";;
  result ← call (sys_thread_create tcp_server);
  if negb (result =? 0) then
    log_error "Failed to create TCP server thread. Error: %d";;
    assign (fun o => o <| running_ := false |>);;
    join request_writer "Failed to join request writer thread. Error: %d";;
    join response_reader "Failed to join response reader thread. Error: %d";;
    call_ (sys_sigmask SIG_SETMASK);;
    mret false
  else
  log_info "TCP server thread created.";;
  mret true.

(** Waiting for SIGINT, stopping and joining the worker threads. *)
Definition run_stop : M tcp_process unit :=
  log_info "TcpServer is running. Press Ctrl+C to stop.";;
  result ← blocking sys_sigwait;
  (if negb (result =? 0) then log_error "Failed while waiting for SIGINT. Error: %d"
   else log_info "SIGINT received.");;
  assign (fun o => o <| running_ := false |>);;
  result ← blocking (sys_mutex_lock request_queue_mutex);
  (if result =? 0 then
     call_ (sys_cond_broadcast request_queue_condition);;
     call_ (sys_mutex_unlock request_queue_mutex)
   else log_error "Failed to lock request queue mutex during shutdown. Error: %d");;
  log_info "Joining TcpServer worker threads.";;
  server_socket ← field server_socket_;
  (if negb (server_socket =? -1) then call_ (sys_shutdown server_socket) else mret tt);;
  join tcp_server "Failed to join tcp server thread. Error: %d";;
  join request_writer "Failed to join request writer thread. Error: %d";;
  join response_reader "Failed to join response reader thread. Error: %d";;
  result ← call (sys_sigmask SIG_SETMASK);
  (if negb (result =? 0) then log_error "Failed to restore previous signal mask. Error: %d" else mret tt);;
  log_info "TcpServer worker threads stopped.".

Definition run : M tcp_process unit :=
  started ← run_start;
  if negb started then mret tt else run_stop.

(** The destructor. *)
Definition delete_TcpServer : M tcp_process unit := in_logger logger_close.

(** TcpServer/Test/main.cpp; the result is the exit status. *)
Definition main (fuel : nat) : M tcp_process Z :=
  ok ← initialize fuel;
  if negb ok then delete_TcpServer;; mret 1 else
  run;;
  ok ← shutdown;
  delete_TcpServer;;
  if negb ok then mret 1 else mret 0.
End Operations.
