(* ===== verification/TcpSockets.v ===== *)
(** TcpSockets: the select loop of the TcpServer: which descriptors it
    monitors, that it terminates when it is told to, and that every socket it
    obtains is closed. *)

From S2P Require Import Prelude Machine CLib Posix IpcProtocol SharedQueue TcpServer.

(** ** What the loop depends on *)

(** Sockets obtained and not yet closed, from the history of calls. *)
Fixpoint open_fds (w : world) : gset Z :=
  match w with
  | [] => ∅
  | (sys_socket, a) :: w | (sys_accept _, a) :: w =>
      if ans_ret a =? -1 then open_fds w else {[ans_ret a]} ∪ open_fds w
  | (sys_close fd, _) :: w => open_fds w ∖ {[fd]}
  | _ :: w => open_fds w
  end.

Definition is_select (c : syscall) : bool := match c with sys_select _ _ => true | _ => false end.
Definition is_interrupted (c : syscall) (a : answer) : bool :=
  match c with sys_recv _ _ => (ans_ret a =? -1) && (ans_errno a =? EINTR) | _ => false end.

(** The part of a state these theorems speak about. *)
Record net := Net {
  n_open : gset Z;
  n_selects : nat;
  n_interrupts : nat;
  n_clients : gmap Z tcp_client_t;
  n_server : Z;
  n_running : bool;
}.

Definition net_of (s : tcp_process) : net :=
  Net (open_fds (tcp_world s)) (calls is_select (tcp_world s)) (succeeded is_interrupted (tcp_world s))
    (clients_ (this s)) (server_socket_ (this s)) (running_ (this s)).

(** A call and its answer. *)
Definition net_call (c : syscall) (a : answer) (n : net) : net :=
  Net (match c with
       | sys_socket | sys_accept _ => if ans_ret a =? -1 then n_open n else {[ans_ret a]} ∪ n_open n
       | sys_close fd => n_open n ∖ {[fd]}
       | _ => n_open n
       end)
    ((if is_select c then 1 else 0) + n_selects n) ((if is_interrupted c a then 1 else 0) + n_interrupts n)
    (n_clients n) (n_server n) (n_running n).

(** What POSIX says of an answer: new descriptors are not in use, [select]
    reports descriptors it was asked about, [recv] delivers what it counts and
    no more than was asked for; [limit] signals interrupt [recv]. *)
Definition good_answer (limit : nat) (n : net) (c : syscall) (a : answer) : Prop :=
  match c with
  | sys_socket => ans_ret a = -1 \/ (0 <= ans_ret a < FD_SETSIZE /\ ans_ret a ∉ n_open n)
  | sys_accept _ => ans_ret a = -1 \/ (0 <= ans_ret a /\ ans_ret a ∉ n_open n)
  | sys_select _ fds => ans_fds a ⊆ fds
  | sys_recv _ k =>
      ans_ret a = 0 \/
      (ans_ret a = -1 /\ (ans_errno a = EINTR -> (n_interrupts n < limit)%nat)) \/
      (0 < ans_ret a <= k /\ Z.of_nat (length (ans_data a)) = ans_ret a)
  | _ => True
  end.

Definition kernel_ok (env : Environment) (limit : nat) : Prop := forall s c,
  good_answer limit (net_of s) c (respond (tcp_world s) c).

(** What the other threads do: no sockets; after [rounds] calls of [select]
    they have stopped the server. *)
Record net_others (rounds : nat) (n n' : net) : Prop := {
  no_open : n_open n' = n_open n;
  no_selects : (n_selects n <= n_selects n')%nat;
  no_interrupts : (n_interrupts n <= n_interrupts n')%nat;
  no_clients : n_clients n' = n_clients n;
  no_server : n_server n' = n_server n;
  no_running : (rounds <= n_selects n')%nat -> n_running n' = false;
}.

Definition others_ok `{!OtherThreads} (rounds : nat) : Prop :=
  forall s, net_others rounds (net_of s) (net_of (others s)).

Section Rules.
Context `{Environment} `{!OtherThreads} (limit rounds : nat)
  (Hkernel : kernel_ok _ limit) (Hothers : others_ok rounds).
Implicit Types (s : tcp_process) (n : net).

Lemma net_of_call c a s : net_of (s <| tcp_world := (c, a) :: tcp_world s |>) = net_call c a (net_of s).
Proof.
  unfold net_of, net_call. cbn [tcp_world this set_field tcp_process_fields].
  by rewrite calls_cons, succeeded_cons.
Qed.

Lemma wp_sys_net n c (Q : answer -> tcp_process -> Prop) s : net_of s = n ->
  (forall a s', good_answer limit n c a -> net_of s' = net_call c a n -> Q a s') ->
  wp (in_world (sys c)) Q s.
Proof using Hkernel.
  intros <- HQ. apply (wp_zoom tcp_world (fun w s => s <| tcp_world := w |>)), wp_sys, HQ; [apply Hkernel|].
  apply net_of_call.
Qed.

Lemma wp_waiting_net n c (Q : answer -> tcp_process -> Prop) s : net_of s = n ->
  (forall a s' n', good_answer limit n c a -> net_others rounds (net_call c a n) n' ->
     net_of s' = n' -> Q a s') ->
  wp (waiting c) Q s.
Proof using Hkernel Hothers.
  intros Hn HQ. eapply wp_bind, wp_sys_net; [exact Hn|]. intros a s' Ha Hs'.
  apply wp_bind, wp_modify, wp_ret. eapply HQ; [exact Ha| |reflexivity]. rewrite <- Hs'. apply Hothers.
Qed.

Lemma wp_blocking_net n c (Q : Z -> tcp_process -> Prop) s : net_of s = n ->
  (forall r s' n', (forall a, net_call c a n = n) -> net_others rounds n n' -> net_of s' = n' -> Q r s') ->
  (forall a, net_call c a n = n) -> wp (blocking c) Q s.
Proof using Hkernel Hothers.
  intros Hn HQ Hsame. eapply wp_bind, wp_waiting_net; [exact Hn|].
  intros a s' n' _ Ho Hs'. apply wp_ret. rewrite Hsame in Ho. by eapply HQ.
Qed.

Lemma wp_call_net n c (Q : Z -> tcp_process -> Prop) s : net_of s = n ->
  (forall a s', good_answer limit n c a -> net_of s' = net_call c a n -> Q (ans_ret a) s') ->
  wp (TcpServer.call c) Q s.
Proof using Hkernel.
  intros <- HQ. apply (wp_zoom tcp_world (fun w s => s <| tcp_world := w |>)), wp_sysr, HQ; [apply Hkernel|].
  apply net_of_call.
Qed.

Lemma wp_call_net_ n c (Q : unit -> tcp_process -> Prop) s : net_of s = n ->
  (forall a s', net_of s' = net_call c a n -> Q tt s') -> wp (call_ c) Q s.
Proof using Hkernel.
  intros <- HQ. apply (wp_zoom tcp_world (fun w s => s <| tcp_world := w |>)), wp_sys_.
  eapply HQ, net_of_call.
Qed.

Lemma wp_log_net n l f (Q : unit -> tcp_process -> Prop) s : net_of s = n ->
  (forall s', net_of s' = n -> Q tt s') -> wp (in_world (sys_ (sys_log l f))) Q s.
Proof using Hkernel.
  intros <- HQ. apply (wp_zoom tcp_world (fun w s => s <| tcp_world := w |>)), wp_sys_, HQ.
  by rewrite net_of_call.
Qed.

Lemma wp_field_net {A} (f : TcpServer -> A) (Q : A -> tcp_process -> Prop) s : Q (f (this s)) s ->
  wp (field f) Q s.
Proof. done. Qed.

Lemma wp_assign_net n f (Q : unit -> tcp_process -> Prop) s : net_of s = n ->
  (forall s', net_of s' = Net (n_open n) (n_selects n) (n_interrupts n)
     (clients_ (f (this s))) (server_socket_ (f (this s))) (running_ (f (this s))) -> Q tt s') ->
  wp (assign f) Q s.
Proof. intros <- HQ. by apply HQ. Qed.

Lemma net_fields n s : net_of s = n ->
  clients_ (this s) = n_clients n /\ server_socket_ (this s) = n_server n /\ running_ (this s) = n_running n.
Proof. by intros <-. Qed.

Lemma net_others_refl n : ((rounds <= n_selects n)%nat -> n_running n = false) -> net_others rounds n n.
Proof. by constructor. Qed.

Lemma net_others_trans n1 n2 n3 : net_others rounds n1 n2 -> net_others rounds n2 n3 -> net_others rounds n1 n3.
Proof. intros [] []. constructor; [congruence|lia|lia|congruence|congruence|done]. Qed.

(** ** Operations that leave the sockets alone *)
Definition quiet {A} (m : M tcp_process A) : Prop := forall n s,
  net_others rounds n (net_of s) -> wp m (fun _ s' => net_others rounds n (net_of s')) s.

Lemma quiet_ret {A} (a : A) : quiet (mret a).
Proof. by intros n s. Qed.

Lemma quiet_bind {A B} (m : M tcp_process A) (f : A -> M tcp_process B) :
  quiet m -> (forall a, quiet (f a)) -> quiet (m ≫= f).
Proof.
  intros Hm Hf n s Hs. apply wp_bind. eapply wp_mono; [by apply Hm|]. intros a s' Hs'. by apply Hf.
Qed.

Lemma quiet_if {A} (b : bool) (m1 m2 : M tcp_process A) : quiet m1 -> quiet m2 -> quiet (if b then m1 else m2).
Proof. by destruct b. Qed.

Lemma quiet_option {A B} (o : option A) (f : A -> M tcp_process B) m :
  quiet m -> (forall a, quiet (f a)) -> quiet (match o with Some a => f a | None => m end).
Proof. by destruct o. Qed.

Lemma quiet_log l f : quiet (in_world (sys_ (sys_log l f))).
Proof using Hkernel. intros n s Hs. eapply wp_log_net; [reflexivity|]. by intros s' ->. Qed.

Lemma quiet_field {A} (f : TcpServer -> A) : quiet (field f).
Proof. by intros n s. Qed.

Lemma quiet_call c : (forall n a, net_call c a n = n) -> quiet (TcpServer.call c).
Proof using Hkernel.
  intros Hc n s Hs. eapply wp_call_net; [reflexivity|]. intros a s' _ ->. by rewrite Hc.
Qed.

Lemma quiet_call_ c : (forall n a, net_call c a n = n) -> quiet (call_ c).
Proof using Hkernel.
  intros Hc n s Hs. eapply wp_call_net_; [reflexivity|]. intros a s' ->. by rewrite Hc.
Qed.

Lemma quiet_blocking c : (forall n a, net_call c a n = n) -> quiet (blocking c).
Proof using Hkernel Hothers.
  intros Hc n s Hs. eapply wp_blocking_net; [reflexivity| |by apply Hc].
  intros r s' n' _ Ho ->. by eapply net_others_trans.
Qed.

Lemma quiet_assign f :
  (forall o, clients_ (f o) = clients_ o /\ server_socket_ (f o) = server_socket_ o /\ running_ (f o) = running_ o) ->
  quiet (assign f).
Proof.
  intros Hf n s [H1 H2 H3 H4 H5 H6]. eapply wp_assign_net; [reflexivity|]. intros s' ->.
  destruct (Hf (this s)) as (-> & -> & ->). by constructor.
Qed.

(** Continue with the rest of an operation, which is quiet. *)
Lemma wp_quiet {A} (m : M tcp_process A) n (Q : A -> tcp_process -> Prop) s :
  quiet m -> net_others rounds n (net_of s) ->
  (forall a s', net_others rounds n (net_of s') -> Q a s') -> wp m Q s.
Proof. intros Hm Hs HQ. eapply wp_mono; [by apply Hm|]. done. Qed.
End Rules.

(** Prove that an operation is quiet, call by call. *)
Ltac quiet_step :=
  match goal with
  | |- quiet _ (mbind _ _) => apply quiet_bind; [|intros ?]
  | |- quiet _ (mret _) => apply quiet_ret
  | |- quiet _ (if _ then _ else _) => apply quiet_if
  | |- quiet _ (match _ with Some _ => _ | None => _ end) => apply quiet_option; [|intros ?]
  | |- quiet _ (log_info _) => eapply quiet_log; eassumption
  | |- quiet _ (log_error _) => eapply quiet_log; eassumption
  | |- quiet _ (field _) => apply quiet_field
  | |- quiet _ (TcpServer.call _) => eapply quiet_call; [eassumption|by intros []]
  | |- quiet _ (call_ _) => eapply quiet_call_; [eassumption|by intros []]
  | |- quiet _ (blocking _) => eapply quiet_blocking; [eassumption..|by intros []]
  | |- quiet _ (assign _) => apply quiet_assign; by intros []
  end.

(** ** Receiving *)
Section Receiving.
Context `{Environment} `{!OtherThreads} (limit rounds : nat)
  (Hkernel : kernel_ok _ limit) (Hothers : others_ok rounds).
Implicit Types (s : tcp_process) (n : net).

(** [recv] returns the whole request or gives up, within so many calls. *)
Lemma receive_bytes_quiet fuel fd received n s :
  net_others rounds n (net_of s) ->
  ((Z.to_nat sizeof_request - length received) + (limit - n_interrupts (net_of s)) < fuel)%nat ->
  wp (receive_bytes fuel fd received) (fun _ s' => net_others rounds n (net_of s')) s.
Proof using Hkernel Hothers.
  revert received s. induction fuel as [|fuel IH]; intros received s Hs Hfuel; [lia|].
  cbn [receive_bytes]. destruct (_ <? _) eqn:El; [apply Z.ltb_lt in El|by apply wp_ret].
  eapply wp_bind, wp_waiting_net; [eassumption..|reflexivity|]. intros a s' n' Ha Ho <-.
  pose proof (no_interrupts _ _ _ Ho) as Hi. cbn [net_call n_interrupts] in Hi.
  assert (net_others rounds n (net_of s')) as Hs'.
  { eapply net_others_trans; [exact Hs|]. destruct Ho as [O1 O2 O3 O4 O5 O6].
    cbn [net_call n_open n_selects n_interrupts n_clients n_server is_select] in *.
    constructor; [done|lia|lia|done|done|done]. }
  cbn [good_answer] in Ha. destruct (Z.eqb_spec (ans_ret a) 0) as [E0|E0].
  { apply wp_bind. eapply wp_mono; [by eapply quiet_log|]. intros _u s2 Hs2. by apply wp_ret. }
  destruct Ha as [?|[[E1 He]|[Hr Hl]]]; [done| |].
  - rewrite E1. cbn. destruct (Z.eqb_spec (ans_errno a) EINTR) as [E2|E2].
    + apply IH; [done|]. specialize (He E2). cbn [is_interrupted] in Hi.
      rewrite E1, E2 in Hi.
      change ((-1 =? -1) && (EINTR =? EINTR)) with true in Hi. cbv iota in Hi. lia.
    + apply wp_bind. eapply wp_mono; [by eapply quiet_log|]. intros _u s2 Hs2. by apply wp_ret.
  - destruct (Z.eqb_spec (ans_ret a) (-1)); [lia|]. apply IH; [done|].
    rewrite length_app, length_take. lia.
Qed.

Lemma receive_client_request_quiet fuel fd : (Z.to_nat sizeof_request + limit < fuel)%nat ->
  quiet rounds (receive_client_request fuel fd).
Proof using Hkernel Hothers.
  intros Hfuel. unfold receive_client_request. apply quiet_bind.
  - intros n s Hs. apply receive_bytes_quiet; [exact Hs|cbn [length]; lia].
  - intros received. repeat quiet_step.
Qed.
End Receiving.

(** Run the next operation, which is quiet, and keep what is known. *)
Ltac quietly Hs :=
  apply wp_bind; eapply wp_quiet; [by repeat quiet_step|exact Hs|]; clear Hs; intros ? ? Hs.

(** ** The table of clients *)
Definition with_clients (c : gmap Z tcp_client_t) (n : net) : net :=
  Net (n_open n) (n_selects n) (n_interrupts n) c (n_server n) (n_running n).

Section Clients.
Context `{Environment} `{!OtherThreads} (limit rounds : nat)
  (Hkernel : kernel_ok _ limit) (Hothers : others_ok rounds).
Implicit Types (s : tcp_process) (n : net).

(** Assigning the table. *)
Lemma wp_assign_clients f n (Q : unit -> tcp_process -> Prop) s : net_others rounds n (net_of s) ->
  (forall s', net_others rounds (with_clients (f (n_clients n)) n) (net_of s') -> Q tt s') ->
  wp (assign (fun o => o <| clients_ ::= f |>)) Q s.
Proof.
  intros [O1 O2 O3 O4 O5 O6] HQ. apply HQ. constructor; try done. cbn in *. by rewrite O4.
Qed.

(** The client may have been added, and has been when the result is [true]. *)
Definition added (fd : Z) n (b : bool) s : Prop :=
  (b = true -> (0 <= fd)%Z) /\
  (net_others rounds (with_clients (<[fd := TcpClient fd]> (n_clients n)) n) (net_of s) \/
   b = false /\ net_others rounds n (net_of s)).

Lemma add_client_spec fd n s : net_others rounds n (net_of s) ->
  wp (add_client fd) (added fd n) s.
Proof using Hkernel Hothers.
  intros Hs. unfold add_client, added. destruct (Z.ltb_spec fd 0) as [Hfd|Hfd].
  { quietly Hs. apply wp_ret. by split; [|right]. }
  quietly Hs. destruct (_ =? 0); cbn [negb]; [|quietly Hs; apply wp_ret; by split; [|right]].
  apply wp_bind, wp_field_net. destruct (clients_ _ !! fd).
  - do 3 quietly Hs. apply wp_ret. by split; [|right].
  - eapply wp_bind, wp_assign_clients; [exact Hs|]. clear s Hs. intros s Hs.
    quietly Hs. destruct (_ =? 0); cbn [negb]; quietly Hs; apply wp_ret; by split; [|left].
Qed.

(** The client has been removed, unless the lock failed. *)
Lemma remove_client_spec fd n s : net_others rounds n (net_of s) ->
  wp (remove_client fd) (fun _ s' =>
    net_others rounds (with_clients (delete fd (n_clients n)) n) (net_of s') \/
    net_others rounds n (net_of s')) s.
Proof using Hkernel Hothers.
  intros Hs. unfold remove_client.
  quietly Hs. destruct (_ =? 0); cbn [negb].
  2: { eapply wp_quiet; [by repeat quiet_step|exact Hs|]. auto. }
  apply wp_bind, wp_field_net. generalize (clients_ (this s) !! fd). intros o.
  eapply wp_bind, wp_assign_clients; [exact Hs|]. clear s Hs. intros s Hs.
  eapply wp_quiet; [by repeat quiet_step|exact Hs|]. auto.
Qed.
End Clients.

(** ** The monitored descriptors *)

(** [m] is what the loop monitors: the listening socket and sockets of the
    table, all of them open and in the range of a descriptor set, of which
    [maximum_socket_descriptor] is the greatest; [base] was open before.
    [select] was called [k] times. *)
Record watching (rounds : nat) (base : gset Z) (server : Z) (k : nat) (m : monitored) (n : net) : Prop := {
  w_server : n_server n = server;
  w_listening : server ∈ master_socket_set m;
  w_range : forall fd, fd ∈ master_socket_set m -> 0 <= fd < FD_SETSIZE;
  w_maximum : maximum_socket_descriptor m ∈ master_socket_set m;
  w_greatest : forall fd, fd ∈ master_socket_set m -> fd <= maximum_socket_descriptor m;
  w_open : n_open n = base ∪ master_socket_set m;
  w_base : base ## master_socket_set m;
  w_clients : forall fd, fd ∈ master_socket_set m -> fd <> server -> is_Some (n_clients n !! fd);
  w_selects : (k <= n_selects n)%nat;
  w_stop : (rounds <= n_selects n)%nat -> n_running n = false;
}.

Lemma lower_maximum_spec fuel maximum (set : gset Z) :
  (Z.to_nat (maximum + 1) <= fuel)%nat -> (exists fd, fd ∈ set) ->
  (forall fd, fd ∈ set -> 0 <= fd <= maximum) ->
  lower_maximum fuel maximum set ∈ set /\ forall fd, fd ∈ set -> fd <= lower_maximum fuel maximum set.
Proof.
  revert maximum. induction fuel as [|fuel IH]; intros maximum Hfuel [x Hx] Hset.
  - specialize (Hset x Hx). lia.
  - cbn [lower_maximum]. unfold FD_ISSET. destruct (decide (maximum ∈ set)) as [Hm|Hm].
    + rewrite bool_decide_eq_true_2, andb_false_r by done. split; [done|]. intros fd Hfd. by apply Hset.
    + rewrite bool_decide_eq_false_2 by done. pose proof (Hset x Hx) as Hbound.
      rewrite (proj2 (Z.leb_le _ _)) by lia. cbn [andb negb].
      apply IH; [lia|by exists x|]. intros fd Hfd. specialize (Hset fd Hfd).
      assert (fd <> maximum) by congruence. lia.
Qed.

Section Watching.
Context `{Environment} `{!OtherThreads} (limit rounds : nat)
  (Hkernel : kernel_ok _ limit) (Hothers : others_ok rounds) (base : gset Z) (server : Z).
Implicit Types (s : tcp_process) (n : net) (m : monitored).

Abbreviation watch := (watching rounds base server).

Lemma watching_others k m n n' : watch k m n -> net_others rounds n n' -> watch k m n'.
Proof.
  intros [W1 W2 W3 W4 W5 W6 W7 W8 W9 W10] [O1 O2 O3 O4 O5 O6].
  constructor; [congruence|done|done|done|done|congruence|done|by rewrite O4|lia|done].
Qed.

Lemma watching_self k m n : watch k m n -> net_others rounds n n.
Proof. intros Hw. apply net_others_refl, Hw. Qed.

(** A quiet operation. *)
Lemma wp_watch {A} (x : M tcp_process A) k m (Q : A -> tcp_process -> Prop) s :
  quiet rounds x -> watch k m (net_of s) ->
  (forall a s', watch k m (net_of s') -> Q a s') -> wp x Q s.
Proof.
  intros Hx Hw HQ. eapply wp_quiet; [exact Hx|by eapply watching_self|].
  intros a s' Hs'. apply HQ. by eapply watching_others.
Qed.

(** The state with one more socket open. *)
Definition opened (fd : Z) n : net :=
  Net ({[fd]} ∪ n_open n) (n_selects n) (n_interrupts n) (n_clients n) (n_server n) (n_running n).

(** Closing a socket that was accepted and is not monitored. *)
Lemma close_accepted k m fd n cl s : fd ∉ n_open n -> watch k m n ->
  (forall x, is_Some (n_clients n !! x) -> is_Some (cl !! x)) ->
  net_others rounds (with_clients cl (opened fd n)) (net_of s) ->
  wp (call_ (sys_close fd)) (fun _ s' => watch k m (net_of s')) s.
Proof using Hkernel Hothers.
  intros Hfd [W1 W2 W3 W4 W5 W6 W7 W8 W9 W10] Hc [O1 O2 O3 O4 O5 O6].
  cbn [n_open n_selects n_interrupts n_clients n_server n_running with_clients opened] in *.
  eapply wp_call_net_; [eassumption|reflexivity|]. intros a s' ->.
  constructor; cbn [net_call n_open n_selects n_interrupts n_clients n_server n_running is_select];
    try done; try congruence; try lia.
  - rewrite O1, <- W6. set_solver.
  - intros x Hx Hne. rewrite O4. apply Hc. by apply W8.
Qed.

(** Monitoring it. *)
Lemma watch_accepted k m fd n s : fd ∉ n_open n -> 0 <= fd < FD_SETSIZE -> watch k m n ->
  net_others rounds (with_clients (<[fd := TcpClient fd]> (n_clients n)) (opened fd n)) (net_of s) ->
  watch k (Monitored ({[fd]} ∪ master_socket_set m) (Z.max fd (maximum_socket_descriptor m))) (net_of s).
Proof using Hkernel Hothers.
  intros Hfd Hr [W1 W2 W3 W4 W5 W6 W7 W8 W9 W10] [O1 O2 O3 O4 O5 O6].
  cbn [n_open n_selects n_interrupts n_clients n_server n_running with_clients opened] in *.
  constructor; cbn [master_socket_set maximum_socket_descriptor]; try done; try congruence; try lia.
  - set_solver.
  - intros x [->%elem_of_singleton|Hx]%elem_of_union; [done|by apply W3].
  - apply elem_of_union. destruct (Z.max_spec fd (maximum_socket_descriptor m)) as [[_ ->]|[_ ->]];
      [by right|left; by apply elem_of_singleton].
  - intros x [->%elem_of_singleton|Hx]%elem_of_union; [lia|]. specialize (W5 x Hx). lia.
  - rewrite O1, W6. set_solver.
  - set_solver.
  - intros x [->%elem_of_singleton|Hx]%elem_of_union Hne; rewrite O4.
    + rewrite lookup_insert_eq. eauto.
    + destruct (decide (x = fd)) as [->|]; [rewrite lookup_insert_eq; eauto|].
      rewrite lookup_insert_ne by done. by apply W8.
Qed.

Lemma accept_client_spec k m s : watch k m (net_of s) ->
  wp (accept_client m) (fun m' s' => watch k m' (net_of s') /\
    master_socket_set m ⊆ master_socket_set m') s.
Proof using Hkernel Hothers.
  intros Hw. unfold accept_client. apply wp_bind, wp_field_net.
  eapply wp_bind, wp_waiting_net; [eassumption..|reflexivity|]. intros a s1 n1 Ha Ho <-.
  cbn [good_answer] in Ha. unfold net_call in Ho. cbn [is_select is_interrupted] in Ho.
  destruct (Z.eqb_spec (ans_ret a) (-1)) as [E|E].
  { apply wp_bind. eapply wp_watch; [by repeat quiet_step|eapply watching_others; [exact Hw|exact Ho]|].
    intros _u s2 Hs2. by apply wp_ret. }
  destruct Ha as [?|[Hpos Hfresh]]; [done|].
  change (Net _ _ _ _ _ _) with (opened (ans_ret a) (net_of s)) in Ho.
  revert Hpos Hfresh Ho. generalize (ans_ret a) (net_of s) Hw. clear a E s Hw.
  intros fd n Hw Hpos Hfresh Ho. destruct (Z.leb_spec FD_SETSIZE fd) as [Hbig|Hsmall].
  { quietly Ho. apply wp_bind. eapply wp_mono; [eapply close_accepted; [done|exact Hw| |exact Ho]; done|].
    intros _u s2 Hs2. by apply wp_ret. }
  do 2 quietly Ho. apply wp_bind. eapply wp_mono; [eapply add_client_spec; [eassumption..|exact Ho]|].
  intros b s2 [_ Hadd]. destruct b; cbn [negb].
  - destruct Hadd as [Hadd|[? _]]; [|done]. cbn [n_clients opened] in Hadd.
    apply wp_bind. unfold FD_SET. rewrite (proj2 (Z.leb_le 0 fd)), (proj2 (Z.ltb_lt _ _)) by lia.
    cbn [andb]. apply wp_ret. quietly Hadd. apply wp_ret.
    split; [by apply (watch_accepted k m fd n)|]. cbn. set_solver.
  - assert (exists cl, (forall x, is_Some (n_clients n !! x) -> is_Some (cl !! x)) /\
      net_others rounds (with_clients cl (opened fd n)) (net_of s2)) as (cl & Hcl & Ho2).
    { destruct Hadd as [Hadd|[_ Hadd]]; [|by exists (n_clients n)].
      eexists. split; [|exact Hadd]. cbn. intros x Hx. by apply lookup_insert_is_Some'; right. }
    quietly Ho2. apply wp_bind. eapply wp_mono; [by eapply close_accepted|].
    intros _u s4 Hs4. by apply wp_ret.
Qed.

(** Serving a monitored client. *)
Lemma serve_client_spec k m fuel fd s : (Z.to_nat sizeof_request + limit < fuel)%nat ->
  fd ∈ master_socket_set m -> fd <> server -> watch k m (net_of s) ->
  wp (serve_client fuel fd m) (fun m' s' => watch k m' (net_of s') /\
    forall x, x ∈ master_socket_set m -> x <> fd -> x ∈ master_socket_set m') s.
Proof using Hkernel Hothers.
  intros Hfuel Hfd Hne Hw. unfold serve_client. apply wp_bind.
  eapply wp_watch; [by eapply receive_client_request_quiet|exact Hw|]. clear s Hw. intros b s Hw.
  destruct b; [by apply wp_ret|]. apply wp_bind.
  eapply wp_watch; [by eapply quiet_log|exact Hw|]. clear s Hw. intros _u s Hw. apply wp_bind.
  eapply wp_mono; [eapply remove_client_spec; [eassumption..|by eapply watching_self]|].
  intros _v s1 Hr.
  assert (exists cl, (forall x, x <> fd -> is_Some (n_clients (net_of s) !! x) -> is_Some (cl !! x)) /\
      net_others rounds (with_clients cl (net_of s)) (net_of s1)) as (cl & Hcl & Ho).
  { destruct Hr as [Hr|Hr]; [|by exists (n_clients (net_of s))].
    eexists. split; [|exact Hr]. intros x Hx Hsome. by rewrite lookup_delete_ne. }
  clear Hr. eapply wp_bind, wp_call_net_; [eassumption|reflexivity|]. intros a s2 Es2. apply wp_ret.
  destruct Hw as [W1 W2 W3 W4 W5 W6 W7 W8 W9 W10]. destruct Ho as [O1 O2 O3 O4 O5 O6].
  cbn [n_open n_selects n_interrupts n_clients n_server n_running with_clients] in *.
  assert (server ∈ FD_CLR fd (master_socket_set m)) as Hserver by (unfold FD_CLR; set_solver).
  assert ((if fd =? maximum_socket_descriptor m
           then lower_maximum (Z.to_nat (maximum_socket_descriptor m + 1)) (maximum_socket_descriptor m)
                  (FD_CLR fd (master_socket_set m))
           else maximum_socket_descriptor m) ∈ FD_CLR fd (master_socket_set m) /\
    forall x, x ∈ FD_CLR fd (master_socket_set m) ->
      x <= if fd =? maximum_socket_descriptor m
           then lower_maximum (Z.to_nat (maximum_socket_descriptor m + 1)) (maximum_socket_descriptor m)
                  (FD_CLR fd (master_socket_set m))
           else maximum_socket_descriptor m) as [Hmax Hgreat].
  { destruct (Z.eqb_spec fd (maximum_socket_descriptor m)) as [E|E].
    - apply lower_maximum_spec; [lia|by exists server|]. intros x Hx. unfold FD_CLR in Hx.
      apply elem_of_difference in Hx as [Hx _]. split; [by apply W3|by apply W5].
    - unfold FD_CLR. split; [set_solver|]. intros x Hx. apply W5. set_solver. }
  split; [|cbn; unfold FD_CLR; set_solver]. rewrite Es2.
  constructor; cbn [master_socket_set maximum_socket_descriptor net_call n_open n_selects n_clients n_server
    n_running is_select]; try done; try congruence; try lia.
  - intros x Hx. apply W3. unfold FD_CLR in Hx. set_solver.
  - rewrite O1, W6. unfold FD_CLR. set_solver.
  - unfold FD_CLR. set_solver.
  - intros x Hx Hxs. rewrite O4. unfold FD_CLR in Hx. apply Hcl; [set_solver|]. apply W8; set_solver.
Qed.

Lemma check_descriptors_spec steps k fuel fd ready m s :
  (Z.to_nat sizeof_request + limit < fuel)%nat -> 0 <= fd -> FD_SETSIZE < Z.of_nat steps + fd ->
  (forall x, x ∈ ready -> fd <= x -> x ∈ master_socket_set m) -> watch k m (net_of s) ->
  wp (check_descriptors steps fuel fd ready m) (fun m' s' => watch k m' (net_of s')) s.
Proof using Hkernel Hothers.
  intros Hfuel. revert fd m s. induction steps as [|steps IH]; intros fd m s Hfd Hsteps Hready Hw;
    cbn [check_descriptors].
  { pose proof (w_range _ _ _ _ _ _ Hw _ (w_maximum _ _ _ _ _ _ Hw)).
    destruct (Z.leb_spec fd (maximum_socket_descriptor m)); [lia|by apply wp_ret]. }
  destruct (Z.leb_spec fd (maximum_socket_descriptor m)) as [Hle|Hgt]; [|by apply wp_ret].
  apply wp_bind. unfold FD_ISSET. destruct (decide (fd ∈ ready)) as [Hin|Hin].
  - rewrite bool_decide_eq_true_2 by done. cbn [negb]. apply wp_bind, wp_field_net.
    destruct (net_fields (net_of s) s eq_refl) as (_ & -> & _). rewrite (w_server _ _ _ _ _ _ Hw).
    destruct (Z.eqb_spec fd server) as [->|Hne].
    + eapply wp_mono; [by apply accept_client_spec|]. intros m' s' [Hw' Hsub].
      apply IH; [lia|lia| |done]. intros x Hx Hge. apply Hsub, Hready; [done|lia].
    + eapply wp_mono; [apply serve_client_spec; [done|apply Hready; [done|lia]|done|exact Hw]|].
      intros m' s' [Hw' Hsub]. apply IH; [lia|lia| |done].
      intros x Hx Hge. apply Hsub; [apply Hready; [done|lia]|lia].
  - rewrite bool_decide_eq_false_2 by done. cbn [negb]. apply wp_ret.
    apply IH; [lia|lia| |done]. intros x Hx Hge. apply Hready; [done|].
    assert (x <> fd) by congruence. lia.
Qed.

(** A round of the loop: [select] was called once more. *)
Lemma select_round_spec fuel k m s :
  (Z.to_nat sizeof_request + limit < fuel)%nat -> watch k m (net_of s) ->
  wp (select_round fuel m) (fun r s' => watch (S k) r.2 (net_of s')) s.
Proof using Hkernel Hothers.
  intros Hfuel Hw. unfold select_round.
  eapply wp_bind, wp_waiting_net; [eassumption..|reflexivity|]. intros a s1 n1 Ha Ho <-.
  cbn [good_answer] in Ha.
  assert (watch (S k) m (net_of s1)) as Hw1.
  { destruct Hw as [W1 W2 W3 W4 W5 W6 W7 W8 W9 W10], Ho as [O1 O2 O3 O4 O5 O6].
    cbn [net_call n_open n_selects n_interrupts n_clients n_server n_running is_select] in *.
    constructor; try done; try congruence; try lia. by rewrite O4. }
  destruct (ans_ret a =? -1).
  - destruct (ans_errno a =? EINTR); [by apply wp_ret|].
    apply wp_bind. eapply wp_watch; [by eapply quiet_log|exact Hw1|]. intros _u s2 Hw2.
    apply wp_bind, wp_assign_net with (n := net_of s2); [done|]. intros s3 Es3. apply wp_ret. cbn [snd].
    rewrite Es3. destruct Hw2 as [W1 W2 W3 W4 W5 W6 W7 W8 W9 W10]. by constructor.
  - apply wp_bind. eapply wp_mono; [eapply check_descriptors_spec; [done|done| |exact (fun x Hx _ => Ha x Hx)|exact Hw1]|].
    { done. }
    intros m' s2 Hw2. by apply wp_ret.
Qed.

Lemma select_loop_spec fuel k m s :
  (Z.to_nat sizeof_request + limit + rounds < fuel + k)%nat -> watch k m (net_of s) ->
  wp (select_loop fuel m) (fun m' s' => exists k, watch k m' (net_of s')) s.
Proof using Hkernel Hothers.
  revert k m s. induction fuel as [|fuel IH]; intros k m s Hfuel Hw; cbn [select_loop];
    apply wp_bind, wp_field_net; destruct (net_fields (net_of s) s eq_refl) as (_ & _ & ->);
    pose proof (w_stop _ _ _ _ _ _ Hw) as Hstop; pose proof (w_selects _ _ _ _ _ _ Hw) as Hk;
    (destruct (n_running (net_of s)); cbn [negb]; [|apply wp_ret; by exists k]);
    (assert (n_selects (net_of s) < rounds)%nat as Hlt
      by (destruct (decide (rounds <= n_selects (net_of s))%nat) as [Hge|]; [by specialize (Hstop Hge)|lia])).
  - lia.
  - apply wp_bind. eapply wp_mono; [apply (select_round_spec fuel k); [lia|exact Hw]|].
    intros [again m'] s' Hw'. cbn [snd] in Hw'. destruct again; [|apply wp_ret; by exists (S k)].
    apply (IH (S k)); [lia|exact Hw'].
Qed.

(** Closing the clients: from [fd] on they are all closed. *)
Lemma close_clients_spec steps fd (set rest : gset Z) s :
  n_server (net_of s) = server ->
  n_open (net_of s) = rest ∪ filter (fun x => fd <= x /\ x <> server) set ->
  rest ## filter (fun x => fd <= x /\ x <> server) set ->
  (forall x, x ∈ set -> x < fd + Z.of_nat steps) ->
  wp (close_clients steps fd server set) (fun _ s' =>
    n_open (net_of s') = rest /\ n_server (net_of s') = server) s.
Proof using Hkernel Hothers.
  revert fd s. induction steps as [|steps IH]; intros fd s Hs Ho Hd Hset; cbn [close_clients].
  - apply wp_ret. split; [|done]. rewrite Ho.
    assert (filter (fun x => fd <= x /\ x <> server) set = ∅) as ->; [|set_solver].
    apply set_eq. intros x. rewrite elem_of_filter. split; [|set_solver]. intros [[H1 _] Hx].
    specialize (Hset x Hx). lia.
  - assert (forall x, x ∈ set -> x < fd + 1 + Z.of_nat steps) as Hset'
      by (intros x Hx; specialize (Hset x Hx); lia).
    assert (forall x, fd + 1 <= x -> fd <= x) as Hnext by lia.
    unfold FD_ISSET. destruct (decide (fd <> server /\ fd ∈ set)) as [[Hne Hin]|Hno].
    + rewrite (proj2 (Z.eqb_neq _ _) Hne), bool_decide_eq_true_2 by done. cbn [negb andb].
      apply wp_bind. eapply wp_bind, wp_call_net_; [eassumption|reflexivity|]. intros a s1 Hs1.
      eapply wp_call_net_; [eassumption|exact Hs1|]. intros b s2 Hs2.
      assert (fd ∉ rest) as Hrest.
      { intros Hx. apply (Hd fd Hx). apply elem_of_filter. split; [lia|done]. }
      apply IH; rewrite ?Hs2; cbn [net_call n_open n_server]; [done| | |exact Hset'].
      * rewrite Ho. apply set_eq. intros x. rewrite elem_of_difference, !elem_of_union, !elem_of_filter, elem_of_singleton.
        split; [intros [[Hx|[[Hx1 Hx2] Hx3]] Hx4]; [by left|right; split; [lia|done]]|].
        intros [Hx|[[Hx1 Hx2] Hx3]]; (split; [|intros ->; done || lia]); [by left|right; split; [lia|done]].
      * set_solver.
    + assert (negb (fd =? server) && bool_decide (fd ∈ set) = false) as ->.
      { destruct (Z.eqb_spec fd server); [done|]. cbn. apply bool_decide_eq_false. tauto. }
      apply wp_bind, wp_ret. apply IH; [done| |set_solver|exact Hset'].
      rewrite Ho. apply set_eq. intros x. rewrite !elem_of_union, !elem_of_filter.
      split; (intros [Hx|[[Hx1 Hx2] Hx3]]; [by left|right]); [|split; [lia|done]].
      split; [|done]. split; [|done]. destruct (decide (x = fd)) as [->|]; [tauto|lia].
Qed.

(** The listening socket, with the state before it was obtained. *)
Definition listening (fd : Z) n : net :=
  Net ({[fd]} ∪ n_open n) (n_selects n) (n_interrupts n) (n_clients n) fd (n_running n).

Lemma close_server_socket_spec fd n s : net_of s = listening fd n -> fd ∉ n_open n ->
  wp close_server_socket (fun _ s' => n_open (net_of s') = n_open n /\ n_server (net_of s') = -1) s.
Proof using Hkernel Hothers.
  intros Hs Hfd. unfold close_server_socket. apply wp_bind, wp_field_net.
  destruct (net_fields _ s Hs) as (_ & -> & _). cbn [n_server listening].
  eapply wp_bind, wp_call_net_; [eassumption|exact Hs|]. intros a s1 Hs1.
  eapply wp_bind, wp_assign_net; [exact Hs1|]. intros s2 Hs2.
  eapply wp_assign_net; [exact Hs2|]. intros s3 ->. cbn [n_open n_server net_call listening].
  destruct (net_fields _ s2 Hs2) as (_ & E & _). split; [set_solver|exact E].
Qed.

(** A step of [open_server_socket] that does not fail changes nothing more. *)
Lemma listening_call c fd n (Q : Z -> tcp_process -> Prop) s : net_of s = listening fd n ->
  (forall n a, net_call c a n = n) -> (forall r s', net_of s' = listening fd n -> Q r s') ->
  wp (TcpServer.call c) Q s.
Proof using Hkernel Hothers.
  intros Hs Hc HQ. eapply wp_call_net; [eassumption|exact Hs|]. intros a s' _ Hs'. apply HQ.
  by rewrite Hs', Hc.
Qed.

Lemma listening_log l f fd n (Q : unit -> tcp_process -> Prop) s : net_of s = listening fd n ->
  (forall s', net_of s' = listening fd n -> Q tt s') -> wp (in_world (sys_ (sys_log l f))) Q s.
Proof using Hkernel Hothers. intros Hs HQ. eapply wp_log_net; [eassumption|exact Hs|exact HQ]. Qed.

(** A failure after the socket was obtained. *)
Lemma listening_fails l f fd n s : net_of s = listening fd n -> fd ∉ n_open n -> 0 <= fd < FD_SETSIZE ->
  wp (in_world (sys_ (sys_log l f));; close_server_socket;; mret false) (fun b s' =>
    if b then exists fd, 0 <= fd < FD_SETSIZE /\ (fd ∉ n_open n) /\ net_of s' = listening fd n
    else n_open (net_of s') = n_open n /\ n_server (net_of s') = -1) s.
Proof using Hkernel Hothers.
  intros Hs Hfd Hr. eapply wp_bind, listening_log; [exact Hs|]. intros s1 Hs1. apply wp_bind.
  eapply wp_mono; [by eapply close_server_socket_spec|]. intros _u s2 H2. by apply wp_ret.
Qed.

(** Either the listening socket is the only new descriptor, or nothing is left
    of it. *)
Lemma open_server_socket_spec s :
  wp open_server_socket (fun b s' =>
    if b then exists fd, 0 <= fd < FD_SETSIZE /\ (fd ∉ n_open (net_of s)) /\ net_of s' = listening fd (net_of s)
    else n_open (net_of s') = n_open (net_of s) /\ n_server (net_of s') = -1) s.
Proof using Hkernel Hothers.
  unfold open_server_socket. eapply wp_bind, wp_call_net; [eassumption|reflexivity|].
  intros a s1 Ha Hs1. cbn [good_answer] in Ha.
  eapply wp_bind, wp_assign_net; [exact Hs1|]. intros s2 Hs2.
  destruct (net_fields _ s1 Hs1) as (Ec & _ & Er). cbn in Hs2. rewrite Ec, Er in Hs2.
  cbn [net_call n_clients n_running] in Hs2.
  destruct (Z.eqb_spec (ans_ret a) (-1)) as [E|E].
  { eapply wp_bind, wp_log_net; [eassumption|exact Hs2|]. intros s3 Hs3.
    eapply wp_bind, wp_assign_net; [exact Hs3|]. intros s4 Hs4. apply wp_ret. rewrite Hs4.
    destruct (net_fields _ s3 Hs3) as (_ & E3 & _). cbn. split; [done|]. by rewrite E3. }
  destruct Ha as [?|[Hr Hfresh]]; [done|].
  change (net_of s2 = listening (ans_ret a) (net_of s)) in Hs2. revert Hr Hfresh Hs2.
  generalize (ans_ret a) (net_of s). clear s s1 a Hs1 Ec Er E. intros fd n Hr Hfresh Hs2.
  eapply wp_bind, listening_log; [exact Hs2|]. clear s2 Hs2. intros s Hs.
  eapply wp_bind, listening_call; [exact Hs|by intros []|]. clear s Hs. intros r s Hs.
  destruct (r =? -1); [by eapply listening_fails|]. apply wp_bind, wp_field_net.
  eapply wp_bind, listening_call; [exact Hs|by intros []|]. clear r s Hs. intros r s Hs.
  destruct (r =? -1); [by eapply listening_fails|].
  eapply wp_bind, listening_log; [exact Hs|]. clear s Hs. intros s Hs. apply wp_bind, wp_field_net.
  eapply wp_bind, listening_call; [exact Hs|by intros []|]. clear r s Hs. intros r s Hs.
  destruct (r =? -1); [by eapply listening_fails|].
  eapply wp_bind, listening_log; [exact Hs|]. intros s' Hs'. apply wp_ret. by exists fd.
Qed.

End Watching.

(** C14: the thread of the TCP server.  With a kernel that behaves as POSIX
    documents, signals that interrupt [recv] at most [limit] times, and other
    threads that stop the server within [rounds] calls of [select], the thread
    terminates, and by then every socket it obtained is closed: the open
    sockets are those that were open before it started, whatever clients
    connect, send and disconnect, and whichever calls fail. *)
Theorem tcp_server_closes_sockets `{Environment} `{!OtherThreads} (limit rounds fuel : nat) (s : tcp_process) :
  kernel_ok _ limit -> others_ok rounds ->
  (S (Z.to_nat sizeof_request) + limit + rounds < fuel)%nat ->
  ((rounds <= n_selects (net_of s))%nat -> running_ (this s) = false) ->
  wp (tcp_server_loop fuel) (fun _ s' =>
    open_fds (tcp_world s') = open_fds (tcp_world s) /\ server_socket_ (this s') = -1) s.
Proof.
  intros Hkernel Hothers Hfuel Hstop. unfold tcp_server_loop.
  change (open_fds (tcp_world s)) with (n_open (net_of s)). change (running_ (this s)) with (n_running (net_of s)) in Hstop.
  eapply wp_bind, wp_log_net; [eassumption|reflexivity|]. intros s1 Hs1. rewrite <- Hs1 in Hstop |- *.
  clear s Hs1. apply wp_bind. eapply wp_mono; [by eapply open_server_socket_spec|].
  intros [] s2; [|intros [Ho Hsrv]; by apply wp_ret]. intros (fd & Hr & Hfresh & Hs2). cbn [negb].
  apply wp_bind, wp_field_net. destruct (net_fields _ s2 Hs2) as (_ & -> & _). cbn [n_server listening].
  apply wp_bind. unfold FD_SET. rewrite (proj2 (Z.leb_le 0 fd)), (proj2 (Z.ltb_lt _ _)) by lia.
  cbn [andb]. apply wp_ret, wp_bind.
  eapply wp_mono; [eapply (select_loop_spec limit rounds Hkernel Hothers (n_open (net_of s1)) fd fuel
    (n_selects (net_of s1)))|].
  - lia.
  - rewrite Hs2. constructor; cbn; try done; try set_solver by lia.
    all: try (intros x Hx; assert (x = fd) as -> by set_solver; lia).
  - intros m s3 (k & [W1 W2 W3 W4 W5 W6 W7 W8 W9 W10]). apply wp_bind, wp_field_net.
    destruct (net_fields _ s3 eq_refl) as (_ & -> & _). rewrite W1. apply wp_bind.
    eapply wp_mono; [apply (close_clients_spec limit rounds Hkernel Hothers fd _ 0 (master_socket_set m)
      ({[fd]} ∪ n_open (net_of s1)))|]; [done| | | |].
    + rewrite W6. apply set_eq. intros x.
      rewrite !elem_of_union, elem_of_filter, elem_of_singleton.
      destruct (decide (x = fd)) as [->|Hx]; [set_solver|].
      split; [intros [H1|H1]; [tauto|right; split; [split; [by apply W3|done]|done]]|set_solver].
    + intros x [->%elem_of_singleton|Hx]%elem_of_union Hf; apply elem_of_filter in Hf; set_solver.
    + intros x Hx. specialize (W5 x Hx). specialize (W3 _ W4). lia.
    + intros _u s4 [Ho4 Hs4]. rewrite (proj2 (Z.eqb_neq fd (-1))) by lia. cbn [negb].
      eapply wp_bind, wp_bind, wp_call_net_; [eassumption|reflexivity|]. intros a s5 Hs5.
      eapply wp_assign_net; [exact Hs5|]. intros s6 Hs6. eapply wp_log_net; [eassumption|exact Hs6|].
      intros s7 Hs7. change (open_fds (tcp_world s7)) with (n_open (net_of s7)).
      change (server_socket_ (this s7)) with (n_server (net_of s7)). rewrite Hs7.
      cbn [n_open n_server net_call]. rewrite Ho4. split; [set_solver|done].
Qed.
