(* ===== verification/TcpLife.v ===== *)
(** TcpLife: the TcpServer from start to end: it gives up waiting for the
    segment, starts and joins its threads, and gives back everything it
    obtained, nothing twice; under which behaviour of its threads it ends, and
    how a start that fails half way keeps it from ending. *)

From stdpp Require Import gmultiset.
From S2P Require Import Prelude Machine CLib Posix Config Logger IpcProtocol SharedMemory SharedQueue Resources TcpServer.

#[local] Arguments gmultiset_disj_union : simpl never.
#[local] Arguments gmultiset_difference : simpl never.
#[local] Arguments gmultiset_singleton : simpl never.

(** ** Time *)

(** The clock has reached this time, in nanoseconds, after these calls. *)
Fixpoint clock_floor (w : world) : Z :=
  match w with
  | [] => 0
  | (sys_clock, a) :: _ => ans_ret a
  | (sys_sleep ms, _) :: w => clock_floor w + ms * 1000000
  | _ :: w => clock_floor w
  end.

(** [steady_clock] does not go back, and [sleep_for] takes at least as long as
    it was asked to. *)
Definition steady (env : Environment) : Prop := forall w, clock_floor w <= ans_ret (respond w sys_clock).

Definition is_sleep (c : syscall) : bool := match c with sys_sleep _ => true | _ => false end.

(** ** The part of a state these theorems speak about *)
Record kept := Kept {
  k_shared_memory : option SharedMemory;
  k_request_queue : option SharedQueue;
  k_response_queue : option SharedQueue;
  k_header : option Z;
  k_condition : bool;
  k_request_mutex : bool;
  k_clients_mutex : bool;
}.
Definition kept_of (o : TcpServer) : kept :=
  Kept (shared_memory_ o) (tcp_to_database_queue_ o) (database_to_tcp_queue_ o) (ipc_header_ o)
    (request_queue_condition_initialized_ o) (request_queue_mutex_initialized_ o) (clients_mutex_initialized_ o).

(** Resources, time and sleeps so far. *)
Record tally := Tally { t_own : gmultiset resource; t_floor : Z; t_sleeps : nat }.

Record world_at (t : tally) (w : world) : Prop := {
  wa_owned : owned w = Some (t_own t);
  wa_floor : t_floor t <= clock_floor w;
  wa_sleeps : (t_sleeps t <= calls is_sleep w)%nat;
}.

Record at_ (t : tally) (log : Z) (k : kept) (s : tcp_process) : Prop := {
  at_world : world_at t (tcp_world s);
  at_length : length (tcp_segment s) = Z.to_nat IPC_SHARED_MEMORY_SIZE;
  at_log : tcp_log_fd s = log;
  at_kept : kept_of (this s) = k;
}.

(** The readiness flags of the segment. *)
Definition announced (m : list byte) : Prop :=
  mem_read m (Z.to_nat tcp_to_database_queue_ready) 4 = Some (le_bytes 4 READY) /\
  mem_read m (Z.to_nat database_to_tcp_queue_ready) 4 = Some (le_bytes 4 READY).

(** What the other threads and processes do: the workers leave the resources
    to the main thread, time passes, and Database announces its queues after
    [n] sleeps at most. *)
Record start_others `{!OtherThreads} (n : nat) : Prop := {
  so_owned : forall s, owned (tcp_world (others s)) = owned (tcp_world s);
  so_floor : forall s, clock_floor (tcp_world s) <= clock_floor (tcp_world (others s));
  so_sleeps : forall s, (calls is_sleep (tcp_world s) <= calls is_sleep (tcp_world (others s)))%nat;
  so_length : forall s, length (tcp_segment (others s)) = length (tcp_segment s);
  so_log : forall s, tcp_log_fd (others s) = tcp_log_fd s;
  so_kept : forall s, kept_of (this (others s)) = kept_of (this s);
  so_announced : forall s, length (tcp_segment s) = Z.to_nat IPC_SHARED_MEMORY_SIZE ->
    (n <= calls is_sleep (tcp_world s))%nat -> announced (tcp_segment (others s));
}.

Definition tally_call (c : syscall) (a : answer) (t : tally) : option tally :=
  own ← account c a (t_own t);
  Some (Tally own
    (match c with sys_clock => ans_ret a | sys_sleep ms => t_floor t + ms * 1000000 | _ => t_floor t end)
    ((if is_sleep c then 1 else 0) + t_sleeps t)).

Definition sound_answer (c : syscall) (a : answer) (t : tally) : Prop :=
  match c with
  | sys_shmat _ => ans_ret a <> nullptr
  | sys_clock => t_floor t <= ans_ret a
  | _ => True
  end.

(** A call can be made, and its continuation can be run, from a tally. *)
Definition after (c : syscall) (t : tally) (P : answer -> tally -> Prop) : Prop :=
  forall a, sound_answer c a t -> match tally_call c a t with Some t' => P a t' | None => False end.

Section Rules.
Context `{Environment} (Hsteady : steady _) (Hnn : shmat_not_null _).

Lemma world_at_call c t w : world_at t w -> sound_answer c (respond w c) t /\
  forall t', tally_call c (respond w c) t = Some t' -> world_at t' ((c, respond w c) :: w).
Proof using Hsteady Hnn.
  intros [Ho Hf Hs]. split.
  - destruct c; try done; cbn [sound_answer]; [|apply Hnn]. pose proof (Hsteady w). lia.
  - unfold tally_call. destruct (account _ _ _) as [own|] eqn:E; [|done]. intros t' Et. cbn [mbind option_bind] in Et.
    injection Et as <-. split.
    + cbn [owned t_own]. by rewrite Ho.
    + destruct c; cbn [clock_floor t_floor]; lia.
    + rewrite calls_cons. cbn [t_sleeps]. lia.
Qed.

Lemma wp_sys_at c t (Q : answer -> world -> Prop) w : world_at t w ->
  after c t (fun a t' => forall w', world_at t' w' -> Q a w') -> wp (sys c) Q w.
Proof using Hsteady Hnn.
  intros Hw HQ. destruct (world_at_call c t w Hw) as [Hs Hw']. specialize (HQ _ Hs). apply wp_sys.
  destruct (tally_call _ _ _) as [t'|]; [|done]. by apply HQ, Hw'.
Qed.

Lemma wp_sysr_at c t (Q : Z -> world -> Prop) w : world_at t w ->
  after c t (fun a t' => forall w', world_at t' w' -> Q (ans_ret a) w') -> wp (sysr c) Q w.
Proof using Hsteady Hnn. intros Hw HQ. by eapply wp_bind, wp_sys_at. Qed.

Lemma wp_sys__at c t (Q : unit -> world -> Prop) w : world_at t w ->
  after c t (fun _ t' => forall w', world_at t' w' -> Q tt w') -> wp (sys_ c) Q w.
Proof using Hsteady Hnn. intros Hw HQ. by eapply wp_bind, wp_sys_at. Qed.

Context `{!OtherThreads} (n : nat) (Hothers : start_others n).

Lemma wp_in_world_at {A} (m : M world A) (P : A -> tally -> Prop) t log k (Q : A -> tcp_process -> Prop) s :
  at_ t log k s ->
  (forall w, world_at t w -> wp m (fun a w' => exists t', world_at t' w' /\ P a t') w) ->
  (forall a t' s', P a t' -> at_ t' log k s' -> Q a s') -> wp (in_world m) Q s.
Proof using.
  intros [Hw Hl Hlog Hk] Hm HQ. apply (wp_zoom tcp_world (fun w s => s <| tcp_world := w |>)).
  eapply wp_mono; [by apply Hm|]. intros a w' (t' & Hw' & HP). by apply (HQ a t').
Qed.

Lemma wp_in_ipc_at {A} (m : M ipc_state A) (P : A -> tally -> Prop) t log k (Q : A -> tcp_process -> Prop) s :
  at_ t log k s ->
  (forall i, world_at t (ipc_world i) -> length (segment i) = Z.to_nat IPC_SHARED_MEMORY_SIZE ->
     wp m (fun a i' => length (segment i') = length (segment i) /\ exists t', world_at t' (ipc_world i') /\ P a t') i) ->
  (forall a t' s', P a t' -> at_ t' log k s' -> Q a s') -> wp (in_ipc m) Q s.
Proof using.
  intros [Hw Hl Hlog Hk] Hm HQ. apply (wp_zoom (fun s => IpcState (tcp_segment s) (tcp_world s))
    (fun i s => s <| tcp_segment := segment i |> <| tcp_world := ipc_world i |>)).
  eapply wp_mono; [by apply Hm|]. cbn [segment ipc_world]. intros a i (Hi & t' & Hw' & HP).
  apply (HQ a t'); [done|]. split; cbn; [done|by rewrite Hi|done|done].
Qed.

Lemma wp_call_at c t log k (Q : Z -> tcp_process -> Prop) s : at_ t log k s ->
  after c t (fun a t' => forall s', at_ t' log k s' -> Q (ans_ret a) s') -> wp (TcpServer.call c) Q s.
Proof using Hsteady Hnn.
  intros [Hw Hl Hlog Hk] HQ. apply (wp_zoom tcp_world (fun w s => s <| tcp_world := w |>)).
  eapply wp_sysr_at; [exact Hw|]. intros a Ha. specialize (HQ a Ha). destruct (tally_call _ _ _); [|done].
  intros w' Hw'. by apply HQ.
Qed.

Lemma wp_call__at c t log k (Q : unit -> tcp_process -> Prop) s : at_ t log k s ->
  after c t (fun _ t' => forall s', at_ t' log k s' -> Q tt s') -> wp (TcpServer.call_ c) Q s.
Proof using Hsteady Hnn.
  intros [Hw Hl Hlog Hk] HQ. apply (wp_zoom tcp_world (fun w s => s <| tcp_world := w |>)).
  eapply wp_sys__at; [exact Hw|]. intros a Ha. specialize (HQ a Ha). destruct (tally_call _ _ _); [|done].
  intros w' Hw'. by apply HQ.
Qed.

Lemma at_others t log k s : at_ t log k s -> at_ t log k (others s).
Proof using Hothers.
  intros [[Ho Hf Hs] Hl Hlog Hk]. split; [split|..].
  - by rewrite (so_owned _ Hothers).
  - etransitivity; [exact Hf|apply (so_floor _ Hothers)].
  - etransitivity; [exact Hs|apply (so_sleeps _ Hothers)].
  - by rewrite (so_length _ Hothers).
  - by rewrite (so_log _ Hothers).
  - by rewrite (so_kept _ Hothers).
Qed.

Lemma wp_blocking_at c t log k (Q : Z -> tcp_process -> Prop) s : at_ t log k s ->
  after c t (fun a t' => forall s', at_ t' log k s' ->
    ((n <= t_sleeps t')%nat -> announced (tcp_segment s')) -> Q (ans_ret a) s') -> wp (blocking c) Q s.
Proof using Hsteady Hnn Hothers.
  intros [Hw Hl Hlog Hk] HQ. apply wp_bind, wp_bind.
  apply (wp_zoom tcp_world (fun w s => s <| tcp_world := w |>)). eapply wp_sys_at; [exact Hw|].
  intros a Ha. specialize (HQ a Ha). destruct (tally_call _ _ _) as [t'|]; [|done].
  intros w' Hw'. apply wp_bind, wp_modify, wp_ret, wp_ret, HQ.
  - by apply at_others.
  - intros Hn. apply (so_announced _ Hothers); [done|]. cbn. etransitivity; [exact Hn|apply Hw'].
Qed.

Lemma wp_log_at l f t log k (Q : unit -> tcp_process -> Prop) s : at_ t log k s ->
  (forall s', at_ t log k s' -> Q tt s') -> wp (in_world (sys_ (sys_log l f))) Q s.
Proof using Hsteady Hnn. intros Hs HQ. eapply wp_call__at; [exact Hs|]. intros a _. destruct t. exact HQ. Qed.

Lemma wp_assign_at f t log k (Q : unit -> tcp_process -> Prop) s : at_ t log k s ->
  (forall s', at_ t log (kept_of (f (this s))) s' -> Q tt s') -> wp (assign f) Q s.
Proof using. intros [Hw Hl Hlog Hk] HQ. by apply HQ. Qed.

Lemma wp_assign_same f t log k (Q : unit -> tcp_process -> Prop) s : (forall o, kept_of (f o) = kept_of o) ->
  at_ t log k s -> (forall s', at_ t log k s' -> Q tt s') -> wp (assign f) Q s.
Proof using. intros Hf P HQ. eapply wp_assign_at; [exact P|]. rewrite Hf, (at_kept _ _ _ _ P). exact HQ. Qed.

Lemma wp_field_at {A} (f : TcpServer -> A) (Q : A -> tcp_process -> Prop) s :
  Q (f (this s)) s -> wp (field f) Q s.
Proof using. done. Qed.
End Rules.

(** A call that obtains and gives back nothing. *)
Definition plain (c : syscall) : bool :=
  match c with
  | sys_shmget _ _ create _ => negb create
  | sys_shmat _ | sys_shmdt _ | sys_shm_rmid _ | sys_sem_open _ | sys_sem_close _ | sys_mutex_init _
  | sys_mutex_destroy _ | sys_cond_init _ | sys_cond_destroy _ | sys_thread_create _ | sys_thread_join _
  | sys_sigmask _ | sys_clock | sys_sleep _ => false
  | _ => true
  end.

Lemma tally_plain c a t : plain c = true -> tally_call c a t = Some t.
Proof. intros Hc. destruct t, c; try done. cbn in Hc. apply negb_true_iff in Hc. by subst. Qed.

Lemma after_plain c t (P : answer -> tally -> Prop) : plain c = true -> (forall a, P a t) -> after c t P.
Proof. intros Hc HP a _. by rewrite tally_plain. Qed.

Lemma after_obtain c r t (P : answer -> tally -> Prop) (good : answer -> bool) :
  (forall a own, account c a own = if good a then obtain r own else Some own) -> is_sleep c = false ->
  c <> sys_clock ->
  (forall a, sound_answer c a t -> good a = true -> P a (Tally ({[+ r +]} ⊎ t_own t) (t_floor t) (t_sleeps t))) ->
  (forall a, good a = false -> P a t) -> after c t P.
Proof.
  intros Hc Hs Hk H1 H2 a Ha. unfold tally_call. rewrite Hc, Hs.
  assert (match c with sys_clock => ans_ret a | sys_sleep ms => t_floor t + ms * 1000000 | _ => t_floor t end
    = t_floor t) as -> by by destruct c.
  destruct (good a) eqn:E; cbn; [by apply H1|]. destruct t. by apply H2.
Qed.

Lemma after_give_back c r t (P : answer -> tally -> Prop) (good : answer -> bool) :
  (forall a own, account c a own = if good a then give_back r own else Some own) -> is_sleep c = false ->
  c <> sys_clock -> r ∈ t_own t ->
  (forall a, good a = true -> P a (Tally (t_own t ∖ {[+ r +]}) (t_floor t) (t_sleeps t))) ->
  (forall a, good a = false -> P a t) -> after c t P.
Proof.
  intros Hc Hs Hk Hr H1 H2 a Ha. unfold tally_call. rewrite Hc, Hs.
  assert (match c with sys_clock => ans_ret a | sys_sleep ms => t_floor t + ms * 1000000 | _ => t_floor t end
    = t_floor t) as -> by by destruct c.
  destruct (good a) eqn:E; cbn; [unfold give_back; rewrite decide_True by done; by apply H1|].
  destruct t. by apply H2.
Qed.

(** ** The segment *)
Section Memory.
Context `{Environment} (Hsteady : steady _) (Hnn : shmat_not_null _).

Lemma attach_at o t w : is_attached o = false -> world_at t w ->
  wp (attach o) (fun r w' => exists t', world_at t' w' /\
    is_attached r.2 = r.1 /\ t_floor t' = t_floor t /\ t_sleeps t' = t_sleeps t /\
    t_own t' = if r.1 then {[+ Mapping +]} ⊎ t_own t else t_own t) w.
Proof using Hsteady Hnn.
  intros Ho Hw. unfold attach. rewrite Ho. apply wp_bind. eapply (wp_sysr_at Hsteady Hnn); [exact Hw|].
  apply after_plain; [done|]. intros a w1 Hw1. destruct (_ =? -1) eqn:Ei.
  { apply wp_ret. exists t. split; [done|]. split; [exact Ho|done]. }
  apply wp_bind. eapply (wp_sysr_at Hsteady Hnn); [exact Hw1|].
  apply (after_obtain _ Mapping _ _ (fun b => negb (ans_ret b =? -1))); [|done|done|..].
  - intros b own. cbn. destruct (ans_ret b =? -1); reflexivity.
  - intros b Hb Eb w2 Hw2. cbn [sound_answer] in Hb. apply negb_true_iff in Eb. cbn [addr_ set_addr]. rewrite Eb.
    apply wp_ret. eexists. split; [exact Hw2|]. split; [|done]. unfold is_attached. cbn.
    by rewrite (proj2 (Z.eqb_neq _ _) Hb).
  - intros b Eb w2 Hw2. apply negb_false_iff in Eb. cbn [addr_ set_addr]. rewrite Eb. apply wp_ret.
    by exists t.
Qed.

Lemma detach_at o t w : Mapping ∈ t_own t -> world_at t w ->
  wp (detach o) (fun r w' => exists t', world_at t' w' /\
    if is_attached o then
      if r.1 then is_attached r.2 = false /\ t_own t' = t_own t ∖ {[+ Mapping +]}
      else r.2 = o /\ t_own t' = t_own t
    else r = (true, o) /\ t_own t' = t_own t) w.
Proof using Hsteady Hnn.
  intros Hm Hw. unfold detach, is_attached. destruct (addr_ o =? nullptr) eqn:Eo; cbn [negb].
  { apply wp_ret. by exists t. }
  apply wp_bind. eapply (wp_sysr_at Hsteady Hnn); [exact Hw|].
  apply (after_give_back _ Mapping _ _ (fun b => negb (ans_ret b =? -1))); [|done|done|done|..].
  - intros b own. cbn. destruct (ans_ret b =? -1); reflexivity.
  - intros b Eb w2 Hw2. apply negb_true_iff in Eb. rewrite Eb. apply wp_ret. eexists. split; [exact Hw2|]. done.
  - intros b Eb w2 Hw2. apply negb_false_iff in Eb. rewrite Eb. apply wp_bind.
    eapply (wp_sys__at Hsteady Hnn); [exact Hw2|]. apply after_plain; [done|]. intros b' w3 Hw3. apply wp_ret. by exists t.
Qed.

Lemma delete_at o t w : is_attached o = false \/ Mapping ∈ t_own t -> world_at t w ->
  wp (delete_SharedMemory o) (fun _ w' => exists t', world_at t' w' /\
    (is_attached o = false -> t_own t' = t_own t) /\ t_own t' ⊆ t_own t) w.
Proof using Hsteady Hnn.
  intros Hm Hw. unfold delete_SharedMemory. apply wp_bind. destruct (is_attached o) eqn:Eo.
  - destruct Hm as [|Hm]; [done|]. eapply wp_mono; [by apply (detach_at o t)|]. rewrite Eo.
    intros [[] o'] w' (t' & Hw' & _ & E); apply wp_ret; exists t'; (split; [done|]); rewrite E;
      (split; [done|multiset_solver]).
  - unfold detach, is_attached in *. apply negb_false_iff in Eo. rewrite Eo. apply wp_ret, wp_ret. by exists t.
Qed.
End Memory.

(** The number of looks at the segment before the time-out. *)
Definition attach_tries : nat := Z.to_nat (IPC_ATTACH_TIMEOUT_MS / IPC_RETRY_DELAY_MS).

(** No thread is running and no signal is blocked. *)
Definition passive (own : gmultiset resource) : Prop := (forall h, (Worker h ∉ own)) /\ (BlockedSignal ∉ own).

Lemma passive_subseteq own own' : own' ⊆ own -> passive own -> passive own'.
Proof. intros Hs [H1 H2]. split; [intros h; specialize (H1 h)|]; multiset_solver. Qed.

Lemma passive_obtain r own : passive own -> match r with Worker _ | BlockedSignal => False | _ => True end ->
  passive ({[+ r +]} ⊎ own).
Proof. intros [H1 H2] Hr. split; [intros h Ht; specialize (H1 h)|intros Ht]; destruct r; multiset_solver. Qed.

Lemma passive_queue q own : passive own -> passive (queue_semaphore q ⊎ own).
Proof.
  intros Hp. assert (passive (∅ ⊎ own)) by (by rewrite (left_id_L ∅ (⊎))).
  destruct q as [q|]; [cbn; destruct (semaphore_ q)|]; [by apply passive_obtain|done..].
Qed.

Definition synchronized (own : gmultiset resource) : gmultiset resource :=
  {[+ Mutex clients_mutex +]} ⊎ ({[+ Condition +]} ⊎ ({[+ Mutex request_queue_mutex +]} ⊎ own)).

(** What is left of the synchronisation objects when some are not destroyed. *)
Lemma unsynchronized (ok1 ok2 ok3 : bool) (own own1 own2 own3 : gmultiset resource) :
  own1 = (if ok1 then synchronized own ∖ {[+ Condition +]} else synchronized own) ->
  own2 = (if ok2 then own1 ∖ {[+ Mutex request_queue_mutex +]} else own1) ->
  own3 = (if ok3 then own2 ∖ {[+ Mutex clients_mutex +]} else own2) ->
  exists left, own3 = own ⊎ left /\ passive left /\ (ok1 && ok2 && ok3 = true -> left = ∅).
Proof.
  intros -> -> ->. unfold synchronized.
  exists ((if ok1 then ∅ else {[+ Condition +]}) ⊎ ((if ok2 then ∅ else {[+ Mutex request_queue_mutex +]}) ⊎
    (if ok3 then ∅ else {[+ Mutex clients_mutex +]}))).
  split; [destruct ok1, ok2, ok3; multiset_solver|]. split.
  - split; [intros h|]; destruct ok1, ok2, ok3; multiset_solver.
  - destruct ok1, ok2, ok3; done || multiset_solver.
Qed.

Section Life.
Context `{Environment} `{!OtherThreads} `{threads : !Threads} (Hsteady : steady _) (Hnn : shmat_not_null _) (n : nat)
  (Hothers : start_others n).
Implicit Types (s : tcp_process) (t : tally) (k : kept).

(** One step of a function that makes plain calls. *)
Ltac life_step :=
  cbv beta;
  match goal with
  | |- wdp (mbind _ _) _ _ => apply wdp_bind, wp_wdp
  | |- wdp _ _ _ => apply wp_wdp
  | |- wp (mbind _ _) _ _ => apply wp_bind
  | |- wp (mret _) _ _ => apply wp_ret
  | P : at_ _ _ _ ?s |- wp (log_info _) _ ?s =>
      eapply (wp_log_at Hsteady Hnn); [exact P|]; clear P; let s' := fresh "st" in intros s' P
  | P : at_ _ _ _ ?s |- wp (log_error _) _ ?s =>
      eapply (wp_log_at Hsteady Hnn); [exact P|]; clear P; let s' := fresh "st" in intros s' P
  | P : at_ _ _ _ ?s |- wp (TcpServer.call _) _ ?s =>
      eapply (wp_call_at Hsteady Hnn); [exact P|]; apply after_plain; [reflexivity|]; clear P;
      let s' := fresh "st" in intros ? s' P
  | P : at_ _ _ _ ?s |- wp (TcpServer.call_ _) _ ?s =>
      eapply (wp_call__at Hsteady Hnn); [exact P|]; apply after_plain; [reflexivity|]; clear P;
      let s' := fresh "st" in intros ? s' P
  | P : at_ _ _ _ ?s |- wp (blocking _) _ ?s =>
      eapply (wp_blocking_at Hsteady Hnn _ Hothers); [exact P|]; apply after_plain; [reflexivity|]; clear P;
      let s' := fresh "st" in intros ? s' P _
  | P : at_ _ _ _ ?s |- wp (assign _) _ ?s =>
      first [eapply wp_assign_same; [intros ?; reflexivity|exact P|]; clear P; let s' := fresh "st" in intros s' P
        |eapply wp_assign_at; [exact P|]; let E := fresh in pose proof (at_kept _ _ _ _ P) as E; clear P;
         let s' := fresh "st" in intros s' P; unfold kept_of in E; cbn in E, P; unfold kept_of in P; cbn in P;
         injection E as ? ? ? ? ? ? ?;
         repeat match goal with F : _ (this _) = _ |- _ => rewrite F in P; clear F end]
  | P : at_ _ _ _ ?s |- wp (field ?f) _ ?s =>
      apply wp_field_at; let E := fresh in pose proof (at_kept _ _ _ _ P) as E; unfold kept_of in E; cbn in E;
      injection E as ? ? ? ? ? ? ?;
      repeat match goal with F : _ (this s) = _ |- _ => try rewrite F; clear F end
  end.

(** ** Configuration and logger *)
Lemma load_configuration_at t log k s : at_ t log k s ->
  wp load_configuration (fun _ s' => at_ t log k s') s.
Proof using Hsteady Hnn.
  intros Hs. unfold load_configuration. apply wp_bind.
  eapply (wp_in_world_at _ (fun _ t' => t' = t)); [exact Hs| |].
  { intros w Hw. unfold config_load. apply wp_bind. eapply (wp_sys_at Hsteady Hnn); [exact Hw|].
    apply after_plain; [done|]. intros a w1 Hw1. destruct (ans_ret a =? 0); [by apply wp_ret; exists t|].
    edestruct (config_lines_wf (config_fuel (ans_data a)) (ans_data a) []) as (r & es & -> & _);
      [unfold config_fuel; lia|unfold CONFIG_MAX_ENTRIES; cbn; lia|constructor|].
    apply wp_bind. eapply (wp_sys__at Hsteady Hnn); [exact Hw1|]. apply after_plain; [done|].
    intros _a w2 Hw2. apply wp_ret. by exists t. }
  clear s Hs. intros [result config] t' s -> Hs. destruct (negb _); [by apply wp_ret|]. apply wp_bind.
  rename Hs into P. life_step. apply wp_bind. unfold config_get_string.
  destruct (config_find_entry _ _) as [entry|]; (eapply wp_from_option; [reflexivity|]); do 8 life_step; life_step; exact P.
Qed.

Lemma logger_init_at path c t log k s : at_ t log k s ->
  wp (in_logger (logger_init (Some path) c)) (fun _ s' => exists fd, at_ t fd k s') s.
Proof using Hsteady Hnn.
  intros [Hw Hl Hlog Hk]. apply (wp_zoom (fun s => LoggerState (tcp_log_fd s) (tcp_console s) (tcp_world s))
       (fun l s => s <| tcp_log_fd := log_fd l |> <| tcp_console := console_output_enabled l |>
                     <| tcp_world := logger_world l |>)).
  unfold logger_init. apply wp_bind, wp_modify, wp_bind, wp_zoom.
  eapply (wp_sys__at Hsteady Hnn); [exact Hw|]. apply after_plain; [done|]. intros _a w1 Hw1.
  apply wp_bind, wp_gets, wp_bind. cbn.
  assert (forall (m : M logger unit) l, world_at t (logger_world l) ->
    wp m (fun _ l' => world_at t (logger_world l')) l ->
    wp m (fun _ l' => wp (fd ← Logger.os (sysr (sys_open path true)); modify (set_log_fd fd);;
      Logger.os (sys_ (sys_mutex_unlock log_mutex));; fd ← gets log_fd; if fd =? -1 then mret (-1) else mret 0)
      (fun (a : Z) (l : logger) => exists fd, at_ t fd k (s <| tcp_log_fd := log_fd l |>
         <| tcp_console := console_output_enabled l |> <| tcp_world := logger_world l |>)) l') l) as Hrest.
  { intros m l Hlw Hm. eapply wp_mono; [exact Hm|]. intros _u l' Hw'. apply wp_bind, wp_zoom.
    eapply (wp_sysr_at Hsteady Hnn); [exact Hw'|]. apply after_plain; [done|]. intros b w3 Hw3.
    apply wp_bind, wp_modify, wp_bind, wp_zoom. eapply (wp_sys__at Hsteady Hnn); [exact Hw3|].
    apply after_plain; [done|]. intros _b w4 Hw4. apply wp_bind, wp_gets.
    destruct (_ =? -1); apply wp_ret; (eexists; split; [exact Hw4|exact Hl|reflexivity|exact Hk]). }
  destruct (negb _).
  - apply Hrest; [done|]. apply wp_bind, wp_zoom. eapply (wp_sys__at Hsteady Hnn); [exact Hw1|].
    apply after_plain; [done|]. intros _b w2 Hw2. by apply wp_modify.
  - apply Hrest; [done|]. by apply wp_ret.
Qed.

Lemma logger_close_at t log k s : at_ t log k s -> wp (in_logger logger_close) (fun _ s' => at_ t (-1) k s') s.
Proof using Hsteady Hnn.
  intros [Hw Hl Hlog Hk]. apply (wp_zoom (fun s => LoggerState (tcp_log_fd s) (tcp_console s) (tcp_world s))
       (fun l s => s <| tcp_log_fd := log_fd l |> <| tcp_console := console_output_enabled l |>
                     <| tcp_world := logger_world l |>)).
  unfold logger_close. apply wp_bind, wp_zoom. eapply (wp_sys__at Hsteady Hnn); [exact Hw|].
  apply after_plain; [done|]. intros _a w1 Hw1. apply wp_bind, wp_gets, wp_bind. cbn.
  destruct (tcp_log_fd s =? -1) eqn:Efd; cbn [negb].
  - apply wp_ret, wp_zoom. eapply (wp_sys__at Hsteady Hnn); [exact Hw1|]. apply after_plain; [done|].
    intros _b w2 Hw2. apply Z.eqb_eq in Efd. by split.
  - apply wp_bind, wp_zoom. eapply (wp_sys__at Hsteady Hnn); [exact Hw1|]. apply after_plain; [done|].
    intros _b w2 Hw2. apply wp_modify, wp_zoom. eapply (wp_sys__at Hsteady Hnn); [exact Hw2|].
    apply after_plain; [done|]. intros _c w3 Hw3. by split.
Qed.

(** ** Waiting for the segment *)
Lemma attach_loop_spec fuel start shm t log k s :
  is_attached shm = false -> 0 <= start <= t_floor t ->
  (Z.of_nat attach_tries - Z.of_nat fuel) * (IPC_RETRY_DELAY_MS * 1000000) <= t_floor t - start ->
  at_ t log k s ->
  wp (attach_loop fuel start shm) (fun r s' => exists t', at_ t' log k s' /\ is_attached r.2 = r.1 /\
    t_own t' = if r.1 then {[+ Mapping +]} ⊎ t_own t else t_own t) s.
Proof using Hsteady Hnn Hothers.
  intros Hshm Hstart Hfuel P. revert shm t s Hshm Hstart Hfuel P.
  induction fuel as [|fuel IH]; intros shm t s Hshm Hstart Hfuel P; cbn [attach_loop]; apply wp_bind;
    (eapply (wp_in_world_at _ (fun r t' => is_attached r.2 = r.1 /\ t_floor t' = t_floor t /\
       t_own t' = if r.1 then {[+ Mapping +]} ⊎ t_own t else t_own t)); [exact P| |];
     [intros w Hw; eapply wp_mono; [by apply (attach_at Hsteady Hnn)|];
      by intros r w' (t' & Hw' & E1 & E2 & _ & E3); exists t'|]);
    clear s P; intros [attached shm'] t1 s (E1 & E2 & E3) P; cbn [fst snd] in E1, E3;
    (destruct attached; [by apply wp_ret; exists t1|]);
    apply wp_bind; unfold now;
    (eapply (wp_call_at Hsteady Hnn); [exact P|]); intros a Ha; cbn [sound_answer] in Ha; cbn;
    clear s P; intros s P;
    rewrite Z.quot_div_nonneg by lia;
    (destruct (Z.leb_spec IPC_ATTACH_TIMEOUT_MS ((ans_ret a - start) `div` 1000000)) as [Hle|Hlt];
      [life_step; life_step; life_step; eexists; split; [exact P|]; cbn; by rewrite E1|]).
  - exfalso. apply Z.lt_nge in Hlt. apply Hlt. apply Z.div_le_lower_bound; [lia|].
    change (Z.of_nat attach_tries) with 100 in Hfuel. unfold IPC_ATTACH_TIMEOUT_MS, IPC_RETRY_DELAY_MS in *. lia.
  - apply wp_bind. eapply (wp_blocking_at Hsteady Hnn _ Hothers); [exact P|].
    intros b Hb. cbn. clear s P. intros s P _. eapply wp_mono.
    + eapply (IH shm' (Tally _ _ _) s); [done| | |exact P]; cbn; unfold IPC_RETRY_DELAY_MS in *; lia.
    + cbn. intros r s' (t' & P' & E4 & E5). exists t'. rewrite E3 in E5. done.
Qed.

Definition fresh : kept := Kept None None None None false false false.
(** The segment is mapped. *)
Definition mapped (shm : SharedMemory) : kept := Kept (Some shm) None None (Some 0) false false false.

Lemma attach_shared_memory_spec fuel t log s : (attach_tries <= fuel)%nat -> t_own t = ∅ -> 0 <= t_floor t ->
  at_ t log fresh s ->
  wp (attach_shared_memory fuel) (fun ok s' => exists t', 
    if ok then exists shm, is_attached shm = true /\ t_own t' = {[+ Mapping +]} /\ at_ t' log (mapped shm) s'
    else t_own t' = ∅ /\ at_ t' log fresh s') s.
Proof using Hsteady Hnn Hothers.
  intros Hfuel Hown Hfloor P. unfold attach_shared_memory. do 6 life_step.
  life_step. unfold now. eapply (wp_call_at Hsteady Hnn); [exact P|]. intros a Ha. cbn [sound_answer] in Ha. cbn.
  intros s1 P'. clear P. rename P' into P. apply wp_bind.
  eapply wp_mono; [eapply attach_loop_spec; [done| | |exact P]|].
  { cbn. lia. }
  { cbn. assert (Z.of_nat attach_tries <= Z.of_nat fuel) by lia. unfold IPC_RETRY_DELAY_MS. nia. }
  cbn [t_own t_floor]. rewrite Hown. clear s1 P. intros [attached shm] s1 (t1 & P & E1 & E2). cbn [fst snd] in E1, E2.
  life_step. life_step. destruct attached; cbn [negb].
  - do 4 life_step. assert ((data shm =? nullptr) = false) as E by by apply negb_true_iff. rewrite E in *.
    do 3 life_step. exists t1. rewrite E2. exists shm. split; [done|]. split; [multiset_solver|done].
  - life_step. eapply wp_in_world_at; [exact P|intros w Hw; by apply (delete_at Hsteady Hnn _ t1); [left|]|]. clear P.
    intros _u t2 s2 [E3 _] P. do 3 life_step. exists t2. by rewrite E3.
Qed.

(** ** Waiting for Database *)
Lemma load_ready_at member t log k s : 0 <= member <= 4 -> at_ t log k s ->
  wp (load_ready 0 member) (fun v s' => at_ t log k s' /\ tcp_segment s' = tcp_segment s /\
    (mem_read (tcp_segment s) (Z.to_nat member) 4 = Some (le_bytes 4 READY) -> v = READY)) s.
Proof using.
  intros Hm P. unfold load_ready. apply wp_bind. pose proof P as [Hw Hl Hlog Hk].
  apply (wp_zoom (fun s => IpcState (tcp_segment s) (tcp_world s))
    (fun i s => s <| tcp_segment := segment i |> <| tcp_world := ipc_world i |>)).
  change (Z.to_nat IPC_SHARED_MEMORY_SIZE) with 4184%nat in Hl.
  unfold load_bytes. apply wp_bind, wp_gets. cbn [segment].
  eapply wp_from_option; [apply mem_read_Some; cbn; lia|]. apply wp_ret. split; [by destruct s|]. split; [done|].
  intros E. change (0 + member) with member. rewrite mem_read_Some in E by lia. injection E as E.
  change (Z.to_nat 4) with 4%nat. rewrite E. by vm_compute.
Qed.

Lemma queues_ready_at t log k s : at_ t log k s ->
  wp (queues_ready 0) (fun ready s' => at_ t log k s' /\ (announced (tcp_segment s) -> ready = true)) s.
Proof using.
  intros P. unfold queues_ready. apply wp_bind.
  eapply wp_mono; [eapply (load_ready_at tcp_to_database_queue_ready); [by vm_compute|exact P]|].
  intros v s1 (P1 & E & Hv). destruct (v =? READY) eqn:Ev; cbn [negb].
  - apply wp_bind. eapply wp_mono; [eapply (load_ready_at database_to_tcp_queue_ready); [by vm_compute|exact P1]|].
    intros u s2 (P2 & _ & Hu). apply wp_ret. split; [done|]. rewrite E in Hu. intros [_ Hr]. by rewrite (Hu Hr).
  - apply wp_ret. split; [done|]. intros [Hr _]. by rewrite (Hv Hr) in Ev.
Qed.

(** At most [n] sleeps. *)
Lemma ready_loop_spec fuel t log k s :
  announced (tcp_segment s) \/ (n < fuel + t_sleeps t)%nat /\ (0 < fuel)%nat -> at_ t log k s ->
  wp (ready_loop fuel 0) (fun _ s' => exists t', at_ t' log k s' /\ t_own t' = t_own t) s.
Proof using Hsteady Hnn Hothers.
  revert t s. induction fuel as [|fuel IH]; intros t s Hfuel P; cbn [ready_loop]; apply wp_bind;
    (eapply wp_mono; [by eapply queues_ready_at|]); intros ready s1 [P1 Hready];
    (destruct ready; [apply wp_ret; by exists t|]); (destruct Hfuel as [Ha|[Hn H0']]; [by specialize (Hready Ha)|]); [lia|].
  apply wp_bind. eapply (wp_blocking_at Hsteady Hnn _ Hothers); [exact P1|]. intros a _. cbn. intros s2 P2 Ha.
  eapply wp_mono; [eapply IH; [|exact P2]|].
  - cbn. destruct (decide (n <= S (t_sleeps t))%nat); [left; by apply Ha|right; lia].
  - cbn. done.
Qed.

Lemma wait_for_queues_spec fuel t log shm s : (n < fuel)%nat -> at_ t log (mapped shm) s ->
  wp (wait_for_queues fuel) (fun ok s' => ok = true /\ exists t', at_ t' log (mapped shm) s' /\ t_own t' = t_own t) s.
Proof using Hsteady Hnn Hothers.
  intros Hfuel P. unfold wait_for_queues. do 5 life_step.
  eapply wp_mono; [eapply ready_loop_spec; [right; lia|exact P]|]. clear P. intros _u s0 (t' & P & E).
  do 3 life_step. split; [done|]. by exists t'.
Qed.

(** ** Attaching the queues *)
Lemma load_at a t i (Q : Z -> ipc_state -> Prop) : 0 <= a -> (Z.to_nat a + 8 <= length (segment i))%nat ->
  world_at t (ipc_world i) -> (forall v, Q v i) -> wp (load a) Q i.
Proof using.
  intros Ha Hl Hw HQ. unfold load. apply wp_bind, wp_gets, wp_bind. eapply wp_from_option; [by apply mem_read_Some|].
  by apply wp_ret.
Qed.

Lemma attach_queue_at shm off name esize cap t i : data shm <> nullptr ->
  queue_fits off esize cap (length (segment i)) -> world_at t (ipc_world i) ->
  wp (new_SharedQueue (Some shm) off (Some name) esize cap false) (fun q i' => length (segment i') = length (segment i) /\
    exists t', world_at t' (ipc_world i') /\ t_own t' = queue_semaphore (Some q) ⊎ t_own t /\
      (is_valid q = false -> semaphore_ q = None)) i.
Proof using Hsteady Hnn.
  clear Hothers n. intros Hd Hf Hw. pose proof Hf as [Hoff Hesz Hcp Hend Hsz]. change sizeof_queue_header with 40 in Hend.
  assert (0 <= cap * esize) as Hpos by nia.
  unfold new_SharedQueue. rewrite !(proj2 (Z.eqb_neq _ _)) by (done || lia). cbn [orb].
  apply wp_bind, wp_zoom. eapply (wp_sysr_at Hsteady Hnn); [exact Hw|].
  intros a _. unfold tally_call. cbn [account]. destruct (ans_ret a =? 0) eqn:Ea; cbn [mbind option_bind obtain is_sleep];
    intros w1 Hw1; cbv beta zeta; rewrite ?Ea.
  { apply wp_bind, wp_zoom. eapply (wp_sys__at Hsteady Hnn); [exact Hw1|]. apply after_plain; [done|].
    intros _a w2 Hw2. apply wp_ret. split; [done|]. eexists. split; [exact Hw2|]. split; [|done].
    cbn. multiset_solver. }
  assert (0 <= off + Q_CAPACITY /\ 0 <= off + Q_ELEMENT_SIZE /\
    off + Q_CAPACITY + 8 <= off + 40 /\ off + Q_ELEMENT_SIZE + 8 <= off + 40) as (B1 & B2 & B3 & B4)
    by (change Q_CAPACITY with 24; change Q_ELEMENT_SIZE with 32; lia).
  apply wp_bind. eapply load_at; [done|cbn; lia|exact Hw1|]. intros v.
  apply wp_bind. eapply load_at; [done|cbn; lia|exact Hw1|]. intros u.
  destruct (_ || _).
  - apply wp_bind, wp_zoom. eapply (wp_sys__at Hsteady Hnn); [exact Hw1|]. apply after_plain; [done|].
    intros _a w2 Hw2. apply wp_bind, wp_zoom. eapply (wp_sys__at Hsteady Hnn); [exact Hw2|].
    apply (after_give_back _ (Semaphore (ans_ret a)) _ _ (fun b => true)); [done..|multiset_solver| |done].
    intros b _ w3 Hw3. apply wp_ret. split; [done|]. eexists. split; [exact Hw3|]. split; [|done].
    cbn. multiset_solver.
  - apply wp_ret. split; [done|]. eexists. split; [exact Hw1|]. by split.
Qed.

(** Both queues are attached; the flags say which synchronisation objects
    exist. *)
Definition attached (shm : SharedMemory) (q1 q2 : SharedQueue) (c m1 m2 : bool) : kept :=
  Kept (Some shm) (Some q1) (Some q2) (Some 0) c m1 m2.

Lemma delete_queue_at q t log k s : queue_semaphore q ⊆ t_own t -> at_ t log k s ->
  wp (delete_queue q) (fun _ s' => exists t', at_ t' log k s' /\ t_own t' = t_own t ∖ queue_semaphore q) s.
Proof using Hsteady Hnn Hothers.
  intros Hq P. destruct q as [q|]; cbn [delete_queue queue_semaphore] in *;
    [|apply wp_ret; exists t; split; [done|multiset_solver]].
  eapply (wp_in_ipc_at _ (fun _ t' => t_own t' = t_own t ∖ queue_semaphore (Some q))); [exact P| |].
  - intros i Hw Hl. unfold delete_SharedQueue. cbn [queue_semaphore]. destruct (semaphore_ q) as [sem|].
    + apply wp_zoom. eapply (wp_sys__at Hsteady Hnn); [exact Hw|].
      apply (after_give_back _ (Semaphore sem) _ _ (fun b => true)); [done..|multiset_solver| |done].
      intros b _ w' Hw'. split; [done|]. by eexists.
    + apply wp_ret. split; [done|]. exists t. split; [done|multiset_solver].
  - intros _u t' s' E P'. by exists t'.
Qed.

Lemma attach_queues_spec t log shm s : is_attached shm = true -> t_own t = {[+ Mapping +]} ->
  at_ t log (mapped shm) s ->
  wp attach_queues (fun ok s' => exists t', if ok then exists q1 q2, at_ t' log (attached shm q1 q2 false false false) s' /\
      t_own t' = queue_semaphore (Some q2) ⊎ (queue_semaphore (Some q1) ⊎ {[+ Mapping +]})
    else at_ t' log (mapped shm) s' /\ t_own t' = {[+ Mapping +]}) s.
Proof using Hsteady Hnn Hothers.
  intros Hshm Hown P. unfold attach_queues. do 4 life_step. rewrite Hshm. cbn [negb].
  assert (data shm <> nullptr) as Hd by (by apply Z.eqb_neq, negb_true_iff).
  apply wp_bind. eapply (wp_in_ipc_at _ (fun q t' => t_own t' = queue_semaphore (Some q) ⊎ t_own t /\
    (is_valid q = false -> semaphore_ q = None))); [exact P| |].
  { intros i Hw Hl. eapply wp_mono; [apply (attach_queue_at _ _ _ _ _ t); [done|by apply request_region|done]|].
    intros q i' (E & t' & Hw' & Hq). split; [done|]. by exists t'. }
  clear P. intros q1 t1 s1 [E1 V1] P. do 2 life_step. destruct (is_valid q1); cbn [negb].
  2: { do 3 life_step. eapply (wp_in_ipc_at _ (fun _ t' => t' = t1)); [exact P| |].
       - intros i Hw Hl. unfold delete_SharedQueue. rewrite V1 by done. apply wp_ret. split; [done|]. by exists t1.
       - clear P. intros _u t' s2 -> P. do 3 life_step. exists t1. split; [done|].
         rewrite E1, Hown. cbn. rewrite V1 by done. multiset_solver. }
  do 3 life_step. eapply (wp_in_ipc_at _ (fun q t' => t_own t' = queue_semaphore (Some q) ⊎ t_own t1 /\
    (is_valid q = false -> semaphore_ q = None))); [exact P| |].
  { intros i Hw Hl. eapply wp_mono; [apply (attach_queue_at _ _ _ _ _ t1); [done|by apply response_region|done]|].
    intros q i' (E & t' & Hw' & Hq). split; [done|]. by exists t'. }
  clear P. intros q2 t2 s2 [E2 V2] P. do 2 life_step. destruct (is_valid q2); cbn [negb].
  - do 3 life_step. exists t2, q1, q2. split; [done|]. rewrite E2, E1, Hown. done.
  - do 3 life_step. eapply (wp_in_ipc_at _ (fun _ t' => t' = t2)); [exact P| |].
    { intros i Hw Hl. unfold delete_SharedQueue. rewrite V2 by done. apply wp_ret. split; [done|]. by exists t2. }
    clear P. intros _u t' s3 -> P. do 3 life_step.
    eapply wp_mono; [apply (delete_queue_at (Some q1)); [|exact P]|].
    { rewrite E2, E1. multiset_solver. }
    clear P. intros _v s4 (t3 & P & E3). do 3 life_step. exists t3. split; [done|].
    rewrite E3, E2, E1, Hown. replace (queue_semaphore (Some q2)) with (∅ : gmultiset resource)
      by by cbn; rewrite V2. generalize (queue_semaphore (Some q1)). multiset_solver.
Qed.

(** ** Calls with a resource *)
Definition acquires (c : syscall) : option resource :=
  match c with
  | sys_mutex_init m => Some (Mutex m) | sys_cond_init _ => Some Condition
  | sys_thread_create t => Some (Worker t) | sys_sigmask SIG_BLOCK => Some BlockedSignal
  | _ => None
  end.
Definition releases (c : syscall) : option resource :=
  match c with
  | sys_mutex_destroy m => Some (Mutex m) | sys_cond_destroy _ => Some Condition
  | _ => None
  end.

Definition with_own (own : gmultiset resource) (t : tally) : tally := Tally own (t_floor t) (t_sleeps t).

Lemma wp_acquire c r t log k (Q : Z -> tcp_process -> Prop) s : acquires c = Some r -> at_ t log k s ->
  (forall z s', z = 0 -> at_ (with_own ({[+ r +]} ⊎ t_own t) t) log k s' -> Q z s') ->
  (forall z s', z <> 0 -> at_ t log k s' -> Q z s') -> wp (TcpServer.call c) Q s.
Proof using Hsteady Hnn.
  intros Hc P H1 H2. eapply (wp_call_at Hsteady Hnn); [exact P|].
  apply (after_obtain _ r _ _ (fun b => ans_ret b =? 0)).
  - intros a own. destruct c; try done; [..|rename how into h; destruct h; [|done]]; by injection Hc as <-.
  - by destruct c.
  - by intros ->.
  - intros a _ Ea%Z.eqb_eq s' P'. by apply H1.
  - intros a Ea%Z.eqb_neq s' P'. by apply H2.
Qed.

Lemma wp_release c r t log k (Q : Z -> tcp_process -> Prop) s : releases c = Some r -> r ∈ t_own t -> at_ t log k s ->
  (forall z s', z = 0 -> at_ (with_own (t_own t ∖ {[+ r +]}) t) log k s' -> Q z s') ->
  (forall z s', z <> 0 -> at_ t log k s' -> Q z s') -> wp (TcpServer.call c) Q s.
Proof using Hsteady Hnn.
  intros Hc Hr P H1 H2. eapply (wp_call_at Hsteady Hnn); [exact P|].
  apply (after_give_back _ r _ _ (fun b => ans_ret b =? 0)); [|by destruct c|by intros ->|done|..].
  - intros a own. destruct c; try done; by injection Hc as <-.
  - intros a Ea%Z.eqb_eq s' P'. by apply H1.
  - intros a Ea%Z.eqb_neq s' P'. by apply H2.
Qed.

Lemma wp_release_ c r t log k (Q : unit -> tcp_process -> Prop) s : releases c = Some r -> r ∈ t_own t -> at_ t log k s ->
  (forall t' s', t_own t' ⊆ t_own t -> t_own t ∖ {[+ r +]} ⊆ t_own t' -> at_ t' log k s' -> Q tt s') -> wp (TcpServer.call_ c) Q s.
Proof using Hsteady Hnn Hothers.
  intros Hc Hr P HQ. eapply (wp_call__at Hsteady Hnn); [exact P|].
  apply (after_give_back _ r _ _ (fun b => ans_ret b =? 0)); [|by destruct c|by intros ->|done|..].
  - intros a own. destruct c; try done; by injection Hc as <-.
  - intros a _ s' P'. eapply HQ; [| |exact P']; cbn; multiset_solver.
  - intros a _ s' P'. eapply HQ; [| |exact P']; [done|multiset_solver].
Qed.

(** One step at a call that obtains a resource: both outcomes. *)
Ltac acquire_step :=
  cbv beta; first [apply wp_bind|apply wdp_bind, wp_wdp];
  match goal with
  | P : at_ _ _ _ ?s |- wp (TcpServer.call _) _ ?s =>
      eapply wp_acquire; [reflexivity|exact P|clear P; let st := fresh "st" in intros ? st -> P; cbn [Z.eqb negb]
        |clear P; let st := fresh "st" in let E := fresh in intros ? st E%Z.eqb_neq P; rewrite E; clear E; cbn [negb]]
  end.

Lemma initialize_synchronization_spec t log shm q1 q2 s : passive (t_own t) ->
  at_ t log (attached shm q1 q2 false false false) s ->
  wp initialize_synchronization (fun ok s' => exists t' k', at_ t' log k' s' /\
    if ok then k' = attached shm q1 q2 true true true /\ t_own t' = synchronized (t_own t) else passive (t_own t')) s.
Proof using Hsteady Hnn Hothers.
  intros Hp P. unfold initialize_synchronization. acquire_step.
  2: { do 3 life_step. by do 2 eexists. }
  do 2 life_step. acquire_step.
  2: { do 3 life_step. eapply wp_release_; [reflexivity| |exact P|]; [cbn; multiset_solver|].
       clear P. intros t' s' Ht _ P. do 3 life_step. do 2 eexists. split; [exact P|].
       eapply passive_subseteq; [exact Ht|]. by apply passive_obtain. }
  do 2 life_step. acquire_step.
  2: { do 3 life_step. eapply wp_release_; [reflexivity| |exact P|]; [cbn; multiset_solver|].
       clear P. intros t1 s1 Ht1 Ht1' P. do 3 life_step.
       eapply wp_release_; [reflexivity| |exact P|]; [cbn in *; multiset_solver|].
       clear P. intros t2 s2 Ht2 _ P. do 3 life_step. do 2 eexists. split; [exact P|].
       eapply passive_subseteq; [etransitivity; [exact Ht2|exact Ht1]|]. cbn [t_own with_own]. apply passive_obtain; [by apply passive_obtain|done]. }
  do 7 life_step. do 2 eexists. split; [exact P|]. split; [reflexivity|]. done.
Qed.

(** ** Start-up *)
Lemma tcp_initialize_spec fuel t log s : (attach_tries <= fuel)%nat -> (n < fuel)%nat -> t_own t = ∅ -> 0 <= t_floor t ->
  at_ t log fresh s ->
  wp (initialize fuel) (fun ok s' => exists t' log' k', at_ t' log' k' s' /\
    if ok then exists shm q1 q2, is_attached shm = true /\ k' = attached shm q1 q2 true true true /\
      t_own t' = synchronized (queue_semaphore (Some q2) ⊎ (queue_semaphore (Some q1) ⊎ {[+ Mapping +]}))
    else passive (t_own t')) s.
Proof using Hsteady Hnn Hothers.
  intros Hf1 Hf2 Hown Hfloor P.
  assert (passive ∅) as Hnone by (split; [intros h|]; multiset_solver).
  assert (passive {[+ Mapping +]}) as Hmap by (split; [intros h|]; multiset_solver).
  unfold initialize. apply wp_bind. eapply wp_mono; [by eapply load_configuration_at|].
  clear s P. intros ok s P. destruct ok; cbn [negb]; [|apply wp_ret; do 3 eexists; split; [exact P|by rewrite Hown]].
  do 5 life_step. eapply wp_mono; [by eapply logger_init_at|]. clear P. intros r s1 (fd & P).
  destruct (r =? 0); cbn [negb]; [|apply wp_ret; do 3 eexists; split; [exact P|by rewrite Hown]].
  do 5 life_step. eapply wp_mono; [by eapply attach_shared_memory_spec|]. clear P. intros ok s2 (t2 & P).
  destruct ok; cbn [negb]; [|destruct P as [E P]; apply wp_ret; do 3 eexists; split; [exact P|by rewrite E]].
  destruct P as (shm & Hshm & E2 & P). life_step.
  eapply wp_mono; [by eapply wait_for_queues_spec|]. clear P. intros ok s3 [-> (t3 & P & E3)]. cbn [negb]. rewrite E2 in E3.
  life_step. eapply wp_mono; [by eapply attach_queues_spec|]. clear P. intros ok s4 (t4 & P).
  destruct ok; cbn [negb]; [|destruct P as [P E]; apply wp_ret; do 3 eexists; split; [exact P|by rewrite E]].
  destruct P as (q1 & q2 & P & E4).
  eapply wp_mono; [eapply initialize_synchronization_spec; [|exact P]; rewrite E4; by do 2 apply passive_queue|].
  clear P. intros ok s5 (t5 & k5 & P & E5). do 3 eexists. split; [exact P|].
  destruct ok; [|done]. destruct E5 as [-> E5]. exists shm, q1, q2. by rewrite <- E4.
Qed.

(** ** The worker threads *)
Lemma join_at t log k h failure s : Worker h ∈ t_own t -> at_ t log k s ->
  wdp (join h failure) (fun _ s' => exists t', at_ t' log k s' /\ t_own t' = t_own t ∖ {[+ Worker h +]}) s.
Proof using Hsteady Hnn Hothers.
  intros Hh P. unfold join. apply wdp_bind, wp_wdp, wp_get. destruct (ends h s); [|done].
  apply wp_wdp, wp_bind. eapply (wp_blocking_at Hsteady Hnn _ Hothers); [exact P|].
  apply (after_give_back _ (Worker h) _ _ (fun b => true)); [done..| |done].
  intros a _ s' P' _. destruct (negb _).
  - clear P. rename P' into P. life_step. by eexists.
  - apply wp_ret. by eexists.
Qed.

Lemma unmask_after t (P : answer -> tally -> Prop) : BlockedSignal ∈ t_own t ->
  (forall a, P a (with_own (t_own t ∖ {[+ BlockedSignal +]}) t)) -> after (sys_sigmask SIG_SETMASK) t P.
Proof using. intros Ht HP. by apply (after_give_back _ BlockedSignal _ _ (fun b => true)). Qed.

Lemma unmask_at t log k s : BlockedSignal ∈ t_own t -> at_ t log k s ->
  wp (TcpServer.call_ (sys_sigmask SIG_SETMASK)) (fun _ s' => exists t', at_ t' log k s' /\
    t_own t' = t_own t ∖ {[+ BlockedSignal +]}) s.
Proof using Hsteady Hnn.
  intros Ht P. eapply (wp_call__at Hsteady Hnn); [exact P|]. apply unmask_after; [done|]. intros a s' P'. by eexists.
Qed.

Definition working (own : gmultiset resource) : gmultiset resource :=
  {[+ Worker tcp_server +]} ⊎ ({[+ Worker response_reader +]} ⊎ ({[+ Worker request_writer +]} ⊎
    ({[+ BlockedSignal +]} ⊎ own))).

Lemma run_start_spec t log k s : at_ t log k s ->
  wdp run_start (fun started s' => exists t', at_ t' log k s' /\
    t_own t' = if started then working (t_own t) else t_own t) s.
Proof using Hsteady Hnn Hothers.
  intros P. unfold run_start.
  assert (forall m s, at_ t log k s -> wdp (log_error m;; mret false) (fun started s' => exists t', at_ t' log k s' /\
    t_own t' = if started then working (t_own t) else t_own t) s) as Hfail.
  { clear s P. intros m s P. do 3 life_step. by exists t. }
  do 2 life_step. destruct (negb _); [by apply Hfail|].
  do 2 life_step. destruct (negb _); [by apply Hfail|].
  acquire_step; [|by apply Hfail].
  do 2 life_step. acquire_step.
  2: { do 5 life_step. eapply wp_mono; [eapply unmask_at; [|exact P]; cbn; multiset_solver|].
       clear P. intros _u s' (t' & P & E). apply wp_wdp, wp_ret. exists t'. split; [done|]. rewrite E. cbn. multiset_solver. }
  do 2 life_step. acquire_step.
  2: { do 4 life_step. apply wdp_bind. eapply wdp_mono; [eapply join_at; [|exact P]; cbn; multiset_solver|].
       clear P. intros _u s1 (t1 & P & E1). cbn in E1. life_step.
       eapply wp_mono; [eapply unmask_at; [|exact P]; rewrite E1; multiset_solver|].
       clear P. intros _v s2 (t2 & P & E2). apply wp_wdp, wp_ret. exists t2. split; [done|]. rewrite E2, E1. multiset_solver. }
  do 2 life_step. acquire_step.
  2: { do 4 life_step. apply wdp_bind. eapply wdp_mono; [eapply join_at; [|exact P]; cbn; multiset_solver|].
       clear P. intros _u s1 (t1 & P & E1). cbn in E1. apply wdp_bind.
       eapply wdp_mono; [eapply join_at; [|exact P]; rewrite E1; multiset_solver|].
       clear P. intros _v s2 (t2 & P & E2). life_step.
       eapply wp_mono; [eapply unmask_at; [|exact P]; rewrite E2, E1; multiset_solver|].
       clear P. intros _w s3 (t3 & P & E3). apply wp_wdp, wp_ret. exists t3. split; [done|]. rewrite E3, E2, E1. multiset_solver. }
  do 3 life_step. eexists. split; [exact P|]. reflexivity.
Qed.

Lemma run_stop_spec own t log k s : t_own t = working own -> at_ t log k s ->
  wdp run_stop (fun _ s' => exists t', at_ t' log k s' /\ t_own t' = own) s.
Proof using Hsteady Hnn Hothers.
  intros Hown P. unfold run_stop. do 4 life_step.
  apply wdp_bind, wp_wdp. eapply (wp_mono _ (fun _ s' => at_ t log k s')); [destruct (negb _); life_step; exact P|].
  clear P. intros _u s1 P. do 4 life_step. apply wdp_bind, wp_wdp.
  eapply (wp_mono _ (fun _ s' => at_ t log k s')); [destruct (_ =? 0); [do 3 life_step|life_step]; exact P|].
  clear P. intros _v s2 P. do 3 life_step. apply wp_field_at. apply wdp_bind, wp_wdp.
  eapply (wp_mono _ (fun _ s' => at_ t log k s')); [destruct (negb _); [life_step; exact P|by apply wp_ret]|].
  clear P. intros _w s3 P. unfold working in Hown.
  apply wdp_bind. eapply wdp_mono; [eapply join_at; [|exact P]; rewrite Hown; multiset_solver|].
  clear P. intros _x s4 (t4 & P & E4). rewrite Hown in E4.
  apply wdp_bind. eapply wdp_mono; [eapply join_at; [|exact P]; rewrite E4; multiset_solver|].
  clear P. intros _y s5 (t5 & P & E5). rewrite E4 in E5.
  apply wdp_bind. eapply wdp_mono; [eapply join_at; [|exact P]; rewrite E5; multiset_solver|].
  clear P. intros _z s6 (t6 & P & E6). rewrite E5 in E6.
  apply wdp_bind, wp_wdp. eapply (wp_call_at Hsteady Hnn); [exact P|]. apply unmask_after; [rewrite E6; multiset_solver|].
  clear P. intros z s7 P. apply wdp_bind, wp_wdp.
  eapply (wp_mono _ (fun _ s' => at_ (with_own (t_own t6 ∖ {[+ BlockedSignal +]}) t6) log k s'));
    [destruct (negb _); [life_step; exact P|by apply wp_ret]|].
  clear P. intros _q s8 P. do 2 life_step. eexists. split; [exact P|]. cbn. rewrite E6. clear. multiset_solver.
Qed.

Lemma run_spec t log k s : at_ t log k s ->
  wdp run (fun _ s' => exists t', at_ t' log k s' /\ t_own t' = t_own t) s.
Proof using Hsteady Hnn Hothers.
  intros P. unfold run. apply wdp_bind. eapply wdp_mono; [by eapply run_start_spec|]. clear P.
  intros started s1 (t1 & P & E). destruct started; cbn [negb]; [by eapply run_stop_spec|]. apply wp_wdp, wp_ret. by exists t1.
Qed.

(** ** Shutdown *)
Lemma destroy_at c r failure success clear g t log k s : releases c = Some r ->
  (forall o, kept_of (clear o) = g (kept_of o)) -> r ∈ t_own t -> at_ t log k s ->
  wp (destroy true c failure success clear) (fun ok s' => exists t', at_ t' log (if ok then g k else k) s' /\
    t_own t' = if ok then t_own t ∖ {[+ r +]} else t_own t) s.
Proof using Hsteady Hnn.
  intros Hc Hg Hr P. unfold destroy. apply wp_bind. eapply wp_release; [exact Hc|exact Hr|exact P|..].
  - clear P. intros z s1 -> P. cbn [Z.eqb negb]. apply wp_bind. eapply wp_assign_at; [exact P|].
    rewrite Hg, (at_kept _ _ _ _ P). clear P. intros s2 P. do 3 life_step. by eexists.
  - clear P. intros z s1 Hz%Z.eqb_neq P. rewrite Hz. cbn [negb]. do 3 life_step. by eexists.
Qed.

Lemma detach_memory_at shm q1 q2 h c m1 m2 t log s : Mapping ∈ t_own t ->
  at_ t log (Kept (Some shm) q1 q2 h c m1 m2) s ->
  wp detach_memory (fun ok s' => exists t', at_ t' log (Kept None q1 q2 h c m1 m2) s' /\
    t_own t' ⊆ t_own t /\ (is_attached shm = true -> ok = true -> t_own t' = t_own t ∖ {[+ Mapping +]})) s.
Proof using Hsteady Hnn Hothers.
  intros Hm P. unfold detach_memory. do 4 life_step. apply wp_bind.
  eapply (wp_mono _ (fun (r : bool * SharedMemory) s' => exists t', at_ t' log (Kept (Some shm) q1 q2 h c m1 m2) s' /\
    if is_attached shm then
      if r.1 then is_attached r.2 = false /\ t_own t' = t_own t ∖ {[+ Mapping +]}
      else r.2 = shm /\ t_own t' = t_own t
    else r = (true, shm) /\ t_own t' = t_own t)).
  { destruct (is_attached shm) eqn:Es; [|apply wp_ret; by exists t].
    eapply (wp_in_world_at _ (fun (r : bool * SharedMemory) t' => if r.1 then is_attached r.2 = false /\ t_own t' = t_own t ∖ {[+ Mapping +]}
      else r.2 = shm /\ t_own t' = t_own t)); [exact P| |].
    - intros w Hw. eapply wp_mono; [by apply (detach_at Hsteady Hnn shm t)|]. by rewrite Es.
    - intros r t' s' Hr P'. by exists t'. }
  clear P. intros [ok o] s1 (t1 & P & Hr). cbn [fst snd] in Hr. apply wp_bind.
  eapply (wp_mono _ (fun _ s' => at_ t1 log (Kept (Some shm) q1 q2 h c m1 m2) s')); [destruct (negb _); [life_step; exact P|by apply wp_ret]|].
  clear P. intros _u s2 P. apply wp_bind. eapply wp_in_world_at; [exact P|intros w Hw; apply (delete_at Hsteady Hnn o t1); [|done]|].
  { destruct (is_attached shm); [destruct ok; [by left; apply Hr|right; destruct Hr as [_ ->]; done]|].
    destruct Hr as [_ ->]. by right. }
  clear P. intros _v t2 s3 [H1 H2] P. do 3 life_step. exists t2. split; [done|]. split.
  - etransitivity; [exact H2|]. destruct (is_attached shm); [destruct ok|]; destruct Hr as [_ ->]; multiset_solver.
  - intros Es ->. rewrite Es in Hr. destruct Hr as [Ho E]. by rewrite (H1 Ho), E.
Qed.

Lemma tcp_shutdown_spec t log shm q1 q2 s : is_attached shm = true -> 
  t_own t = synchronized (queue_semaphore (Some q2) ⊎ (queue_semaphore (Some q1) ⊎ {[+ Mapping +]})) ->
  at_ t log (attached shm q1 q2 true true true) s ->
  wp shutdown (fun ok s' => exists t' c m1 m2, at_ t' (-1) (Kept None None None None c m1 m2) s' /\
    passive (t_own t') /\ (ok = true -> t_own t' = ∅)) s.
Proof using Hsteady Hnn Hothers.
  intros Hshm Hown P. unfold shutdown. do 5 life_step.
  eapply wp_mono; [eapply (destroy_at _ Condition _ _ _ (fun k => Kept (k_shared_memory k) (k_request_queue k)
    (k_response_queue k) (k_header k) false (k_request_mutex k) (k_clients_mutex k)));
    [done|done|rewrite Hown; unfold synchronized; multiset_solver|exact P]|].
  clear P. intros ok1 s1 (t1 & P & E1). rewrite Hown in E1.
  assert (at_ t1 log (attached shm q1 q2 (negb ok1) true true) s1) as P1 by by destruct ok1. clear P. rename P1 into P.
  do 3 life_step.
  eapply wp_mono; [eapply (destroy_at _ (Mutex request_queue_mutex) _ _ _ (fun k => Kept (k_shared_memory k) (k_request_queue k)
    (k_response_queue k) (k_header k) (k_condition k) false (k_clients_mutex k)));
    [done|done|rewrite E1; unfold synchronized; destruct ok1; multiset_solver|exact P]|].
  clear P. intros ok2 s2 (t2 & P & E2). assert (at_ t2 log (attached shm q1 q2 (negb ok1) (negb ok2) true) s2) as P1 by by destruct ok2. clear P. rename P1 into P.
  do 3 life_step.
  eapply wp_mono; [eapply (destroy_at _ (Mutex clients_mutex) _ _ _ (fun k => Kept (k_shared_memory k) (k_request_queue k)
    (k_response_queue k) (k_header k) (k_condition k) (k_request_mutex k) false));
    [done|done|rewrite E2, E1; unfold synchronized; destruct ok1, ok2; multiset_solver|exact P]|].
  clear P. intros ok3 s3 (t3 & P & E3). assert (at_ t3 log (attached shm q1 q2 (negb ok1) (negb ok2) (negb ok3)) s3) as P1 by by destruct ok3.
  clear P. rename P1 into P. 
  destruct (unsynchronized _ _ _ _ _ _ _ E1 E2 E3) as (left & E & Hleft & Hok). clear E1 E2 E3 Hown t t1 t2.
  do 5 life_step. eapply wp_mono; [eapply delete_queue_at; [|exact P]; rewrite E; multiset_solver|].
  clear P. intros _u s4 (t4 & P & E4). rewrite E in E4.
  do 5 life_step. eapply wp_mono; [eapply delete_queue_at; [|exact P]; rewrite E4; multiset_solver|].
  clear P. intros _v s5 (t5 & P & E5). rewrite E4 in E5.
  do 5 life_step. eapply wp_mono; [eapply detach_memory_at; [|exact P]; rewrite E5; multiset_solver|].
  clear P. intros ok4 s6 (t6 & P & E6 & Hok4). rewrite E5 in E6, Hok4. cbv zeta. apply wp_bind.
  eapply (wp_mono _ (fun _ s' => at_ t6 log (Kept None None None None (negb ok1) (negb ok2) (negb ok3)) s'));
    [destruct (ok1 && ok2 && ok3 && ok4); life_step; exact P|].
  clear P. intros _w s7 P. apply wp_bind. eapply wp_mono; [by eapply logger_close_at|]. clear P. intros _x s8 P.
  apply wp_ret. do 4 eexists. split; [exact P|]. split.
  - eapply passive_subseteq; [exact E6|]. eapply (passive_subseteq ({[+ Mapping +]} ⊎ left)); [multiset_solver|].
    by apply passive_obtain.
  - intros [Hok' ->]%andb_prop. rewrite (Hok4 Hshm eq_refl), (Hok Hok'). multiset_solver.
Qed.

(** ** The process *)

(** What the process leaves when it ends with status [r]: every thread it has
    created is joined, SIGINT is not blocked, the log is closed; with status 0
    it has given everything back. *)
Definition left_behind (r : Z) (s : tcp_process) : Prop := exists own,
  owned (tcp_world s) = Some own /\ (r = 0 \/ r = 1) /\ (forall h, (Worker h ∉ own)) /\ (BlockedSignal ∉ own) /\
  tcp_log_fd s = -1 /\ (r = 0 -> own = ∅).

Lemma at_left_behind t k r s : at_ t (-1) k s -> r = 0 \/ r = 1 -> passive (t_own t) -> (r = 0 -> t_own t = ∅) ->
  left_behind r s.
Proof using. intros [[Ho _ _] _ Hlog _] Hr [Hp1 Hp2] Hzero. by exists (t_own t). Qed.

Lemma tcp_main_spec fuel t log s : (attach_tries <= fuel)%nat -> (n < fuel)%nat -> t_own t = ∅ -> 0 <= t_floor t ->
  at_ t log fresh s ->
  wdp (main fuel) left_behind s /\ ((forall s, wp run (fun _ _ => True) s) -> wp (main fuel) left_behind s).
Proof using Hsteady Hnn Hothers.
  intros Hf1 Hf2 Hown Hfloor P.
  assert (forall shm q1 q2 t1 log1 t2 s2, is_attached shm = true ->
    t_own t1 = synchronized (queue_semaphore (Some q2) ⊎ (queue_semaphore (Some q1) ⊎ {[+ Mapping +]})) ->
    at_ t2 log1 (attached shm q1 q2 true true true) s2 -> t_own t2 = t_own t1 ->
    wp (ok ← shutdown; delete_TcpServer;; if negb ok then mret 1 else mret 0) left_behind s2) as Hdown.
  { intros shm q1 q2 t1 log1 t2 s2 Hshm E1 P2 E2. rewrite E1 in E2. apply wp_bind.
    eapply wp_mono; [by eapply tcp_shutdown_spec|]. clear P2.
    intros ok s3 (t3 & c & m1 & m2 & P3 & Hp & E3). apply wp_bind. eapply wp_mono; [by eapply logger_close_at|]. clear P3.
    intros _v s4 P4. destruct ok; cbn [negb]; apply wp_ret; (eapply at_left_behind; [exact P4|by auto|done|by auto]). }
  pose proof (tcp_initialize_spec fuel t log s Hf1 Hf2 Hown Hfloor P) as Hup. clear P. unfold main.
  assert (forall Q : bool -> tcp_process -> Prop, (forall (ok : bool) s1 t1 log1 k1, at_ t1 log1 k1 s1 ->
    (if ok then exists shm q1 q2, is_attached shm = true /\ k1 = attached shm q1 q2 true true true /\
      t_own t1 = synchronized (queue_semaphore (Some q2) ⊎ (queue_semaphore (Some q1) ⊎ {[+ Mapping +]}))
     else passive (t_own t1)) -> Q ok s1) -> wp (initialize fuel) Q s) as Hinit.
  { intros Q HQ. eapply wp_mono; [exact Hup|]. intros ok s1 (t1 & log1 & k1 & P & Hok). by eapply HQ. }
  assert (forall s1 t1 log1 k1, at_ t1 log1 k1 s1 -> passive (t_own t1) -> wp (delete_TcpServer;; mret 1) left_behind s1) as Hfail.
  { intros s1 t1 log1 k1 P Hp. apply wp_bind. eapply wp_mono; [by eapply logger_close_at|]. clear P. intros _u s2 P.
    apply wp_ret. eapply at_left_behind; [exact P|by right|done|done]. }
  split; [|intros Hrun].
  - apply wdp_bind, wp_wdp, Hinit. intros ok s1 t1 log1 k1 P Hok. destruct ok; cbn [negb]; [|by eapply wp_wdp, Hfail].
    destruct Hok as (shm & q1 & q2 & Hshm & -> & E1). apply wdp_bind. eapply wdp_mono; [by eapply run_spec|].
    intros _u s2 (t2 & P2 & E2). by eapply wp_wdp, Hdown.
  - apply wp_bind, Hinit. intros ok s1 t1 log1 k1 P Hok. destruct ok; cbn [negb]; [|by eapply Hfail].
    destruct Hok as (shm & q1 & q2 & Hshm & -> & E1). apply wp_bind.
    eapply wp_mono; [apply wp_wdp_conj; [apply Hrun|by eapply run_spec]|].
    intros _u s2 [_ (t2 & P2 & E2)]. by eapply Hdown.
Qed.
End Life.

(** ** When the threads end *)

(** The waiting writer was woken after it was created. *)
Fixpoint signalled (w : world) : bool :=
  match w with
  | (sys_cond_broadcast _, _) :: _ => true
  | (sys_thread_create request_writer, _) :: _ => false
  | _ :: w => signalled w
  | [] => false
  end.

Fixpoint shut_down (fd : Z) (w : world) : bool :=
  match w with
  | (sys_shutdown fd', _) :: w => (fd =? fd') || shut_down fd w
  | _ :: w => shut_down fd w
  | [] => false
  end.

(** The threads end when they are told to: all look at [running_], but the
    writer only when it is woken, and the server thread when the listening
    socket is shut down (and no client keeps it in [recv]).  The others do not
    take the message back. *)
Record threads_listen `{!OtherThreads} `{!Threads} : Prop := {
  tl_writer : forall s, running_ (this s) = false -> signalled (tcp_world s) = true -> ends request_writer s = true;
  tl_reader : forall s, running_ (this s) = false -> ends response_reader s = true;
  tl_server : forall s, running_ (this s) = false ->
    server_socket_ (this s) = -1 \/ shut_down (server_socket_ (this s)) (tcp_world s) = true ->
    ends tcp_server s = true;
  tl_stopped : forall s, running_ (this s) = false -> running_ (this (others s)) = false;
  tl_signalled : forall s, signalled (tcp_world s) = true -> signalled (tcp_world (others s)) = true;
}.

Section Ends.
Context `{Environment} `{!OtherThreads} `{!Threads}.
Implicit Types s : tcp_process.

Lemma wp_call_world c (Q : Z -> tcp_process -> Prop) s :
  (forall s', this s' = this s -> tcp_world s' = (c, respond (tcp_world s) c) :: tcp_world s ->
    Q (ans_ret (respond (tcp_world s) c)) s') -> wp (TcpServer.call c) Q s.
Proof. intros HQ. by apply HQ. Qed.

Lemma wp_call_world_ c (Q : unit -> tcp_process -> Prop) s :
  (forall s', this s' = this s -> tcp_world s' = (c, respond (tcp_world s) c) :: tcp_world s -> Q tt s') ->
  wp (TcpServer.call_ c) Q s.
Proof. intros HQ. by apply HQ. Qed.

Lemma wp_blocking_world c (Q : Z -> tcp_process -> Prop) s :
  (forall s', this s' = this s -> tcp_world s' = (c, respond (tcp_world s) c) :: tcp_world s ->
    Q (ans_ret (respond (tcp_world s) c)) (others s')) -> wp (blocking c) Q s.
Proof. intros HQ. by apply HQ. Qed.

Definition woken s : Prop := running_ (this s) = false /\ signalled (tcp_world s) = true.

(** A call other than the creation of the writer leaves it woken. *)
Lemma woken_call c a s s' : c <> sys_thread_create request_writer ->
  this s' = this s -> tcp_world s' = (c, a) :: tcp_world s -> woken s -> woken s'.
Proof. intros Hc Ht Hw [Hr Hs]. split; [by rewrite Ht|]. rewrite Hw. destruct c; try done.
  by match goal with h : thread |- _ => destruct h end.
Qed.

Ltac stay_woken Ht Hw W := eapply woken_call; [|exact Ht|exact Hw|exact W]; discriminate.

Lemma woken_others s : threads_listen -> woken s -> woken (others s).
Proof. intros Hl [Hr Hs]. split; [by apply (tl_stopped Hl)|by apply (tl_signalled Hl)]. Qed.

Lemma join_woken h m s : threads_listen -> ends h s = true -> woken s -> wp (join h m) (fun _ s' => woken s') s.
Proof.
  intros Hl He Hw. unfold join. apply wp_bind, wp_get. rewrite He. apply wp_bind, wp_blocking_world. intros s' Ht Hs'.
  assert (woken (others s')) as Hw'
    by (apply woken_others; [done|stay_woken Ht Hs' Hw]).
  destruct (negb _); [|by apply wp_ret]. apply wp_call_world_. intros s2 Ht2 Hs2. stay_woken Ht2 Hs2 Hw'.
Qed.

Lemma run_stop_returns s : threads_listen ->
  (forall w, ans_ret (respond w (sys_mutex_lock request_queue_mutex)) = 0) -> wp run_stop (fun _ _ => True) s.
Proof.
  intros Hl Hlock. unfold run_stop. apply wp_bind, wp_call_world_. intros s1 _ _.
  apply wp_bind, wp_blocking_world. intros s2 _ _.
  apply wp_bind. eapply (wp_mono _ (fun _ _ => True)); [by destruct (negb _); apply wp_call_world_|]. intros _u s3 _.
  apply wp_bind, wp_modify, wp_bind, wp_blocking_world. cbn [this set_field tcp_process_fields TcpServer_fields tcp_world].
  intros s4 Ht4 _. rewrite Hlock. cbn [Z.eqb].
  assert (running_ (this (others s4)) = false) as Hr4 by (apply (tl_stopped Hl); by rewrite Ht4).
  apply wp_bind, wp_bind, wp_call_world_. intros s5 Ht5 Hw5.
  assert (woken s5) as W5 by (split; [by rewrite Ht5|by rewrite Hw5]).
  apply wp_call_world_. intros s6 Ht6 Hw6. assert (woken s6) as W6 by (stay_woken Ht6 Hw6 W5).
  apply wp_bind, wp_call_world_. intros s7 Ht7 Hw7. assert (woken s7) as W7 by (stay_woken Ht7 Hw7 W6).
  apply wp_bind, wp_gets, wp_bind.
  eapply (wp_mono _ (fun _ s8 => woken s8 /\ (server_socket_ (this s8) = -1 \/ shut_down (server_socket_ (this s8)) (tcp_world s8) = true))).
  { destruct (Z.eqb_spec (server_socket_ (this s7)) (-1)) as [E|E]; cbn [negb]; [apply wp_ret; by auto|].
    apply wp_call_world_. intros s8 Ht8 Hw8. split; [stay_woken Ht8 Hw8 W7|right].
    rewrite Ht8, Hw8. cbn. by rewrite Z.eqb_refl. }
  intros _v s8 [W8 Hsock]. apply wp_bind.
  eapply wp_mono; [apply join_woken; [done|apply (tl_server Hl); [apply W8|done]|done]|]. intros _w s9 W9. apply wp_bind.
  eapply wp_mono; [apply join_woken; [done|apply (tl_writer Hl); apply W9|done]|]. intros _x s10 W10. apply wp_bind.
  eapply wp_mono; [apply join_woken; [done|apply (tl_reader Hl); apply W10|done]|]. intros _y s11 _.
  apply wp_bind, wp_call_world. intros s12 _ _. apply wp_bind.
  eapply (wp_mono _ (fun _ _ => True)); [by destruct (negb _); [apply wp_call_world_|apply wp_ret]|].
  intros _z s13 _. by apply wp_call_world_.
Qed.

Lemma join_ends h m s : (forall h s, ends h s = true) -> wp (join h m) (fun _ _ => True) s.
Proof.
  intros He. unfold join. apply wp_bind, wp_get. rewrite He. apply wp_bind, wp_blocking_world. intros s' _ _.
  destruct (negb _); [by apply wp_call_world_|by apply wp_ret].
Qed.

(** One step of [run], where nothing is kept track of. *)
Ltac run_step :=
  cbv beta;
  match goal with
  | |- wp (if negb (?r =? 0) then _ else _) _ _ => destruct (r =? 0) eqn:?; cbn [negb]
  | |- wp (if _ then _ else _) _ _ => apply wp_if; intros ?
  | |- wp (mbind _ _) _ _ => apply wp_bind
  | |- wp (mret _) _ _ => apply wp_ret
  | |- wp (assign _) _ _ => apply wp_modify
  | |- wp (field _) _ _ => apply wp_gets
  | |- wp (TcpServer.call _) _ _ => apply wp_call_world; intros ? ? ?
  | |- wp (TcpServer.call_ _) _ _ => apply wp_call_world_; intros ? ? ?
  | |- wp (blocking _) _ _ => apply wp_blocking_world; intros ? ? ?
  | |- wp (log_info _) _ _ => apply wp_call_world_; intros ? ? ?
  | |- wp (log_error _) _ _ => apply wp_call_world_; intros ? ? ?
  | |- wp (join _ _) _ _ => eapply wp_mono; [apply join_ends; assumption|intros ? ? _]
  end.

Lemma run_returns s : threads_listen ->
  (forall w, ans_ret (respond w (sys_mutex_lock request_queue_mutex)) = 0) ->
  (forall w h, h = response_reader \/ h = tcp_server -> ans_ret (respond w (sys_thread_create h)) = 0) ->
  wp run (fun _ _ => True) s.
Proof.
  intros Hl Hlock Hnew. unfold run. apply wp_bind. eapply (wp_mono _ (fun _ _ => True)).
  - unfold run_start. repeat (rewrite ?Hnew by auto; run_step); done.
  - intros [] s' _; cbn [negb]; [by apply run_stop_returns|by apply wp_ret].
Qed.

Lemma run_ends s : (forall h s, ends h s = true) -> wp run (fun _ _ => True) s.
Proof. intros He. unfold run, run_start, run_stop. repeat run_step; done. Qed.

(** *** Waiting for ever *)
Lemma bind_waits {A B} (m : M tcp_process A) (f : A -> M tcp_process B) s : m s = OutOfFuel -> (m ≫= f) s = OutOfFuel.
Proof. unfold mbind, M_bind. by intros ->. Qed.

Lemma bind_then_waits {A B} (m : M tcp_process A) (f : A -> M tcp_process B) s :
  wp m (fun a s' => f a s' = OutOfFuel) s -> (m ≫= f) s = OutOfFuel.
Proof. unfold wp, mbind, M_bind. by destruct (m s) as [[a s']| |]. Qed.

Lemma join_waits h m s : ends h s = false -> join h m s = OutOfFuel.
Proof. intros He. unfold join. apply bind_then_waits, wp_get. by rewrite He. Qed.

Lemma start_waits late s : (if late is response_reader then True else late = tcp_server) ->
  (forall w c, match c with sys_sigemptyset | sys_sigaddset _ | sys_sigmask _ => True
               | sys_thread_create h => h <> late | _ => False end -> ans_ret (respond w c) = 0) ->
  (forall w, ans_ret (respond w (sys_thread_create late)) <> 0) ->
  (forall s, signalled (tcp_world s) = false -> ends request_writer s = false) ->
  run_start s = OutOfFuel.
Proof.
  intros Hlate Hok Hfail Hwait. unfold run_start.
  apply bind_then_waits, wp_call_world. intros s1 _ _. rewrite Hok by done. cbn [Z.eqb negb].
  apply bind_then_waits, wp_call_world. intros s2 _ _. rewrite Hok by done. cbn [Z.eqb negb].
  apply bind_then_waits, wp_call_world. intros s3 _ _. rewrite Hok by done. cbn [Z.eqb negb].
  apply bind_then_waits, wp_modify. apply bind_then_waits, wp_call_world. intros s4 _ Hw4.
  rewrite Hok by (by destruct late). cbn [Z.eqb negb].
  assert (signalled (tcp_world s4) = false) as W4 by (by rewrite Hw4).
  apply bind_then_waits, wp_call_world_. intros s5 _ Hw5. assert (signalled (tcp_world s5) = false) as W5 by (by rewrite Hw5).
  apply bind_then_waits, wp_call_world. intros s6 _ Hw6. assert (signalled (tcp_world s6) = false) as W6 by (by rewrite Hw6).
  destruct (Z.eqb_spec (ans_ret (respond (tcp_world s5) (sys_thread_create response_reader))) 0) as [E|E]; cbn [negb].
  2: { apply bind_then_waits, wp_call_world_. intros s7 _ Hw7. apply bind_then_waits, wp_modify, bind_waits, join_waits, Hwait.
       cbn. by rewrite Hw7. }
  assert (late = tcp_server) as -> by (destruct late; done || by destruct (Hfail _ E)).
  apply bind_then_waits, wp_call_world_. intros s7 _ Hw7. assert (signalled (tcp_world s7) = false) as W7 by (by rewrite Hw7).
  apply bind_then_waits, wp_call_world. intros s8 _ Hw8. rewrite (proj2 (Z.eqb_neq _ _) (Hfail _)). cbn [negb].
  apply bind_then_waits, wp_call_world_. intros s9 _ Hw9. apply bind_then_waits, wp_modify, bind_waits, join_waits, Hwait.
  cbn. by rewrite Hw9, Hw8.
Qed.

(** A writer that is told to stop and woken leaves its loop, and a reader that
    is told to stop leaves its own. *)
Lemma told_threads_leave fuel s :
  (forall s, running_ (this s) = false -> request_queue_ (this s) = [] ->
    running_ (this (others s)) = false /\ request_queue_ (this (others s)) = []) ->
  running_ (this s) = false -> request_queue_ (this s) = [] ->
  wp (request_writer_round fuel) (fun again _ => again = false) s /\
  wp (response_reader_loop fuel) (fun _ _ => True) s.
Proof.
  intros Ho Hr Hq. split.
  - unfold request_writer_round. apply wp_bind, wp_blocking_world. intros s1 Ht1 _.
    destruct (Ho s1) as [Hr1 Hq1]; [by rewrite Ht1..|].
    destruct (negb _); [by apply wp_bind, wp_call_world_; intros; apply wp_ret|].
    apply wp_bind. eapply (wp_mono _ (fun r s2 => r = 0 /\ s2 = others s1)).
    { destruct fuel; cbn [wait_for_request]; apply wp_bind, wp_gets, wp_bind, wp_gets; rewrite Hq1, Hr1; by apply wp_ret. }
    intros r s2 [-> ->]. cbn [Z.eqb negb]. apply wp_bind, wp_gets, wp_bind, wp_gets. rewrite Hq1, Hr1. cbn [negb andb].
    change (bool_decide ([] = [])) with true. cbv iota. apply wp_bind, wp_call_world. intros s3 _ _. apply wp_bind.
    eapply (wp_mono _ (fun _ _ => True)); [by destruct (negb _); [apply wp_call_world_|apply wp_ret]|].
    intros _u s4 _. by apply wp_ret.
  - unfold response_reader_loop. apply wp_bind, wp_call_world_. intros s1 Ht1 _. apply wp_bind.
    assert (wp (while_running fuel (response_reader_round fuel)) (fun _ _ => True) s1) as Hloop.
    { destruct fuel; cbn [while_running]; apply wp_bind, wp_gets; rewrite Ht1, Hr; by apply wp_ret. }
    eapply wp_mono; [exact Hloop|]. intros _u s2 _. by apply wp_call_world_.
Qed.
End Ends.

(** C19: the TcpServer from start to end.  Its clock is steady, the other
    threads and processes keep their hands off its resources, and Database
    announces its queues after at most [n] pauses; otherwise the system may
    answer as it likes, and the worker threads end or not.  Nothing the program
    does is undefined, and the only thing it can wait for without end is a
    thread it joins.  When it comes to its end, it has never given back what it
    did not hold nor removed the segment; every thread it created has been
    joined, SIGINT is no longer blocked and the log is closed; and if its exit
    status is 0 it has given back everything: mapping, semaphores, mutexes,
    condition variable.  It does come to its end when threads end that are told
    to stop and woken, and the system starts them and locks the mutex. *)
Theorem tcp_server_life `{Environment} `{!OtherThreads} `{!Threads} (n fuel : nat) (s : tcp_process) :
  steady _ -> shmat_not_null _ -> start_others n -> (attach_tries <= fuel)%nat -> (n < fuel)%nat ->
  this s = new_TcpServer -> tcp_world s = [] -> length (tcp_segment s) = Z.to_nat IPC_SHARED_MEMORY_SIZE ->
  wdp (main fuel) left_behind s /\
  (threads_listen ->
   (forall w, ans_ret (respond w (sys_mutex_lock request_queue_mutex)) = 0) ->
   (forall w h, h = response_reader \/ h = tcp_server -> ans_ret (respond w (sys_thread_create h)) = 0) ->
   wp (main fuel) left_behind s) /\
  ((forall h s, ends h s = true) -> wp (main fuel) left_behind s).
Proof.
  intros Hsteady Hnn Hothers Hf1 Hf2 Hthis Hworld Hlen.
  destruct (tcp_main_spec Hsteady Hnn n Hothers fuel (Tally ∅ 0 0) (tcp_log_fd s) s) as [Hsafe Hreturns]; [done..| |].
  { split; [rewrite Hworld; by split|done|done|by rewrite Hthis]. }
  split; [exact Hsafe|]. split.
  - intros Hl Hlock Hnew. apply Hreturns. intros s'. by apply run_returns.
  - intros Hends. apply Hreturns. intros s'. by apply run_ends.
Qed.

(** C35: a start that fails half way.  When the response reader or the server
    thread cannot be created, [run] joins the request writer without waking it;
    a writer that waits until it is woken never ends, and neither does the
    program: [run] does not return, and [main] only returns where [initialize]
    has failed.  (SIGINT is blocked at this point, so Ctrl-C does not end it.) *)
Theorem failed_start_never_ends `{Environment} `{!OtherThreads} `{!Threads} (late : thread) :
  late = response_reader \/ late = tcp_server ->
  (forall w c, match c with sys_sigemptyset | sys_sigaddset _ | sys_sigmask _ => True
               | sys_thread_create h => h <> late | _ => False end -> ans_ret (respond w c) = 0) ->
  (forall w, ans_ret (respond w (sys_thread_create late)) <> 0) ->
  (forall s, signalled (tcp_world s) = false -> ends request_writer s = false) ->
  (forall s, run s = OutOfFuel) /\
  (forall fuel s r s', main fuel s = Ret (r, s') -> exists s1, initialize fuel s = Ret (false, s1)).
Proof.
  intros Hlate Hok Hfail Hwait.
  assert (forall s, run s = OutOfFuel) as Hrun.
  { intros s. apply bind_waits, (start_waits late); try done. by destruct Hlate as [-> | ->]. }
  split; [exact Hrun|]. intros fuel s r s' E. unfold main in E. unfold mbind at 1, M_bind at 1 in E.
  destruct (initialize fuel s) as [[[] s1]| |] eqn:Ei; try done; [|by eexists].
  cbn [negb] in E. unfold mbind at 1, M_bind at 1 in E. by rewrite Hrun in E.
Qed.

(** ** At work *)

(** A system where every call succeeds, with an empty configuration file. *)
Definition willing : Environment := fun w c =>
  match c with
  | sys_clock => ok (clock_floor w)
  | sys_fopen _ | sys_socket => ok 1
  | sys_shmat _ => ok 4096
  | sys_sem_open _ | sys_open _ _ => ok 3
  | _ => ok 0
  end.

(** Database announces its queues at the first pause. *)
Definition announce (m : list byte) : list byte :=
  match mem_write m 0 (le_bytes 4 READY ++ le_bytes 4 READY) with Some m' => m' | None => m end.
Definition announcing : TcpServer.OtherThreads := fun s => s <| tcp_segment ::= announce |>.

Lemma announce_announced m : length m = Z.to_nat IPC_SHARED_MEMORY_SIZE -> announced (announce m).
Proof.
  change (Z.to_nat IPC_SHARED_MEMORY_SIZE) with 4184%nat. intros Hm. unfold announce.
  rewrite mem_write_Some by (rewrite Hm; cbn; lia). cbn [take app].
  split; (rewrite mem_read_Some by (rewrite !length_app, !length_le_bytes, length_drop, Hm; vm_compute; lia)); reflexivity.
Qed.

Lemma announcing_others : @start_others announcing 0.
Proof.
  split; intros s; try done; cbn.
  - unfold announce. destruct (mem_write _ _ _) eqn:E; [by apply mem_write_length in E|done].
  - intros Hl _. by apply announce_announced.
Qed.

Definition start_process : tcp_process := TcpProcess new_TcpServer created_segment (-1) 0 [].

(** Threads that end exactly when they are told to. *)
Definition listening : TcpServer.Threads := fun h s =>
  negb (running_ (this s)) &&
  match h with
  | request_writer => signalled (tcp_world s)
  | tcp_server => (server_socket_ (this s) =? -1) || shut_down (server_socket_ (this s)) (tcp_world s)
  | _ => true
  end.

Lemma listening_listen : @threads_listen announcing listening.
Proof.
  split; try done; unfold ends, listening.
  - by intros s -> ->.
  - by intros s ->.
  - intros s -> [->| ->]; [done|]. by rewrite orb_true_r.
Qed.

(** It comes up, runs and goes down. *)
Example willing_run :
  match @main willing announcing listening 101 start_process with Ret (r, s') => (r, calls is_sleep (tcp_world s')) | _ => (1, 0%nat) end
    = (0, 1%nat).
Proof. vm_compute. reflexivity. Qed.

Lemma tcp_server_life_witness : wp (@main willing announcing listening 101) left_behind start_process.
Proof.
  refine (proj1 (proj2 (@tcp_server_life willing announcing listening 0 101 start_process _ _ _ _ _ _ _ _)) _ _ _).
  - intros w. cbn. lia.
  - intros w i. discriminate.
  - exact announcing_others.
  - vm_compute. lia.
  - lia.
  - reflexivity.
  - reflexivity.
  - reflexivity.
  - exact listening_listen.
  - reflexivity.
  - intros w h [-> | ->]; reflexivity.
Defined.

(** The system has no thread left for the response reader. *)
Definition crowded : Environment := fun w c =>
  match c with sys_thread_create response_reader => ok 11 | _ => willing w c end.

Lemma failed_start_never_ends_witness :
  @run crowded announcing listening start_process = OutOfFuel /\
  @initialize crowded announcing 101 start_process <> OutOfFuel /\
  @main crowded announcing listening 101 start_process = OutOfFuel.
Proof.
  split; [|split; [vm_compute; discriminate|vm_compute; reflexivity]].
  refine (proj1 (@failed_start_never_ends crowded announcing listening response_reader _ _ _ _) start_process).
  - by left.
  - intros w [] Hc; try done. by destruct t.
  - discriminate.
  - intros s E. unfold ends, listening. rewrite E. apply andb_false_r.
Defined.
