(* ===== verification/TcpMessages.v ===== *)
(** TcpMessages: what the TcpServer does with the messages: a request read
    from a socket is queued and its sender remembered; a response goes to the
    sender of its request. *)

From S2P Require Import Prelude Machine CLib Posix IpcProtocol SharedMemory SharedQueue TcpServer TcpSockets.

(** ** The traffic of a history *)
Fixpoint received_on (fd : Z) (w : world) : list byte :=
  match w with
  | [] => []
  | (sys_recv fd' _, a) :: w =>
      received_on fd w ++ (if (fd' =? fd) && (0 <? ans_ret a) then take (Z.to_nat (ans_ret a)) (ans_data a) else [])
  | _ :: w => received_on fd w
  end.

Fixpoint sent_on (fd : Z) (w : world) : list byte :=
  match w with
  | [] => []
  | (sys_send fd' data _, a) :: w =>
      sent_on fd w ++ (if (fd' =? fd) && (0 <? ans_ret a) then take (Z.to_nat (ans_ret a)) data else [])
  | _ :: w => sent_on fd w
  end.

(** Signals interrupt [recv] and [send]. *)
Definition interrupted (c : syscall) (a : answer) : bool :=
  match c with
  | sys_recv _ _ | sys_send _ _ _ => (ans_ret a =? -1) && (ans_errno a =? EINTR)
  | _ => false
  end.
Abbreviation interrupts := (succeeded interrupted).

(** [recv] and [send] transfer at least one byte and at most what was asked
    for, or fail; signals interrupt them at most [limit] times. *)
Definition transfers (env : Environment) (limit : nat) : Prop :=
  (forall w fd k, let a := respond w (sys_recv fd k) in
     ans_ret a = 0 \/ (ans_ret a = -1 /\ (ans_errno a = EINTR -> (interrupts w < limit)%nat)) \/
     (0 < ans_ret a <= k /\ Z.of_nat (length (ans_data a)) = ans_ret a)) /\
  (forall w fd data f, let a := respond w (sys_send fd data f) in
     (ans_ret a = -1 /\ (ans_errno a = EINTR -> (interrupts w < limit)%nat)) \/
     0 < ans_ret a <= Z.of_nat (length data)).

(** The pthread calls of the threads succeed. *)
Definition tcp_pthreads_work (env : Environment) : Prop := forall w,
  ans_ret (respond w (sys_mutex_lock clients_mutex)) = 0 /\
  ans_ret (respond w (sys_mutex_unlock clients_mutex)) = 0 /\
  ans_ret (respond w (sys_mutex_lock request_queue_mutex)) = 0 /\
  ans_ret (respond w (sys_mutex_unlock request_queue_mutex)) = 0 /\
  ans_ret (respond w (sys_cond_signal request_queue_condition)) = 0.

(** Histories that differ by [recv] on [fd], of [bytes] in all. *)
Definition only_received (fd : Z) (bytes : list byte) (w w' : world) : Prop :=
  (interrupts w <= interrupts w')%nat /\ (forall x, sent_on x w' = sent_on x w) /\
  forall x, received_on x w' = received_on x w ++ (if fd =? x then bytes else []).

Definition only_sent (fd : Z) (bytes : list byte) (w w' : world) : Prop :=
  (interrupts w <= interrupts w')%nat /\ (forall x, received_on x w' = received_on x w) /\
  forall x, sent_on x w' = sent_on x w ++ (if fd =? x then bytes else []).

(** Histories with the same traffic. *)
Definition no_traffic (w w' : world) : Prop :=
  interrupts w' = interrupts w /\ forall x, sent_on x w' = sent_on x w /\ received_on x w' = received_on x w.

Lemma no_traffic_refl w : no_traffic w w.
Proof. done. Qed.

Lemma no_traffic_trans w1 w2 w3 : no_traffic w1 w2 -> no_traffic w2 w3 -> no_traffic w1 w3.
Proof.
  intros [I1 T1] [I2 T2]. split; [congruence|]. intros x. destruct (T1 x), (T2 x). split; congruence.
Qed.

Lemma only_received_app fd b1 b2 w1 w2 w3 :
  only_received fd b1 w1 w2 -> only_received fd b2 w2 w3 -> only_received fd (b1 ++ b2) w1 w3.
Proof.
  intros (I1 & S1 & R1) (I2 & S2 & R2). split; [lia|]. split; [intros x; by rewrite S2|].
  intros x. rewrite R2, R1, <- (assoc_L (++)). by destruct (fd =? x).
Qed.

Lemma only_sent_app fd b1 b2 w1 w2 w3 :
  only_sent fd b1 w1 w2 -> only_sent fd b2 w2 w3 -> only_sent fd (b1 ++ b2) w1 w3.
Proof.
  intros (I1 & S1 & R1) (I2 & S2 & R2). split; [lia|]. split; [intros x; by rewrite S2|].
  intros x. rewrite R2, R1, <- (assoc_L (++)). by destruct (fd =? x).
Qed.

Lemma no_traffic_received fd w w' : no_traffic w w' -> only_received fd [] w w'.
Proof.
  intros [I T]. split; [lia|]. split; intros x; destruct (T x) as [Es Er]; [done|].
  rewrite Er. destruct (fd =? x); by rewrite app_nil_r.
Qed.

Lemma no_traffic_sent fd w w' : no_traffic w w' -> only_sent fd [] w w'.
Proof.
  intros [I T]. split; [lia|]. split; intros x; destruct (T x) as [Es Er]; [done|].
  rewrite Es. destruct (fd =? x); by rewrite app_nil_r.
Qed.

Section Transfers.
Context `{Environment} `{!OtherThreads} (limit : nat)
  (Hquiet : forall s : tcp_process, others s = s) (Htransfers : transfers _ limit).
Implicit Types s : tcp_process.

Lemma wp_waiting_quiet c (Q : answer -> tcp_process -> Prop) s :
  Q (respond (tcp_world s) c) (s <| tcp_world := (c, respond (tcp_world s) c) :: tcp_world s |>) ->
  wp (waiting c) Q s.
Proof using Hquiet.
  intros HQ. apply wp_bind, (wp_zoom tcp_world (fun w s => s <| tcp_world := w |>)), wp_sys.
  apply wp_bind, wp_modify, wp_ret. by rewrite Hquiet.
Qed.

Lemma wp_tcp_log l f (Q : unit -> tcp_process -> Prop) s :
  Q tt (s <| tcp_world := (sys_log l f, respond (tcp_world s) (sys_log l f)) :: tcp_world s |>) ->
  wp (in_world (sys_ (sys_log l f))) Q s.
Proof. intros HQ. by apply (wp_zoom tcp_world (fun w s => s <| tcp_world := w |>)), wp_sys_. Qed.

(** The loop over [recv] takes exactly the bytes of one request, in order. *)
Lemma receive_bytes_spec fuel fd received s :
  ((Z.to_nat sizeof_request - length received) + (limit - interrupts (tcp_world s)) < fuel)%nat ->
  (length received <= Z.to_nat sizeof_request)%nat ->
  wp (receive_bytes fuel fd received) (fun r s' => exists w bytes, s' = s <| tcp_world := w |> /\
    only_received fd bytes (tcp_world s) w /\
    match r with
    | Some b => b = received ++ bytes /\ Z.of_nat (length b) = sizeof_request
    | None => (length received + length bytes < Z.to_nat sizeof_request)%nat
    end) s.
Proof using Hquiet Htransfers.
  assert (sizeof_request = 64) as Hsize by reflexivity.
  revert received s. induction fuel as [|fuel IH]; intros received s Hfuel Hlen; [lia|]. cbn [receive_bytes].
  destruct (Z.ltb_spec (Z.of_nat (length received)) sizeof_request) as [Hlt|Hge].
  2: { apply wp_ret. exists (tcp_world s), []. split; [by destruct s|].
       split; [by apply no_traffic_received|]. rewrite app_nil_r. split; [done|lia]. }
  apply wp_bind, wp_waiting_quiet. destruct Htransfers as [Hrecv _].
  specialize (Hrecv (tcp_world s) fd (sizeof_request - Z.of_nat (length received))). cbn zeta in Hrecv.
  set (c := sys_recv fd _) in *. set (a := respond (tcp_world s) c) in *.
  assert (forall bytes, (if 0 <? ans_ret a then take (Z.to_nat (ans_ret a)) (ans_data a) else []) = bytes ->
    only_received fd bytes (tcp_world s) ((c, a) :: tcp_world s)) as Hone.
  { intros bytes E. split; [rewrite succeeded_cons; lia|]. split; [done|]. intros x. cbn [received_on c].
    destruct (fd =? x); cbn [andb]; [by rewrite E|done]. }
  destruct (Z.eqb_spec (ans_ret a) 0) as [E0|E0].
  { apply wp_bind, wp_tcp_log, wp_ret. eexists _, []. split; [reflexivity|].
    split; [|cbn [length]; lia]. apply Hone. by rewrite E0. }
  destruct Hrecv as [?|[[E1 Hlimit]|[Hr Hl]]]; [done| |].
  - rewrite E1 in Hone |- *. change (-1 =? -1) with true. cbv iota. specialize (Hone [] eq_refl).
    destruct (Z.eqb_spec (ans_errno a) EINTR) as [E2|E2].
    + specialize (Hlimit E2). eapply wp_mono; [apply IH; [|done]|].
      { cbn [tcp_world set_field tcp_process_fields]. rewrite succeeded_cons. cbn [interrupted c].
        rewrite E1, E2. change ((-1 =? -1) && (EINTR =? EINTR)) with true. cbv iota. lia. }
      intros r s' (w & bytes & -> & Hon & Hres). exists w, bytes. split; [done|]. split; [|done].
      by eapply (only_received_app _ []).
    + apply wp_bind, wp_tcp_log, wp_ret. eexists _, []. split; [reflexivity|].
      split; [|cbn [length]; lia]. apply Hone.
  - destruct (Z.eqb_spec (ans_ret a) (-1)) as [?|_]; [lia|].
    set (chunk := take (Z.to_nat (ans_ret a)) (ans_data a)) in *.
    assert (length chunk = Z.to_nat (ans_ret a)) as Hchunk by (unfold chunk; rewrite length_take; lia).
    rewrite (proj2 (Z.ltb_lt 0 _)) in Hone by lia. specialize (Hone chunk eq_refl).
    eapply wp_mono; [apply IH|].
    { cbn [tcp_world set_field tcp_process_fields]. rewrite succeeded_cons, length_app. lia. }
    { rewrite length_app. lia. }
    intros r s' (w & bytes & -> & Hon & Hres). exists w, (chunk ++ bytes). split; [done|].
    split; [by eapply only_received_app|]. rewrite !length_app in Hres |- *. rewrite (assoc_L (++)).
    destruct r; [done|lia].
Qed.

(** [send] on the socket can fail for a reason other than a signal. *)
Definition send_failure (fd : Z) : Prop := exists w data,
  ans_ret (respond w (sys_send fd data true)) = -1 /\ ans_errno (respond w (sys_send fd data true)) <> EINTR.

(** The loop over [send] puts a prefix of the response on the socket. *)
Lemma send_bytes_spec fuel fd response sent s :
  Z.of_nat (length response) = sizeof_response -> (sent <= length response)%nat ->
  ((length response - sent) + (limit - interrupts (tcp_world s)) < fuel)%nat ->
  wp (send_bytes fuel fd response sent) (fun n s' => exists w, s' = s <| tcp_world := w |> /\
    (sent <= n <= length response)%nat /\ (n = length response \/ send_failure fd) /\
    only_sent fd (take (n - sent) (drop sent response)) (tcp_world s) w) s.
Proof using Hquiet Htransfers.
  intros Hlen. revert sent s. induction fuel as [|fuel IH]; intros sent s Hsent Hfuel; [lia|].
  cbn [send_bytes]. destruct (Z.ltb_spec (Z.of_nat sent) sizeof_response) as [Hlt|Hge].
  2: { apply wp_ret. exists (tcp_world s). split; [by destruct s|]. split; [lia|].
       rewrite Nat.sub_diag, take_0. split; [left; lia|by apply no_traffic_sent]. }
  apply wp_bind, wp_waiting_quiet. destruct Htransfers as [_ Hsend].
  specialize (Hsend (tcp_world s) fd (drop sent response) true). cbn zeta in Hsend.
  set (c := sys_send fd _ _) in *. set (a := respond (tcp_world s) c) in *.
  assert (forall bytes, (if 0 <? ans_ret a then take (Z.to_nat (ans_ret a)) (drop sent response) else []) = bytes ->
    only_sent fd bytes (tcp_world s) ((c, a) :: tcp_world s)) as Hone.
  { intros bytes E. split; [rewrite succeeded_cons; lia|]. split; [done|]. intros x. cbn [sent_on c].
    destruct (fd =? x); cbn [andb]; [by rewrite E|done]. }
  destruct Hsend as [[E1 Hlimit]|Hr].
  - rewrite E1 in Hone |- *. change (-1 =? -1) with true. cbv iota. specialize (Hone [] eq_refl).
    destruct (Z.eqb_spec (ans_errno a) EINTR) as [E2|E2].
    + specialize (Hlimit E2). eapply wp_mono; [apply IH; [done|]|].
      { cbn [tcp_world set_field tcp_process_fields]. rewrite succeeded_cons. cbn [interrupted c].
        rewrite E1, E2. change ((-1 =? -1) && (EINTR =? EINTR)) with true. cbv iota. lia. }
      intros n s' (w & -> & Hn & Hf & Hon). exists w. do 3 (split; [done|]).
      by eapply (only_sent_app _ []).
    + apply wp_bind, wp_tcp_log, wp_ret. eexists. split; [reflexivity|]. split; [lia|].
      rewrite Nat.sub_diag, take_0. split; [right|exact Hone].
      exists (tcp_world s), (drop sent response). by split.
  - destruct (Z.eqb_spec (ans_ret a) (-1)) as [?|_]; [lia|].
    rewrite (proj2 (Z.ltb_lt 0 _)) in Hone by lia. specialize (Hone _ eq_refl).
    rewrite length_drop in Hr. eapply wp_mono; [apply IH|].
    { lia. }
    { cbn [tcp_world set_field tcp_process_fields]. rewrite succeeded_cons. lia. }
    intros n s' (w & -> & Hn & Hf & Hon). exists w. split; [done|]. split; [lia|]. split; [done|].
    pose proof (only_sent_app _ _ _ _ _ _ Hone Hon) as Happ. cbn [tcp_world set_field tcp_process_fields] in Happ.

    replace (n - sent)%nat with (Z.to_nat (ans_ret a) + (n - (sent + Z.to_nat (ans_ret a))))%nat by lia.
    by rewrite <- take_take_drop, drop_drop.
Qed.
End Transfers.

(** ** One request *)
Section Requests.
Context `{Environment} `{!OtherThreads} (limit : nat)
  (Hquiet : forall s : tcp_process, others s = s) (Htransfers : transfers _ limit)
  (Hpthreads : tcp_pthreads_work _).
Implicit Types s : tcp_process.

Lemma wp_blocking_works c (Q : Z -> tcp_process -> Prop) s :
  (forall w, ans_ret (respond w c) = 0) ->
  Q 0 (s <| tcp_world := (c, respond (tcp_world s) c) :: tcp_world s |>) -> wp (blocking c) Q s.
Proof using Hquiet.
  intros Hc HQ. apply wp_bind, wp_waiting_quiet; [done|]. apply wp_ret. by rewrite Hc.
Qed.

Lemma wp_call_works c (Q : Z -> tcp_process -> Prop) s :
  (forall w, ans_ret (respond w c) = 0) ->
  Q 0 (s <| tcp_world := (c, respond (tcp_world s) c) :: tcp_world s |>) -> wp (TcpServer.call c) Q s.
Proof.
  intros Hc HQ. apply (wp_zoom tcp_world (fun w s => s <| tcp_world := w |>)), wp_sysr. by rewrite Hc.
Qed.

Definition request_queued (fd : Z) (request : tcp_to_database_message_t) (o : TcpServer) : TcpServer :=
  o <| pending_requests_ ::= <[rq_request_id request := fd]> |> <| request_queue_ ::= fun q => q ++ [request] |>.

Lemma receive_request_spec fuel fd s : (Z.to_nat sizeof_request + limit < fuel)%nat ->
  wp (receive_client_request fuel fd) (fun b s' => exists w bytes, only_received fd bytes (tcp_world s) w /\
    if b then Z.of_nat (length bytes) = sizeof_request /\
              s' = s <| this ::= request_queued fd (decode_request bytes) |> <| tcp_world := w |>
    else Z.of_nat (length bytes) < sizeof_request /\ s' = s <| tcp_world := w |>) s.
Proof using Hquiet Htransfers Hpthreads.
  intros Hfuel. unfold receive_client_request. apply wp_bind.
  eapply wp_mono; [apply (receive_bytes_spec limit Hquiet Htransfers); cbn [length]; lia|].
  intros r s1 (w & bytes & -> & Hon & Hres). destruct r as [b|].
  2: { apply wp_ret. exists w, bytes. split; [done|]. cbn [length] in Hres. split; [lia|done]. }
  destruct Hres as [-> Hlen]. cbn [app] in *.
  apply wp_bind, wp_tcp_log, wp_bind, wp_blocking_works; [apply Hpthreads|].
  change (negb (0 =? 0)) with false. cbv iota. apply wp_bind, wp_modify, wp_bind, wp_call_works; [apply Hpthreads|].
  change (negb (0 =? 0)) with false. cbv iota. apply wp_bind, wp_blocking_works; [apply Hpthreads|].
  change (negb (0 =? 0)) with false. cbv iota. apply wp_bind, wp_modify, wp_bind, wp_call_works; [apply Hpthreads|].
  change (negb (0 =? 0)) with false. cbv iota. apply wp_bind, wp_call_works; [apply Hpthreads|].
  change (negb (0 =? 0)) with false. cbv iota. apply wp_bind, wp_tcp_log, wp_ret.
  eexists _, bytes. split; [|by split]. exact Hon.
Qed.

(** The process holds the two queues, whose contents are [xs] and [ys]. *)
Record relaying (q1 q2 : SharedQueue) (sem1 sem2 : Z) (xs ys : list (list byte)) (s : tcp_process) : Prop := {
  rl_request : tcp_to_database_queue_ (this s) = Some q1;
  rl_response : database_to_tcp_queue_ (this s) = Some q2;
  rl_request_queue : is_request_queue q1 sem1;
  rl_response_queue : is_response_queue q2 sem2;
  rl_segment : ipc_segment (tcp_segment s) xs ys;
}.

Context (q1 q2 : SharedQueue) (sem1 sem2 : Z)
  (Hsem1 : semaphore_works _ sem1) (Hsem2 : semaphore_works _ sem2).

Lemma wp_in_tcp_ipc {A} (m : M ipc_state A) (Q : A -> tcp_process -> Prop) s :
  wp m (fun a i => Q a (s <| tcp_segment := segment i |> <| tcp_world := ipc_world i |>))
     (IpcState (tcp_segment s) (tcp_world s)) -> wp (in_ipc m) Q s.
Proof.
  apply (wp_zoom (fun s => IpcState (tcp_segment s) (tcp_world s))
    (fun i s => s <| tcp_segment := segment i |> <| tcp_world := ipc_world i |>)).
Qed.

Lemma operation_no_traffic sem w w' : semaphore_works _ sem -> operation_calls sem w w' -> no_traffic w w'.
Proof.
  intros Hsem. unfold operation_calls. destruct (Hsem w) as [-> _].
  destruct (Hsem (after_wait sem w)) as [_ ->]. by intros ->.
Qed.

Definition forget_request (id : Z) (o : TcpServer) : TcpServer := o <| pending_requests_ ::= delete id |>.

(** One response: it goes to the socket its request came from, and to no
    other, and the request is no longer pending. *)
Lemma response_round_spec fuel item xs ys s :
  (Z.to_nat sizeof_response + limit < fuel)%nat -> relaying q1 q2 sem1 sem2 xs (item :: ys) s ->
  wp (response_reader_round fuel) (fun _ s' => exists w m, ipc_segment m xs ys /\
    match pending_requests_ (this s) !! rs_request_id (decode_response item) with
    | Some fd =>
        s' = s <| this ::= forget_request (rs_request_id (decode_response item)) |>
               <| tcp_segment := m |> <| tcp_world := w |> /\
        exists n, (n <= length item)%nat /\ (n = length item \/ send_failure fd) /\
          only_sent fd (take n item) (tcp_world s) w
    | None => s' = s <| tcp_segment := m |> <| tcp_world := w |> /\ no_traffic (tcp_world s) w
    end) s.
Proof using Hquiet Htransfers Hpthreads Hsem2.
  intros Hfuel [Hq1 Hq2 Ho1 Ho2 Hseg]. unfold response_reader_round.
  pose proof (ipc_item_length _ _ _ _ Hseg) as Hitem.
  apply wp_bind, wp_field_net. rewrite Hq2. apply wp_bind. eapply wp_from_option; [reflexivity|].
  apply wp_bind, wp_in_tcp_ipc. eapply wp_mono.
  { apply wp_conj; [eapply (pop_response q2 sem2 Hsem2 xs (item :: ys)); [done|exact Hseg]|].
    eapply response_queue_calls; [done|exact Hseg]. }
  intros r i [[-> Hseg'] Hc]. cbn [fifo_pop fst snd ipc_world] in *.
  apply operation_no_traffic in Hc; [|done].
  rewrite bool_decide_eq_true_2 by done. cbn [negb]. apply wp_bind. eapply wp_from_option; [reflexivity|].
  apply wp_bind, wp_blocking_works; [apply Hpthreads|]. change (negb (0 =? 0)) with false. cbv iota.
  apply wp_bind, wp_field_net. cbn [this set_field tcp_process_fields].
  destruct (pending_requests_ (this s) !! _) as [fd|] eqn:Ep.
  2: { apply wp_bind. apply (wp_zoom tcp_world (fun w s => s <| tcp_world := w |>)), wp_sys_, wp_tcp_log.
       eexists _, _. split; [exact Hseg'|]. split; [reflexivity|exact Hc]. }
  apply wp_bind, wp_modify, wp_bind, wp_call_works; [apply Hpthreads|].
  change (negb (0 =? 0)) with false. cbv iota. apply wp_bind.
  eapply wp_mono; [apply (send_bytes_spec limit Hquiet Htransfers); [exact Hitem|lia|]|].
  { lia. }
  intros n s1 (w & -> & Hn & Hf & Hon). rewrite Nat.sub_0_r, drop_0 in Hon.
  assert (only_sent fd (take n item) (tcp_world s) w) as Hsent.
  { eapply (only_sent_app _ []); [by apply no_traffic_sent|exact Hon]. }
  assert (forall (Q : tcp_process -> Prop) l f, (forall w, only_sent fd (take n item) (tcp_world s) w ->
      Q (s <| this ::= forget_request (rs_request_id (decode_response item)) |>
               <| tcp_segment := segment i |> <| tcp_world := w |>)) ->
    wp (in_world (sys_ (sys_log l f))) (fun _ => Q)
      (s <| this ::= forget_request (rs_request_id (decode_response item)) |>
         <| tcp_segment := segment i |> <| tcp_world := w |>)) as Hlog.
  { intros Q l f HQ. apply wp_tcp_log, HQ. exact Hsent. }
  assert (forall w, only_sent fd (take n item) (tcp_world s) w -> exists w' m, ipc_segment m xs ys /\
    s <| this ::= forget_request (rs_request_id (decode_response item)) |>
      <| tcp_segment := segment i |> <| tcp_world := w |> =
    s <| this ::= forget_request (rs_request_id (decode_response item)) |>
      <| tcp_segment := m |> <| tcp_world := w' |> /\
    exists n, (n <= length item)%nat /\ (n = length item \/ send_failure fd) /\
      only_sent fd (take n item) (tcp_world s) w') as Hdone.
  { intros w' Hw'. exists w', (segment i). split; [exact Hseg'|]. split; [reflexivity|].
    exists n. split; [lia|]. by split. }
  destruct (negb _); [by apply wp_ret, Hdone|]. destruct (negb _); by apply Hlog.
Qed.
(** With no response waiting, the reader sleeps. *)
Lemma response_round_empty fuel xs s : relaying q1 q2 sem1 sem2 xs [] s ->
  wp (response_reader_round fuel) (fun _ s' => exists w m, ipc_segment m xs [] /\
    s' = s <| tcp_segment := m |> <| tcp_world := w |> /\ no_traffic (tcp_world s) w) s.
Proof using Hquiet Hsem2.
  intros [Hq1 Hq2 Ho1 Ho2 Hseg]. unfold response_reader_round.
  apply wp_bind, wp_field_net. rewrite Hq2. apply wp_bind. eapply wp_from_option; [reflexivity|].
  apply wp_bind, wp_in_tcp_ipc. eapply wp_mono.
  { apply wp_conj; [eapply (pop_response q2 sem2 Hsem2 xs []); [done|exact Hseg]|].
    eapply response_queue_calls; [done|exact Hseg]. }
  intros r i [[-> Hseg'] Hc]. cbn [fifo_pop fst snd ipc_world] in *.
  apply operation_no_traffic in Hc; [|done].
  rewrite bool_decide_eq_false_2 by (by intros []). cbn [negb].
  apply wp_bind, wp_bind, wp_waiting_quiet, wp_ret, wp_ret; [done|].
  eexists _, _. split; [exact Hseg'|]. split; [reflexivity|exact Hc].
Qed.

Lemma wait_for_queued_request fuel s : request_queue_ (this s) <> [] ->
  wp (wait_for_request fuel) (fun r s' => r = 0 /\ s' = s) s.
Proof.
  intros Hne. destruct fuel as [|fuel]; cbn [wait_for_request].
  all: apply wp_bind, wp_field_net, wp_bind, wp_field_net; by rewrite bool_decide_eq_false_2.
Qed.

Definition pop_queued (o : TcpServer) : TcpServer := o <| request_queue_ ::= tail |>.

(** One request forwarded; a full shared queue drops it. *)
Lemma forwarder_round_spec fuel rq rqs xs ys s :
  relaying q1 q2 sem1 sem2 xs ys s -> request_queue_ (this s) = rq :: rqs ->
  Z.of_nat (length (encode_request rq)) = sizeof_request ->
  wp (request_writer_round fuel) (fun again s' => again = true /\ exists w m,
    ipc_segment m (snd (fifo_push TCP_TO_DATABASE_QUEUE_CAPACITY (encode_request rq) xs)) ys /\
    s' = s <| this ::= pop_queued |> <| tcp_segment := m |> <| tcp_world := w |> /\
    no_traffic (tcp_world s) w) s.
Proof using Hquiet Hpthreads Hsem1.
  intros [Hq1 Hq2 Ho1 Ho2 Hseg] Hqueue Hlen. unfold request_writer_round.
  apply wp_bind, wp_blocking_works; [apply Hpthreads|]. change (negb (0 =? 0)) with false. cbv iota.
  apply wp_bind. eapply wp_mono; [apply wait_for_queued_request; cbn; by rewrite Hqueue|].
  intros r s0 [-> ->]. change (negb (0 =? 0)) with false. cbv iota.
  apply wp_bind, wp_field_net, wp_bind, wp_field_net. cbn [this set_field tcp_process_fields].
  rewrite Hqueue, bool_decide_eq_false_2, andb_false_r by done. cbn [head].
  apply wp_bind. eapply wp_from_option; [reflexivity|]. apply wp_bind, wp_modify.
  apply wp_bind, wp_call_works; [apply Hpthreads|]. change (negb (0 =? 0)) with false. cbv iota.
  apply wp_bind, wp_field_net. cbn [this set_field tcp_process_fields tcp_to_database_queue_ TcpServer_fields].
  rewrite Hq1. apply wp_bind. eapply wp_from_option; [reflexivity|].
  apply wp_bind, wp_in_tcp_ipc. eapply wp_mono.
  { apply wp_conj; [eapply (push_request q1 sem1 Hsem1 _ xs ys); [done|exact Hseg|exact Hlen]|].
    eapply request_queue_calls; [done|exact Hseg|exact Hlen]. }
  intros b i [[Eb Hseg'] Hc]. cbn [ipc_world] in Hc. apply operation_no_traffic in Hc; [|done].
  assert (forall l f (Q : bool -> tcp_process -> Prop),
    (forall w, no_traffic (tcp_world s) w ->
      Q true (s <| this ::= pop_queued |> <| tcp_segment := segment i |> <| tcp_world := w |>)) ->
    wp (in_world (sys_ (sys_log l f));; mret true) Q
      (s <| this ::= pop_queued |> <| tcp_segment := segment i |> <| tcp_world := ipc_world i |>)) as Hlog.
  { intros l f Q HQ. apply wp_bind, wp_tcp_log, wp_ret, HQ. exact Hc. }
  destruct b; apply Hlog; intros w Hw; (split; [done|]); exists w, (segment i); by split.
Qed.
End Requests.

(** C16: receiving from a client.  The loop over [recv] takes from the socket
    the bytes of one request and no more, however the kernel cuts them and
    whichever signals interrupt it; a whole request is queued behind the others
    and its sender is remembered under its identifier; when the client leaves
    earlier, the server is as it was. *)
Theorem client_request_received `{Environment} `{!OtherThreads} (limit fuel : nat) (fd : Z) (s : tcp_process) :
  (forall s : tcp_process, others s = s) -> transfers _ limit -> tcp_pthreads_work _ ->
  (Z.to_nat sizeof_request + limit < fuel)%nat ->
  wp (receive_client_request fuel fd) (fun complete s' => exists bytes,
    (forall fd', received_on fd' (tcp_world s') = received_on fd' (tcp_world s) ++ (if fd =? fd' then bytes else [])) /\
    (forall fd', sent_on fd' (tcp_world s') = sent_on fd' (tcp_world s)) /\
    if complete then
      Z.of_nat (length bytes) = sizeof_request /\
      request_queue_ (this s') = request_queue_ (this s) ++ [decode_request bytes] /\
      pending_requests_ (this s') = <[rq_request_id (decode_request bytes) := fd]> (pending_requests_ (this s)) /\
      forall rq, wf_request rq -> bytes = encode_request rq -> decode_request bytes = rq
    else Z.of_nat (length bytes) < sizeof_request /\ this s' = this s) s.
Proof.
  intros Hquiet Htransfers Hpthreads Hfuel. eapply wp_mono; [by apply (receive_request_spec limit)|].
  intros complete s' (w & bytes & (_ & Hsent & Hrecv) & Hcase). exists bytes. destruct complete, Hcase as [Hlen ->].
  - split; [exact Hrecv|]. split; [exact Hsent|]. split; [exact Hlen|]. split; [done|]. split; [done|].
    intros rq Hrq ->. by apply decode_encode_request.
  - by split.
Qed.

(** C15: a response goes to its client.  When a response is waiting, the reader
    takes the oldest; if its identifier is pending, it is sent to the socket
    remembered for it and to no other, complete unless sending on that socket
    fails, and the identifier is no longer pending; a response nobody waits for
    is dropped and nothing is sent. *)
Theorem response_routed `{Environment} `{!OtherThreads} (limit fuel : nat) (q1 q2 : SharedQueue) (sem1 sem2 : Z)
    (rs : database_to_tcp_message_t) (xs ys : list (list byte)) (s : tcp_process) :
  (forall s : tcp_process, others s = s) -> transfers _ limit -> tcp_pthreads_work _ -> semaphore_works _ sem2 ->
  (Z.to_nat sizeof_response + limit < fuel)%nat -> wf_response rs ->
  relaying q1 q2 sem1 sem2 xs (encode_response rs :: ys) s ->
  wp (response_reader_round fuel) (fun _ s' => relaying q1 q2 sem1 sem2 xs ys s' /\
    (forall fd, pending_requests_ (this s) !! rs_request_id rs <> Some fd ->
       sent_on fd (tcp_world s') = sent_on fd (tcp_world s)) /\
    match pending_requests_ (this s) !! rs_request_id rs with
    | Some fd =>
        pending_requests_ (this s') = delete (rs_request_id rs) (pending_requests_ (this s)) /\
        exists n, sent_on fd (tcp_world s') = sent_on fd (tcp_world s) ++ take n (encode_response rs) /\
          (Z.of_nat n = sizeof_response \/ send_failure fd)
    | None => this s' = this s
    end) s.
Proof.
  intros Hquiet Htransfers Hpthreads Hsem2 Hfuel Hrs Hs.
  pose proof (length_encode_response _ Hrs) as Hlen.
  eapply wp_mono; [by eapply (response_round_spec limit)|].
  intros _u s' (w & m & Hseg & Hcase). rewrite decode_encode_response in Hcase by done. destruct Hs as [E1 E2 O1 O2 _].
  destruct (pending_requests_ (this s) !! rs_request_id rs) as [fd|].
  - destruct Hcase as (-> & n & Hn & Hfull & _ & _ & Hsent). cbn [tcp_world set_field tcp_process_fields].
    split; [by constructor|]. split.
    + intros fd' Hne. rewrite Hsent. destruct (Z.eqb_spec fd fd') as [->|]; [done|]. by rewrite app_nil_r.
    + split; [done|]. exists n. rewrite Hsent, Z.eqb_refl. split; [done|]. destruct Hfull as [->|]; [by left|by right].
  - destruct Hcase as (-> & _ & Htraffic). split; [by constructor|]. split; [|done]. intros fd _. apply Htraffic.
Qed.

(** C24: forwarding.  The oldest request of the internal queue is put behind
    those of the shared queue; when the shared queue is full the request is
    lost, though it stays pending, and the writer goes on. *)
Theorem request_forwarded `{Environment} `{!OtherThreads} (fuel : nat) (q1 q2 : SharedQueue) (sem1 sem2 : Z)
    (rq : tcp_to_database_message_t) (rqs : list tcp_to_database_message_t) (xs ys : list (list byte))
    (s : tcp_process) :
  (forall s : tcp_process, others s = s) -> tcp_pthreads_work _ -> semaphore_works _ sem1 ->
  wf_request rq -> request_queue_ (this s) = rq :: rqs -> relaying q1 q2 sem1 sem2 xs ys s ->
  wp (request_writer_round fuel) (fun again s' => again = true /\
    relaying q1 q2 sem1 sem2 (if Z.of_nat (length xs) <? TCP_TO_DATABASE_QUEUE_CAPACITY
                              then xs ++ [encode_request rq] else xs) ys s' /\
    request_queue_ (this s') = rqs /\ pending_requests_ (this s') = pending_requests_ (this s) /\
    forall fd, sent_on fd (tcp_world s') = sent_on fd (tcp_world s)) s.
Proof.
  intros Hquiet Hpthreads Hsem1 Hrq Hqueue Hs. pose proof (length_encode_request _ Hrq) as Hlen.
  eapply wp_mono; [by eapply forwarder_round_spec|]. intros again s' (-> & w & m & Hseg & -> & _ & Htraffic).
  destruct Hs as [E1 E2 O1 O2 _]. unfold fifo_push in Hseg. split; [done|]. split.
  - constructor; try done. cbn [tcp_segment set_field tcp_process_fields]. by destruct (_ <? _).
  - cbn. rewrite Hqueue. split; [done|]. split; [done|]. intros fd. apply Htraffic.
Qed.
