(* ===== verification/System.v ===== *)
(** System: the two servers at work together.  Both map the same segment; a
    round of any of their threads is a step, and steps interleave freely. *)

From S2P Require Import Prelude Machine CLib Posix IpcProtocol SharedMemory SharedQueue.
From S2P Require Import Sqlite SqliteDatabase SqliteRules ParkingDatabase.
From S2P Require Import Database DatabaseProofs.
From S2P Require Import TcpServer TcpSockets TcpMessages.

(** The two processes and the segment, which each of them sees as its own. *)
Record system `{Sqlite} := SystemState {
  sys_tcp : tcp_process;
  sys_db : server;
  shared : list byte;
}.

(** One round of a thread: of the TcpServer, the part of [tcp_server_loop]
    that receives from a ready socket, [request_writer_loop] and
    [response_reader_loop]; of the Database, its two workers. *)
Inductive round := Receive (fd : Z) | Forward | Fetch | Reply | Deliver.

Section Rounds.
Context `{Sqlite} (Et Ed : Environment) (Ot : TcpServer.OtherThreads) (Od : Database.OtherThreads).

Definition tcp_view (s : system) : tcp_process := (sys_tcp s) <| tcp_segment := shared s |>.
Definition db_view (s : system) : server := (sys_db s) <| srv_segment := shared s |>.

Definition in_tcp {A} (m : M tcp_process A) : M system A :=
  zoom tcp_view (fun t s => SystemState _ t (sys_db s) (tcp_segment t)) m.
Definition in_db {A} (m : M server A) : M system A :=
  zoom db_view (fun d s => SystemState _ (sys_tcp s) d (srv_segment d)) m.

(** A thread that finds no request stays in [pthread_cond_wait]. *)
Definition system_round (fuel : nat) (r : round) : M system unit :=
  match r with
  | Receive fd => in_tcp (@receive_client_request Et Ot fuel fd;; mret tt)
  | Forward => in_tcp
      (waiting ← @TcpServer.field _ TcpServer.request_queue_;
       if bool_decide (waiting = []) then mret tt else @request_writer_round Et Ot fuel;; mret tt)
  | Fetch => in_db (@worker_round Ed _ Od Reader)
  | Reply => in_db (@worker_round Ed _ Od Writer)
  | Deliver => in_tcp (@response_reader_round Et Ot fuel)
  end.

Definition system_rounds (fuel : nat) (rs : list round) : M system unit :=
  foldr (fun r rest => system_round fuel r;; rest) (mret tt) rs.

(** Runs, with the requests received and the sockets they came from.  Clients
    respect the protocol: whole, well-formed requests, an identifier that is
    not in use, and no more requests outstanding than the queues hold; or they
    disconnect. *)
Inductive system_run (fuel : nat) (s0 : system)
    : list (Z * tcp_to_database_message_t) -> system -> Prop :=
| run_nothing : system_run fuel s0 [] s0
| run_round R s r s' : system_run fuel s0 R s -> (forall fd, r <> Receive fd) ->
    system_round fuel r s = Ret (tt, s') -> system_run fuel s0 R s'
| run_request R s fd rq v s' : system_run fuel s0 R s ->
    system_round fuel (Receive fd) s = Ret (tt, s') ->
    received_on fd (tcp_world (sys_tcp s')) = received_on fd (tcp_world (sys_tcp s)) ++ encode_request rq ->
    good_request rq v -> pending_requests_ (TcpServer.this (sys_tcp s)) !! rq_request_id rq = None ->
    (base.size (pending_requests_ (TcpServer.this (sys_tcp s))) < Z.to_nat TCP_TO_DATABASE_QUEUE_CAPACITY)%nat ->
    system_run fuel s0 (R ++ [(fd, rq)]) s'
| run_disconnected R s fd bytes s' : system_run fuel s0 R s ->
    system_round fuel (Receive fd) s = Ret (tt, s') ->
    received_on fd (tcp_world (sys_tcp s')) = received_on fd (tcp_world (sys_tcp s)) ++ bytes ->
    Z.of_nat (length bytes) < sizeof_request ->
    system_run fuel s0 R s'.
End Rounds.

(** ** Specification: where each request is, oldest first *)
Record flow := Flow {
  delivered : list (Z * tcp_to_database_message_t);
  in_responses : list (Z * tcp_to_database_message_t);
  in_database : list (Z * tcp_to_database_message_t);
  in_requests : list (Z * tcp_to_database_message_t);
  in_server : list (Z * tcp_to_database_message_t);
}.

Definition outstanding (f : flow) := in_responses f ++ in_database f ++ in_requests f ++ in_server f.
Definition all_requests (f : flow) := delivered f ++ outstanding f.

Definition flow_round (f : flow) (r : round) : flow :=
  let '(Flow d a i q w) := f in
  match r with
  | Receive _ => f
  | Forward => match w with x :: w => Flow d a i (q ++ [x]) w | [] => f end
  | Fetch => match q with x :: q => Flow d a (i ++ [x]) q w | [] => f end
  | Reply => match i with x :: i => Flow d (a ++ [x]) i q w | [] => f end
  | Deliver => match a with x :: a => Flow (d ++ [x]) a i q w | [] => f end
  end.

Definition accept (f : flow) (x : Z * tcp_to_database_message_t) : flow :=
  let '(Flow d a i q w) := f in Flow d a i q (w ++ [x]).

(** Enough rounds to deliver [n] outstanding requests. *)
Definition drain (n : nat) : list round :=
  replicate n Forward ++ replicate n Fetch ++ replicate n Reply ++ replicate n Deliver.

Lemma flow_round_all f r : all_requests (flow_round f r) = all_requests f.
Proof.
  destruct f as [d a i q w], r; cbn; [done| | | |]; unfold all_requests, outstanding; cbn.
  - destruct w; cbn; by rewrite <- ?(assoc_L (++)).
  - destruct q; cbn; by rewrite <- ?(assoc_L (++)).
  - destruct i; cbn; by rewrite <- ?(assoc_L (++)).
  - destruct a; cbn; by rewrite <- ?(assoc_L (++)).
Qed.

Lemma accept_all f x : all_requests (accept f x) = all_requests f ++ [x].
Proof. destruct f. unfold all_requests, outstanding. cbn. by rewrite <- !(assoc_L (++)). Qed.

Lemma accept_outstanding f x : outstanding (accept f x) = outstanding f ++ [x].
Proof. destruct f. unfold outstanding. cbn. by rewrite <- !(assoc_L (++)). Qed.

(** [n] rounds of one thread move the first [n] requests of its stage. *)
Lemma forward_rounds n d a i q w : (length w <= n)%nat ->
  foldl flow_round (Flow d a i q w) (replicate n Forward) = Flow d a i (q ++ w) [].
Proof.
  revert q w. induction n as [|n IH]; intros q [|x w] Hn; cbn in *; try lia.
  - by rewrite app_nil_r.
  - rewrite IH by (cbn; lia). done.
  - rewrite IH by lia. by rewrite <- (assoc_L (++)).
Qed.

Lemma fetch_rounds n d a i q w : (length q <= n)%nat ->
  foldl flow_round (Flow d a i q w) (replicate n Fetch) = Flow d a (i ++ q) [] w.
Proof.
  revert i q. induction n as [|n IH]; intros i [|x q] Hn; cbn in *; try lia.
  - by rewrite app_nil_r.
  - rewrite IH by (cbn; lia). done.
  - rewrite IH by lia. by rewrite <- (assoc_L (++)).
Qed.

Lemma reply_rounds n d a i q w : (length i <= n)%nat ->
  foldl flow_round (Flow d a i q w) (replicate n Reply) = Flow d (a ++ i) [] q w.
Proof.
  revert a i. induction n as [|n IH]; intros a [|x i] Hn; cbn in *; try lia.
  - by rewrite app_nil_r.
  - rewrite IH by (cbn; lia). done.
  - rewrite IH by lia. by rewrite <- (assoc_L (++)).
Qed.

Lemma deliver_rounds n d a i q w : (length a <= n)%nat ->
  foldl flow_round (Flow d a i q w) (replicate n Deliver) = Flow (d ++ a) [] i q w.
Proof.
  revert d a. induction n as [|n IH]; intros d [|x a] Hn; cbn in *; try lia.
  - by rewrite app_nil_r.
  - rewrite IH by (cbn; lia). done.
  - rewrite IH by lia. by rewrite <- (assoc_L (++)).
Qed.

Lemma drain_delivers n f : (length (outstanding f) <= n)%nat ->
  foldl flow_round f (drain n) = Flow (all_requests f) [] [] [] [].
Proof.
  destruct f as [d a i q w]. unfold outstanding, all_requests, outstanding, drain. cbn.
  rewrite !length_app. intros Hn. rewrite !foldl_app, forward_rounds by lia.
  rewrite fetch_rounds by (rewrite length_app; lia).
  rewrite reply_rounds by (rewrite !length_app; lia).
  rewrite deliver_rounds by (rewrite !length_app; lia). cbn. by rewrite <- ?(assoc_L (++)).
Qed.

(** ** What a state of the system says of the requests *)

(** The bytes the delivered responses put on a socket. *)
Definition responses_to (fd : Z) (requests : list (Z * tcp_to_database_message_t))
    (rss : list database_to_tcp_message_t) : list byte :=
  concat (zip_with (fun x rs => if x.1 =? fd then encode_response rs else []) requests rss).

(** The identifiers of requests, with the sockets that wait for them. *)
Definition pending_entry (x : Z * tcp_to_database_message_t) : Z * Z := (rq_request_id x.2, x.1).

Lemma responses_to_snoc fd reqs rss x rs : length rss = length reqs ->
  responses_to fd (reqs ++ [x]) (rss ++ [rs]) =
  responses_to fd reqs rss ++ (if x.1 =? fd then encode_response rs else []).
Proof.
  intros Hl. unfold responses_to. rewrite zip_with_app by done. rewrite concat_app. cbn. by rewrite app_nil_r.
Qed.

Lemma decode_response_id rs : 0 <= rs_request_id rs < 2 ^ 64 ->
  rs_request_id (decode_response (encode_response rs)) = rs_request_id rs.
Proof.
  intros Hr. unfold decode_response, encode_response. cbn [rs_request_id].
  rewrite bytes_at_here by apply length_le_bytes. by apply le_val_bytes_64.
Qed.

Lemma reply_id `{SqliteLaws} rq v T T' rs : reply rq v T T' rs -> rs_request_id rs = rq_request_id rq.
Proof.
  intros [_ Hr]. revert Hr. destruct (rq_action rq =? START_PARKING); [by destruct 1|].
  destruct (rq_action rq =? END_PARKING); [by destruct 1|]. by intros [-> _].
Qed.

Lemma replies_head `{SqliteLaws} T rqs rq rqs' rss rs rss' T' : length rss = length rqs ->
  replies T (rqs ++ rq :: rqs') (rss ++ rs :: rss') T' ->
  rs_request_id rs = rq_request_id rq /\ 0 <= rq_request_id rq < 2 ^ 64 /\
  Z.of_nat (length (encode_response rs)) = sizeof_response.
Proof.
  intros Hl Hr. revert T rss Hl Hr. induction rqs as [|x rqs IH]; intros T [|r rss] Hl Hr; cbn in *; try lia.
  - inversion Hr as [|? ? ? ? ? v ? ? Hg Hrep]; subst. split; [by eapply reply_id|].
    split; [apply Hg|by eapply length_reply].
  - inversion Hr; subst. eapply IH; [|done]. lia.
Qed.

Section Refinement.
Context `{SqliteLaws} (Et Ed : Environment) (Ot : TcpServer.OtherThreads) (Od : Database.OtherThreads).
Context (tq1 tq2 dq1 dq2 : SharedQueue) (ts1 ts2 ds1 ds2 : Z) (T0 : tables) (sent0 : Z -> list byte).

(** The state [s] of the system has the requests where [f] says: the responses
    computed so far, [rss] delivered and [rss'] not yet, answer the requests in
    the order of their arrival, starting from the tables [T0]; each socket was
    sent the responses to its own requests; the server waits for the others. *)
Record represents (f : flow) (rss rss' : list database_to_tcp_message_t) (s : system) : Prop := {
  rp_replies : replies T0 (delivered f ++ in_responses f).*2 (rss ++ rss') (tables_of (srv_sqlite (sys_db s)));
  rp_delivered : length rss = length (delivered f);
  rp_tcp : relaying tq1 tq2 ts1 ts2 (encode_request <$> (in_requests f).*2) (encode_response <$> rss') (tcp_view s);
  rp_db : serving dq1 dq2 ds1 ds2 (encode_request <$> (in_requests f).*2) (encode_response <$> rss')
            (in_database f).*2 (db_view s);
  rp_server : TcpServer.request_queue_ (TcpServer.this (sys_tcp s)) = (in_server f).*2;
  rp_pending : pending_requests_ (TcpServer.this (sys_tcp s)) = list_to_map (pending_entry <$> outstanding f);
  rp_distinct : NoDup (pending_entry <$> outstanding f).*1;
  rp_good : Forall (fun x => exists v, good_request x.2 v) (outstanding f);
  rp_room : (length (outstanding f) <= Z.to_nat TCP_TO_DATABASE_QUEUE_CAPACITY)%nat;
  rp_sent : forall fd, ~ @send_failure Et fd ->
    sent_on fd (tcp_world (sys_tcp s)) = sent0 fd ++ responses_to fd (delivered f) rss;
}.

Lemma serving_segment xs ys rqs s m xs' ys' : serving dq1 dq2 ds1 ds2 xs ys rqs s -> ipc_segment m xs' ys' ->
  serving dq1 dq2 ds1 ds2 xs' ys' rqs (s <| srv_segment := m |>).
Proof. by intros []. Qed.

Lemma relaying_segment xs ys s m xs' ys' : relaying tq1 tq2 ts1 ts2 xs ys s -> ipc_segment m xs' ys' ->
  relaying tq1 tq2 ts1 ts2 xs' ys' (s <| tcp_segment := m |>).
Proof. by intros []. Qed.

Context (limit fuel : nat)
  (Hpriv : sessions_private) (HquietT : forall s : tcp_process, TcpServer.others s = s)
  (HquietD : forall s : server, Database.others s = s)
  (Htransfers : transfers Et limit) (HpthreadsT : tcp_pthreads_work Et) (HpthreadsD : pthreads_work Ed)
  (Hts1 : semaphore_works Et ts1) (Hts2 : semaphore_works Et ts2)
  (Hds1 : semaphore_works Ed ds1) (Hds2 : semaphore_works Ed ds2)
  (Hfuel : (Z.to_nat sizeof_request + limit < fuel)%nat).
Abbreviation sround := (system_round Et Ed Ot Od fuel).

Lemma wp_in_tcp {A} (m : M tcp_process A) (Q : A -> system -> Prop) s :
  wp m (fun a t => Q a (SystemState _ t (sys_db s) (tcp_segment t))) (tcp_view s) -> wp (in_tcp m) Q s.
Proof. apply (wp_zoom tcp_view (fun t s => SystemState _ t (sys_db s) (tcp_segment t))). Qed.

Lemma wp_in_db {A} (m : M server A) (Q : A -> system -> Prop) s :
  wp m (fun a d => Q a (SystemState _ (sys_tcp s) d (srv_segment d))) (db_view s) -> wp (in_db m) Q s.
Proof. apply (wp_zoom db_view (fun d s => SystemState _ (sys_tcp s) d (srv_segment d))). Qed.

(** A whole request is accepted; a shorter transfer changes nothing. *)
Lemma receive_round f rss rss' fd s : represents f rss rss' s ->
  wp (sround (Receive fd)) (fun _ s' => exists bytes,
    received_on fd (tcp_world (sys_tcp s')) = received_on fd (tcp_world (sys_tcp s)) ++ bytes /\
    if Z.of_nat (length bytes) =? sizeof_request then
      (exists v, good_request (decode_request bytes) v) ->
      pending_requests_ (TcpServer.this (sys_tcp s)) !! rq_request_id (decode_request bytes) = None ->
      (length (outstanding f) < Z.to_nat TCP_TO_DATABASE_QUEUE_CAPACITY)%nat ->
      represents (accept f (fd, decode_request bytes)) rss rss' s'
    else represents f rss rss' s') s.
Proof using HquietT Htransfers HpthreadsT Hfuel.
  intros [R1 R2 R3 R4 R5 R6 R7 R8 R9 R10]. apply wp_in_tcp, wp_bind.
  eapply wp_mono; [by apply (@receive_request_spec Et Ot limit)|].
  intros b t (w & bytes & (_ & Hsent & Hrecv) & Hb). apply wp_ret. exists bytes.
  destruct b.
  - destruct Hb as [Hlen ->]. rewrite (proj2 (Z.eqb_eq _ _) Hlen).
    split; [cbn; rewrite Hrecv, Z.eqb_refl; reflexivity|]. intros Hgood Hfresh Hroom.
    set (x := (fd, decode_request bytes)).
    assert (~ rq_request_id (decode_request bytes) ∈ (pending_entry <$> outstanding f).*1) as Hnew.
    { apply not_elem_of_list_to_map. by rewrite <- R6. }
    destruct f as [d a i q l]. constructor; try done.
    + by destruct R3.
    + cbn in *. by rewrite R5, fmap_app.
    + rewrite accept_outstanding, fmap_app.
      change (pending_entry <$> [x]) with [(rq_request_id (decode_request bytes), fd)].
      rewrite list_to_map_snoc by done. cbn. by rewrite R6.
    + rewrite accept_outstanding, !fmap_app. apply NoDup_app. split; [done|].
      split; [|apply NoDup_singleton]. intros k Hk ->%list_elem_of_singleton. done.
    + rewrite accept_outstanding. apply Forall_app. split; [done|]. by apply Forall_singleton.
    + rewrite accept_outstanding, length_app. change (length [x]) with 1%nat. lia.
    + intros fd' Hf. cbn. rewrite Hsent. by apply R10.
  - destruct Hb as [Hlen ->]. rewrite (proj2 (Z.eqb_neq _ _)) by lia.
    split; [cbn; rewrite Hrecv, Z.eqb_refl; reflexivity|].
    constructor; try done; [by destruct R3|]. intros fd' Hf. cbn. rewrite Hsent. by apply R10.
Qed.

Lemma outstanding_move d a i q l d' a' i' q' l' :
  a ++ i ++ q ++ l = a' ++ i' ++ q' ++ l' -> outstanding (Flow d a i q l) = outstanding (Flow d' a' i' q' l').
Proof. done. Qed.

Lemma forward_round f rss rss' s : represents f rss rss' s ->
  wp (sround Forward) (fun _ => represents (flow_round f Forward) rss rss') s.
Proof using HquietT HpthreadsT Hts1.
  intros [R1 R2 R3 R4 R5 R6 R7 R8 R9 R10]. apply wp_in_tcp, wp_bind, wp_field_net.
  cbn [TcpServer.this tcp_view set_field tcp_process_fields]. rewrite R5.
  destruct f as [d a i q [|x l]]; [apply wp_ret; by constructor; destruct R3|].
  cbn [delivered in_responses in_database in_requests in_server fmap list_fmap] in R1, R2, R3, R4, R5, R10 |- *.
  rewrite bool_decide_eq_false_2 by done. apply wp_bind.
  assert (exists v, good_request x.2 v) as (v & Hv).
  { clear -R8. apply (proj1 (Forall_forall _ _) R8). unfold outstanding. cbn. set_solver. }
  assert (Z.of_nat (length (encode_request x.2)) = sizeof_request) as Hlen by apply length_encode_request, Hv.
  eapply wp_mono; [eapply (@forwarder_round_spec Et Ot HquietT HpthreadsT tq1 tq2 ts1 ts2 Hts1 fuel x.2 l.*2);
    [exact R3|exact R5|exact Hlen]|].
  intros again t (-> & w & m & Hseg & -> & _ & Htraffic). apply wp_ret.
  unfold fifo_push in Hseg. rewrite !length_fmap, (proj2 (Z.ltb_lt _ _)) in Hseg.
  2: { unfold outstanding in R9. cbn [in_responses in_database in_requests in_server] in R9.
       rewrite !length_app in R9. cbn [length] in R9. clear -R9. lia. }
  cbn [snd] in Hseg.
  assert (encode_request <$> (q ++ [x]).*2 = (encode_request <$> q.*2) ++ [encode_request x.2]) as Eq
    by by rewrite !fmap_app.
  rewrite (outstanding_move d a i q (x :: l) d a i (q ++ [x]) l) in R6, R7, R8, R9
    by by rewrite <- (assoc_L (++)).
  constructor; try done; cbn [flow_round delivered in_responses in_database in_requests in_server].
  - rewrite Eq. constructor; try done; apply R3.
  - rewrite Eq. eapply (serving_segment _ _ _ (db_view s)); [exact R4|exact Hseg].
  - cbn. by rewrite R5.
  - intros fd Hf. cbn. destruct (Htraffic fd) as [-> _]. by apply R10.
Qed.

Lemma fetch_round f rss rss' s : represents f rss rss' s ->
  wp (sround Fetch) (fun _ => represents (flow_round f Fetch) rss rss') s.
Proof using HquietD HpthreadsD Hds1.
  intros [R1 R2 R3 R4 R5 R6 R7 R8 R9 R10]. apply wp_in_db, wp_bind.
  destruct f as [d a i [|x q] l];
    cbn [flow_round delivered in_responses in_database in_requests in_server fmap list_fmap] in R1, R2, R3, R4, R5, R10 |- *.
  - eapply wp_mono; [by apply (@reader_round_empty Ed _ _ Od HquietD dq1 dq2 ds1 ds2 Hds1 (encode_response <$> rss') i.*2)|].
    intros again d' (_ & Hserving & Esql). apply wp_ret.
    constructor; try done; cbn; [by rewrite Esql| |by destruct Hserving].
    eapply (relaying_segment _ _ (tcp_view s)); [exact R3|]. apply Hserving.
  - eapply wp_mono; [exact (@reader_round_spec Ed _ _ Od HquietD HpthreadsD dq1 dq2 ds1 ds2 Hds1
      (encode_request x.2) (encode_request <$> q.*2) (encode_response <$> rss') i.*2 (db_view s) R4)|].
    assert (exists v, good_request x.2 v) as (v & Hv).
    { clear -R8. apply (proj1 (Forall_forall _ _) R8). unfold outstanding. cbn. set_solver. }
    rewrite decode_encode_request by apply Hv.
    intros again d' (_ & Hserving & Esql). apply wp_ret.
    rewrite (outstanding_move d a i (x :: q) l d a (i ++ [x]) q l) in R6, R7, R8, R9
      by by rewrite <- (assoc_L (++)).
    constructor; try done; cbn [delivered in_responses in_database in_requests in_server].
    + cbn. by rewrite Esql.
    + eapply (relaying_segment _ _ (tcp_view s)); [exact R3|]. apply Hserving.
    + rewrite fmap_app. by destruct Hserving.
Qed.

Lemma reply_round f rss rss' s : represents f rss rss' s ->
  wp (sround Reply) (fun _ s' => exists rss'', represents (flow_round f Reply) rss rss'' s') s.
Proof using Hpriv HquietD HpthreadsD Hds2.
  intros [R1 R2 R3 R4 R5 R6 R7 R8 R9 R10]. apply wp_in_db, wp_bind, wp_field.
  rewrite (sv_internal _ _ _ _ _ _ _ _ R4).
  destruct f as [d a [|x i] q l];
    cbn [flow_round delivered in_responses in_database in_requests in_server fmap list_fmap] in R1, R2, R3, R4, R5, R10 |- *.
  { apply wp_ret. exists rss'. constructor; try done. }
  rewrite bool_decide_eq_false_2 by done. apply wp_bind.
  assert (exists v, good_request x.2 v) as (v & Hv).
  { clear -R8. apply (proj1 (Forall_forall _ _) R8). unfold outstanding. cbn. set_solver. }
  pose proof (replies_length _ _ _ _ R1) as El. rewrite !length_app, length_fmap, length_app in El.
  eapply wp_mono; [eapply (@writer_round_spec Ed _ _ Od Hpriv HquietD HpthreadsD dq1 dq2 ds1 ds2 Hds2 0 x.2 v);
    [exact R4|exact Hv|]|].
  { rewrite length_fmap. unfold outstanding in R9. cbn [in_responses in_database in_requests in_server] in R9.
    rewrite !length_app in R9. cbn [length] in R9. change DATABASE_TO_TCP_QUEUE_CAPACITY with TCP_TO_DATABASE_QUEUE_CAPACITY.
    clear -R9 El R2. lia. }
  intros again d' (_ & rs & Hrs & Hserving). apply wp_ret. exists (rss' ++ [rs]).
  rewrite (outstanding_move d a (x :: i) q l d (a ++ [x]) i q l) in R6, R7, R8, R9
    by by rewrite <- (assoc_L (++)).
  constructor; try done; cbn [delivered in_responses in_database in_requests in_server].
  - rewrite (assoc_L (++)), fmap_app, (assoc_L (++)). cbn [fmap list_fmap sys_db].
    eapply replies_snoc; [exact R1|exact Hv|exact Hrs].
  - eapply (relaying_segment _ _ (tcp_view s)); [exact R3|]. rewrite fmap_app. apply Hserving.
  - rewrite fmap_app. by destruct Hserving.
Qed.

Lemma deliver_round f rss rss' s : represents f rss rss' s ->
  wp (sround Deliver) (fun _ s' => exists ds ds', represents (flow_round f Deliver) ds ds' s' /\
    ds ++ ds' = rss ++ rss') s.
Proof using HquietT Htransfers HpthreadsT Hts2 Hfuel.
  intros [R1 R2 R3 R4 R5 R6 R7 R8 R9 R10]. apply wp_in_tcp.
  pose proof (replies_length _ _ _ _ R1) as El. rewrite !length_app, length_fmap, length_app in El.
  destruct f as [d [|x a] i q l];
    cbn [flow_round delivered in_responses in_database in_requests in_server fmap list_fmap] in R1, R2, R3, R4, R5, R10, El |- *.
  - destruct rss' as [|]; [|exfalso; cbn [length] in El; clear -El R2; lia]. cbn [fmap list_fmap] in R3.
    eapply wp_mono; [exact (@response_round_empty Et Ot HquietT tq1 tq2 ts1 ts2 Hts2 fuel _ (tcp_view s) R3)|].
    intros _u t (w & m & Hseg & -> & _ & Htraffic). exists rss, []. split; [|done].
    constructor; try done; [by destruct R3|by destruct R4|]. intros fd Hf. cbn. destruct (Htraffic fd) as [-> _]. by apply R10.
  - destruct rss' as [|rs rss']; [exfalso; cbn [length] in El; clear -El R2; lia|]. cbn [fmap list_fmap] in R3.
    rewrite fmap_app in R1. cbn [fmap list_fmap] in R1.
    destruct (replies_head _ _ _ _ _ _ _ _ (eq_trans R2 (eq_sym (length_fmap _ _))) R1) as (Eid & Hid & Hlen).
    eapply wp_mono; [exact (@response_round_spec Et Ot limit HquietT Htransfers HpthreadsT tq1 tq2 ts1 ts2 Hts2 fuel
      (encode_response rs) _ _ (tcp_view s) ltac:(change sizeof_response with (sizeof_request) in *; lia) R3)|].
    intros _u t (w & m & Hseg & Hcase). rewrite decode_response_id in Hcase by (rewrite Eid; exact Hid).
    rewrite Eid in Hcase. cbn [TcpServer.this tcp_view set_field tcp_process_fields] in Hcase. rewrite R6 in Hcase.
    exists (rss ++ [rs]), rss'. split; [|by rewrite <- (assoc_L (++))].
    change (outstanding (Flow d (x :: a) i q l)) with (x :: outstanding (Flow (d ++ [x]) a i q l)) in R6, R7, R8, R9, Hcase.
    cbn [fmap list_fmap list_to_map foldr] in R6, R7, R8, R9, Hcase.
    set (out := outstanding (Flow (d ++ [x]) a i q l)) in *.
    change ((pending_entry x).1) with (rq_request_id x.2) in R6, R7, Hcase.
    change ((pending_entry x).2) with x.1 in R6, Hcase.
    rewrite lookup_insert_eq in Hcase.
    destruct Hcase as (-> & n & Hn & Hfull & _ & _ & Hsent).
    apply NoDup_cons in R7 as [Hnew R7]. apply Forall_cons in R8 as [_ R8].
    constructor; try done; fold out.
    + cbn [delivered in_responses]. rewrite fmap_app, fmap_app, <- !(assoc_L (++)). exact R1.
    + cbn [delivered]. by rewrite !length_app, R2.
    + by destruct R3.
    + by eapply (serving_segment _ _ _ (db_view s)).
    + cbn [sys_tcp TcpServer.this set_field tcp_process_fields]. unfold forget_request, tcp_view. cbn. rewrite R6.
      apply delete_insert_id. by apply not_elem_of_list_to_map.
    + cbn [length] in R9. clear -R9. lia.
    + intros fd Hf. cbn [sys_tcp tcp_world delivered set_field tcp_process_fields].
      rewrite Hsent, responses_to_snoc, (assoc_L (++)) by done.
      change (tcp_world (tcp_view s)) with (tcp_world (sys_tcp s)). rewrite R10 by done.
      f_equal. destruct (Z.eqb_spec x.1 fd) as [<-|]; [|done]. destruct Hfull as [->|]; [|done]. by rewrite take_ge.
Qed.

(** Any round but a [Receive] moves the requests as the specification says. *)
Lemma any_round f rss rss' r s : (forall fd, r <> Receive fd) -> represents f rss rss' s ->
  wp (sround r) (fun _ s' => exists ds ds', represents (flow_round f r) ds ds' s') s.
Proof using Hpriv HquietT HquietD Htransfers HpthreadsT HpthreadsD Hts1 Hts2 Hds1 Hds2 Hfuel.
  intros Hr Hs. destruct r as [fd| | | |]; [by destruct (Hr fd)| | | |].
  - eapply wp_mono; [exact (forward_round _ _ _ _ Hs)|]. intros _u s' Hs'. by exists rss, rss'.
  - eapply wp_mono; [exact (fetch_round _ _ _ _ Hs)|]. intros _u s' Hs'. by exists rss, rss'.
  - eapply wp_mono; [exact (reply_round _ _ _ _ Hs)|]. intros _u s' [ds Hs']. by exists rss, ds.
  - eapply wp_mono; [exact (deliver_round _ _ _ _ Hs)|]. intros _u s' (ds & ds' & Hs' & _). by exists ds, ds'.
Qed.

Lemma any_rounds rs f rss rss' s : Forall (fun r => forall fd, r <> Receive fd) rs -> represents f rss rss' s ->
  wp (system_rounds Et Ed Ot Od fuel rs) (fun _ s' => exists ds ds', represents (foldl flow_round f rs) ds ds' s') s.
Proof using Hpriv HquietT HquietD Htransfers HpthreadsT HpthreadsD Hts1 Hts2 Hds1 Hds2 Hfuel.
  intros Hrs. revert f rss rss' s. induction Hrs as [|r rs Hr Hrs IH]; intros f rss rss' s Hs;
    unfold system_rounds; cbn [foldr].
  - apply wp_ret. by exists rss, rss'.
  - apply wp_bind. eapply wp_mono; [by eapply any_round|]. intros _u s' (ds & ds' & Hs'). by eapply IH.
Qed.

Lemma run_represents s0 R s : represents (Flow [] [] [] [] []) [] [] s0 -> system_run Et Ed Ot Od fuel s0 R s ->
  exists f rss rss', all_requests f = R /\ represents f rss rss' s.
Proof using Hpriv HquietT HquietD Htransfers HpthreadsT HpthreadsD Hts1 Hts2 Hds1 Hds2 Hfuel.
  intros Hinit. induction 1 as [|R s r s' _ (f & rss & rss' & <- & Hs) Hr E
    |R s fd rq v s' _ (f & rss & rss' & <- & Hs) E Hrecv Hgood Hfresh Hsize
    |R s fd bytes s' _ (f & rss & rss' & <- & Hs) E Hrecv Hshort].
  - by exists (Flow [] [] [] [] []), [], [].
  - pose proof (wp_run _ _ _ _ _ (any_round _ _ _ _ _ Hr Hs) E) as (ds & ds' & Hs').
    exists (flow_round f r), ds, ds'. split; [apply flow_round_all|done].
  - pose proof (wp_run _ _ _ _ _ (receive_round _ _ _ fd _ Hs) E) as (bytes & Hb & Hcase).
    rewrite Hrecv in Hb. apply app_inv_head in Hb as <-.
    rewrite (proj2 (Z.eqb_eq _ _) (length_encode_request _ (gr_wf _ _ Hgood))) in Hcase.
    rewrite decode_encode_request in Hcase by apply Hgood.
    exists (accept f (fd, rq)), rss, rss'. split; [apply accept_all|]. apply Hcase; [by exists v|done|].
    rewrite (rp_pending _ _ _ _ Hs), map_size_list_to_map, length_fmap in Hsize; [done|]. apply Hs.
  - pose proof (wp_run _ _ _ _ _ (receive_round _ _ _ fd _ Hs) E) as (bytes' & Hb & Hcase).
    rewrite Hrecv in Hb. apply app_inv_head in Hb as <-.
    rewrite (proj2 (Z.eqb_neq _ _)) in Hcase by lia. by exists f, rss, rss'.
Qed.

Lemma drain_spec f rss rss' n s : represents f rss rss' s -> (length (outstanding f) <= n)%nat ->
  wp (system_rounds Et Ed Ot Od fuel (drain n))
    (fun _ s' => exists ds, represents (Flow (all_requests f) [] [] [] []) ds [] s') s.
Proof using Hpriv HquietT HquietD Htransfers HpthreadsT HpthreadsD Hts1 Hts2 Hds1 Hds2 Hfuel.
  intros Hs Hn. eapply wp_mono; [eapply any_rounds; [|exact Hs]|].
  - unfold drain. repeat (apply Forall_app; split); apply Forall_replicate; by intros fd.
  - intros _u s' (ds & ds' & Hs'). rewrite drain_delivers in Hs' by done. exists ds.
    destruct ds' as [|]; [done|]. pose proof (replies_length _ _ _ _ (rp_replies _ _ _ _ Hs')) as El.
    rewrite !length_app, length_fmap, length_app in El. pose proof (rp_delivered _ _ _ _ Hs') as Ed'.
    cbn [delivered in_responses length] in El, Ed'. lia.
Qed.

Lemma round_returns f rss rss' r s : represents f rss rss' s -> wp (sround r) (fun _ _ => True) s.
Proof using Hpriv HquietT HquietD Htransfers HpthreadsT HpthreadsD Hts1 Hts2 Hds1 Hds2 Hfuel.
  intros Hs. destruct r as [fd| | | |].
  { eapply wp_mono; [exact (receive_round _ _ _ fd _ Hs)|done]. }
  all: eapply wp_mono; [eapply any_round; [by intros fd|exact Hs]|done].
Qed.
End Refinement.

(** What the two servers rely on: SQLite as its documentation says, pthread
    calls and semaphores that work, [recv] and [send] that make progress, and
    between two rounds nobody else at work. *)
Record system_assumptions `{SqliteLaws} (Et Ed : Environment) (Ot : TcpServer.OtherThreads)
    (Od : Database.OtherThreads) (ts1 ts2 ds1 ds2 : Z) (limit fuel : nat) : Prop := {
  sa_private : sessions_private;
  sa_quiet_tcp : forall s : tcp_process, TcpServer.others s = s;
  sa_quiet_db : forall s : server, Database.others s = s;
  sa_transfers : transfers Et limit;
  sa_pthreads_tcp : tcp_pthreads_work Et;
  sa_pthreads_db : pthreads_work Ed;
  sa_semaphores : semaphore_works Et ts1 /\ semaphore_works Et ts2 /\ semaphore_works Ed ds1 /\ semaphore_works Ed ds2;
  sa_fuel : (Z.to_nat sizeof_request + limit < fuel)%nat;
}.

(** C4: the two servers together, for any interleaving of the rounds of their
    five threads and any clients that respect the protocol.  In every state
    that can be reached, each request received is in exactly one place, in the
    order of arrival (responses delivered, response queue, Database, request
    queue, TcpServer); the responses answer the requests in that order; a
    socket has been sent the responses to its own requests and nothing else;
    the requests not answered yet are those the TcpServer remembers; and no
    thread is stuck: each can complete another round. *)
Theorem system_run_correct `{SqliteLaws} (Et Ed : Environment) (Ot : TcpServer.OtherThreads)
    (Od : Database.OtherThreads) (tq1 tq2 dq1 dq2 : SharedQueue) (ts1 ts2 ds1 ds2 : Z) (limit fuel : nat)
    (sent0 : Z -> list byte) (T0 : tables) (s0 s : system) (R : list (Z * tcp_to_database_message_t)) :
  system_assumptions Et Ed Ot Od ts1 ts2 ds1 ds2 limit fuel ->
  represents Et tq1 tq2 dq1 dq2 ts1 ts2 ds1 ds2 T0 sent0 (Flow [] [] [] [] []) [] [] s0 ->
  system_run Et Ed Ot Od fuel s0 R s ->
  (exists f rss rss', all_requests f = R /\
     represents Et tq1 tq2 dq1 dq2 ts1 ts2 ds1 ds2 T0 sent0 f rss rss' s) /\
  forall r, wp (system_round Et Ed Ot Od fuel r) (fun _ _ => True) s.
Proof.
  intros [A1 A2 A3 A4 A5 A6 (A7 & A8 & A9 & A10) A11] Hinit Hrun.
  assert (exists f rss rss', all_requests f = R /\
    represents Et tq1 tq2 dq1 dq2 ts1 ts2 ds1 ds2 T0 sent0 f rss rss' s) as Hs
    by (eapply run_represents; [..|exact Hinit|exact Hrun]; eassumption).
  split; [done|]. destruct Hs as (f & rss & rss' & _ & Hs). intros r. eapply round_returns; [..|exact Hs]; eassumption.
Qed.

Lemma delivers_spec `{SqliteLaws} (Et Ed : Environment) (Ot : TcpServer.OtherThreads)
    (Od : Database.OtherThreads) (tq1 tq2 dq1 dq2 : SharedQueue) (ts1 ts2 ds1 ds2 : Z) (limit fuel : nat)
    (sent0 : Z -> list byte) (T0 : tables) (s0 s : system) (R : list (Z * tcp_to_database_message_t)) :
  system_assumptions Et Ed Ot Od ts1 ts2 ds1 ds2 limit fuel ->
  represents Et tq1 tq2 dq1 dq2 ts1 ts2 ds1 ds2 T0 sent0 (Flow [] [] [] [] []) [] [] s0 ->
  system_run Et Ed Ot Od fuel s0 R s ->
  wp (system_rounds Et Ed Ot Od fuel (drain (length R))) (fun _ s' => exists rss,
    replies T0 R.*2 rss (tables_of (srv_sqlite (sys_db s'))) /\
    pending_requests_ (TcpServer.this (sys_tcp s')) = ∅ /\
    forall fd, ~ @send_failure Et fd -> sent_on fd (tcp_world (sys_tcp s')) = sent0 fd ++ responses_to fd R rss) s.
Proof.
  intros [A1 A2 A3 A4 A5 A6 (A7 & A8 & A9 & A10) A11] Hinit Hrun.
  assert (exists f rss rss', all_requests f = R /\
    represents Et tq1 tq2 dq1 dq2 ts1 ts2 ds1 ds2 T0 sent0 f rss rss' s) as Hs
    by (eapply run_represents; [..|exact Hinit|exact Hrun]; eassumption).
  destruct Hs as (f & rss & rss' & <- & Hs).
  assert (length (outstanding f) <= length (all_requests f))%nat as Hn
    by (unfold all_requests; rewrite length_app; lia).
  eapply wp_mono; [eapply drain_spec; [..|exact Hs|exact Hn]; eassumption|].
  intros _u s' [ds Hs']. exists ds. destruct Hs' as [Q1 _ _ _ _ Q6 _ _ _ Q10].
  cbn [delivered in_responses] in Q1, Q10. rewrite !app_nil_r in Q1. by split.
Qed.

(** C9: the responses arrive.  From every state that can be reached, when
    each thread gets its turns, every request that was received is answered,
    and every client that can be written to has been sent its responses. *)
Theorem system_delivers `{SqliteLaws} (Et Ed : Environment) (Ot : TcpServer.OtherThreads)
    (Od : Database.OtherThreads) (tq1 tq2 dq1 dq2 : SharedQueue) (ts1 ts2 ds1 ds2 : Z) (limit fuel : nat)
    (sent0 : Z -> list byte) (T0 : tables) (s0 s : system) (R : list (Z * tcp_to_database_message_t)) :
  system_assumptions Et Ed Ot Od ts1 ts2 ds1 ds2 limit fuel ->
  represents Et tq1 tq2 dq1 dq2 ts1 ts2 ds1 ds2 T0 sent0 (Flow [] [] [] [] []) [] [] s0 ->
  system_run Et Ed Ot Od fuel s0 R s ->
  wp (system_rounds Et Ed Ot Od fuel (drain (length R))) (fun _ s' => exists rss,
    replies T0 R.*2 rss (tables_of (srv_sqlite (sys_db s'))) /\
    pending_requests_ (TcpServer.this (sys_tcp s')) = ∅ /\
    forall fd, ~ @send_failure Et fd -> sent_on fd (tcp_world (sys_tcp s')) = sent0 fd ++ responses_to fd R rss) s.
Proof. by apply delivers_spec. Qed.
