(* ===== verification/TcpExample.v ===== *)
(** TcpExample: the theorems about the TcpServer and about the two servers
    together, at work on concrete processes. *)

From S2P Require Import Prelude Machine CLib Posix IpcProtocol SharedMemory SharedQueue.
From S2P Require Import Sqlite SqliteDatabase SqliteRules ParkingDatabase SqliteExample.
From S2P Require Import Database DatabaseProofs DatabaseExample.
From S2P Require Import TcpServer TcpSockets TcpMessages System.

(** ** A kernel where one client at a time connects and leaves *)
Definition visiting_kernel : Environment := fun w c =>
  match c with
  | sys_socket => if decide (5 ∈ open_fds w) then failed 0 else ok 5
  | sys_accept _ => if decide (6 ∈ open_fds w) then failed 0 else ok 6
  | sys_select _ fds => Answer 1 0 [] fds
  | _ => ok 0
  end.

(** SIGINT comes after three calls of [select]. *)
Definition stops_after_three : TcpServer.OtherThreads := fun s =>
  if (3 <=? Z.of_nat (calls is_select (tcp_world s))) then
    s <| TcpServer.this ::= fun o => o <| TcpServer.running_ := false |> |>
  else s.

Lemma visiting_kernel_ok : kernel_ok visiting_kernel 0.
Proof.
  intros s c. destruct c; cbn -[elem_of decide]; try done; try (by left).
  - case_decide; [by left|right]. cbn. split; [unfold FD_SETSIZE; lia|done].
  - case_decide; [by left|right]. cbn. split; [lia|done].
Qed.

Lemma stops_after_three_ok : @others_ok stops_after_three 3.
Proof.
  intros s. unfold others, stops_after_three.
  destruct (Z.leb_spec 3 (Z.of_nat (calls is_select (tcp_world s)))); constructor; cbn; try done; lia.
Qed.

Definition tcp_process_with (o : TcpServer) (m : list byte) : tcp_process := TcpProcess o m (-1) 0 [].
Definition running_server : TcpServer := new_TcpServer <| TcpServer.running_ := true |>.

Lemma tcp_server_closes_sockets_witness :
  wp (@tcp_server_loop visiting_kernel stops_after_three 100) (fun _ s' =>
    open_fds (tcp_world s') = open_fds (tcp_world (tcp_process_with running_server [])) /\
    TcpServer.server_socket_ (TcpServer.this s') = -1) (tcp_process_with running_server []).
Proof.
  refine (@tcp_server_closes_sockets visiting_kernel stops_after_three 0 3 100
    (tcp_process_with running_server []) _ _ _ _).
  - exact visiting_kernel_ok.
  - exact stops_after_three_ok.
  - vm_compute. lia.
  - cbn. lia.
Defined.

(** ** A client that sends one request at a time *)
Definition sending_client : Environment := fun _ c =>
  match c with
  | sys_recv _ k => if k =? 64 then Answer 64 0 (encode_request arrival) ∅ else ok 0
  | sys_send _ data _ => if bool_decide (data = []) then failed 0 else ok (Z.of_nat (length data))
  | _ => ok 0
  end.
#[export] Instance tcp_alone : TcpServer.OtherThreads := fun s => s.

Lemma sending_client_transfers : transfers sending_client 0.
Proof.
  split.
  - intros w fd k. cbn. destruct (Z.eqb_spec k 64) as [->|]; [|by left]. right. right. cbn. split; [lia|reflexivity].
  - intros w fd data f. cbn. case_bool_decide as E; [left; by split|right]. destruct data; [done|]. cbn [length ans_ret ok]. lia.
Qed.

Lemma sending_client_pthreads : tcp_pthreads_work sending_client.
Proof. by intros w. Qed.

Lemma sending_client_semaphores : semaphore_works sending_client 3.
Proof. done. Qed.

(** A server with both queues attached. *)
Definition attached_server : TcpServer :=
  running_server <| TcpServer.tcp_to_database_queue_ := Some request_queue_object |>
    <| TcpServer.database_to_tcp_queue_ := Some response_queue_object |>.

#[local] Opaque created_segment.

Lemma client_request_received_witness :
  wp (@receive_client_request sending_client _ 65 5) (fun complete s' => exists bytes,
    (forall fd', received_on fd' (tcp_world s') =
       received_on fd' (tcp_world (tcp_process_with attached_server created_segment)) ++
       (if 5 =? fd' then bytes else [])) /\
    (forall fd', sent_on fd' (tcp_world s') =
       sent_on fd' (tcp_world (tcp_process_with attached_server created_segment))) /\
    if complete then
      Z.of_nat (length bytes) = sizeof_request /\
      TcpServer.request_queue_ (TcpServer.this s') =
        TcpServer.request_queue_ (TcpServer.this (tcp_process_with attached_server created_segment)) ++
        [decode_request bytes] /\
      pending_requests_ (TcpServer.this s') =
        <[rq_request_id (decode_request bytes) := 5]>
          (pending_requests_ (TcpServer.this (tcp_process_with attached_server created_segment))) /\
      forall rq, wf_request rq -> bytes = encode_request rq -> decode_request bytes = rq
    else Z.of_nat (length bytes) < sizeof_request /\
      TcpServer.this s' = TcpServer.this (tcp_process_with attached_server created_segment))
    (tcp_process_with attached_server created_segment).
Proof.
  refine (@client_request_received sending_client _ 0 65 5 (tcp_process_with attached_server created_segment) _ _ _ _).
  - done.
  - exact sending_client_transfers.
  - exact sending_client_pthreads.
  - vm_compute. lia.
Defined.

(** The server with [arrival] received and not yet forwarded. *)
Definition holding_server : TcpServer :=
  attached_server <| TcpServer.request_queue_ := [arrival] |> <| pending_requests_ := {[7 := 5]} |>.

Lemma attached_relaying o xs ys m : TcpServer.tcp_to_database_queue_ o = Some request_queue_object ->
  TcpServer.database_to_tcp_queue_ o = Some response_queue_object -> ipc_segment m xs ys ->
  relaying request_queue_object response_queue_object 3 3 xs ys (tcp_process_with o m).
Proof. by constructor. Qed.

Lemma request_forwarded_witness :
  wp (@request_writer_round sending_client _ 65) (fun again s' => again = true /\
    relaying request_queue_object response_queue_object 3 3
      (if Z.of_nat (length (@nil (list byte))) <? TCP_TO_DATABASE_QUEUE_CAPACITY
       then [] ++ [encode_request arrival] else []) [] s' /\
    TcpServer.request_queue_ (TcpServer.this s') = [] /\
    pending_requests_ (TcpServer.this s') =
      pending_requests_ (TcpServer.this (tcp_process_with holding_server created_segment)) /\
    forall fd, sent_on fd (tcp_world s') = sent_on fd (tcp_world (tcp_process_with holding_server created_segment)))
    (tcp_process_with holding_server created_segment).
Proof.
  refine (@request_forwarded sending_client _ 65 request_queue_object response_queue_object 3 3 arrival [] [] []
    (tcp_process_with holding_server created_segment) _ _ _ _ _ _).
  - done.
  - exact sending_client_pthreads.
  - exact sending_client_semaphores.
  - apply arrival_good.
  - reflexivity.
  - by apply attached_relaying; [..|apply created_segment_repr].
Defined.

(** A response waiting for the client of socket 5. *)
Definition farewell : database_to_tcp_message_t :=
  (blank_reply arrival car) <| rs_action := ACKNOWLEDGE |> <| rs_status := IPC_STATUS_SUCCESS |>.

Lemma farewell_wf : wf_response farewell.
Proof. constructor; vm_compute; done. Qed.

Definition answered_segment : list byte :=
  match @push sem_env response_queue_object (Some (encode_response farewell)) (IpcState created_segment []) with
  | Ret (_, i) => segment i | _ => [] end.

Lemma answered_segment_repr : ipc_segment answered_segment [] [encode_response farewell].
Proof.
  assert (wp (@push sem_env response_queue_object (Some (encode_response farewell)))
    (fun _ i => ipc_segment (segment i) [] [encode_response farewell]) (IpcState created_segment [])) as Hrun.
  { eapply wp_mono.
    - apply (@push_response sem_env response_queue_object 3 sem_env_works _ [] []);
        [by constructor|apply created_segment_repr|apply length_encode_response, farewell_wf].
    - by intros b i [_ Hi]. }
  unfold answered_segment. unfold wp in Hrun. destruct (push _ _ _) as [[b i]| |]; [exact Hrun|done|done].
Qed.

#[local] Opaque answered_segment.

Lemma response_routed_witness :
  wp (@response_reader_round sending_client _ 65) (fun _ s' =>
    relaying request_queue_object response_queue_object 3 3 [] [] s' /\
    (forall fd, pending_requests_ (TcpServer.this (tcp_process_with holding_server answered_segment))
                  !! rs_request_id farewell <> Some fd ->
       sent_on fd (tcp_world s') = sent_on fd (tcp_world (tcp_process_with holding_server answered_segment))) /\
    match pending_requests_ (TcpServer.this (tcp_process_with holding_server answered_segment))
            !! rs_request_id farewell with
    | Some fd =>
        pending_requests_ (TcpServer.this s') =
          delete (rs_request_id farewell)
            (pending_requests_ (TcpServer.this (tcp_process_with holding_server answered_segment))) /\
        exists n, sent_on fd (tcp_world s') =
            sent_on fd (tcp_world (tcp_process_with holding_server answered_segment)) ++
            take n (encode_response farewell) /\
          (Z.of_nat n = sizeof_response \/ @send_failure sending_client fd)
    | None => TcpServer.this s' = TcpServer.this (tcp_process_with holding_server answered_segment)
    end) (tcp_process_with holding_server answered_segment).
Proof.
  refine (@response_routed sending_client _ 0 65 request_queue_object response_queue_object 3 3 farewell [] []
    (tcp_process_with holding_server answered_segment) _ _ _ _ _ _ _).
  - done.
  - exact sending_client_transfers.
  - exact sending_client_pthreads.
  - exact sending_client_semaphores.
  - vm_compute. lia.
  - exact farewell_wf.
  - apply attached_relaying; [reflexivity..|exact answered_segment_repr].
Defined.

(** ** The two servers *)
Definition idle_system : system :=
  SystemState _ (tcp_process_with attached_server created_segment) (process serving_object created_segment 1)
    created_segment.

Lemma sending_client_assumptions : system_assumptions sending_client sem_env tcp_alone alone 3 3 3 3 0 65.
Proof.
  constructor; try done; [exact example_private|exact sending_client_transfers|vm_compute; lia].
Qed.

Lemma idle_system_represents :
  represents sending_client request_queue_object response_queue_object request_queue_object response_queue_object
    3 3 3 3 (tables_of (srv_sqlite (sys_db idle_system))) (fun _ => []) (Flow [] [] [] [] []) [] [] idle_system.
Proof.
  constructor.
  - constructor.
  - reflexivity.
  - apply attached_relaying; [reflexivity..|exact created_segment_repr].
  - constructor; [reflexivity..|by constructor|by constructor|exact created_segment_repr|reflexivity|discriminate
      |exact seeded_sessions_ok].
  - reflexivity.
  - reflexivity.
  - constructor.
  - constructor.
  - cbn. lia.
  - reflexivity.
Qed.

(** The client of socket 5 has sent [arrival]. *)
Definition after_arrival : system :=
  match system_round sending_client sem_env tcp_alone alone 65 (Receive 5) idle_system with
  | Ret (_, s) => s
  | _ => idle_system
  end.

Lemma arrival_run : system_run sending_client sem_env tcp_alone alone 65 idle_system [(5, arrival)] after_arrival.
Proof.
  apply (run_request _ _ _ _ 65 idle_system [] idle_system 5 arrival car); [constructor| | | | |].
  - reflexivity.
  - reflexivity.
  - exact arrival_good.
  - reflexivity.
  - vm_compute. lia.
Qed.

#[local] Opaque after_arrival idle_system.

Lemma system_run_correct_witness :
  (exists f rss rss', all_requests f = [(5, arrival)] /\
     represents sending_client request_queue_object response_queue_object request_queue_object response_queue_object
       3 3 3 3 (tables_of (srv_sqlite (sys_db idle_system))) (fun _ => []) f rss rss' after_arrival) /\
  forall r, wp (system_round sending_client sem_env tcp_alone alone 65 r) (fun _ _ => True) after_arrival.
Proof.
  refine (@system_run_correct _ _ sending_client sem_env tcp_alone alone request_queue_object response_queue_object
    request_queue_object response_queue_object 3 3 3 3 0 65 (fun _ => [])
    (tables_of (srv_sqlite (sys_db idle_system))) idle_system after_arrival [(5, arrival)] _ _ _).
  - exact sending_client_assumptions.
  - exact idle_system_represents.
  - exact arrival_run.
Defined.

Lemma system_delivers_witness :
  wp (system_rounds sending_client sem_env tcp_alone alone 65 (drain (length [(5, arrival)]))) (fun _ s' => exists rss,
    replies (tables_of (srv_sqlite (sys_db idle_system))) [(5, arrival)].*2 rss (tables_of (srv_sqlite (sys_db s'))) /\
    pending_requests_ (TcpServer.this (sys_tcp s')) = ∅ /\
    forall fd, ~ @send_failure sending_client fd ->
      sent_on fd (tcp_world (sys_tcp s')) = [] ++ responses_to fd [(5, arrival)] rss) after_arrival.
Proof.
  refine (@system_delivers _ _ sending_client sem_env tcp_alone alone request_queue_object response_queue_object
    request_queue_object response_queue_object 3 3 3 3 0 65 (fun _ => [])
    (tables_of (srv_sqlite (sys_db idle_system))) idle_system after_arrival [(5, arrival)] _ _ _).
  - exact sending_client_assumptions.
  - exact idle_system_represents.
  - exact arrival_run.
Defined.
