(* ===== verification/GpsSimulator.v ===== *)
(** GpsSimulator (src/STM32GpsSimulator/Core/Src/main.c): the firmware that
    answers I2C reads with GPS coordinates, a new one every second. *)

From S2P Require Import Prelude Machine CLib Ieee.

Record gps_coordinate_t := GpsCoordinate {
  latitude : float;
  longitude : float;
}.

(** A table entry, in thousandths of a degree. *)
Definition at_thousandths (lat long : Z) : gps_coordinate_t :=
  GpsCoordinate (float_lit lat 1000) (float_lit long 1000).

Definition gps_coordinates : list gps_coordinate_t := [
  (* Tel Aviv *)
  at_thousandths 10100 10150;
  at_thousandths 10300 10450;
  at_thousandths 10550 10600;
  at_thousandths 11200 11350;
  at_thousandths 12750 12900;
  at_thousandths 13400 13500;
  (* Haifa *)
  at_thousandths 20100 20200;
  at_thousandths 21300 21450;
  at_thousandths 22700 22900;
  at_thousandths 24200 24350;
  at_thousandths 26800 26950;
  at_thousandths 28500 28700;
  (* Jerusalem *)
  at_thousandths 30100 30200;
  at_thousandths 31400 31550;
  at_thousandths 32800 32950;
  at_thousandths 34300 34500;
  at_thousandths 36700 36850;
  at_thousandths 39100 39300
].

Definition GPS_COORDINATES_COUNT : Z := Z.of_nat (length gps_coordinates).

(** The bytes of a coordinate in memory. *)
Definition encode_coordinate (c : gps_coordinate_t) : list byte :=
  le_bytes 4 (float_bits (latitude c)) ++ le_bytes 4 (float_bits (longitude c)).
Definition sizeof_coordinate : Z := 8.

(** ** The hardware abstraction layer

    Base addresses of the peripherals, the members of the handles that main.c
    sets, and the calls it makes. *)
Definition I2C1 : Z := 0x40005400.
Definition TIM10 : Z := 0x40014400.
Definition USART3 : Z := 0x40004800.

Definition HAL_OK : Z := 0.
Definition I2C_DIRECTION_RECEIVE : Z := 1.

Record I2C_HandleTypeDef := I2CHandle {
  i2c_Instance : Z;
  Timing : Z;
  OwnAddress1 : Z;
  AddressingMode : Z;
  DualAddressMode : Z;
  OwnAddress2 : Z;
  OwnAddress2Masks : Z;
  GeneralCallMode : Z;
  NoStretchMode : Z;
}.

Record TIM_HandleTypeDef := TIMHandle {
  tim_Instance : Z;
  Prescaler : Z;
  CounterMode : Z;
  Period : Z;
  ClockDivision : Z;
  AutoReloadPreload : Z;
}.

Record UART_HandleTypeDef := UARTHandle {
  uart_Instance : Z;
  BaudRate : Z;
  WordLength : Z;
  StopBits : Z;
  Parity : Z;
  Mode : Z;
  HwFlowCtl : Z;
  OverSampling : Z;
  OneBitSampling : Z;
  AdvFeatureInit : Z;
}.

Record RCC_OscInitTypeDef := OscInit {
  OscillatorType : Z;
  HSIState : Z;
  HSICalibrationValue : Z;
  PLLState : Z;
}.

Record RCC_ClkInitTypeDef := ClkInit {
  ClockType : Z;
  SYSCLKSource : Z;
  AHBCLKDivider : Z;
  APB1CLKDivider : Z;
  APB2CLKDivider : Z;
}.

(** Macros that set bits of a clock register are one call each. *)
Inductive hal_call :=
| HAL_Init
| RCC_PWR_CLK_ENABLE
| PWR_VOLTAGESCALING_CONFIG
| RCC_GPIOD_CLK_ENABLE
| RCC_GPIOB_CLK_ENABLE
| disable_irq
| HAL_RCC_OscConfig (c : RCC_OscInitTypeDef)
| HAL_RCC_ClockConfig (c : RCC_ClkInitTypeDef) (latency : Z)
| HAL_I2C_Init (h : I2C_HandleTypeDef)
| HAL_I2CEx_ConfigAnalogFilter (h : I2C_HandleTypeDef) (filter : Z)
| HAL_I2CEx_ConfigDigitalFilter (h : I2C_HandleTypeDef) (filter : Z)
| HAL_TIM_Base_Init (h : TIM_HandleTypeDef)
| HAL_UART_Init (h : UART_HandleTypeDef)
| HAL_TIM_Base_Start_IT (h : TIM_HandleTypeDef)
| HAL_I2C_EnableListen_IT (h : I2C_HandleTypeDef)
| HAL_I2C_Slave_Seq_Transmit_IT (h : I2C_HandleTypeDef) (size : Z)
| HAL_I2C_GetError (h : I2C_HandleTypeDef)
| HAL_UART_Transmit (data : list byte).

(** What the layer answers, from the calls made so far (the latest first). *)
Class Hal := hal_status : list hal_call -> hal_call -> Z.

(** ** The device

    The globals of main.c, the calls made, and the transfer in progress: how
    many bytes of [i2c_tx_packet] remain to be sent, and those sent so far on
    the wire.  The layer keeps a pointer to the packet, so it sends what the
    packet holds when each byte is due. *)
Record device := Device {
  hi2c1 : I2C_HandleTypeDef;
  htim10 : TIM_HandleTypeDef;
  huart3 : UART_HandleTypeDef;
  current_coordinate : Z;
  i2c_tx_packet : gps_coordinate_t;
  XferCount : Z;
  irq_disabled : bool;
  hal_calls : list hal_call;
  wire : list byte;
}.

#[export] Instance device_fields : Fields device := fun s =>
  Device (hi2c1 s) (htim10 s) (huart3 s) (current_coordinate s) (i2c_tx_packet s) (XferCount s)
    (irq_disabled s) (hal_calls s) (wire s).

Definition no_coordinate : gps_coordinate_t := GpsCoordinate (S754_zero false) (S754_zero false).

(** After reset: globals without initialisers are zero. *)
Definition reset : device :=
  Device (I2CHandle 0 0 0 0 0 0 0 0 0) (TIMHandle 0 0 0 0 0 0) (UARTHandle 0 0 0 0 0 0 0 0 0 0)
    0 no_coordinate 0 false [] [].

(** How [main] and the callbacks go on: [Halted] is the endless loop of
    [Error_Handler], [Listening] the one of [main]. *)
Inductive fate := Listening | Halted.

Section Firmware.
Context `{Hal}.

Definition hal (c : hal_call) : M device Z := fun s =>
  Ret (hal_status (hal_calls s) c, s <| hal_calls ::= cons c |>).
Definition hal_ (c : hal_call) : M device unit := hal c;; mret tt.

Definition Error_Handler : M device fate :=
  hal_ disable_irq;;
  modify (fun s => s <| irq_disabled := true |>);;
  mret Halted.

(** [if (f(...) != HAL_OK) { Error_Handler(); }], and the code behind it. *)
Definition or_halt (c : M device Z) (next : M device fate) : M device fate :=
  status ← c;
  if negb (status =? HAL_OK) then Error_Handler else next.

(** The callers of a function that may end in [Error_Handler]. *)
Definition then_ (f : M device fate) (next : M device fate) : M device fate :=
  r ← f;
  match r with Halted => mret Halted | Listening => next end.

Definition SystemClock_Config : M device fate :=
  hal_ RCC_PWR_CLK_ENABLE;;
  hal_ PWR_VOLTAGESCALING_CONFIG;;
  or_halt (hal (HAL_RCC_OscConfig (OscInit 2 1 0x10 0)))
    (or_halt (hal (HAL_RCC_ClockConfig (ClkInit 15 0 0 0 0) 0)) (mret Listening)).

Definition MX_GPIO_Init : M device unit :=
  hal_ RCC_GPIOD_CLK_ENABLE;; hal_ RCC_GPIOB_CLK_ENABLE.

Definition MX_I2C1_Init : M device fate :=
  let h := I2CHandle I2C1 0x0010061A 132 1 0 0 0 0 0 in
  modify (fun s => s <| hi2c1 := h |>);;
  or_halt (hal (HAL_I2C_Init h))
    (or_halt (hal (HAL_I2CEx_ConfigAnalogFilter h 0))
      (or_halt (hal (HAL_I2CEx_ConfigDigitalFilter h 0)) (mret Listening))).

Definition MX_TIM10_Init : M device fate :=
  let h := TIMHandle TIM10 15999 0 999 0 0 in
  modify (fun s => s <| htim10 := h |>);;
  or_halt (hal (HAL_TIM_Base_Init h)) (mret Listening).

Definition MX_USART3_UART_Init : M device fate :=
  let h := UARTHandle USART3 115200 0 0 0 12 0 0 0 0 in
  modify (fun s => s <| huart3 := h |>);;
  or_halt (hal (HAL_UART_Init h)) (mret Listening).

Definition main : M device fate :=
  hal_ HAL_Init;;
  then_ SystemClock_Config (
  MX_GPIO_Init;;
  then_ MX_I2C1_Init (
  then_ MX_TIM10_Init (
  then_ MX_USART3_UART_Init (
  timer ← gets htim10;
  or_halt (hal (HAL_TIM_Base_Start_IT timer)) (
  i2c ← gets hi2c1;
  or_halt (hal (HAL_I2C_EnableListen_IT i2c)) (
  mret Listening)))))).

(** ** Callbacks *)
Definition write (data : list byte) : M device Z :=
  hal_ (HAL_UART_Transmit data);; mret (Z.of_nat (length data)).

(** ["%08lX"] *)
Definition hex_digit (d : Z) : byte := byte_of_Z (if d <? 10 then 48 + d else 55 + d).
Definition hex8 (z : Z) : list byte :=
  (fun i => hex_digit ((z `div` 16 ^ i) `mod` 16)) <$> [7; 6; 5; 4; 3; 2; 1; 0].

(** [printf] reaches [_write]. *)
Definition HAL_I2C_ErrorCallback (hi2c : I2C_HandleTypeDef) : M device unit :=
  if i2c_Instance hi2c =? I2C1 then
    error ← hal (HAL_I2C_GetError hi2c);
    write (bs "I2C error callback: 0x" ++ hex8 (wrap_u 32 error) ++ [Byte.x0d; Byte.x0a]);;
    mret tt
  else mret tt.

Definition HAL_TIM_PeriodElapsedCallback (htim : TIM_HandleTypeDef) : M device unit :=
  if tim_Instance htim =? TIM10 then
    current ← gets current_coordinate;
    let next_coordinate := wrap_u 32 (current + 1) in
    let next_coordinate := if GPS_COORDINATES_COUNT <=? next_coordinate then 0 else next_coordinate in
    modify (fun s => s <| current_coordinate := next_coordinate |>)
  else mret tt.

(** A transfer that is accepted starts at the first byte of the packet. *)
Definition HAL_I2C_AddrCallback (hi2c : I2C_HandleTypeDef) (transfer_direction address_match_code : Z)
    : M device unit :=
  if (i2c_Instance hi2c =? I2C1) && (transfer_direction =? I2C_DIRECTION_RECEIVE) then
    coordinate_index ← gets current_coordinate;
    coordinate ← from_option_undef (gps_coordinates !! Z.to_nat coordinate_index);
    modify (fun s => s <| i2c_tx_packet := coordinate |>);;
    status ← hal (HAL_I2C_Slave_Seq_Transmit_IT hi2c sizeof_coordinate);
    if status =? HAL_OK then modify (fun s => s <| XferCount := sizeof_coordinate |>) else mret tt
  else mret tt.

Definition HAL_I2C_ListenCpltCallback (hi2c : I2C_HandleTypeDef) : M device fate :=
  if i2c_Instance hi2c =? I2C1 then
    or_halt (hal (HAL_I2C_EnableListen_IT hi2c)) (mret Listening)
  else mret Listening.

(** ** Interrupts *)

(** The master asks for the next byte (the TXIS branch of [I2C_Slave_ISR_IT] in
    stm32f7xx_hal_i2c.c): it is read through the pointer into the packet. *)
Definition transmit_byte : M device unit :=
  count ← gets XferCount;
  if 0 <? count then
    packet ← gets i2c_tx_packet;
    b ← from_option_undef (encode_coordinate packet !! Z.to_nat (sizeof_coordinate - count));
    modify (fun s => s <| wire ::= fun sent => sent ++ [b] |> <| XferCount := count - 1 |>)
  else mret tt.

Inductive interrupt :=
| TimerElapsed (h : TIM_HandleTypeDef)
| AddressMatched (h : I2C_HandleTypeDef) (direction code : Z)
| ByteRequested
| ListenCompleted (h : I2C_HandleTypeDef)
| I2CError (h : I2C_HandleTypeDef).

(** All have the same priority, so a handler is not interrupted. *)
Definition handle (i : interrupt) : M device unit :=
  stuck ← gets irq_disabled;
  if (stuck : bool) then mret tt else
  match i with
  | TimerElapsed h => HAL_TIM_PeriodElapsedCallback h
  | AddressMatched h direction code => HAL_I2C_AddrCallback h direction code
  | ByteRequested => transmit_byte
  | ListenCompleted h => HAL_I2C_ListenCpltCallback h;; mret tt
  | I2CError h => HAL_I2C_ErrorCallback h
  end.

Definition handle_all (interrupts : list interrupt) : M device unit :=
  foldr (fun i rest => handle i;; rest) (mret tt) interrupts.
End Firmware.

(** ** Start-up *)

(** The calls whose result main.c tests. *)
Definition checked (c : hal_call) : bool :=
  match c with
  | HAL_RCC_OscConfig _ | HAL_RCC_ClockConfig _ _ | HAL_I2C_Init _ | HAL_I2CEx_ConfigAnalogFilter _ _
  | HAL_I2CEx_ConfigDigitalFilter _ _ | HAL_TIM_Base_Init _ | HAL_UART_Init _ | HAL_TIM_Base_Start_IT _
  | HAL_I2C_EnableListen_IT _ => true
  | _ => false
  end.

(** Every tested call of a history succeeded. *)
Fixpoint all_ok `{Hal} (w : list hal_call) : Prop :=
  match w with
  | [] => True
  | c :: w => (checked c = true -> hal_status w c = HAL_OK) /\ all_ok w
  end.

(** The history ends in [Error_Handler], called for the first failure. *)
Definition stopped_at_failure `{Hal} (w : list hal_call) : Prop :=
  exists c w', w = disable_irq :: c :: w' /\ checked c = true /\ hal_status w' c <> HAL_OK /\ all_ok w'.

Definition configured_i2c : I2C_HandleTypeDef := I2CHandle I2C1 0x0010061A 132 1 0 0 0 0 0.
Definition configured_tim : TIM_HandleTypeDef := TIMHandle TIM10 15999 0 999 0 0.

Section Start.
Context `{Hal}.
Implicit Types s : device.

(** What start-up does not touch. *)
Definition idle (s : device) : Prop :=
  current_coordinate s = 0 /\ XferCount s = 0 /\ wire s = [].

Definition starting (s : device) : Prop := all_ok (hal_calls s) /\ irq_disabled s = false /\ idle s.
Definition halted (s : device) : Prop := stopped_at_failure (hal_calls s) /\ irq_disabled s = true /\ idle s.

Lemma wp_hal_unchecked c (Q : unit -> device -> Prop) s : checked c = false -> starting s ->
  (forall s', s' = s <| hal_calls ::= cons c |> -> starting s' -> Q tt s') -> wp (hal_ c) Q s.
Proof.
  intros Hc (Hok & Hirq & Hidle) HQ. apply HQ; [done|]. split; [|done]. cbn. by rewrite Hc.
Qed.

Lemma wp_or_halt c next (Q : fate -> device -> Prop) s : checked c = true -> starting s ->
  (forall s', halted s' -> Q Halted s') ->
  (forall s', s' = s <| hal_calls ::= cons c |> -> starting s' -> wp next Q s') ->
  wp (or_halt (hal c) next) Q s.
Proof.
  intros Hc (Hok & Hirq & Hidle) Hhalt Hnext. unfold or_halt, wp, mbind, M_bind, hal at 1. fold (wp next Q).
  destruct (Z.eqb_spec (hal_status (hal_calls s) c) HAL_OK) as [E|E]; cbn [negb].
  - apply Hnext; [done|]. split; [|done]. cbn. by split.
  - apply Hhalt. split; [|by split]. by exists c, (hal_calls s).
Qed.

Lemma wp_then f next (Q : fate -> device -> Prop) s :
  wp f (fun r s' => match r with Halted => Q Halted s' | Listening => wp next Q s' end) s ->
  wp (then_ f next) Q s.
Proof. intros Hf. apply wp_bind. eapply wp_mono; [exact Hf|]. by intros []. Qed.

Lemma wp_configure f (Q : unit -> device -> Prop) s : starting s ->
  (forall s, hal_calls (f s) = hal_calls s /\ irq_disabled (f s) = irq_disabled s /\
     current_coordinate (f s) = current_coordinate s /\ XferCount (f s) = XferCount s /\ wire (f s) = wire s) ->
  (forall s', s' = f s -> starting s' -> Q tt s') -> wp (modify f) Q s.
Proof.
  intros Hs Hf HQ. apply wp_modify, HQ; [done|]. destruct (Hf s) as (E1 & E2 & E3 & E4 & E5).
  unfold starting, idle. rewrite E1, E2, E3, E4, E5. exact Hs.
Qed.

(** A call that succeeds changes the history only. *)
Ltac next_state s Hs :=
  clear Hs; let s' := fresh s in let E := fresh in intros s' E Hs;
  repeat match goal with P : ?f s = ?v |- _ => assert (f s' = v) by (rewrite E; exact P); clear P end;
  clear E; try (clear s; rename s' into s).
Ltac unchecked s Hs := apply wp_hal_unchecked; [done|exact Hs|]; next_state s Hs.
Ltac or_halt s Hs := apply wp_or_halt; [done|exact Hs|done|]; next_state s Hs.

Lemma main_spec : wp main (fun r s =>
  match r with
  | Listening => starting s /\ hi2c1 s = configured_i2c /\ htim10 s = configured_tim /\
      exists w, hal_calls s = HAL_I2C_EnableListen_IT configured_i2c :: HAL_TIM_Base_Start_IT configured_tim :: w
  | Halted => halted s
  end) reset.
Proof.
  assert (starting reset) as Hs by done. revert Hs. generalize reset. intros s Hs. unfold main.
  apply wp_bind. unchecked s Hs.
  apply wp_then. unfold SystemClock_Config.
  apply wp_bind. unchecked s Hs.
  apply wp_bind. unchecked s Hs.
  or_halt s Hs. or_halt s Hs. apply wp_ret, wp_bind. unfold MX_GPIO_Init.
  apply wp_bind. unchecked s Hs.
  unchecked s Hs.
  apply wp_then. unfold MX_I2C1_Init. fold configured_i2c.
  apply wp_bind, wp_configure; [exact Hs|done|]. clear Hs. intros s1 E Hs.
  assert (hi2c1 s1 = configured_i2c) as Hi by by rewrite E. clear E s. rename s1 into s.
  or_halt s Hs. or_halt s Hs. or_halt s Hs. apply wp_ret, wp_then. unfold MX_TIM10_Init. fold configured_tim.
  apply wp_bind, wp_configure; [exact Hs|done|]. clear Hs. intros s1 E Hs.
  assert (htim10 s1 = configured_tim) by by rewrite E.
  assert (hi2c1 s1 = configured_i2c) by by rewrite E. clear dependent s. rename s1 into s.
  or_halt s Hs. apply wp_ret, wp_then. unfold MX_USART3_UART_Init.
  apply wp_bind, wp_configure; [exact Hs|done|]. clear Hs. intros s1 E Hs.
  assert (htim10 s1 = configured_tim) by by rewrite E.
  assert (hi2c1 s1 = configured_i2c) by by rewrite E. clear dependent s. rename s1 into s.
  or_halt s Hs. apply wp_ret, wp_bind, wp_gets.
  match goal with E : htim10 s = _ |- _ => rewrite E end.
  apply wp_or_halt; [done|exact Hs|done|]. clear Hs. intros s1 E1 Hs.
  apply wp_bind, wp_gets. assert (hi2c1 s1 = configured_i2c) as Hi by by rewrite E1. rewrite Hi.
  apply wp_or_halt; [done|exact Hs|done|]. clear Hs. intros s2 E2 Hs. apply wp_ret.
  subst s2 s1. split; [exact Hs|]. split; [exact Hi|]. split; [assumption|]. by exists (hal_calls s).
Qed.
End Start.

(** C38: start-up of the firmware.  However the hardware layer answers, [main]
    either reaches its idle loop, with the timer started and the I2C slave
    listening at the address the client uses, after every tested call has
    succeeded; or it stops in [Error_Handler], with interrupts disabled, at the
    first call that fails. *)
Theorem firmware_start `{Hal} : wp main (fun r s =>
  current_coordinate s = 0 /\ XferCount s = 0 /\ wire s = [] /\
  match r with
  | Listening => all_ok (hal_calls s) /\ irq_disabled s = false /\
      hi2c1 s = configured_i2c /\ Z.shiftr (OwnAddress1 (hi2c1 s)) 1 = 0x42 /\ htim10 s = configured_tim /\
      exists w, hal_calls s = HAL_I2C_EnableListen_IT (hi2c1 s) :: HAL_TIM_Base_Start_IT (htim10 s) :: w
  | Halted => stopped_at_failure (hal_calls s) /\ irq_disabled s = true
  end) reset.
Proof.
  eapply wp_mono; [apply main_spec|]. intros [] s.
  - intros ((Hok & Hirq & Hc & Hx & Hw) & Hi & Ht & w & Hh). rewrite Hi, Ht. do 3 (split; [done|]).
    do 3 (split; [done|]). split; [reflexivity|]. split; [done|]. by exists w.
  - by intros (Hstop & Hirq & Hc & Hx & Hw).
Qed.

(** ** The bytes on the wire *)

(** Specification: the number of the second, the table entry selected for
    the master and how many of its bytes are still due. *)
Record transmission := Transmission {
  tick : Z;
  selected : Z;
  due : Z;
}.

Definition coordinate_at (i : Z) : gps_coordinate_t := default no_coordinate (gps_coordinates !! Z.to_nat i).

Definition transmission_step (t : transmission) (i : interrupt) : transmission * list byte :=
  match i with
  | TimerElapsed h =>
      (if tim_Instance h =? TIM10 then Transmission ((tick t + 1) `mod` GPS_COORDINATES_COUNT) (selected t) (due t) else t, [])
  | AddressMatched h direction _ =>
      (if (i2c_Instance h =? I2C1) && (direction =? I2C_DIRECTION_RECEIVE)
       then Transmission (tick t) (tick t) sizeof_coordinate else t, [])
  | ByteRequested =>
      if 0 <? due t
      then (Transmission (tick t) (selected t) (due t - 1),
            take 1 (drop (Z.to_nat (sizeof_coordinate - due t)) (encode_coordinate (coordinate_at (selected t)))))
      else (t, [])
  | ListenCompleted _ | I2CError _ => (t, [])
  end.

Fixpoint transmission_run (t : transmission) (interrupts : list interrupt) : transmission * list byte :=
  match interrupts with
  | [] => (t, [])
  | i :: rest =>
      let '(t1, sent) := transmission_step t i in
      let '(t2, more) := transmission_run t1 rest in
      (t2, sent ++ more)
  end.

Lemma length_encode_coordinate c : length (encode_coordinate c) = 8%nat.
Proof. unfold encode_coordinate. by rewrite length_app, !length_le_bytes. Qed.

(** The index wraps at the end of the table. *)
Lemma next_coordinate_mod n : 0 <= n < GPS_COORDINATES_COUNT ->
  (if GPS_COORDINATES_COUNT <=? wrap_u 32 (n + 1) then 0 else wrap_u 32 (n + 1)) = (n + 1) `mod` GPS_COORDINATES_COUNT.
Proof.
  assert (GPS_COORDINATES_COUNT = 18) as Hcount by reflexivity. intros Hn.
  rewrite wrap_u_small by (change (2 ^ 32) with 4294967296; lia).
  destruct (Z.leb_spec GPS_COORDINATES_COUNT (n + 1)).
  - replace (n + 1) with GPS_COORDINATES_COUNT by lia. by rewrite Z.mod_same by lia.
  - by rewrite Z.mod_small by lia.
Qed.

Section Transmissions.
Context `{Hal}.
Implicit Types s : device.

(** The device is where [t] says. *)
Record transmits (t : transmission) (s : device) : Prop := {
  tr_tick : current_coordinate s = tick t;
  tr_range : 0 <= tick t < GPS_COORDINATES_COUNT;
  tr_due : XferCount s = due t;
  tr_due_range : 0 <= due t <= sizeof_coordinate;
  tr_packet : 0 < due t -> i2c_tx_packet s = coordinate_at (selected t);
  tr_running : irq_disabled s = false;
}.

Context (Haccept : forall w h, hal_status w (HAL_I2C_Slave_Seq_Transmit_IT h sizeof_coordinate) = HAL_OK)
  (Hlisten : forall w h, hal_status w (HAL_I2C_EnableListen_IT h) = HAL_OK).

Lemma handle_spec t i s : transmits t s ->
  wp (handle i) (fun _ s' => transmits (transmission_step t i).1 s' /\
    wire s' = wire s ++ (transmission_step t i).2) s.
Proof using Haccept Hlisten.
  assert (GPS_COORDINATES_COUNT = 18) as Hcount by reflexivity.
  intros [H1 H2 H3 H4 H5 H6]. unfold handle. apply wp_bind, wp_gets. rewrite H6.
  destruct i as [h|h direction code| |h|h]; cbn [transmission_step].
  - unfold HAL_TIM_PeriodElapsedCallback. destruct (_ =? TIM10); cbn [fst snd].
    2: { apply wp_ret. rewrite app_nil_r. by split. }
    apply wp_bind, wp_gets, wp_modify. rewrite app_nil_r. split; [|done].
    constructor; try done; cbn [current_coordinate set_field device_fields tick]; [|apply Z.mod_pos_bound; lia].
    rewrite H1. by apply next_coordinate_mod.
  - unfold HAL_I2C_AddrCallback. destruct (_ && _); cbn [fst snd].
    2: { apply wp_ret. rewrite app_nil_r. by split. }
    apply wp_bind, wp_gets, wp_bind. rewrite H1.
    destruct (lookup_lt_is_Some_2 gps_coordinates (Z.to_nat (tick t))) as [c Hc].
    { change (length gps_coordinates) with 18%nat. lia. }
    apply (wp_from_option _ c); [done|]. apply wp_bind, wp_modify, wp_bind.
    unfold wp at 1, hal. rewrite Haccept. change (HAL_OK =? HAL_OK) with true. cbv iota.
    apply wp_modify. rewrite app_nil_r. split; [|done]. constructor; try done.
    intros _. cbn. unfold coordinate_at. by rewrite Hc.
  - unfold transmit_byte. apply wp_bind, wp_gets. rewrite H3. destruct (Z.ltb_spec 0 (due t)) as [Hd|Hd].
    2: { apply wp_ret. rewrite app_nil_r. by split. }
    apply wp_bind, wp_gets, wp_bind. rewrite H5 by done. change sizeof_coordinate with 8 in *.
    destruct (lookup_lt_is_Some_2 (encode_coordinate (coordinate_at (selected t))) (Z.to_nat (8 - due t))) as [b Hb].
    { rewrite length_encode_coordinate. lia. }
    apply (wp_from_option _ b); [done|]. apply wp_modify. cbn [fst snd].
    rewrite (drop_S _ _ _ Hb). split; [|done].
    constructor; cbn [current_coordinate XferCount due tick selected i2c_tx_packet irq_disabled set_field device_fields];
      try done; change sizeof_coordinate with 8; [lia|].
    intros _. by apply H5.
  - unfold HAL_I2C_ListenCpltCallback. apply wp_bind. cbn [fst snd]. rewrite app_nil_r.
    destruct (_ =? I2C1); [|by apply wp_ret]. unfold or_halt. apply wp_bind. unfold wp at 1, hal. rewrite Hlisten.
    by apply wp_ret.
  - unfold HAL_I2C_ErrorCallback. cbn [fst snd]. rewrite app_nil_r. destruct (_ =? I2C1); [|by apply wp_ret].
    by split.
Qed.

Lemma handle_all_spec interrupts t s : transmits t s ->
  wp (handle_all interrupts) (fun _ s' => transmits (transmission_run t interrupts).1 s' /\
    wire s' = wire s ++ (transmission_run t interrupts).2) s.
Proof using Haccept Hlisten.
  revert t s. induction interrupts as [|i rest IH]; intros t s Ht; cbn [transmission_run].
  - apply wp_ret. by rewrite app_nil_r.
  - cbn. apply wp_bind. eapply wp_mono; [by apply handle_spec|]. intros _u s1 [Ht1 Hw1].
    destruct (transmission_step t i) as [t1 sent]. specialize (IH t1 s1 Ht1).
    destruct (transmission_run t1 rest) as [t2 more]. cbn [fst snd] in *.
    eapply wp_mono; [exact IH|]. intros _v s2 [Ht2 Hw2]. split; [done|].
    by rewrite Hw2, Hw1, <- (assoc_L (++)).
Qed.
End Transmissions.

(** Interrupts while the master reads: ticks of the timer and requests for
    bytes, how many of the latter. *)
Definition while_reading (i : interrupt) : bool :=
  match i with TimerElapsed _ | ByteRequested => true | _ => false end.
Definition bytes_requested (interrupts : list interrupt) : nat :=
  length (filter (fun i => match i with ByteRequested => true | _ => false end = true) interrupts).

Lemma reading_run interrupts t : Forall (fun i => while_reading i = true) interrupts -> 0 <= due t <= 8 ->
  (transmission_run t interrupts).2 =
  take (bytes_requested interrupts) (drop (Z.to_nat (8 - due t)) (encode_coordinate (coordinate_at (selected t)))).
Proof.
  intros Hall. revert t. induction Hall as [|i rest Hi Hall IH]; intros t Hd.
  { unfold bytes_requested. cbn. by rewrite take_0. }
  unfold bytes_requested in *. rewrite filter_cons. cbn [transmission_run].
  destruct i as [h| | | |]; try discriminate; cbn [transmission_step].
  - rewrite decide_False by done. destruct (tim_Instance h =? TIM10).
    + specialize (IH (Transmission ((tick t + 1) `mod` GPS_COORDINATES_COUNT) (selected t) (due t)) Hd).
      destruct (transmission_run _ rest) as [t2 more]. exact IH.
    + specialize (IH t Hd). destruct (transmission_run _ rest) as [t2 more]. exact IH.
  - rewrite decide_True by done. cbn [length]. change sizeof_coordinate with 8.
    destruct (Z.ltb_spec 0 (due t)) as [Hpos|Hpos].
    + specialize (IH (Transmission (tick t) (selected t) (due t - 1)) ltac:(cbn; lia)). cbn [due selected] in IH.
      destruct (transmission_run _ rest) as [t2 more]. cbn [snd] in IH |- *. rewrite IH.
      destruct (lookup_lt_is_Some_2 (encode_coordinate (coordinate_at (selected t))) (Z.to_nat (8 - due t))) as [b Hb].
      { rewrite length_encode_coordinate. lia. }
      rewrite (drop_S _ _ _ Hb). cbn [take app]. replace (Z.to_nat (8 - (due t - 1))) with (S (Z.to_nat (8 - due t))) by lia.
      by rewrite take_0.
    + specialize (IH t Hd). destruct (transmission_run _ rest) as [t2 more]. cbn [snd] in IH |- *. rewrite IH.
      rewrite drop_ge by (rewrite length_encode_coordinate; lia). by rewrite !take_nil.
Qed.

(** What the master reads.  For any sequence of interrupts (other reads,
    writes, errors, ticks at any moment) the bytes sent are those of the
    specification, and no table access leaves the table. *)
Theorem firmware_transmits `{Hal} (interrupts : list interrupt) (s : device) :
  (forall w h, hal_status w (HAL_I2C_Slave_Seq_Transmit_IT h sizeof_coordinate) = HAL_OK) ->
  (forall w h, hal_status w (HAL_I2C_EnableListen_IT h) = HAL_OK) ->
  current_coordinate s = 0 -> XferCount s = 0 -> irq_disabled s = false ->
  wp (handle_all interrupts) (fun _ s' =>
    let t := (transmission_run (Transmission 0 0 0) interrupts).1 in
    wire s' = wire s ++ (transmission_run (Transmission 0 0 0) interrupts).2 /\
    current_coordinate s' = tick t /\ 0 <= tick t < GPS_COORDINATES_COUNT /\ irq_disabled s' = false) s.
Proof.
  intros Haccept Hlisten Hc Hx Hirq. eapply wp_mono.
  - apply (handle_all_spec Haccept Hlisten interrupts (Transmission 0 0 0)). constructor; cbn; try done; lia.
  - intros _u s' [[T1 T2 T3 T4 T5 T6] Hw]. split; [exact Hw|]. split; [exact T1|]. by split.
Qed.

(** No torn packet.  A master that addresses the device and reads gets the
    bytes of one table entry, the one selected when it addressed the device,
    although the timer may change the selection between any two bytes. *)
Theorem read_is_one_coordinate `{Hal} (h : I2C_HandleTypeDef) (code : Z) (interrupts : list interrupt)
    (t : transmission) (s : device) :
  (forall w h, hal_status w (HAL_I2C_Slave_Seq_Transmit_IT h sizeof_coordinate) = HAL_OK) ->
  (forall w h, hal_status w (HAL_I2C_EnableListen_IT h) = HAL_OK) ->
  transmits t s -> i2c_Instance h = I2C1 -> Forall (fun i => while_reading i = true) interrupts ->
  wp (handle_all (AddressMatched h I2C_DIRECTION_RECEIVE code :: interrupts)) (fun _ s' =>
    exists c, gps_coordinates !! Z.to_nat (current_coordinate s) = Some c /\
      wire s' = wire s ++ take (bytes_requested interrupts) (encode_coordinate c)) s.
Proof.
  intros Haccept Hlisten Ht Hh Hall.
  destruct (lookup_lt_is_Some_2 gps_coordinates (Z.to_nat (tick t))) as [c Hc].
  { change (length gps_coordinates) with (Z.to_nat GPS_COORDINATES_COUNT). destruct Ht. lia. }
  eapply wp_mono; [by apply (handle_all_spec Haccept Hlisten _ t)|]. intros _u s' [_ Hw]. exists c.
  destruct Ht as [-> Hrange _ _ _ _]. split; [done|]. rewrite Hw. cbn [transmission_run transmission_step].
  rewrite Hh. change ((I2C1 =? I2C1) && (I2C_DIRECTION_RECEIVE =? I2C_DIRECTION_RECEIVE)) with true. cbv iota.
  pose proof (reading_run interrupts (Transmission (tick t) (tick t) sizeof_coordinate) Hall
    ltac:(change (due _) with 8; lia)) as Hrun.
  destruct (transmission_run _ interrupts) as [t2 more]. cbn [fst snd] in Hrun |- *. rewrite Hrun. cbn [due selected app].
  change (Z.to_nat (8 - sizeof_coordinate)) with 0%nat. rewrite drop_0. unfold coordinate_at. by rewrite Hc.
Qed.

(** ** A run *)
#[local] Instance obliging : Hal := fun _ _ => HAL_OK.

Definition started : device := match main reset with Ret (_, s) => s | _ => reset end.
Definition tick_now : interrupt := TimerElapsed configured_tim.

(** Two seconds pass, then a read during which another second begins. *)
Definition busy_read : list interrupt :=
  [tick_now; tick_now; AddressMatched configured_i2c 1 132; ByteRequested; ByteRequested; ByteRequested; tick_now;
   ByteRequested; ByteRequested; ByteRequested; ByteRequested; ByteRequested; ByteRequested;
   ListenCompleted configured_i2c].

Example busy_read_bytes : match handle_all busy_read started with Ret (_, s) => wire s | _ => [] end =
  encode_coordinate (at_thousandths 10550 10600).
Proof. vm_compute. reflexivity. Qed.

Lemma firmware_transmits_witness :
  wp (handle_all busy_read) (fun _ s' =>
    let t := (transmission_run (Transmission 0 0 0) busy_read).1 in
    wire s' = wire started ++ (transmission_run (Transmission 0 0 0) busy_read).2 /\
    current_coordinate s' = tick t /\ 0 <= tick t < GPS_COORDINATES_COUNT /\ irq_disabled s' = false) started.
Proof. by apply (firmware_transmits busy_read started). Defined.

Lemma read_is_one_coordinate_witness :
  wp (handle_all (AddressMatched configured_i2c I2C_DIRECTION_RECEIVE 132 :: [ByteRequested; tick_now; ByteRequested]))
    (fun _ s' => exists c, gps_coordinates !! Z.to_nat (current_coordinate started) = Some c /\
      wire s' = wire started ++ take (bytes_requested [ByteRequested; tick_now; ByteRequested]) (encode_coordinate c))
    started.
Proof.
  apply (read_is_one_coordinate configured_i2c 132 [ByteRequested; tick_now; ByteRequested]
    (Transmission 0 0 0) started); [done|done| |done|by repeat constructor].
  constructor; [reflexivity|split; vm_compute; congruence|reflexivity|split; vm_compute; congruence|intros ?%Z.lt_irrefl; done|reflexivity].
Defined.
