(* ===== verification/HalI2c.v ===== *)
(** HalI2c (src/STM32GpsSimulator/Drivers/STM32F7xx_HAL_Driver/Src/stm32f7xx_hal_i2c.c
    and stm32f7xx_hal_i2c_ex.c): the part of the I2C driver the firmware runs on,
    the slave driven by interrupts, and the board, that is GpsSimulator's
    firmware on top of this driver.  What GpsSimulator assumes of the driver is
    proved here. *)

From S2P Require Import Prelude Machine Ieee GpsSimulator.

(** ** Registers and constants of the driver *)
Definition I2C_CR1_PE : Z := 0x1.
Definition I2C_IT_TXI : Z := 0x2.
Definition I2C_IT_RXI : Z := 0x4.
Definition I2C_IT_ADDRI : Z := 0x8.
Definition I2C_IT_NACKI : Z := 0x10.
Definition I2C_IT_STOPI : Z := 0x20.
Definition I2C_IT_TCI : Z := 0x40.
Definition I2C_IT_ERRI : Z := 0x80.
Definition I2C_CR1_DNF : Z := 0xF00.
Definition I2C_CR1_ANFOFF : Z := 0x1000.
Definition I2C_CR1_TXDMAEN : Z := 0x4000.
Definition I2C_CR1_RXDMAEN : Z := 0x8000.

Definition I2C_CR2_ADD10 : Z := 0x800.
Definition I2C_CR2_NACK : Z := 0x8000.
Definition I2C_CR2_AUTOEND : Z := 0x2000000.
(** SADD, HEAD10R, NBYTES, RELOAD and RD_WRN. *)
Definition I2C_CR2_TRANSFER : Z := 0x1FF17FF.

Definition I2C_OAR1_OA1 : Z := 0x3FF.
Definition I2C_OAR1_OA1MODE : Z := 0x400.
Definition I2C_OAR1_OA1EN : Z := 0x8000.
Definition I2C_OAR2_OA2 : Z := 0xFE.
Definition I2C_DUALADDRESS_ENABLE : Z := 0x8000.
Definition TIMING_CLEAR_MASK : Z := 0xF0FFFFFF.

Definition I2C_FLAG_TXE : Z := 0x1.
Definition I2C_FLAG_TXIS : Z := 0x2.
Definition I2C_FLAG_RXNE : Z := 0x4.
Definition I2C_FLAG_ADDR : Z := 0x8.
Definition I2C_FLAG_AF : Z := 0x10.
Definition I2C_FLAG_STOPF : Z := 0x20.
Definition I2C_FLAG_BERR : Z := 0x100.
Definition I2C_FLAG_ARLO : Z := 0x200.
Definition I2C_FLAG_OVR : Z := 0x400.
Definition I2C_ISR_DIR : Z := 0x10000.
Definition I2C_ISR_ADDCODE : Z := 0xFE0000.
Definition I2C_FLAG_MASK : Z := 0x1FFFF.

Definition HAL_ERROR : Z := 1.
Definition HAL_BUSY : Z := 2.
Definition HAL_I2C_STATE_RESET : Z := 0x00.
Definition HAL_I2C_STATE_READY : Z := 0x20.
Definition HAL_I2C_STATE_BUSY : Z := 0x24.
Definition HAL_I2C_STATE_BUSY_TX : Z := 0x21.
Definition HAL_I2C_STATE_BUSY_RX : Z := 0x22.
Definition HAL_I2C_STATE_LISTEN : Z := 0x28.
Definition HAL_I2C_STATE_BUSY_TX_LISTEN : Z := 0x29.
Definition HAL_I2C_STATE_BUSY_RX_LISTEN : Z := 0x2A.
Definition HAL_I2C_STATE_ABORT : Z := 0x60.
Definition HAL_I2C_MODE_NONE : Z := 0x00.
Definition HAL_I2C_MODE_SLAVE : Z := 0x20.
Definition HAL_I2C_ERROR_NONE : Z := 0x0.
Definition HAL_I2C_ERROR_BERR : Z := 0x1.
Definition HAL_I2C_ERROR_ARLO : Z := 0x2.
Definition HAL_I2C_ERROR_AF : Z := 0x4.
Definition HAL_I2C_ERROR_OVR : Z := 0x8.
Definition HAL_I2C_ERROR_INVALID_PARAM : Z := 0x200.

(** [PreviousState]: the direction bits of the state, and the mode. *)
Definition I2C_STATE_MSK : Z := Z.land (Z.lor HAL_I2C_STATE_BUSY_TX HAL_I2C_STATE_BUSY_RX) (Z.lnot HAL_I2C_STATE_READY).
Definition I2C_STATE_NONE : Z := HAL_I2C_MODE_NONE.
Definition I2C_STATE_SLAVE_BUSY_TX : Z := Z.lor (Z.land HAL_I2C_STATE_BUSY_TX I2C_STATE_MSK) HAL_I2C_MODE_SLAVE.
Definition I2C_STATE_SLAVE_BUSY_RX : Z := Z.lor (Z.land HAL_I2C_STATE_BUSY_RX I2C_STATE_MSK) HAL_I2C_MODE_SLAVE.

Definition I2C_FIRST_FRAME : Z := 0x0.
Definition I2C_NEXT_FRAME : Z := 0x1000000.
Definition I2C_LAST_FRAME : Z := 0x2000000.
Definition I2C_FIRST_AND_LAST_FRAME : Z := 0x2000000.
Definition I2C_NO_OPTION_FRAME : Z := 0xFFFF0000.

Definition I2C_XFER_TX_IT : Z := 0x1.
Definition I2C_XFER_RX_IT : Z := 0x2.
Definition I2C_XFER_LISTEN_IT : Z := 0x8000.
Definition I2C_XFER_ERROR_IT : Z := 0x10.
Definition I2C_XFER_CPLT_IT : Z := 0x20.
Definition I2C_XFER_RELOAD_IT : Z := 0x40.

Definition I2C_ADDRESSINGMODE_7BIT : Z := 1.
Definition I2C_ADDRESSINGMODE_10BIT : Z := 2.
Definition SLAVE_ADDR_SHIFT : Z := 7.
Definition SLAVE_ADDR_MSK : Z := 0x06.

Definition SET_BIT (reg bits : Z) : Z := Z.lor reg bits.
Definition CLEAR_BIT (reg bits : Z) : Z := Z.land reg (Z.lnot bits).
Definition I2C_CHECK_FLAG (isr flag : Z) : bool := Z.land isr (Z.land flag I2C_FLAG_MASK) =? Z.land flag I2C_FLAG_MASK.
Definition I2C_CHECK_IT_SOURCE (cr1 it : Z) : bool := Z.land cr1 it =? it.

(** ** The peripheral and the handle [hi2c1] in RAM

    [XferISR] is null or [I2C_Slave_ISR_IT]; [pBuffPtr] is null or points so
    many bytes into [i2c_tx_packet]; [Init] is what the application has filled
    in.  The firmware links no DMA stream, so [hdmatx] and [hdmarx] are null.
    [loaded] is the history of the data bytes written to the transmit register,
    of which the master clocks out those it acknowledges. *)
Inductive xfer_isr := NULL | Slave_ISR_IT.

Record i2c_slave := Slave {
  CR1 : Z;
  CR2 : Z;
  OAR1 : Z;
  OAR2 : Z;
  TIMINGR : Z;
  ISR : Z;
  TXDR : Z;
  RXDR : Z;
  State : Z;
  PreviousState : Z;
  Mode : Z;
  ErrorCode : Z;
  AddrEventCount : Z;
  XferOptions : Z;
  XferCount : Z;
  XferSize : Z;
  pBuffPtr : option nat;
  XferISR : xfer_isr;
  Lock : bool;
  Init : I2C_HandleTypeDef;
  loaded : list byte;
}.

#[export] Instance slave_fields : Fields i2c_slave := fun s =>
  Slave (CR1 s) (CR2 s) (OAR1 s) (OAR2 s) (TIMINGR s) (ISR s) (TXDR s) (RXDR s) (State s) (PreviousState s)
    (Mode s) (ErrorCode s) (AddrEventCount s) (XferOptions s) (XferCount s) (XferSize s) (pBuffPtr s)
    (XferISR s) (Lock s) (Init s) (loaded s).

(** Registers after reset, and a handle of zeros. *)
Definition slave_reset : i2c_slave :=
  Slave 0 0 0 0 0 I2C_FLAG_TXE 0 0 HAL_I2C_STATE_RESET 0 0 0 0 0 0 0 None NULL false (I2CHandle 0 0 0 0 0 0 0 0 0) [].

(** [__HAL_I2C_GET_FLAG], [__HAL_I2C_CLEAR_FLAG] and the registers' side
    effects: a write to TXDR takes back TXIS and TXE, a read of RXDR takes back
    RXNE, and setting TXE empties the transmit register. *)
Definition GET_FLAG (s : i2c_slave) (flag : Z) : bool := Z.land (ISR s) flag =? flag.
Definition CLEAR_FLAG (flag : Z) (s : i2c_slave) : i2c_slave :=
  if flag =? I2C_FLAG_TXE then s <| ISR ::= fun isr => SET_BIT isr flag |>
  else s <| ISR ::= fun isr => CLEAR_BIT isr flag |>.
Definition write_TXDR (data : Z) (s : i2c_slave) : i2c_slave :=
  s <| TXDR := data |> <| ISR ::= fun isr => CLEAR_BIT isr (SET_BIT I2C_FLAG_TXIS I2C_FLAG_TXE) |>.
Definition I2C_GET_DIR (isr : Z) : Z := Z.shiftr (Z.land isr I2C_ISR_DIR) 16.
Definition I2C_GET_ADDR_MATCH (isr : Z) : Z := Z.shiftr (Z.land isr I2C_ISR_ADDCODE) 16.
Definition I2C_GET_OWN_ADDRESS1 (s : i2c_slave) : Z := wrap_u 16 (Z.land (OAR1 s) I2C_OAR1_OA1).
Definition I2C_GET_OWN_ADDRESS2 (s : i2c_slave) : Z := wrap_u 16 (Z.land (OAR2 s) I2C_OAR2_OA2).

Definition HAL_UNLOCK (s : i2c_slave) : i2c_slave := s <| Lock := false |>.

(** ** Functions that call nothing back *)
Definition among (request its : Z) : bool := Z.land request its =? its.

(** [XferISR] is never one of the DMA routines here, so this is the first
    branch of the source. *)
Definition I2C_Enable_IRQ (InterruptRequest : Z) (s : i2c_slave) : i2c_slave :=
  let tmpisr := 0 in
  let tmpisr := if among InterruptRequest I2C_XFER_LISTEN_IT
    then Z.lor tmpisr (Z.lor (Z.lor (Z.lor I2C_IT_ADDRI I2C_IT_STOPI) I2C_IT_NACKI) I2C_IT_ERRI) else tmpisr in
  let tmpisr := if among InterruptRequest I2C_XFER_TX_IT
    then Z.lor tmpisr (Z.lor (Z.lor (Z.lor (Z.lor I2C_IT_ERRI I2C_IT_TCI) I2C_IT_STOPI) I2C_IT_NACKI) I2C_IT_TXI) else tmpisr in
  let tmpisr := if among InterruptRequest I2C_XFER_RX_IT
    then Z.lor tmpisr (Z.lor (Z.lor (Z.lor (Z.lor I2C_IT_ERRI I2C_IT_TCI) I2C_IT_STOPI) I2C_IT_NACKI) I2C_IT_RXI) else tmpisr in
  let tmpisr := if InterruptRequest =? I2C_XFER_ERROR_IT then Z.lor tmpisr (Z.lor I2C_IT_ERRI I2C_IT_NACKI) else tmpisr in
  let tmpisr := if InterruptRequest =? I2C_XFER_CPLT_IT then Z.lor tmpisr I2C_IT_STOPI else tmpisr in
  s <| CR1 ::= fun cr1 => SET_BIT cr1 tmpisr |>.

(** The state is listening, perhaps transferring as well. *)
Definition listens (state : Z) : bool := Z.land state HAL_I2C_STATE_LISTEN =? HAL_I2C_STATE_LISTEN.

Definition I2C_Disable_IRQ (InterruptRequest : Z) (s : i2c_slave) : i2c_slave :=
  let also_stop tmpisr := if listens (State s) then tmpisr
    else Z.lor tmpisr (Z.lor (Z.lor I2C_IT_STOPI I2C_IT_NACKI) I2C_IT_ERRI) in
  let tmpisr := 0 in
  let tmpisr := if among InterruptRequest I2C_XFER_TX_IT
    then also_stop (Z.lor tmpisr (Z.lor I2C_IT_TCI I2C_IT_TXI)) else tmpisr in
  let tmpisr := if among InterruptRequest I2C_XFER_RX_IT
    then also_stop (Z.lor tmpisr (Z.lor I2C_IT_TCI I2C_IT_RXI)) else tmpisr in
  let tmpisr := if among InterruptRequest I2C_XFER_LISTEN_IT
    then Z.lor tmpisr (Z.lor (Z.lor (Z.lor I2C_IT_ADDRI I2C_IT_STOPI) I2C_IT_NACKI) I2C_IT_ERRI) else tmpisr in
  let tmpisr := if InterruptRequest =? I2C_XFER_ERROR_IT then Z.lor tmpisr (Z.lor I2C_IT_ERRI I2C_IT_NACKI) else tmpisr in
  let tmpisr := if InterruptRequest =? I2C_XFER_CPLT_IT then Z.lor tmpisr I2C_IT_STOPI else tmpisr in
  let tmpisr := if InterruptRequest =? I2C_XFER_RELOAD_IT then Z.lor tmpisr I2C_IT_TCI else tmpisr in
  s <| CR1 ::= fun cr1 => CLEAR_BIT cr1 tmpisr |>.

Definition I2C_Flush_TXDR (s : i2c_slave) : i2c_slave :=
  let s := if GET_FLAG s I2C_FLAG_TXIS then write_TXDR 0 s else s in
  if GET_FLAG s I2C_FLAG_TXE then s else CLEAR_FLAG I2C_FLAG_TXE s.

(** [msp] is the status of the clock that [HAL_I2C_MspInit] (stm32f7xx_hal_msp.c)
    configures for a peripheral in reset.  It ends in [Error_Handler] when it is
    not [HAL_OK], before anything is programmed; the model returns the status,
    and [MX_I2C1_Init] ends in [Error_Handler] on it.  What else [HAL_I2C_MspInit]
    does concerns the pins and the interrupt controller. *)
Definition HAL_I2C_Init (msp : Z) (h : I2C_HandleTypeDef) (s : i2c_slave) : Z * i2c_slave :=
  let s := s <| Init := h |> in
  let in_reset := State s =? HAL_I2C_STATE_RESET in
  let s := if in_reset then HAL_UNLOCK s else s in
  if in_reset && negb (msp =? HAL_OK) then (msp, s) else
  let s := s <| State := HAL_I2C_STATE_BUSY |> <| CR1 ::= fun r => CLEAR_BIT r I2C_CR1_PE |>
    <| TIMINGR := Z.land (Timing h) TIMING_CLEAR_MASK |> in
  let s := s <| OAR1 ::= fun r => CLEAR_BIT r I2C_OAR1_OA1EN |> in
  let s := if AddressingMode h =? I2C_ADDRESSINGMODE_7BIT
    then s <| OAR1 := Z.lor I2C_OAR1_OA1EN (OwnAddress1 h) |>
    else s <| OAR1 := Z.lor (Z.lor I2C_OAR1_OA1EN I2C_OAR1_OA1MODE) (OwnAddress1 h) |> in
  let s := if AddressingMode h =? I2C_ADDRESSINGMODE_10BIT
    then s <| CR2 ::= fun r => SET_BIT r I2C_CR2_ADD10 |>
    else s <| CR2 ::= fun r => CLEAR_BIT r I2C_CR2_ADD10 |> in
  let s := s <| CR2 ::= fun r => Z.lor r (Z.lor I2C_CR2_AUTOEND I2C_CR2_NACK) |> in
  let s := s <| OAR2 ::= fun r => CLEAR_BIT r I2C_DUALADDRESS_ENABLE |> in
  let s := s <| OAR2 := Z.lor (Z.lor (DualAddressMode h) (OwnAddress2 h)) (Z.shiftl (OwnAddress2Masks h) 8) |> in
  let s := s <| CR1 := Z.lor (GeneralCallMode h) (NoStretchMode h) |> in
  let s := s <| CR1 ::= fun r => SET_BIT r I2C_CR1_PE |> in
  (HAL_OK, s <| ErrorCode := HAL_I2C_ERROR_NONE |> <| State := HAL_I2C_STATE_READY |>
    <| PreviousState := I2C_STATE_NONE |> <| Mode := HAL_I2C_MODE_NONE |>).

(** The two filters differ in the bits of CR1 they replace. *)
Definition configure_filter (mask bits : Z) (s : i2c_slave) : Z * i2c_slave :=
  if State s =? HAL_I2C_STATE_READY then
    if Lock s then (HAL_BUSY, s) else
    let s := s <| Lock := true |> <| State := HAL_I2C_STATE_BUSY |> <| CR1 ::= fun r => CLEAR_BIT r I2C_CR1_PE |> in
    let s := s <| CR1 ::= fun r => Z.lor (CLEAR_BIT r mask) bits |> in
    let s := s <| CR1 ::= fun r => SET_BIT r I2C_CR1_PE |> in
    (HAL_OK, HAL_UNLOCK (s <| State := HAL_I2C_STATE_READY |>))
  else (HAL_BUSY, s).
Definition HAL_I2CEx_ConfigAnalogFilter (AnalogFilter : Z) : i2c_slave -> Z * i2c_slave :=
  configure_filter I2C_CR1_ANFOFF AnalogFilter.
Definition HAL_I2CEx_ConfigDigitalFilter (DigitalFilter : Z) : i2c_slave -> Z * i2c_slave :=
  configure_filter I2C_CR1_DNF (Z.shiftl DigitalFilter 8).

Definition HAL_I2C_EnableListen_IT (s : i2c_slave) : Z * i2c_slave :=
  if State s =? HAL_I2C_STATE_READY then
    (HAL_OK, I2C_Enable_IRQ I2C_XFER_LISTEN_IT (s <| State := HAL_I2C_STATE_LISTEN |> <| XferISR := Slave_ISR_IT |>))
  else (HAL_BUSY, s).

Definition HAL_I2C_Slave_Seq_Transmit_IT (pData : option nat) (Size Options : Z) (s : i2c_slave) : Z * i2c_slave :=
  if listens (State s) then
    if bool_decide (pData = None) || (Size =? 0) then (HAL_ERROR, s <| ErrorCode := HAL_I2C_ERROR_INVALID_PARAM |>) else
    let s := I2C_Disable_IRQ (Z.lor I2C_XFER_LISTEN_IT I2C_XFER_TX_IT) s in
    if Lock s then (HAL_BUSY, s) else
    let s := s <| Lock := true |> in
    let s := if State s =? HAL_I2C_STATE_BUSY_RX_LISTEN then
        let s := I2C_Disable_IRQ I2C_XFER_RX_IT s in
        if I2C_CHECK_IT_SOURCE (CR1 s) I2C_CR1_RXDMAEN then s <| CR1 ::= fun r => CLEAR_BIT r I2C_CR1_RXDMAEN |> else s
      else s in
    let s := s <| State := HAL_I2C_STATE_BUSY_TX_LISTEN |> <| Mode := HAL_I2C_MODE_SLAVE |>
      <| ErrorCode := HAL_I2C_ERROR_NONE |> <| CR2 ::= fun r => CLEAR_BIT r I2C_CR2_NACK |> in
    let s := s <| pBuffPtr := pData |> <| XferCount := Size |> in
    let s := s <| XferSize := XferCount s |> <| XferOptions := Options |> <| XferISR := Slave_ISR_IT |> in
    let tmp := GET_FLAG s I2C_FLAG_ADDR in
    let s := if (I2C_GET_DIR (ISR s) =? I2C_DIRECTION_RECEIVE) && tmp then CLEAR_FLAG I2C_FLAG_ADDR s else s in
    (HAL_OK, I2C_Enable_IRQ (Z.lor I2C_XFER_TX_IT I2C_XFER_LISTEN_IT) (HAL_UNLOCK s))
  else (HAL_ERROR, s).

Definition HAL_I2C_GetError (s : i2c_slave) : Z := ErrorCode s.

(** ** The board: the firmware over the driver

    What a call of the firmware does to the peripheral, and its result; the
    buffer of its one transmission is [i2c_tx_packet] and the options are
    [I2C_LAST_FRAME] (main.c).  Calls to the other drivers do not touch it;
    [elsewhere] is what those answer, to [HAL_I2C_MspInit] in the call of
    [HAL_I2C_Init]. *)
Definition perform (elsewhere : Z) (c : hal_call) (s : i2c_slave) : option (Z * i2c_slave) :=
  match c with
  | GpsSimulator.HAL_I2C_Init h => Some (HAL_I2C_Init elsewhere h s)
  | GpsSimulator.HAL_I2CEx_ConfigAnalogFilter _ filter => Some (HAL_I2CEx_ConfigAnalogFilter filter s)
  | GpsSimulator.HAL_I2CEx_ConfigDigitalFilter _ filter => Some (HAL_I2CEx_ConfigDigitalFilter filter s)
  | GpsSimulator.HAL_I2C_EnableListen_IT _ => Some (HAL_I2C_EnableListen_IT s)
  | GpsSimulator.HAL_I2C_Slave_Seq_Transmit_IT _ size =>
      Some (HAL_I2C_Slave_Seq_Transmit_IT (Some 0%nat) size I2C_LAST_FRAME s)
  | GpsSimulator.HAL_I2C_GetError _ => Some (HAL_I2C_GetError s, s)
  | _ => None
  end.

Record board := Board {
  dev : device;
  slave : i2c_slave;
}.

#[export] Instance board_fields : Fields board := fun b => Board (dev b) (slave b).

Definition power_on : board := Board reset slave_reset.

Definition on_slave (f : i2c_slave -> i2c_slave) : M board unit := modify (fun b => b <| slave ::= f |>).

Section Board.
(** The answers of the other drivers. *)
Variable others : Hal.

(** The peripheral after the calls [w] (the latest first) made from [b]. *)
Fixpoint performed (b : board) (w : list hal_call) : i2c_slave :=
  match w with
  | [] => slave b
  | c :: w =>
      let s := performed b w in
      from_option snd s (perform (others (w ++ hal_calls (dev b)) c) c s)
  end.

Definition answers (b : board) : Hal := fun w c =>
  let elsewhere := others (w ++ hal_calls (dev b)) c in
  from_option fst elsewhere (perform elsewhere c (performed b w)).

(** A function of main.c runs: the driver answers its calls and changes with
    them. *)
Definition firmware {A} (f : Hal -> M device A) : M board A := fun b =>
  match f (answers b) ((dev b) <| hal_calls := [] |>) with
  | Ret (a, d) => Ret (a, Board (d <| hal_calls := hal_calls d ++ hal_calls (dev b) |>) (performed b (hal_calls d)))
  | Undefined => Undefined
  | OutOfFuel => OutOfFuel
  end.

(** Callbacks of the handle: those main.c defines, and the empty weak ones. *)
Definition AddrCallback (direction code : Z) : M board unit :=
  h ← gets (fun b => Init (slave b));
  firmware (fun hal => @HAL_I2C_AddrCallback hal h direction code).
Definition ListenCpltCallback : M board unit :=
  h ← gets (fun b => Init (slave b));
  firmware (fun hal => @HAL_I2C_ListenCpltCallback hal h);; mret tt.
Definition ErrorCallback : M board unit :=
  h ← gets (fun b => Init (slave b));
  firmware (fun hal => @HAL_I2C_ErrorCallback hal h).
Definition SlaveTxCpltCallback : M board unit := mret tt.
Definition SlaveRxCpltCallback : M board unit := mret tt.
Definition AbortCpltCallback : M board unit := mret tt.

(** ** Interrupt routines *)

(** [( *hi2c->pBuffPtr = (uint8_t)hi2c->Instance->RXDR; hi2c->pBuffPtr++)] *)
Definition decode_coordinate (b : list byte) : gps_coordinate_t :=
  GpsCoordinate (float_of_bits (le_val (take 4 b))) (float_of_bits (le_val (drop 4 b))).

Definition store_received : M board unit :=
  s ← gets slave;
  on_slave (fun s => s <| ISR ::= fun isr => CLEAR_BIT isr I2C_FLAG_RXNE |>);;
  at_ ← from_option_undef (pBuffPtr s);
  packet ← gets (fun b => i2c_tx_packet (dev b));
  bytes ← from_option_undef (mem_write (encode_coordinate packet) at_ [byte_of_Z (RXDR s)]);
  modify (fun b => b <| dev ::= fun d => d <| i2c_tx_packet := decode_coordinate bytes |> |>);;
  on_slave (fun s => s <| pBuffPtr := Some (S at_) |>).

(** [hi2c->Instance->TXDR = *hi2c->pBuffPtr; hi2c->pBuffPtr++] *)
Definition load_next : M board unit :=
  s ← gets slave;
  at_ ← from_option_undef (pBuffPtr s);
  packet ← gets (fun b => i2c_tx_packet (dev b));
  data ← from_option_undef (encode_coordinate packet !! at_);
  on_slave (fun s => write_TXDR (byte_val data) s <| pBuffPtr := Some (S at_) |> <| loaded ::= fun sent => sent ++ [data] |>).

Definition count_down : M board unit :=
  on_slave (fun s => s <| XferSize ::= fun n => wrap_u 16 (n - 1) |> <| XferCount ::= fun n => wrap_u 16 (n - 1) |>).

Definition when (b : bool) (m : M board unit) : M board unit := if b then m else mret tt.

Definition I2C_TreatErrorCallback : M board unit :=
  s ← gets slave;
  if State s =? HAL_I2C_STATE_ABORT then
    on_slave (fun s => HAL_UNLOCK (s <| State := HAL_I2C_STATE_READY |> <| PreviousState := I2C_STATE_NONE |>));;
    AbortCpltCallback
  else
    on_slave (fun s => HAL_UNLOCK (s <| PreviousState := I2C_STATE_NONE |>));;
    ErrorCallback.

Definition I2C_ITError (Error : Z) : M board unit :=
  tmpstate ← gets (fun b => State (slave b));
  on_slave (fun s => s <| Mode := HAL_I2C_MODE_NONE |> <| XferOptions := I2C_NO_OPTION_FRAME |> <| XferCount := 0 |>
    <| ErrorCode ::= fun e => Z.lor e Error |>);;
  (if (tmpstate =? HAL_I2C_STATE_LISTEN) || (tmpstate =? HAL_I2C_STATE_BUSY_TX_LISTEN)
      || (tmpstate =? HAL_I2C_STATE_BUSY_RX_LISTEN) then
    on_slave (I2C_Disable_IRQ (Z.lor I2C_XFER_RX_IT I2C_XFER_TX_IT));;
    on_slave (fun s => s <| State := HAL_I2C_STATE_LISTEN |> <| XferISR := Slave_ISR_IT |>)
  else
    on_slave (I2C_Disable_IRQ (Z.lor (Z.lor I2C_XFER_LISTEN_IT I2C_XFER_RX_IT) I2C_XFER_TX_IT));;
    on_slave I2C_Flush_TXDR;;
    s ← gets slave;
    when (negb (State s =? HAL_I2C_STATE_ABORT)) (
      on_slave (fun s => s <| State := HAL_I2C_STATE_READY |>);;
      s ← gets slave;
      when (GET_FLAG s I2C_FLAG_STOPF) (
        when (GET_FLAG s I2C_FLAG_AF)
          (on_slave (fun s => CLEAR_FLAG I2C_FLAG_AF s <| ErrorCode ::= fun e => Z.lor e HAL_I2C_ERROR_AF |>));;
        on_slave (CLEAR_FLAG I2C_FLAG_STOPF)));;
    on_slave (fun s => s <| XferISR := NULL |>));;
  I2C_TreatErrorCallback.

Definition I2C_ITListenCplt (ITFlags : Z) : M board unit :=
  on_slave (fun s => s <| XferOptions := I2C_NO_OPTION_FRAME |> <| PreviousState := I2C_STATE_NONE |>
    <| State := HAL_I2C_STATE_READY |> <| Mode := HAL_I2C_MODE_NONE |> <| XferISR := NULL |>);;
  when (I2C_CHECK_FLAG ITFlags I2C_FLAG_RXNE) (
    store_received;;
    s ← gets slave;
    when (0 <? XferSize s) (
      count_down;;
      on_slave (fun s => s <| ErrorCode ::= fun e => Z.lor e HAL_I2C_ERROR_AF |>)));;
  on_slave (I2C_Disable_IRQ (Z.lor (Z.lor I2C_XFER_LISTEN_IT I2C_XFER_RX_IT) I2C_XFER_TX_IT));;
  on_slave (CLEAR_FLAG I2C_FLAG_AF);;
  on_slave HAL_UNLOCK;;
  ListenCpltCallback.

(** [if (DMA request of TX enabled) ... else if (of RX enabled) ...] *)
Definition disable_dma (tmpcr1value : Z) (s : i2c_slave) : i2c_slave :=
  if I2C_CHECK_IT_SOURCE tmpcr1value I2C_CR1_TXDMAEN then s <| CR1 ::= fun r => CLEAR_BIT r I2C_CR1_TXDMAEN |>
  else if I2C_CHECK_IT_SOURCE tmpcr1value I2C_CR1_RXDMAEN then s <| CR1 ::= fun r => CLEAR_BIT r I2C_CR1_RXDMAEN |>
  else s.

Definition I2C_ITSlaveSeqCplt : M board unit :=
  tmpcr1value ← gets (fun b => CR1 (slave b));
  on_slave (fun s => disable_dma tmpcr1value (s <| Mode := HAL_I2C_MODE_NONE |>));;
  s ← gets slave;
  if State s =? HAL_I2C_STATE_BUSY_TX_LISTEN then
    on_slave (fun s => s <| State := HAL_I2C_STATE_LISTEN |> <| PreviousState := I2C_STATE_SLAVE_BUSY_TX |>);;
    on_slave (fun s => HAL_UNLOCK (I2C_Disable_IRQ I2C_XFER_TX_IT s));;
    SlaveTxCpltCallback
  else if State s =? HAL_I2C_STATE_BUSY_RX_LISTEN then
    on_slave (fun s => s <| State := HAL_I2C_STATE_LISTEN |> <| PreviousState := I2C_STATE_SLAVE_BUSY_RX |>);;
    on_slave (fun s => HAL_UNLOCK (I2C_Disable_IRQ I2C_XFER_RX_IT s));;
    SlaveRxCpltCallback
  else mret tt.

Definition I2C_ITAddrCplt : M board unit :=
  s ← gets slave;
  if listens (State s) then
    let transferdirection := I2C_GET_DIR (ISR s) in
    let slaveaddrcode := I2C_GET_ADDR_MATCH (ISR s) in
    let ownadd1code := I2C_GET_OWN_ADDRESS1 s in
    let ownadd2code := I2C_GET_OWN_ADDRESS2 s in
    if AddressingMode (Init s) =? I2C_ADDRESSINGMODE_10BIT then
      if Z.land slaveaddrcode SLAVE_ADDR_MSK =? Z.land (Z.shiftr ownadd1code SLAVE_ADDR_SHIFT) SLAVE_ADDR_MSK then
        on_slave (fun s => s <| AddrEventCount ::= fun n => wrap_u 32 (n + 1) |>);;
        s ← gets slave;
        when (AddrEventCount s =? 2) (
          on_slave (fun s => HAL_UNLOCK (CLEAR_FLAG I2C_FLAG_ADDR (s <| AddrEventCount := 0 |>)));;
          AddrCallback transferdirection ownadd1code)
      else
        on_slave (fun s => HAL_UNLOCK (I2C_Disable_IRQ I2C_XFER_LISTEN_IT s));;
        AddrCallback transferdirection ownadd2code
    else
      on_slave (fun s => HAL_UNLOCK (I2C_Disable_IRQ I2C_XFER_LISTEN_IT s));;
      AddrCallback transferdirection slaveaddrcode
  else on_slave (fun s => HAL_UNLOCK (CLEAR_FLAG I2C_FLAG_ADDR s)).

(** The master answered a byte with NACK: the same code in the routine of the
    interrupts and in the one of STOP. *)
Definition not_acknowledged (tmpITFlags tmpoptions : Z) : M board unit :=
  s ← gets slave;
  if XferCount s =? 0 then
    if (State s =? HAL_I2C_STATE_LISTEN) && (tmpoptions =? I2C_FIRST_AND_LAST_FRAME) then
      I2C_ITListenCplt tmpITFlags
    else if (State s =? HAL_I2C_STATE_BUSY_TX_LISTEN) && negb (tmpoptions =? I2C_NO_OPTION_FRAME) then
      on_slave (CLEAR_FLAG I2C_FLAG_AF);;
      on_slave I2C_Flush_TXDR;;
      I2C_ITSlaveSeqCplt
    else on_slave (CLEAR_FLAG I2C_FLAG_AF)
  else
    on_slave (fun s => CLEAR_FLAG I2C_FLAG_AF s <| ErrorCode ::= fun e => Z.lor e HAL_I2C_ERROR_AF |>);;
    e ← gets (fun b => ErrorCode (slave b));
    when ((tmpoptions =? I2C_FIRST_FRAME) || (tmpoptions =? I2C_NEXT_FRAME)) (I2C_ITError e).

Definition I2C_ITSlaveCplt (ITFlags : Z) : M board unit :=
  tmpcr1value ← gets (fun b => CR1 (slave b));
  tmpoptions ← gets (fun b => XferOptions (slave b));
  tmpstate ← gets (fun b => State (slave b));
  on_slave (CLEAR_FLAG I2C_FLAG_STOPF);;
  (if (tmpstate =? HAL_I2C_STATE_BUSY_TX) || (tmpstate =? HAL_I2C_STATE_BUSY_TX_LISTEN) then
    on_slave (fun s => I2C_Disable_IRQ (Z.lor I2C_XFER_LISTEN_IT I2C_XFER_TX_IT) s
      <| PreviousState := I2C_STATE_SLAVE_BUSY_TX |>)
  else if (tmpstate =? HAL_I2C_STATE_BUSY_RX) || (tmpstate =? HAL_I2C_STATE_BUSY_RX_LISTEN) then
    on_slave (fun s => I2C_Disable_IRQ (Z.lor I2C_XFER_LISTEN_IT I2C_XFER_RX_IT) s
      <| PreviousState := I2C_STATE_SLAVE_BUSY_RX |>)
  else if tmpstate =? HAL_I2C_STATE_LISTEN then
    on_slave (fun s => I2C_Disable_IRQ (Z.lor (Z.lor I2C_XFER_LISTEN_IT I2C_XFER_TX_IT) I2C_XFER_RX_IT) s
      <| PreviousState := I2C_STATE_NONE |>)
  else mret tt);;
  on_slave (fun s => s <| CR2 ::= fun r => CLEAR_BIT (Z.lor r I2C_CR2_NACK) I2C_CR2_TRANSFER |>);;
  on_slave I2C_Flush_TXDR;;
  on_slave (disable_dma tmpcr1value);;
  let received := I2C_CHECK_FLAG ITFlags I2C_FLAG_RXNE in
  let tmpITFlags := if received then CLEAR_BIT ITFlags I2C_FLAG_RXNE else ITFlags in
  when received (
    store_received;;
    s ← gets slave;
    when (0 <? XferSize s) count_down);;
  s ← gets slave;
  when (negb (XferCount s =? 0)) (on_slave (fun s => s <| ErrorCode ::= fun e => Z.lor e HAL_I2C_ERROR_AF |>));;
  when (I2C_CHECK_FLAG tmpITFlags I2C_FLAG_AF && I2C_CHECK_IT_SOURCE tmpcr1value I2C_IT_NACKI)
    (not_acknowledged tmpITFlags tmpoptions);;
  on_slave (fun s => s <| Mode := HAL_I2C_MODE_NONE |> <| XferISR := NULL |>);;
  s ← gets slave;
  if negb (ErrorCode s =? HAL_I2C_ERROR_NONE) then
    I2C_ITError (ErrorCode s);;
    s ← gets slave;
    when (State s =? HAL_I2C_STATE_LISTEN) (I2C_ITListenCplt tmpITFlags)
  else if negb (XferOptions s =? I2C_NO_OPTION_FRAME) then
    I2C_ITSlaveSeqCplt;;
    on_slave (fun s => HAL_UNLOCK (s <| XferOptions := I2C_NO_OPTION_FRAME |> <| State := HAL_I2C_STATE_READY |>
      <| PreviousState := I2C_STATE_NONE |>));;
    ListenCpltCallback
  else
    let receiving := State s =? HAL_I2C_STATE_BUSY_RX in
    on_slave (fun s => HAL_UNLOCK (s <| State := HAL_I2C_STATE_READY |> <| PreviousState := I2C_STATE_NONE |>));;
    if receiving then SlaveRxCpltCallback else SlaveTxCpltCallback.

Definition I2C_Slave_ISR_IT (ITFlags ITSources : Z) : M board Z :=
  tmpoptions ← gets (fun b => XferOptions (slave b));
  locked ← gets (fun b => Lock (slave b));
  if (locked : bool) then mret HAL_BUSY else
  on_slave (fun s => s <| Lock := true |>);;
  (if I2C_CHECK_FLAG ITFlags I2C_FLAG_STOPF && I2C_CHECK_IT_SOURCE ITSources I2C_IT_STOPI then
    I2C_ITSlaveCplt ITFlags
  else if I2C_CHECK_FLAG ITFlags I2C_FLAG_AF && I2C_CHECK_IT_SOURCE ITSources I2C_IT_NACKI then
    not_acknowledged ITFlags tmpoptions
  else if I2C_CHECK_FLAG ITFlags I2C_FLAG_RXNE && I2C_CHECK_IT_SOURCE ITSources I2C_IT_RXI then
    s ← gets slave;
    when (0 <? XferCount s) (store_received;; count_down);;
    s ← gets slave;
    when ((XferCount s =? 0) && negb (tmpoptions =? I2C_NO_OPTION_FRAME)) I2C_ITSlaveSeqCplt
  else if I2C_CHECK_FLAG ITFlags I2C_FLAG_ADDR && I2C_CHECK_IT_SOURCE ITSources I2C_IT_ADDRI then
    I2C_ITAddrCplt
  else if I2C_CHECK_FLAG ITFlags I2C_FLAG_TXIS && I2C_CHECK_IT_SOURCE ITSources I2C_IT_TXI then
    s ← gets slave;
    if 0 <? XferCount s then load_next;; count_down
    else when ((tmpoptions =? I2C_NEXT_FRAME) || (tmpoptions =? I2C_FIRST_FRAME)) I2C_ITSlaveSeqCplt
  else mret tt);;
  on_slave HAL_UNLOCK;;
  mret HAL_OK.

Definition HAL_I2C_EV_IRQHandler : M board unit :=
  s ← gets slave;
  match XferISR s with
  | NULL => mret tt
  | Slave_ISR_IT => I2C_Slave_ISR_IT (ISR s) (CR1 s);; mret tt
  end.

(** One of the three errors: its flag is cleared and its code noted. *)
Definition note_error (itflags itsources flag error : Z) (s : i2c_slave) : i2c_slave :=
  if I2C_CHECK_FLAG itflags flag && I2C_CHECK_IT_SOURCE itsources I2C_IT_ERRI
  then CLEAR_FLAG flag (s <| ErrorCode ::= fun e => Z.lor e error |>) else s.

Definition HAL_I2C_ER_IRQHandler : M board unit :=
  s ← gets slave;
  let note := note_error (ISR s) (CR1 s) in
  on_slave (note I2C_FLAG_BERR HAL_I2C_ERROR_BERR);;
  on_slave (note I2C_FLAG_OVR HAL_I2C_ERROR_OVR);;
  on_slave (note I2C_FLAG_ARLO HAL_I2C_ERROR_ARLO);;
  tmperror ← gets (fun b => ErrorCode (slave b));
  when (negb (Z.land tmperror (Z.lor (Z.lor HAL_I2C_ERROR_BERR HAL_I2C_ERROR_OVR) HAL_I2C_ERROR_ARLO) =? HAL_I2C_ERROR_NONE))
    (I2C_ITError tmperror).

(** ** Events

    The interrupt lines of the peripheral (with the flags it shows then) and of
    the timer; after [Error_Handler] interrupts are disabled. *)
Inductive bus_event :=
| I2C1_EV (isr : Z)
| I2C1_ER (isr : Z)
| TIM10_elapsed.

Definition board_event (e : bus_event) : M board unit :=
  stuck ← gets (fun b => irq_disabled (dev b));
  if (stuck : bool) then mret tt else
  match e with
  | I2C1_EV isr => on_slave (fun s => s <| ISR := isr |>);; HAL_I2C_EV_IRQHandler
  | I2C1_ER isr => on_slave (fun s => s <| ISR := isr |>);; HAL_I2C_ER_IRQHandler
  | TIM10_elapsed =>
      h ← gets (fun b => htim10 (dev b));
      firmware (fun _hal => HAL_TIM_PeriodElapsedCallback h)
  end.

Definition board_run (events : list bus_event) : M board unit :=
  foldr (fun e rest => board_event e;; rest) (mret tt) events.

Definition board_start : M board fate := firmware (fun hal => @main hal).
End Board.
