(* ===== verification/HalI2cProofs.v ===== *)
(** HalI2cProofs: what the master reads from the board, through the driver and
    the registers, for every legal sequence of interrupts; and what an address
    match for writing does. *)

From S2P Require Import Prelude Machine Ieee GpsSimulator HalI2c.

(** ** Specification

    How far the master is with the slave: not addressed since the last STOP,
    addressed for reading, or done reading (NACK); the number of the second,
    the table entry the master was given, and how many of its bytes are due. *)
Inductive phase := Free | Addressed | Refused.

Record bus := Bus {
  master : phase;
  second : Z;
  chosen : Z;
  remaining : Z;
}.

Abbreviation shows := I2C_CHECK_FLAG (only parsing).

Definition some_error (isr : Z) : bool :=
  shows isr I2C_FLAG_BERR || shows isr I2C_FLAG_OVR || shows isr I2C_FLAG_ARLO.

Definition bus_step (t : bus) (e : bus_event) : bus * list byte :=
  match e with
  | TIM10_elapsed => (Bus (master t) ((second t + 1) `mod` GPS_COORDINATES_COUNT) (chosen t) (remaining t), [])
  | I2C1_ER isr => (if some_error isr then Bus (master t) (second t) (chosen t) 0 else t, [])
  | I2C1_EV isr =>
      if shows isr I2C_FLAG_STOPF then (Bus Free (second t) (chosen t) 0, [])
      else if shows isr I2C_FLAG_AF then (Bus Refused (second t) (chosen t) (remaining t), [])
      else if shows isr I2C_FLAG_ADDR then (Bus Addressed (second t) (second t) sizeof_coordinate, [])
      else if shows isr I2C_FLAG_TXIS && (0 <? remaining t) then
        (Bus (master t) (second t) (chosen t) (remaining t - 1),
         take 1 (drop (Z.to_nat (sizeof_coordinate - remaining t)) (encode_coordinate (coordinate_at (chosen t)))))
      else (t, [])
  end.

Fixpoint bus_run (t : bus) (events : list bus_event) : bus * list byte :=
  match events with
  | [] => (t, [])
  | e :: rest =>
      let '(t1, sent) := bus_step t e in
      let '(t2, more) := bus_run t1 rest in
      (t2, sent ++ more)
  end.

(** The flags the peripheral can show: STOP only to a slave that is addressed,
    NACK once after it is addressed; the master only reads, so the direction of
    an address match is a read and nothing is received. *)
Definition legal_event (t : bus) (e : bus_event) : bool :=
  match e with
  | TIM10_elapsed | I2C1_ER _ => true
  | I2C1_EV isr =>
      negb (shows isr I2C_FLAG_RXNE)
      && (negb (shows isr I2C_FLAG_ADDR) || (I2C_GET_DIR isr =? I2C_DIRECTION_RECEIVE))
      && (negb (shows isr I2C_FLAG_STOPF) || match master t with Free => false | _ => true end)
      && (negb (shows isr I2C_FLAG_AF) || match master t with Addressed => true | _ => false end)
  end.

Fixpoint legal (t : bus) (events : list bus_event) : bool :=
  match events with
  | [] => true
  | e :: rest => legal_event t e && legal (bus_step t e).1 rest
  end.

(** ** The invariant *)
Definition LISTENING : Z := 0xB9.     (* PE, ADDR, NACK, STOP and error interrupts *)
Definition TRANSMITTING : Z := 0xFB.  (* and TX and TC *)

Record settled (s : i2c_slave) : Prop := {
  se_lock : Lock s = false;
  se_isr : XferISR s = Slave_ISR_IT;
  se_init : Init s = configured_i2c;
  se_error : 0 <= ErrorCode s <= 15;
}.

Definition listening (s : i2c_slave) : Prop := State s = HAL_I2C_STATE_LISTEN /\ CR1 s = LISTENING.

Record sending (error : Z) (t : bus) (d : device) (s : i2c_slave) : Prop := {
  sg_state : State s = HAL_I2C_STATE_BUSY_TX_LISTEN;
  sg_cr1 : CR1 s = TRANSMITTING;
  sg_error : ErrorCode s = error;
  sg_options : XferOptions s = I2C_LAST_FRAME;
  sg_count : XferCount s = remaining t;
  sg_size : XferSize s = remaining t;
  sg_pointer : pBuffPtr s = Some (Z.to_nat (sizeof_coordinate - remaining t));
  sg_packet : i2c_tx_packet d = coordinate_at (chosen t);
}.

Definition aborted (t : bus) (s : i2c_slave) : Prop :=
  listening s /\ XferCount s = 0 /\ XferOptions s = I2C_NO_OPTION_FRAME /\ ErrorCode s <> 0 /\ remaining t = 0.
Definition sent (t : bus) (s : i2c_slave) : Prop :=
  listening s /\ XferCount s = 0 /\ XferOptions s = I2C_LAST_FRAME /\ ErrorCode s = 0 /\ remaining t = 0.

Definition transfer (t : bus) (d : device) (s : i2c_slave) : Prop :=
  match master t with
  | Free => listening s /\ remaining t = 0
  | Addressed => sending HAL_I2C_ERROR_NONE t d s \/ aborted t s
  | Refused => sending HAL_I2C_ERROR_AF t d s \/ aborted t s \/ sent t s
  end.

Record serves (t : bus) (b : board) : Prop := {
  sv_second : current_coordinate (dev b) = second t;
  sv_range : 0 <= second t < GPS_COORDINATES_COUNT;
  sv_remaining : 0 <= remaining t <= sizeof_coordinate;
  sv_running : irq_disabled (dev b) = false;
  sv_timer : htim10 (dev b) = configured_tim;
  sv_settled : settled (slave b);
  sv_transfer : transfer t (dev b) (slave b);
}.

Lemma small_cases (n : nat) z : 0 <= z <= Z.of_nat n -> z ∈ Z.of_nat <$> seq 0 (S n).
Proof. intros H. apply list_elem_of_fmap. exists (Z.to_nat z). rewrite Z2Nat.id by lia. split; [done|]. apply elem_of_seq. lia. Qed.

(** Split on the value of a variable from 0 to [n]. *)
Ltac by_value H n :=
  apply (small_cases n) in H;
  let l := eval vm_compute in (Z.of_nat <$> seq 0 (S n)) in change (Z.of_nat <$> seq 0 (S n)) with l in H;
  repeat (apply elem_of_cons in H as [->|H]); [..|by apply not_elem_of_nil in H].

Lemma coordinate_lookup i : 0 <= i < GPS_COORDINATES_COUNT -> gps_coordinates !! Z.to_nat i = Some (coordinate_at i).
Proof.
  intros Hi. destruct (lookup_lt_is_Some_2 gps_coordinates (Z.to_nat i)) as [x Hx].
  { change (length gps_coordinates) with (Z.to_nat GPS_COORDINATES_COUNT). lia. }
  unfold coordinate_at. by rewrite Hx.
Qed.

Lemma transfer_ext t t' d d' s : transfer t d s -> master t' = master t -> chosen t' = chosen t ->
  remaining t' = remaining t -> i2c_tx_packet d' = i2c_tx_packet d -> transfer t' d' s.
Proof.
  intros Ht E1 E2 E3 E4.
  assert (forall e, sending e t d s -> sending e t' d' s) as Hs by (intros e []; constructor; congruence).
  unfold transfer, aborted, sent in *. rewrite E1, E3. destruct (master t); naive_solver.
Qed.

Lemma take_one {A} (l : list A) n z x : l !! n = Some x -> Z.to_nat z = n -> take 1 (drop (Z.to_nat z) l) = [x].
Proof. intros Hx ->. by rewrite (drop_S _ _ _ Hx). Qed.

Lemma transfer_state t d s : transfer t d s ->
  listening s \/ (State s = HAL_I2C_STATE_BUSY_TX_LISTEN /\ CR1 s = TRANSMITTING).
Proof.
  unfold transfer, aborted, sent. destruct (master t); [tauto|intros [[] | H]|intros [[] | H]]; tauto.
Qed.

Section Proofs.
#[local] Arguments encode_coordinate : simpl never.
Variable others : Hal.

Implicit Types (d : device) (s : i2c_slave).

(** *** The callbacks *)
Lemma wp_ListenCpltCallback d s (Q : unit -> board -> Prop) :
  Init s = configured_i2c -> State s = HAL_I2C_STATE_READY ->
  (forall w, Q tt (Board (d <| hal_calls := w |>) (HAL_I2C_EnableListen_IT s).2)) ->
  wp (ListenCpltCallback others) Q (Board d s).
Proof.
  intros Hi Hs HQ. unfold ListenCpltCallback. apply wp_bind, wp_gets. cbn. rewrite Hi. apply wp_bind.
  assert ((HAL_I2C_EnableListen_IT s).1 = HAL_OK) as Hr by (unfold HAL_I2C_EnableListen_IT; by rewrite Hs).
  unfold wp at 1, firmware, HAL_I2C_ListenCpltCallback, or_halt, hal, hal_status, answers, mbind, M_bind, mret, M_ret.
  cbn -[HAL_I2C_EnableListen_IT]. destruct (HAL_I2C_EnableListen_IT s) as [r s'] eqn:E. cbn in Hr, HQ. subst r.
  cbn -[HAL_I2C_EnableListen_IT]. rewrite E. apply HQ.
Qed.

Lemma wp_ErrorCallback d s (Q : unit -> board -> Prop) : Init s = configured_i2c ->
  (forall w, Q tt (Board (d <| hal_calls := w |>) s)) -> wp (ErrorCallback others) Q (Board d s).
Proof.
  intros Hi HQ. unfold ErrorCallback. apply wp_bind, wp_gets. cbn. rewrite Hi. apply HQ.
Qed.

Lemma wp_AddrCallback d s code c (Q : unit -> board -> Prop) :
  Init s = configured_i2c -> listens (State s) = true -> Lock s = false ->
  gps_coordinates !! Z.to_nat (current_coordinate d) = Some c ->
  (forall w n, Q tt (Board (d <| i2c_tx_packet := c |> <| GpsSimulator.XferCount := n |> <| hal_calls := w |>)
    (HAL_I2C_Slave_Seq_Transmit_IT (Some 0%nat) sizeof_coordinate I2C_LAST_FRAME s).2)) ->
  wp (AddrCallback others I2C_DIRECTION_RECEIVE code) Q (Board d s).
Proof.
  intros Hi Hs Hl Hc HQ. unfold AddrCallback. apply wp_bind, wp_gets. cbn [slave]. rewrite Hi.
  unfold wp, firmware, HAL_I2C_AddrCallback, hal, hal_status, answers, mbind, M_bind, mret, M_ret, gets, modify, from_option_undef.
  cbn -[lookup HAL_I2C_Slave_Seq_Transmit_IT]. rewrite Hc. cbn -[lookup HAL_I2C_Slave_Seq_Transmit_IT].
  destruct (HAL_I2C_Slave_Seq_Transmit_IT _ _ _ s) as [r s'] eqn:E.
  cbn in HQ |- *. destruct (r =? HAL_OK); cbn; rewrite E; apply HQ.
Qed.

(** The transfer the firmware starts; whether the flag ADDR is cleared is not
    needed below. *)
Lemma transmit_started s : listens (State s) = true -> State s <> HAL_I2C_STATE_BUSY_RX_LISTEN -> Lock s = false ->
  exists isr, (HAL_I2C_Slave_Seq_Transmit_IT (Some 0%nat) sizeof_coordinate I2C_LAST_FRAME s).2 =
    I2C_Enable_IRQ (Z.lor I2C_XFER_TX_IT I2C_XFER_LISTEN_IT)
      ((I2C_Disable_IRQ (Z.lor I2C_XFER_LISTEN_IT I2C_XFER_TX_IT) s) <| ISR := isr |>
        <| State := HAL_I2C_STATE_BUSY_TX_LISTEN |> <| Mode := HAL_I2C_MODE_SLAVE |> <| ErrorCode := HAL_I2C_ERROR_NONE |>
        <| CR2 ::= fun r => CLEAR_BIT r I2C_CR2_NACK |> <| pBuffPtr := Some 0%nat |> <| XferCount := sizeof_coordinate |>
        <| XferSize := sizeof_coordinate |> <| XferOptions := I2C_LAST_FRAME |> <| XferISR := Slave_ISR_IT |> <| Lock := false |>).
Proof.
  intros Hs Hr%Z.eqb_neq Hl. unfold HAL_I2C_Slave_Seq_Transmit_IT. rewrite Hs. cbv zeta.
  cbv iota. replace (bool_decide _ || _) with false by done. cbv iota.
  change (Lock (I2C_Disable_IRQ ?r s)) with (Lock s). rewrite Hl. cbv iota.
  set (s1 := I2C_Disable_IRQ _ s).
  change (State (s1 <| Lock := true |>)) with (State s). rewrite Hr. cbv iota.
  match goal with |- context [if ?c then CLEAR_FLAG _ _ else _] => destruct c end.
  - exists (CLEAR_BIT (ISR s1) I2C_FLAG_ADDR). cbn [snd]. by f_equal.
  - exists (ISR s1). cbn [snd]. by f_equal.
Qed.

Lemma wp_load_next d s (n : nat) (Q : unit -> board -> Prop) : pBuffPtr s = Some n -> (n < 8)%nat ->
  (forall data isr tx, encode_coordinate (i2c_tx_packet d) !! n = Some data ->
    Q tt (Board d (s <| TXDR := tx |> <| ISR := isr |> <| pBuffPtr := Some (S n) |> <| loaded := loaded s ++ [data] |>))) ->
  wp load_next Q (Board d s).
Proof.
  intros Hp Hn HQ. unfold load_next. apply wp_bind, wp_gets. cbn [slave]. rewrite Hp.
  apply wp_bind. apply (wp_from_option _ n); [done|]. apply wp_bind, wp_gets, wp_bind. cbn [dev].
  destruct (lookup_lt_is_Some_2 (encode_coordinate (i2c_tx_packet d)) n) as [data Hd];
    [by rewrite length_encode_coordinate|].
  apply (wp_from_option _ data); [done|]. apply wp_modify.
  apply (HQ data (CLEAR_BIT (ISR s) (SET_BIT I2C_FLAG_TXIS I2C_FLAG_TXE)) (byte_val data) Hd).
Qed.

(** *** Symbolic execution

    The state is kept in constructor form; the flags are decided by the
    hypotheses or by case analysis. *)
Lemma wp_I2C_Flush_TXDR d s (Q : unit -> board -> Prop) :
  (forall tx isr, Q tt (Board d (s <| TXDR := tx |> <| ISR := isr |>))) -> wp (on_slave I2C_Flush_TXDR) Q (Board d s).
Proof.
  intros HQ. assert (exists tx isr, I2C_Flush_TXDR s = s <| TXDR := tx |> <| ISR := isr |>) as (tx & isr & E).
  { unfold I2C_Flush_TXDR. destruct s, (GET_FLAG _ I2C_FLAG_TXIS), (GET_FLAG _ I2C_FLAG_TXE); by do 2 eexists. }
  apply wp_modify. change (Q tt (Board d (I2C_Flush_TXDR s))). rewrite E. apply HQ.
Qed.

(** The three notes of an error interrupt together. *)
Lemma notes s isr cr1 (note := note_error isr cr1) : I2C_CHECK_IT_SOURCE cr1 I2C_IT_ERRI = true -> 0 <= ErrorCode s <= 15 ->
  exists e isr',
    note I2C_FLAG_ARLO HAL_I2C_ERROR_ARLO (note I2C_FLAG_OVR HAL_I2C_ERROR_OVR (note I2C_FLAG_BERR HAL_I2C_ERROR_BERR s)) =
      s <| ISR := isr' |> <| ErrorCode := e |> /\
    0 <= e <= 15 /\ if some_error isr then Z.land e 11 <> 0 else e = ErrorCode s.
Proof.
  intros Hi He. subst note. unfold note_error, some_error. rewrite Hi, !andb_true_r.
  destruct s as [? ? ? ? ? i ? ? ? ? ? err]. cbn in He.
  destruct (shows isr I2C_FLAG_BERR), (shows isr I2C_FLAG_OVR), (shows isr I2C_FLAG_ARLO); cbn [orb];
    (do 2 eexists; split; [reflexivity|]); (by split) || (by_value He 15%nat; by vm_compute).
Qed.

Lemma wp_note_errors d s isr cr1 (note := note_error isr cr1) next (Q : unit -> board -> Prop) :
  I2C_CHECK_IT_SOURCE cr1 I2C_IT_ERRI = true -> 0 <= ErrorCode s <= 15 ->
  (forall e isr', 0 <= e <= 15 -> (if some_error isr then Z.land e 11 <> 0 else e = ErrorCode s) ->
    wp next Q (Board d (s <| ISR := isr' |> <| ErrorCode := e |>))) ->
  wp (on_slave (note I2C_FLAG_BERR HAL_I2C_ERROR_BERR);;
      on_slave (note I2C_FLAG_OVR HAL_I2C_ERROR_OVR);;
      on_slave (note I2C_FLAG_ARLO HAL_I2C_ERROR_ARLO);; next) Q (Board d s).
Proof.
  intros Hi He HQ. subst note. destruct (notes s isr cr1 Hi He) as (e & isr' & E & Hr & Hc).
  do 3 apply wp_bind, wp_modify. exact (eq_ind_r (fun s' => wp next Q (Board d s')) (HQ e isr' Hr Hc) E).
Qed.

(** The value of a term, but for the flags and the data. *)
Ltac value v :=
  eval lazy -[I2C_CHECK_FLAG GET_FLAG I2C_GET_DIR I2C_GET_ADDR_MATCH gps_coordinates lookup encode_coordinate
    coordinate_at byte_val app] in v.
Ltac decide_by_hypothesis c :=
  first
  [ let H := fresh in assert (c = true) as H by assumption; rewrite H; clear H
  | let H := fresh in assert (c = false) as H by assumption; rewrite H; clear H
  | destruct c eqn:? ].
Ltac branch c :=
  let c' := value c in change c with c';
  repeat match goal with
  | |- wp (if ?x then _ else _) _ _ =>
      match x with
      | context [I2C_CHECK_FLAG ?i ?f] => decide_by_hypothesis (I2C_CHECK_FLAG i f)
      | context [I2C_GET_DIR ?i =? ?v] => decide_by_hypothesis (I2C_GET_DIR i =? v)
      | context [GET_FLAG ?s ?f] => destruct (GET_FLAG s f)
      end
  end; cbv iota.
Ltac head m := lazymatch m with ?f _ => head f | _ => m end.
Ltac forget x := tryif is_var x then idtac else (generalize x; intros ?).
(** Registers that no routine reads again, and the history of calls. *)
Ltac forget_registers :=
  try match goal with
  | |- context [Board (Device _ _ _ _ _ _ _ ?calls _) (Slave _ ?cr2 _ _ _ ?isr ?tx _ _ _ _ _ _ _ _ _ _ _ _ _ _)] =>
      forget calls; forget cr2; forget isr; forget tx
  end.
Ltac normalise :=
  match goal with |- context [Board ?d ?s] =>
    let d' := value d in let s' := value s in change (Board d s) with (Board d' s')
  end; forget_registers; cbv beta zeta.
(** One step of the program at the head of the goal. *)
Ltac step :=
  lazymatch goal with
  | |- wp (mbind _ _) _ _ => apply wp_bind
  | |- wp (gets ?g) ?Q ?b => let v := value (g b) in change (Q v b); cbv beta zeta
  | |- wp (on_slave I2C_Flush_TXDR) _ _ => apply wp_I2C_Flush_TXDR; intros ? ?
  | |- wp (on_slave ?f) ?Q (Board ?d ?s) => let s' := value (f s) in change (Q tt (Board d s')); forget_registers; cbv beta zeta
  | |- wp (mret ?a) ?Q ?b => change (Q a b); cbv beta zeta
  | |- wp (if ?c then _ else _) _ _ => branch c
  | |- wp (match ?x with NULL => _ | Slave_ISR_IT => _ end) _ _ => let x' := value x in change x with x'; cbv iota
  | |- wp (ListenCpltCallback _) _ _ => apply wp_ListenCpltCallback; [done|done|intros ?; normalise]
  | |- wp (ErrorCallback _) _ _ => apply wp_ErrorCallback; [done|intros ?; normalise]
  | |- wp (AddrCallback _ _ _) _ _ => fail
  | |- wp load_next _ _ => apply wp_load_next with (1 := eq_refl); [cbn; lia|intros ? ? ? ?; normalise]
  | |- wp ?m _ _ => let f := head m in unfold f
  | |- ?Q _ (Board _ _) => cbv beta zeta
  end.

(** *** One event *)
Definition goes_on (t : bus) (e : bus_event) (b : board) : Prop :=
  wp (board_event others e) (fun _ b' => serves (bus_step t e).1 b' /\
    loaded (slave b') = loaded (slave b) ++ (bus_step t e).2) b.

(** The invariant taken apart, with the records as constructors. *)
Ltac in_constructor_form :=
  match goal with H : serves ?t ?b |- _ =>
    destruct H as [H1 H2 H3 H4 H5 [S1 S2 S3 S4] H7]; destruct t as [ph n c k], b as [[] []]; cbn in *; subst
  end.
(** The invariant after the event, and the bytes it loaded. *)
Ltac show_served :=
  split;
  [ constructor; cbn; try done; try (by constructor); try first [by left | by right; left | by right; right]
  | rewrite ?app_nil_r; try reflexivity;
    (* a byte was loaded *)
    cbn -[take drop Z.to_nat] in *; match goal with H : _ !! _ = Some _ |- _ => by rewrite (take_one _ _ _ _ H) end ].

(** Every shape of the transfer in every phase. *)
Ltac by_transfer :=
  match goal with H : transfer (Bus ?ph _ _ _) _ _ |- _ =>
    destruct ph; cbn in H;
    [ destruct H as [[] ?] | destruct H as [[] | ([] & ? & ? & ? & ?)]
    | destruct H as [[] | [([] & ? & ? & ? & ?)|([] & ? & ? & ? & ?)]] ]
  end; cbn in *; subst.

(** A STOP ends every transfer, however far it has come. *)
Lemma ev_stop t b isr :
  serves t b -> shows isr I2C_FLAG_RXNE = false -> shows isr I2C_FLAG_STOPF = true -> master t <> Free ->
  (shows isr I2C_FLAG_AF = true -> master t = Addressed) -> goes_on t (I2C1_EV isr) b.
Proof.
  intros Hs Er Es Hm Ha. unfold goes_on, bus_step. rewrite Es. cbv zeta. in_constructor_form.
  destruct ph; [done| |]; cbn in H7.
  - clear Ha. destruct H7 as [[] | ([] & ? & ? & ? & ?)]; cbn in *; subst.
    + by_value H3 8%nat; repeat step; show_served.
    + by_value S4 15%nat; [done|..]; repeat step; show_served.
  - assert (shows isr I2C_FLAG_AF = false) by (destruct (shows isr I2C_FLAG_AF); [by specialize (Ha eq_refl)|done]).
    clear Ha. destruct H7 as [[] | [([] & ? & ? & ? & ?)|([] & ? & ? & ? & ?)]]; cbn in *; subst.
    + by_value H3 8%nat; repeat step; show_served.
    + by_value S4 15%nat; [done|..]; repeat step; show_served.
    + repeat step; show_served.
Qed.

Lemma ev_refused t b isr :
  serves t b -> shows isr I2C_FLAG_STOPF = false -> shows isr I2C_FLAG_AF = true -> master t = Addressed ->
  goes_on t (I2C1_EV isr) b.
Proof.
  intros Hs Es Ea Hm. unfold goes_on, bus_step. rewrite Es, Ea. cbv zeta. in_constructor_form.
  destruct H7 as [[] | ([] & ? & ? & ? & ?)]; cbn in *; subst.
  - by_value H3 8%nat; repeat step; show_served.
  - by_value S4 15%nat; [done|..]; repeat step; show_served.
Qed.

Lemma ev_addressed t b isr :
  serves t b -> shows isr I2C_FLAG_STOPF = false -> shows isr I2C_FLAG_AF = false -> shows isr I2C_FLAG_RXNE = false ->
  shows isr I2C_FLAG_ADDR = true -> I2C_GET_DIR isr = I2C_DIRECTION_RECEIVE -> goes_on t (I2C1_EV isr) b.
Proof.
  intros Hs Es Ea Er Ed Hd. unfold goes_on, bus_step. rewrite Es, Ea, Ed. cbv zeta.
  pose proof (coordinate_lookup _ (sv_range _ _ Hs)) as Hx.
  pose proof (transfer_state _ _ _ (sv_transfer _ _ Hs)) as Hst.
  in_constructor_form. clear H7.
  destruct Hst as [[? ?] | [? ?]]; cbn in *; subst; repeat step; cbn [HalI2c.ISR]; rewrite Hd;
    (apply (wp_AddrCallback _ _ _ (coordinate_at n)); [done|done|done|done|]); intros ? ?;
    lazymatch goal with |- context [HAL_I2C_Slave_Seq_Transmit_IT _ _ _ ?s] =>
      destruct (transmit_started s) as [? ->]; [done|done|done|] end; normalise; repeat step; show_served.
Qed.

Lemma ev_byte t b isr :
  serves t b -> shows isr I2C_FLAG_STOPF = false -> shows isr I2C_FLAG_AF = false -> shows isr I2C_FLAG_RXNE = false ->
  shows isr I2C_FLAG_ADDR = false -> goes_on t (I2C1_EV isr) b.
Proof.
  intros Hs Es Ea Er Ed. unfold goes_on, bus_step. rewrite Es, Ea, Ed. cbv zeta.
  destruct (shows isr I2C_FLAG_TXIS) eqn:Et; cbn [andb]; in_constructor_form;
    by_transfer; try (is_var k; by_value H3 8%nat); repeat step; show_served.
Qed.

Lemma ev_error t b isr : serves t b -> goes_on t (I2C1_ER isr) b.
Proof.
  intros Hs. unfold goes_on, bus_step. in_constructor_form. by_transfer.
  all: do 9 step; apply wp_note_errors; [done|done|]; intros e isr' Hr Hc; normalise; cbn in Hc;
    destruct (some_error isr); cbn; by_value Hr 15%nat;
    cbn in Hc; try (exfalso; clear -Hc; congruence).
  all: try subst ErrorCode; repeat step; show_served.
Qed.

Lemma tick_step t b : serves t b -> goes_on t TIM10_elapsed b.
Proof.
  intros [H1 H2 H3 H4 H5 Hs Ht]. unfold goes_on. destruct b as [d s]. cbn [dev slave] in *.
  unfold board_event. apply wp_bind, wp_gets. cbn [dev]. rewrite H4. cbv iota. apply wp_bind, wp_gets. cbn [dev]. rewrite H5.
  unfold wp, firmware, HAL_TIM_PeriodElapsedCallback. cbn -[Z.leb wrap_u]. rewrite app_nil_r. split; [|done].
  assert (0 < GPS_COORDINATES_COUNT) by done.
  constructor; [|by apply Z.mod_pos_bound|done|done|done|done|by apply (transfer_ext t _ d)].
  cbn -[Z.leb wrap_u]. change (current_coordinate (d <| hal_calls := [] |>)) with (current_coordinate d).
  rewrite H1. by apply next_coordinate_mod.
Qed.

Lemma event_step t b e : serves t b -> legal_event t e = true -> goes_on t e b.
Proof.
  intros Hs Hl. destruct e as [isr|isr|]; [|by apply ev_error|by apply tick_step].
  cbn in Hl. apply andb_prop in Hl as [Hl Haf]. apply andb_prop in Hl as [Hl Hstop]. apply andb_prop in Hl as [Hrx Haddr].
  apply negb_true_iff in Hrx.
  destruct (shows isr I2C_FLAG_STOPF) eqn:Es; cbn in Hstop.
  { apply ev_stop; [done|done|done| |]; destruct (master t), (shows isr I2C_FLAG_AF); done. }
  destruct (shows isr I2C_FLAG_AF) eqn:Ea; cbn in Haf; [by apply ev_refused; [..|destruct (master t)]|].
  destruct (shows isr I2C_FLAG_ADDR) eqn:Ed; cbn in Haddr; [|by apply ev_byte].
  apply ev_addressed; [done..|by apply Z.eqb_eq].
Qed.

Lemma events_run t b events : serves t b -> legal t events = true ->
  wp (board_run others events) (fun _ b' => serves (bus_run t events).1 b' /\
    loaded (slave b') = loaded (slave b) ++ (bus_run t events).2) b.
Proof.
  revert t b. induction events as [|e rest IH]; intros t b Hs Hl; cbn [bus_run].
  { apply wp_ret. by rewrite app_nil_r. }
  cbn in Hl. apply andb_prop in Hl as [He Hl]. cbn. apply wp_bind.
  eapply wp_mono; [by apply event_step|]. intros _u b1 [Hs1 Hw1].
  destruct (bus_step t e) as [t1 bytes]. specialize (IH t1 b1 Hs1 Hl).
  destruct (bus_run t1 rest) as [t2 more]. eapply wp_mono; [exact IH|]. intros _v b2 [Hs2 Hw2]. split; [done|].
  cbn in *. by rewrite Hw2, Hw1, <- (assoc_L (++)).
Qed.

(** *** Start *)
Definition free_bus : bus := Bus Free 0 0 0.

Lemma wp_firmware {A} (f : Hal -> M device A) (Q : A -> board -> Prop) b :
  wp (f (answers others b)) (fun a d => Q a (Board (d <| hal_calls := hal_calls d ++ hal_calls (dev b) |>)
    (performed others b (hal_calls d)))) ((dev b) <| hal_calls := [] |>) -> wp (firmware others f) Q b.
Proof. unfold wp, firmware. by destruct (f _ _) as [[a d]| |]. Qed.

Section Calls.
Context `{Hal}.
Lemma wp_hal_call c (Q : unit -> device -> Prop) d : Q tt (d <| hal_calls ::= cons c |>) -> wp (hal_ c) Q d.
Proof. done. Qed.
Lemma wp_or_halt_call c next (Q : fate -> device -> Prop) d :
  Q Halted (d <| hal_calls ::= cons c |> <| hal_calls ::= cons disable_irq |> <| irq_disabled := true |>) ->
  (hal_status (hal_calls d) c = HAL_OK -> wp next Q (d <| hal_calls ::= cons c |>)) -> wp (or_halt (hal c) next) Q d.
Proof.
  intros Hh Hn. unfold or_halt. apply wp_bind. unfold wp at 1, hal at 1.
  destruct (_ =? HAL_OK) eqn:E; [|done]. apply Hn. by apply Z.eqb_eq.
Qed.
End Calls.

(** Nothing is sent by a call. *)
Lemma perform_loaded status c s : loaded (from_option snd s (perform status c s)) = loaded s.
Proof.
  destruct c; cbn [perform from_option]; try reflexivity.
  all: unfold HAL_I2C_Init, HAL_I2CEx_ConfigAnalogFilter, HAL_I2CEx_ConfigDigitalFilter, configure_filter,
    HAL_I2C_EnableListen_IT, HAL_I2C_Slave_Seq_Transmit_IT, CLEAR_FLAG; cbv zeta; repeat case_match; reflexivity.
Qed.

Lemma performed_loaded b w : loaded (performed others b w) = loaded (slave b).
Proof. induction w as [|c w IH]; [done|]. cbn [performed]. by rewrite perform_loaded. Qed.

(** The device in constructor form. *)
Ltac present := match goal with |- wp ?m ?Q ?d => let d' := eval lazy in d in change (wp m Q d') end.

Lemma board_started : wp (board_start others) (fun r b =>
  loaded (slave b) = [] /\
  match r with Listening => serves free_bus b | Halted => irq_disabled (dev b) = true end) power_on.
Proof.
  apply wp_firmware. unfold main. cbn [dev power_on].
  repeat first
    [ apply wp_bind | apply wp_then | apply wp_hal_call; present
    | apply wp_or_halt_call; [split; [apply performed_loaded|reflexivity]|let Hok := fresh "Hok" in intros Hok; present] | apply wp_modify; present
    | apply wp_gets; cbn [htim10 hi2c1] | apply wp_ret
    | progress unfold SystemClock_Config, MX_GPIO_Init, MX_I2C1_Init, MX_TIM10_Init, MX_USART3_UART_Init ].
  split; [apply performed_loaded|]. lazy in Hok1. destruct (others _ (GpsSimulator.HAL_I2C_Init _)) eqn:Hmsp; try discriminate Hok1.
  match goal with |- serves _ (Board _ ?p) =>
    let E := fresh in eassert (p = _) as E; [lazy; rewrite Hmsp; lazy; reflexivity|rewrite E] end.
  by constructor.
Qed.

(** *** Deafness *)

(** No interrupt of the peripheral is enabled any more. *)
Record deaf (s : i2c_slave) : Prop := {
  df_cr1 : CR1 s = I2C_CR1_PE;
  df_state : State s = HAL_I2C_STATE_LISTEN;
  df_lock : Lock s = false;
  df_init : Init s = configured_i2c;
}.

Definition stays_deaf (b b' : board) : Prop := deaf (slave b') /\ loaded (slave b') = loaded (slave b).

Lemma wp_AddrCallback_write d s direction code (Q : unit -> board -> Prop) : direction <> I2C_DIRECTION_RECEIVE ->
  (forall w, Q tt (Board (d <| hal_calls := w |>) s)) -> wp (AddrCallback others direction code) Q (Board d s).
Proof.
  intros Hd%Z.eqb_neq HQ. unfold AddrCallback. apply wp_bind, wp_gets, wp_firmware.
  unfold HAL_I2C_AddrCallback. rewrite Hd, andb_false_r. apply wp_ret, HQ.
Qed.

Lemma wp_note_off isr cr1 flag error next (Q : unit -> board -> Prop) b :
  I2C_CHECK_IT_SOURCE cr1 I2C_IT_ERRI = false -> wp next Q b -> wp (on_slave (note_error isr cr1 flag error);; next) Q b.
Proof.
  intros Hi HQ. destruct b as [d s]. apply wp_bind, wp_modify.
  refine (eq_ind_r (fun s' => wp next Q (Board d s')) HQ _). unfold note_error. by rewrite Hi, andb_false_r.
Qed.

Lemma deaf_event b e : deaf (slave b) -> wp (board_event others e) (fun _ b' => stays_deaf b b') b.
Proof.
  intros [H1 H2 H3 H4]. destruct b as [d s]. cbn in *. destruct (irq_disabled d) eqn:Hirq.
  { unfold board_event. apply wp_bind, wp_gets. cbn. rewrite Hirq. by apply wp_ret. }
  destruct e as [isr|isr|].
  - destruct d, s. cbn in *. subst. destruct XferISR; repeat step; by split.
  - destruct d, s. cbn in *. subst. do 9 step. do 3 (apply wp_note_off; [done|]). step. step.
    match goal with |- wp (when ?c _) _ _ => destruct c end; repeat step; by split.
  - unfold board_event. apply wp_bind, wp_gets. cbn. rewrite Hirq. apply wp_bind, wp_gets, wp_firmware.
    unfold HAL_TIM_PeriodElapsedCallback. destruct (_ =? _); [apply wp_bind, wp_gets, wp_modify|apply wp_ret]; by split.
Qed.

Lemma deaf_run b events : deaf (slave b) -> wp (board_run others events) (fun _ b' => stays_deaf b b') b.
Proof.
  revert b. induction events as [|e rest IH]; intros b Hb; [by apply wp_ret|].
  cbn. apply wp_bind. eapply wp_mono; [by apply deaf_event|]. intros _u b1 [Hb1 Hw1].
  eapply wp_mono; [by apply IH|]. intros _v b2 [Hb2 Hw2]. split; [done|congruence].
Qed.

Lemma halted_run b events : irq_disabled (dev b) = true -> wp (board_run others events) (fun _ b' => b' = b) b.
Proof.
  intros Hb. induction events as [|e rest IH]; [by apply wp_ret|]. cbn. apply wp_bind. unfold board_event.
  apply wp_bind, wp_gets. rewrite Hb. by apply wp_ret.
Qed.

Lemma addressed_for_writing t b isr :
  serves t b -> master t = Free -> shows isr I2C_FLAG_STOPF = false -> shows isr I2C_FLAG_AF = false ->
  shows isr I2C_FLAG_ADDR = true -> I2C_GET_DIR isr <> I2C_DIRECTION_RECEIVE ->
  wp (board_event others (I2C1_EV isr)) (fun _ b' => stays_deaf b b') b.
Proof.
  intros Hs Hm Es Ea Ed Hd. in_constructor_form. cbn in H7. destruct H7 as [[] ?]. cbn in *. subst.
  repeat step; (apply wp_AddrCallback_write; [done|intros ?; repeat step; by split]).
Qed.

End Proofs.

(** ** The events of GpsSimulator

    What the driver makes of an event is at most one of the interrupts of
    GpsSimulator, whose model of the bytes on the wire is thereby sound. *)
Definition callback (t : bus) (e : bus_event) : option interrupt :=
  match e with
  | TIM10_elapsed => Some (TimerElapsed configured_tim)
  | I2C1_ER isr => if some_error isr then Some (I2CError configured_i2c) else None
  | I2C1_EV isr =>
      if shows isr I2C_FLAG_STOPF then Some (ListenCompleted configured_i2c)
      else if shows isr I2C_FLAG_AF then None
      else if shows isr I2C_FLAG_ADDR then
        Some (AddressMatched configured_i2c I2C_DIRECTION_RECEIVE (I2C_GET_ADDR_MATCH isr))
      else if shows isr I2C_FLAG_TXIS && (0 <? remaining t) then Some ByteRequested
      else None
  end.

Fixpoint callbacks (t : bus) (events : list bus_event) : list interrupt :=
  match events with
  | [] => []
  | e :: rest =>
      let more := callbacks (bus_step t e).1 rest in
      match callback t e with Some i => i :: more | None => more end
  end.

Definition agree (t : bus) (u : transmission) : Prop :=
  second t = tick u /\ (0 < remaining t -> remaining t = due u /\ chosen t = selected u).

Lemma callback_step t u e : agree t u ->
  let r := match callback t e with Some i => transmission_step u i | None => (u, []) end in
  agree (bus_step t e).1 r.1 /\ (bus_step t e).2 = r.2.
Proof.
  intros [Ht Hd]. unfold callback, bus_step. destruct e as [isr|isr|].
  - destruct (shows isr I2C_FLAG_STOPF); [split; [split; [done|cbn; lia]|done]|].
    destruct (shows isr I2C_FLAG_AF); [split; [by split|done]|].
    destruct (shows isr I2C_FLAG_ADDR); [split; [by split|done]|].
    destruct (shows isr I2C_FLAG_TXIS); [|split; [by split|done]].
    cbn [andb]. destruct (Z.ltb_spec 0 (remaining t)) as [Hr|Hr]; [|split; [by split|done]].
    destruct (Hd Hr) as [E1 E2]. cbn [transmission_step]. destruct (Z.ltb_spec 0 (due u)); [|lia].
    rewrite <- E1, <- E2. split; [|done]. split; [done|]. cbn. lia.
  - destruct (some_error isr); (split; [split; [done|cbn; first [done|lia]]|done]).
  - cbn. split; [|done]. split; cbn; [by rewrite Ht|done].
Qed.

Lemma callbacks_run t u events : agree t u ->
  let r := transmission_run u (callbacks t events) in
  (bus_run t events).2 = r.2 /\ second (bus_run t events).1 = tick r.1.
Proof.
  revert t u. induction events as [|e rest IH]; intros t u Ha; cbn [bus_run callbacks]; [by destruct Ha|].
  pose proof (callback_step t u e Ha) as [Ha' Hb]. cbv zeta in *.
  destruct (bus_step t e) as [t1 bytes]. cbn [fst snd] in *. destruct (callback t e) as [i|].
  - cbn [transmission_run]. destruct (transmission_step u i) as [u1 bytes']. specialize (IH t1 u1 Ha').
    destruct (bus_run t1 rest) as [t2 more], (transmission_run u1 _) as [u2 more'].
    cbn [fst snd] in *. destruct IH as [-> ->]. by rewrite Hb.
  - specialize (IH t1 u Ha'). destruct (bus_run t1 rest) as [t2 more].
    cbn [fst snd] in *. destruct IH as [IH1 IH2]. by rewrite Hb, <- IH1.
Qed.

(** C17: what the master reads.  From power-on, with whatever the other drivers
    answer at start-up, and for every legal sequence of interrupts (reads cut
    short, repeated starts, bus errors, overruns, ticks at any moment), the bytes
    handed to the transmit register are those of the specification: each
    address match starts the eight bytes of the entry of that second.  The
    routines never run into undefined behaviour, the slave listens again after
    every STOP, and [Error_Handler] is not reached from a callback. *)
Theorem board_serves (others : Hal) (events : list bus_event) : legal free_bus events = true ->
  wp (r ← board_start others; board_run others events;; mret r) (fun r b =>
    match r with
    | Halted => loaded (slave b) = []
    | Listening =>
        let t := (bus_run free_bus events).1 in
        loaded (slave b) = (bus_run free_bus events).2 /\
        current_coordinate (dev b) = second t /\ irq_disabled (dev b) = false /\
        listens (State (slave b)) = true /\ I2C_CHECK_IT_SOURCE (CR1 (slave b)) I2C_IT_ADDRI = true /\
        (master t = Free -> State (slave b) = HAL_I2C_STATE_LISTEN)
    end) power_on.
Proof.
  intros Hl. apply wp_bind. eapply wp_mono; [apply board_started|]. intros [] b [Hw Hb]; cbn in Hb; apply wp_bind.
  - eapply wp_mono; [by apply (events_run others free_bus b)|]. intros _u b' [Hs Hw']. apply wp_ret.
    rewrite Hw in Hw'. destruct Hs as [H1 H2 H3 H4 H5 Hs Ht].
    do 3 (split; [done|]). pose proof (transfer_state _ _ _ Ht) as [[E1 E2]|[E1 E2]]; rewrite E1, E2; split; try done; split; try done.
    intros Hm. unfold transfer in Ht. rewrite Hm in Ht. destruct Ht as [[] _]. congruence.
  - eapply wp_mono; [by apply halted_run|]. intros _u b' ->. by apply wp_ret.
Qed.

(** C30: a write to the board's address deafens it.  When a master addresses the
    board for writing, the driver disables the interrupts of the address phase,
    the callback of main.c starts no transfer, and nothing enables them again:
    whatever interrupts follow, no byte is handed to the transmit register any
    more. *)
Theorem write_address_deafens (others : Hal) (t : bus) (b : board) (isr : Z) (events : list bus_event) :
  serves t b -> master t = Free ->
  shows isr I2C_FLAG_STOPF = false -> shows isr I2C_FLAG_AF = false ->
  shows isr I2C_FLAG_ADDR = true -> I2C_GET_DIR isr <> I2C_DIRECTION_RECEIVE ->
  wp (board_run others (I2C1_EV isr :: events)) (fun _ b' =>
    CR1 (slave b') = I2C_CR1_PE /\ State (slave b') = HAL_I2C_STATE_LISTEN /\ loaded (slave b') = loaded (slave b)) b.
Proof.
  intros Hs Hm Es Ea Ed Hd. cbn. apply wp_bind. eapply wp_mono; [by apply (addressed_for_writing others t b isr)|].
  intros _u b1 [Hb1 Hw1]. eapply wp_mono; [by apply deaf_run|]. intros _v b2 [[] Hw2]. split; [done|]. split; [done|congruence].
Qed.

(** C27: the firmware's model is sound for the driver.  Over every legal sequence
    of events the bytes the board hands to the transmit register, and the
    number of the second, are those of GpsSimulator, whose driver accepts every
    transmission and listens at once, for the callbacks the events cause. *)
Theorem board_refines_firmware (others : Hal) (events : list bus_event) : legal free_bus events = true ->
  wp (r ← board_start others; board_run others events;; mret r) (fun r b =>
    r = Listening ->
    wp (@handle_all obliging (callbacks free_bus events)) (fun _ d =>
      wire d = loaded (slave b) /\ current_coordinate d = current_coordinate (dev b)) started) power_on.
Proof.
  intros Hl. apply wp_bind. eapply wp_mono; [apply board_started|]. intros [] b [Hw Hb]; cbn in Hb; apply wp_bind.
  - eapply wp_mono; [by apply (events_run others free_bus b)|]. intros _u b' [Hs Hw']. apply wp_ret. intros _.
    destruct (callbacks_run free_bus (Transmission 0 0 0) events) as [E1 E2]; [by split|].
    eapply wp_mono.
    + apply (handle_all_spec (H := obliging) ltac:(done) ltac:(done) _ (Transmission 0 0 0)). constructor; done.
    + intros _v d [[H1 _ _ _ _ _] H2]. rewrite H1, H2, <- E1, <- E2, Hw', Hw, (sv_second _ _ Hs). by split.
  - eapply wp_mono; [by apply halted_run|]. intros _u b' ->. by apply wp_ret.
Qed.
