(* ===== verification/HalI2cExample.v ===== *)
(** HalI2cExample: the board on concrete sequences of interrupts. *)

From S2P Require Import Prelude Machine Ieee GpsSimulator HalI2c HalI2cProofs.

(** The other drivers succeed. *)
Definition fine : Hal := fun _ _ => HAL_OK.

Definition board_after (events : list bus_event) : board :=
  match (board_start fine;; board_run fine events) power_on with Ret (_, b) => b | _ => power_on end.

(** The flags at an interrupt; the master reads, so DIR is set. *)
Definition matched : bus_event := I2C1_EV (I2C_ISR_DIR + I2C_FLAG_ADDR).
Definition wanted : bus_event := I2C1_EV (I2C_ISR_DIR + I2C_FLAG_TXE + I2C_FLAG_TXIS).
Definition nack : bus_event := I2C1_EV (I2C_ISR_DIR + I2C_FLAG_AF).
Definition stop : bus_event := I2C1_EV (I2C_ISR_DIR + I2C_FLAG_STOPF).
Definition nack_and_stop : bus_event := I2C1_EV (I2C_ISR_DIR + I2C_FLAG_AF + I2C_FLAG_STOPF).
Definition bus_error : bus_event := I2C1_ER (I2C_ISR_DIR + I2C_FLAG_BERR).

(** Two seconds pass; a complete read, during which another second begins, ends
    with one request too many; a read cut short after three bytes; one that a
    bus error breaks off; two reads without a STOP between them. *)
Definition busy_bus : list bus_event :=
  [TIM10_elapsed; TIM10_elapsed;
   matched; wanted; wanted; wanted; TIM10_elapsed; wanted; wanted; wanted; wanted; wanted; wanted; nack; stop;
   matched; wanted; wanted; wanted; nack_and_stop;
   matched; wanted; bus_error; wanted; stop;
   matched; wanted; wanted; nack; matched; wanted; nack; stop].

Example busy_bus_legal : legal free_bus busy_bus = true.
Proof. vm_compute. reflexivity. Qed.

Example busy_bus_bytes : loaded (slave (board_after busy_bus)) =
  let c := encode_coordinate (at_thousandths 11200 11350) in
  encode_coordinate (at_thousandths 10550 10600) ++ take 3 c ++ take 1 c ++ take 2 c ++ take 1 c.
Proof. vm_compute. reflexivity. Qed.

(** The events GpsSimulator sees of the first complete read. *)
Example read_callbacks : callbacks free_bus [TIM10_elapsed; matched; wanted; nack; stop] =
  [TimerElapsed configured_tim; AddressMatched configured_i2c I2C_DIRECTION_RECEIVE 0; ByteRequested;
   ListenCompleted configured_i2c].
Proof. vm_compute. reflexivity. Qed.

(** A scan of the bus that probes the address with a write ends all service. *)
Definition write_probe : Z := I2C_FLAG_ADDR.

Example probed_board : loaded (slave (board_after [I2C1_EV write_probe; stop; matched; wanted; wanted])) = [] /\
  CR1 (slave (board_after [I2C1_EV write_probe; stop; matched; wanted; wanted])) = I2C_CR1_PE.
Proof. vm_compute. by split. Qed.

(** A clock of the peripheral that cannot be configured: [HAL_I2C_MspInit] ends
    in [Error_Handler], before a register of the peripheral is written. *)
Definition no_i2c_clock : Hal := fun _ c =>
  match c with GpsSimulator.HAL_I2C_Init _ => HAL_ERROR | _ => HAL_OK end.

Example i2c_clock_fails :
  match board_start no_i2c_clock power_on with
  | Ret (r, b) => r = Halted /\ irq_disabled (dev b) = true /\ State (slave b) = HAL_I2C_STATE_RESET /\
      CR1 (slave b) = 0 /\ OAR1 (slave b) = 0
  | _ => False
  end.
Proof. vm_compute. by repeat split. Qed.

Lemma board_serves_witness : legal free_bus busy_bus = true /\
  wp (r ← board_start fine; board_run fine busy_bus;; mret r) (fun r b =>
    match r with
    | Halted => loaded (slave b) = []
    | Listening =>
        let t := (bus_run free_bus busy_bus).1 in
        loaded (slave b) = (bus_run free_bus busy_bus).2 /\
        current_coordinate (dev b) = second t /\ irq_disabled (dev b) = false /\
        listens (State (slave b)) = true /\ I2C_CHECK_IT_SOURCE (CR1 (slave b)) I2C_IT_ADDRI = true /\
        (master t = Free -> State (slave b) = HAL_I2C_STATE_LISTEN)
    end) power_on.
Proof. split; [reflexivity|]. refine (@board_serves fine busy_bus _). reflexivity. Defined.

Lemma board_refines_firmware_witness : legal free_bus busy_bus = true /\
  wp (r ← board_start fine; board_run fine busy_bus;; mret r) (fun r b =>
    r = Listening ->
    wp (@handle_all obliging (callbacks free_bus busy_bus)) (fun _ d =>
      wire d = loaded (slave b) /\ current_coordinate d = current_coordinate (dev b)) started) power_on.
Proof. split; [reflexivity|]. refine (@board_refines_firmware fine busy_bus _). reflexivity. Defined.

Lemma write_address_deafens_witness :
  wp (board_run fine (I2C1_EV write_probe :: busy_bus)) (fun _ b' =>
    CR1 (slave b') = I2C_CR1_PE /\ State (slave b') = HAL_I2C_STATE_LISTEN /\
    loaded (slave b') = loaded (slave (board_after []))) (board_after []).
Proof.
  refine (@write_address_deafens fine free_bus (board_after []) write_probe busy_bus _ _ _ _ _ _); [|by vm_compute..].
  constructor; [reflexivity|by vm_compute|by vm_compute|reflexivity|reflexivity| |by vm_compute].
  constructor; [reflexivity|reflexivity|reflexivity|by vm_compute].
Defined.
