(* ===== verification/BbgClient.v ===== *)
(** BbgClient (src/BbgClient): the client that runs on the BeagleBone Green.
    One process reads coordinates over I2C and writes parking requests to a
    pipe; the other sends them to the TcpServer, one connection each. *)

From S2P Require Import Prelude Machine CLib Ieee Posix Config Logger IpcProtocol.

Definition BBG_CLIENT_IPV4_ADDRESS_SIZE : nat := 16.
Definition BBG_CLIENT_FILE_PATH_SIZE : nat := 256.
Definition STM32_I2C_DEVICE_PATH : list byte := bs "/dev/i2c-2".
Definition STM32_I2C_ADDRESS : Z := 0x42.
Definition PIPE_READ_END : nat := 0.
Definition PIPE_WRITE_END : nat := 1.

(** On the BeagleBone's 32-bit ARM a [long] has 32 bits. *)
Definition BBG_LONG_BITS : Z := 32.

(** The coordinates received from the STM32. *)
Record gps_coordinate_t := GpsCoordinate {
  latitude : float;
  longitude : float;
}.
Definition sizeof_gps_coordinate : Z := 8.
Definition decode_gps_coordinate (b : list byte) : gps_coordinate_t := {|
  latitude := float_of_bits (le_val (bytes_at b 0 4));
  longitude := float_of_bits (le_val (bytes_at b 4 4));
|}.

(** The arrays are buffers, with all their bytes. *)
Record bbg_client_config_t := BbgClientConfig {
  server_address : list byte;
  server_port : Z;
  tcp_log_file : list byte;
  i2c_log_file : list byte;
  console_logging : Z;
}.

(** A process: the static variables, the logger and the system. *)
Record bbg_process := BbgProcess {
  bbg_config : bbg_client_config_t;
  current_event : Z;
  request_id : Z;
  bbg_log_fd : Z;
  bbg_console : Z;
  bbg_world : world;
}.

#[export] Instance bbg_process_fields : Fields bbg_process := fun s =>
  BbgProcess (bbg_config s) (current_event s) (request_id s) (bbg_log_fd s) (bbg_console s) (bbg_world s).

Definition zero_config : bbg_client_config_t :=
  BbgClientConfig (replicate BBG_CLIENT_IPV4_ADDRESS_SIZE NUL) 0 (replicate BBG_CLIENT_FILE_PATH_SIZE NUL)
    (replicate BBG_CLIENT_FILE_PATH_SIZE NUL) 0.
Definition bbg_start : bbg_process := BbgProcess zero_config 0 1 (-1) 0 [].

(** ** The test events *)
Record test_event_t := TestEvent {
  action : Z;
  vehicle_number : list byte;
  event_latitude : double;
  event_longitude : double;
  delay_seconds : Z;
}.

Definition event (action : Z) (vehicle : string) (delay : Z) : test_event_t :=
  TestEvent action (bs vehicle) double_zero double_zero delay.

Definition test_events : list test_event_t := [
  event START_PARKING "12-345-67" 5;
  event START_PARKING "98-765-43" 4;
  event START_PARKING "11-222-33" 3;
  event START_PARKING "44-111-22" 2;
  event START_PARKING "55-222-33" 3;
  event START_PARKING "66-333-44" 4;

  event END_PARKING "98-765-43" 2;
  event END_PARKING "12-345-67" 2;

  event START_PARKING "77-444-55" 3;
  event START_PARKING "88-555-66" 2;

  event END_PARKING "11-222-33" 2;
  event END_PARKING "44-111-22" 2;

  event START_PARKING "99-666-77" 3;
  event START_PARKING "21-111-11" 2;
  event START_PARKING "22-222-22" 3;
  event START_PARKING "23-333-33" 4;

  event END_PARKING "55-222-33" 2;
  event END_PARKING "66-333-44" 2;
  event END_PARKING "77-444-55" 2;
  event END_PARKING "88-555-66" 2;
  event END_PARKING "99-666-77" 2;
  event END_PARKING "21-111-11" 2;
  event END_PARKING "22-222-22" 2;
  event END_PARKING "23-333-33" 2
].

Definition TEST_EVENTS_COUNT : Z := Z.of_nat (length test_events).

Section Client.
Context `{Environment}.

Definition in_world {A} (m : M world A) : M bbg_process A :=
  zoom bbg_world (fun w s => s <| bbg_world := w |>) m.
Definition in_logger {A} (m : M logger A) : M bbg_process A :=
  zoom (fun s => LoggerState (bbg_log_fd s) (bbg_console s) (bbg_world s))
       (fun l s => s <| bbg_log_fd := log_fd l |> <| bbg_console := console_output_enabled l |>
                     <| bbg_world := logger_world l |>) m.
Definition log_info (f : string) : M bbg_process unit := in_world (LOG_INFO f).
Definition log_error (f : string) : M bbg_process unit := in_world (LOG_ERROR f).
Definition call (c : syscall) : M bbg_process Z := in_world (sysr c).
Definition call_ (c : syscall) : M bbg_process unit := in_world (sys_ c).

(** [fprintf(stderr, ...)] of a text, and of a text with one string. *)
Definition complain (text : list byte) : M bbg_process unit := call_ (sys_write STDERR_FILENO text).

(** ** I2C *)
Definition i2c_open_stm32 : M bbg_process Z :=
  i2c_fd ← call (sys_open STM32_I2C_DEVICE_PATH false);
  if i2c_fd =? -1 then log_error "Failed to open I2C device %s.";; mret (-1)
  else
    result ← call (sys_ioctl i2c_fd STM32_I2C_ADDRESS);
    if result =? -1 then
      log_error "Failed to select STM32 I2C slave address 0x%02X.";;
      call_ (sys_close i2c_fd);;
      mret (-1)
    else
      log_info "STM32 I2C slave 0x%02X selected on %s.";;
      mret i2c_fd.

(** The coordinate, or [None] for the result -1. *)
Definition i2c_read_coordinates (i2c_fd : Z) : M bbg_process (option gps_coordinate_t) :=
  a ← in_world (sys (sys_read i2c_fd sizeof_gps_coordinate));
  if ans_ret a =? -1 then log_error "Failed to read GPS coordinates from STM32.";; mret None
  else if negb (ans_ret a =? sizeof_gps_coordinate) then
    log_error "Incomplete GPS coordinate packet received.";; mret None
  else
    log_info "GPS coordinates received: latitude %.6f, longitude %.6f.";;
    mret (Some (decode_gps_coordinate (ans_data a))).

(** ** TCP *)
Definition bbg_client_connect : M bbg_process Z :=
  socket_fd ← call sys_socket;
  if socket_fd =? -1 then log_error "Failed to create TCP socket.";; mret (-1)
  else
    config ← gets bbg_config;
    address ← from_option_undef (cstr_of_buf (server_address config));
    result ← call (sys_inet_pton address);
    if negb (result =? 1) then
      log_error "Invalid TCP server IPv4 address.";;
      call_ (sys_close socket_fd);;
      mret (-1)
    else
      result ← call (sys_connect socket_fd (server_port config));
      if result =? -1 then
        log_error "Failed to connect to TCP server.";;
        call_ (sys_close socket_fd);;
        mret (-1)
      else
        log_info "Connected to TCP server.";;
        mret socket_fd.

Definition bbg_client_disconnect (socket_fd : Z) : M bbg_process unit :=
  if negb (socket_fd =? -1) then
    call_ (sys_close socket_fd);;
    log_info "Disconnected from TCP server."
  else mret tt.

Definition ipc_status_to_string (status : Z) : string :=
  if status =? IPC_STATUS_SUCCESS then "SUCCESS"
  else if status =? IPC_STATUS_INVALID_REQUEST then "INVALID_REQUEST"
  else if status =? IPC_STATUS_VEHICLE_NOT_FOUND then "VEHICLE_NOT_FOUND"
  else if status =? IPC_STATUS_DATABASE_ERROR then "DATABASE_ERROR"
  else if status =? IPC_STATUS_INTERNAL_ERROR then "INTERNAL_ERROR"
  else "UNKNOWN_STATUS".

(** The report on a response; ["%s"] reads the vehicle number up to its NUL. *)
Definition report_response (request : tcp_to_database_message_t) (response : database_to_tcp_message_t)
    : M bbg_process unit :=
  if rq_action request =? START_PARKING then
    from_option_undef (cstr_of_buf (rs_vehicle_number response));;
    log_info "START_PARKING response received. Request ID: %llu, vehicle: %s, status: %s."
  else if rq_action request =? END_PARKING then
    from_option_undef (cstr_of_buf (rs_vehicle_number response));;
    log_info "END_PARKING response received. Request ID: %llu, vehicle: %s, status: %s, duration: %lld seconds, cost: %.2f."
  else log_error "Unknown response action received. Request ID: %llu.".

(** A whole request read from the pipe: the rest of the loop's body. *)
Definition forward_request (bytes : list byte) : M bbg_process unit :=
  log_info "Request %llu received from I2C process.";;
  socket_fd ← bbg_client_connect;
  if socket_fd =? -1 then log_error "Failed to connect to TCP server."
  else
    sent ← call (sys_send socket_fd bytes false);
    if negb (sent =? sizeof_request) then
      log_error "Failed to send request %llu.";;
      bbg_client_disconnect socket_fd
    else
      a ← in_world (sys (sys_recv socket_fd sizeof_response));
      if negb (ans_ret a =? sizeof_response) then
        log_error "Failed to receive response for request %llu.";;
        bbg_client_disconnect socket_fd
      else
        report_response (decode_request bytes) (decode_response (ans_data a));;
        bbg_client_disconnect socket_fd.

Fixpoint tcp_process_loop (fuel : nat) (pipe_read_fd : Z) : M bbg_process unit :=
  match fuel with
  | O => out_of_fuel
  | S fuel =>
      a ← in_world (sys (sys_read pipe_read_fd sizeof_request));
      if ans_ret a =? 0 then log_info "I2C process closed the pipe."
      else if ans_ret a =? -1 then
        if ans_errno a =? EINTR then tcp_process_loop fuel pipe_read_fd
        else log_error "Failed to read request from pipe."
      else if negb (ans_ret a =? sizeof_request) then log_error "Incomplete request received from pipe."
      else forward_request (ans_data a);; tcp_process_loop fuel pipe_read_fd
  end.

Definition tcp_process_run (fuel : nat) (pipe_read_fd : Z) : M bbg_process Z :=
  config ← gets bbg_config;
  path ← from_option_undef (cstr_of_buf (tcp_log_file config));
  result ← in_logger (logger_init (Some path) (console_logging config));
  if negb (result =? 0) then
    complain (bs "Failed to initialize TCP logger." ++ [Byte.x0a]);;
    call_ (sys_close pipe_read_fd);;
    mret (-1)
  else
    log_info "TCP process started.";;
    tcp_process_loop fuel pipe_read_fd;;
    log_info "TCP process stopped.";;
    in_logger logger_close;;
    call_ (sys_close pipe_read_fd);;
    mret 0.

(** ** The I2C process *)
Definition generate_test_message (pipe_write_fd i2c_fd : Z) : M bbg_process Z :=
  current ← gets current_event;
  if TEST_EVENTS_COUNT <=? current then mret (-1)
  else
    event ← from_option_undef (test_events !! Z.to_nat current);
    id ← gets request_id;
    modify (fun s => s <| request_id := u64 (id + 1) |>);;
    let vehicle := copy_cstr VEHICLE_NUMBER_SIZE (vehicle_number event) in
    coordinate ← i2c_read_coordinates i2c_fd;
    match coordinate with
    | None => mret (-1)
    | Some coordinate =>
        let message start stop :=
          TcpToDatabase id (action event) vehicle (double_of_float (latitude coordinate))
            (double_of_float (longitude coordinate)) start stop in
        message ← (if action event =? START_PARKING then
                     now ← call sys_time; mret (Some (message (s64 now) 0))
                   else if action event =? END_PARKING then
                     now ← call sys_time; mret (Some (message 0 (s64 now)))
                   else log_error "Invalid test parking action.";; mret None);
        match message with
        | None => mret (-1)
        | Some message =>
            written ← call (sys_write pipe_write_fd (encode_request message));
            if negb (written =? sizeof_request) then
              log_error "Failed to write test message to pipe.";; mret (-1)
            else
              log_info "Generated %s request %llu for vehicle %s.";;
              call_ (sys_sleep (1000 * delay_seconds event));;
              modify (fun s => s <| current_event := (current + 1) `mod` TEST_EVENTS_COUNT |>);;
              mret 0
        end
    end.

(** [n] turns of the loop; [false] when a message failed and the loop is left. *)
Fixpoint generate_messages (n : nat) (pipe_write_fd i2c_fd : Z) : M bbg_process bool :=
  match n with
  | O => mret true
  | S n =>
      result ← generate_test_message pipe_write_fd i2c_fd;
      if negb (result =? 0) then mret false
      else call_ (sys_sleep 1000);; generate_messages n pipe_write_fd i2c_fd
  end.

Definition i2c_process_run (fuel : nat) (pipe_write_fd : Z) : M bbg_process Z :=
  config ← gets bbg_config;
  path ← from_option_undef (cstr_of_buf (i2c_log_file config));
  result ← in_logger (logger_init (Some path) (console_logging config));
  if negb (result =? 0) then
    complain (bs "Failed to initialize I2C logger." ++ [Byte.x0a]);;
    call_ (sys_close pipe_write_fd);;
    mret (-1)
  else
    log_info "I2C process started.";;
    i2c_fd ← i2c_open_stm32;
    if i2c_fd =? -1 then
      log_error "Failed to initialize STM32 I2C communication.";;
      in_logger logger_close;;
      call_ (sys_close pipe_write_fd);;
      mret (-1)
    else
      running ← generate_messages fuel pipe_write_fd i2c_fd;
      if (running : bool) then out_of_fuel
      else
        log_info "I2C process stopped.";;
        call_ (sys_close i2c_fd);;
        in_logger logger_close;;
        call_ (sys_close pipe_write_fd);;
        mret 0.
End Client.

(** ** Configuration and start *)
Definition load_bbg_client_configuration (config : option config_t) : option bbg_client_config_t :=
  match config with
  | None => None
  | Some _ =>
      let text key unset := default (bs unset) (config_get_string config (Some (bs key)) (Some (bs unset))) in
      let number key unset := config_get_int BBG_LONG_BITS config (Some (bs key)) unset in
      Some (BbgClientConfig
        (copy_cstr BBG_CLIENT_IPV4_ADDRESS_SIZE (text "server_address" "127.0.0.1"))
        (wrap_u 16 (number "server_port" 5000))
        (copy_cstr BBG_CLIENT_FILE_PATH_SIZE (text "tcp_log_file" "../Logs/bbg_tcp.log"))
        (copy_cstr BBG_CLIENT_FILE_PATH_SIZE (text "i2c_log_file" "../Logs/bbg_i2c.log"))
        (number "console_logging" 1))
  end.

(** The descriptors [pipe] stores. *)
Definition pipe_end (a : answer) (i : nat) : Z := s32 (le_val (bytes_at (ans_data a) (4 * i) 4)).

Section Run.
Context `{Environment}.

(** After [fork] this is the run of one of the two processes. *)
Definition bbg_client_run (fuel : nat) (config_file_path : option (list byte)) : M bbg_process Z :=
  match config_file_path with
  | None => complain (bs "BBG client configuration file path is NULL." ++ [Byte.x0a]);; mret (-1)
  | Some path =>
      '(result, config) ← in_world (config_load (Some (Config [])) (Some path));
      if negb (result =? 0) then
        complain (bs "Failed to load BBG client configuration: " ++ path ++ [Byte.x0a]);; mret (-1)
      else
        match load_bbg_client_configuration config with
        | None => complain (bs "Failed to read BBG client configuration." ++ [Byte.x0a]);; mret (-1)
        | Some c =>
            modify (fun s => s <| bbg_config := c |>);;
            pipe ← in_world (sys sys_pipe);
            if ans_ret pipe =? -1 then complain (bs "Failed to create pipe." ++ [Byte.x0a]);; mret (-1)
            else
              process_id ← call sys_fork;
              if process_id =? -1 then
                complain (bs "Failed to create child process." ++ [Byte.x0a]);;
                call_ (sys_close (pipe_end pipe PIPE_READ_END));;
                call_ (sys_close (pipe_end pipe PIPE_WRITE_END));;
                mret (-1)
              else if process_id =? 0 then
                call_ (sys_close (pipe_end pipe PIPE_READ_END));;
                i2c_process_run fuel (pipe_end pipe PIPE_WRITE_END)
              else
                call_ (sys_close (pipe_end pipe PIPE_WRITE_END));;
                tcp_process_run fuel (pipe_end pipe PIPE_READ_END)
        end
  end.

(** BbgClient/Test/main.c *)
Definition main (fuel : nat) : M bbg_process Z := bbg_client_run fuel (Some (bs "Config/bbg_client.conf")).
End Run.
