(* ===== verification/BbgProofs.v ===== *)
(** BbgProofs: the client's requests (which cities their coordinates are in,
    that its cycle of events never parks a parked vehicle, how requests are
    numbered) and the descriptors of its two processes. *)

From S2P Require Import Prelude Machine CLib Ieee Posix Config Logger IpcProtocol.
From S2P Require Import Sqlite SqliteRules.
From S2P Require GpsSimulator.
From S2P Require Import BbgClient.

(** ** Coordinates *)

(** The coordinate the client decodes from the bytes the firmware sends. *)
Definition received_coordinate (c : GpsSimulator.gps_coordinate_t) : gps_coordinate_t :=
  GpsCoordinate (GpsSimulator.latitude c) (GpsSimulator.longitude c).

Lemma coordinates_valid : Forall (fun c => valid_float (GpsSimulator.latitude c) = true /\
  valid_float (GpsSimulator.longitude c) = true) GpsSimulator.gps_coordinates.
Proof. repeat constructor. Qed.

Lemma float_image x : valid_float x = true -> float_of_bits (le_val (le_bytes 4 (float_bits x))) = x.
Proof. intros Hx. destruct (float_of_bits_bits x Hx). by rewrite le_val_bytes_32. Qed.

Lemma decode_sent_coordinate c : c ∈ GpsSimulator.gps_coordinates ->
  decode_gps_coordinate (GpsSimulator.encode_coordinate c) = received_coordinate c.
Proof.
  intros Hc. destruct (proj1 (Forall_forall _ _) coordinates_valid c Hc) as [H1 H2].
  unfold decode_gps_coordinate, GpsSimulator.encode_coordinate, received_coordinate.
  rewrite bytes_at_here by apply length_le_bytes. rewrite bytes_at_skip by (rewrite length_le_bytes; lia).
  rewrite length_le_bytes, bytes_at_end by apply length_le_bytes. by rewrite !float_image.
Qed.

(** The city of entry [i]: six for each city, in the order of the cities. *)
Definition city_of_entry (i : nat) : Z := Z.of_nat (i / 6) + 1.

Definition in_city (k : Z) (c : gps_coordinate_t) : bool :=
  match initial_cities !! k with
  | Some city => city_contains city (double_of_float (latitude c)) (double_of_float (longitude c))
  | None => false
  end.

Lemma entries_in_cities : forallb (fun p => forallb (fun k =>
    eqb (in_city k (received_coordinate p.2)) (k =? city_of_entry p.1)) [1; 2; 3])
  (imap pair GpsSimulator.gps_coordinates) = true.
Proof. vm_compute. reflexivity. Qed.

Lemma initial_city_keys k city : initial_cities !! k = Some city -> k ∈ [1; 2; 3].
Proof.
  unfold initial_cities. rewrite !lookup_insert_Some. intros Hk.
  destruct Hk as [[<- _]|[_ [[<- _]|[_ [[<- _]|[_ Hk]]]]]]; [set_solver..|done].
Qed.

(** Every coordinate of the simulator is in exactly one of the cities the
    database starts with, after the conversions on its way: stored as [float],
    sent as bytes, decoded by the client, widened to [double] and compared with
    the bounds of the cities. *)
Theorem coordinates_have_one_city (i : nat) (c : GpsSimulator.gps_coordinate_t) (k : Z) (city : parking_city) :
  GpsSimulator.gps_coordinates !! i = Some c -> initial_cities !! k = Some city ->
  let r := decode_gps_coordinate (GpsSimulator.encode_coordinate c) in
  city_contains city (double_of_float (latitude r)) (double_of_float (longitude r)) = (k =? city_of_entry i).
Proof.
  intros Hc Hk. cbn zeta. rewrite decode_sent_coordinate by by eapply list_elem_of_lookup_2.
  pose proof (proj1 (forallb_forall _ _) entries_in_cities (i, c)) as Hall. cbn [fst snd] in Hall.
  assert (In (i, c) (imap pair GpsSimulator.gps_coordinates)) as Hin.
  { apply list_elem_of_In, list_elem_of_lookup. exists i. by rewrite list_lookup_imap, Hc. }
  specialize (Hall Hin). pose proof (proj1 (forallb_forall _ _) Hall k) as Hcity.
  specialize (Hcity (proj1 (list_elem_of_In _ _) (initial_city_keys _ _ Hk))).
  apply eqb_prop in Hcity. rewrite <- Hcity. unfold in_city. by rewrite Hk.
Qed.

Lemma coordinates_have_one_city_witness :
  let r := decode_gps_coordinate (GpsSimulator.encode_coordinate (GpsSimulator.at_thousandths 39100 39300)) in
  city_contains (City (bs "Jerusalem") (double_lit 300 10) (double_lit 399 10) (double_lit 300 10) (double_lit 399 10) (double_lit 60 100))
    (double_of_float (latitude r)) (double_of_float (longitude r)) = (3 =? city_of_entry 17).
Proof. apply (coordinates_have_one_city 17 _ 3 _); reflexivity. Defined.

(** ** The cycle of events *)

(** The vehicles parked after one more event; [None] if it starts the parking
    of a parked vehicle or ends that of one that is not. *)
Definition drive (parked : list (list byte)) (e : Z * list byte) : option (list (list byte)) :=
  if e.1 =? START_PARKING then
    if bool_decide (e.2 ∈ parked) then None else Some (parked ++ [e.2])
  else if e.1 =? END_PARKING then
    if bool_decide (e.2 ∈ parked) then Some (filter (fun v => v <> e.2) parked) else None
  else None.

Fixpoint drive_all (parked : list (list byte)) (es : list (Z * list byte)) : option (list (list byte)) :=
  match es with
  | [] => Some parked
  | e :: es => match drive parked e with Some parked => drive_all parked es | None => None end
  end.

Lemma drive_all_app parked es es' :
  drive_all parked (es ++ es') = match drive_all parked es with Some p => drive_all p es' | None => None end.
Proof. revert parked. induction es as [|e es IH]; intros parked; cbn; [done|]. by destruct (drive parked e). Qed.

Definition plain_event (e : test_event_t) : Z * list byte := (action e, vehicle_number e).

(** The vehicles parked when event [j] of the cycle is due. *)
Definition parked_before (j : Z) : list (list byte) :=
  default [] (drive_all [] (plain_event <$> take (Z.to_nat j) test_events)).

Lemma cycle_step j e : 0 <= j < TEST_EVENTS_COUNT -> test_events !! Z.to_nat j = Some e ->
  drive (parked_before j) (plain_event e) = Some (parked_before ((j + 1) `mod` TEST_EVENTS_COUNT)).
Proof.
  assert (Forall (fun j => match test_events !! j with
    | Some e => bool_decide (drive (parked_before (Z.of_nat j)) (plain_event e) =
        Some (parked_before ((Z.of_nat j + 1) `mod` TEST_EVENTS_COUNT))) = true
    | None => True end) (seq 0 24)) as Hall by (repeat (constructor; [vm_compute; reflexivity|]); constructor).
  intros Hj He. change TEST_EVENTS_COUNT with 24 in Hj.
  apply (proj1 (Forall_forall _ _)) with (x := Z.to_nat j) in Hall; [|apply elem_of_seq; lia].
  rewrite He, Z2Nat.id in Hall by lia. by apply bool_decide_eq_true in Hall.
Qed.

(** ** The requests written to the pipe *)
Definition event_request (e : test_event_t) (id : Z) (c : gps_coordinate_t) (now : Z) : tcp_to_database_message_t :=
  TcpToDatabase id (action e) (copy_cstr VEHICLE_NUMBER_SIZE (vehicle_number e))
    (double_of_float (latitude c)) (double_of_float (longitude c))
    (if action e =? START_PARKING then s64 now else 0) (if action e =? START_PARKING then 0 else s64 now).

(** Whole messages written to a descriptor, and coordinates read from one. *)
Fixpoint messages_written (fd : Z) (w : world) : list (list byte) :=
  match w with
  | [] => []
  | (sys_write fd' data, a) :: w =>
      messages_written fd w ++ (if (fd' =? fd) && (ans_ret a =? sizeof_request) then [data] else [])
  | _ :: w => messages_written fd w
  end.

Fixpoint coordinates_read (fd : Z) (w : world) : list gps_coordinate_t :=
  match w with
  | [] => []
  | (sys_read fd' _, a) :: w =>
      coordinates_read fd w ++
      (if (fd' =? fd) && (ans_ret a =? sizeof_gps_coordinate) then [decode_gps_coordinate (ans_data a)] else [])
  | _ :: w => coordinates_read fd w
  end.

(** The answers of the clock, as the client stores them. *)
Fixpoint times_read (w : world) : list Z :=
  match w with
  | [] => []
  | (sys_time, a) :: w => times_read w ++ [s64 (ans_ret a)]
  | _ :: w => times_read w
  end.

(** The time a request speaks of. *)
Definition request_time (rq : tcp_to_database_message_t) : Z :=
  if rq_action rq =? START_PARKING then rq_parking_start_time rq else rq_parking_end_time rq.

(** One event's turn, and [n] of them. *)
Record generated (pipe i2c : Z) (alive : bool) (s : bbg_process) (rqs : list tcp_to_database_message_t) (s' : bbg_process) : Prop := {
  gn_config : bbg_config s' = bbg_config s;
  gn_event : current_event s' = (current_event s + Z.of_nat (length rqs)) `mod` TEST_EVENTS_COUNT;
  gn_written : messages_written pipe (bbg_world s') = messages_written pipe (bbg_world s) ++ (encode_request <$> rqs);
  gn_read : exists cs, coordinates_read i2c (bbg_world s') = coordinates_read i2c (bbg_world s) ++ cs /\
    Forall (fun rq => exists e c now, e ∈ test_events /\ c ∈ cs /\ rq = event_request e (rq_request_id rq) c now) rqs;
  gn_ids : forall k rq, rqs !! k = Some rq -> rq_request_id rq = u64 (request_id s + Z.of_nat k);
  gn_drive : drive_all (parked_before (current_event s)) ((fun rq => (rq_action rq, until_nul (rq_vehicle_number rq))) <$> rqs) =
    Some (parked_before (current_event s'));
  gn_times : exists unused, times_read (bbg_world s') = times_read (bbg_world s) ++ (request_time <$> rqs) ++ unused /\
    (alive = true -> unused = []);
  gn_next : alive = true -> request_id s' = u64 (request_id s + Z.of_nat (length rqs));
}.

Section Generation.
Context `{Environment}.
Implicit Types s : bbg_process.

Lemma wp_bbg_sys c (Q : answer -> bbg_process -> Prop) s :
  Q (respond (bbg_world s) c) (s <| bbg_world := (c, respond (bbg_world s) c) :: bbg_world s |>) ->
  wp (in_world (sys c)) Q s.
Proof. intros HQ. by apply (wp_zoom bbg_world (fun w s => s <| bbg_world := w |>)), wp_sys. Qed.

Lemma wp_bbg_call c (Q : Z -> bbg_process -> Prop) s :
  Q (ans_ret (respond (bbg_world s) c)) (s <| bbg_world := (c, respond (bbg_world s) c) :: bbg_world s |>) ->
  wp (call c) Q s.
Proof. intros HQ. by apply (wp_zoom bbg_world (fun w s => s <| bbg_world := w |>)), wp_sysr. Qed.

Lemma wp_bbg_call_ c (Q : unit -> bbg_process -> Prop) s :
  Q tt (s <| bbg_world := (c, respond (bbg_world s) c) :: bbg_world s |>) -> wp (call_ c) Q s.
Proof. intros HQ. by apply (wp_zoom bbg_world (fun w s => s <| bbg_world := w |>)), wp_sys_. Qed.

Lemma wp_bbg_log l f (Q : unit -> bbg_process -> Prop) s :
  Q tt (s <| bbg_world := (sys_log l f, respond (bbg_world s) (sys_log l f)) :: bbg_world s |>) ->
  wp (in_world (sys_ (sys_log l f))) Q s.
Proof. intros HQ. by apply (wp_zoom bbg_world (fun w s => s <| bbg_world := w |>)), wp_sys_. Qed.

Lemma read_coordinates_spec i2c s : wp (i2c_read_coordinates i2c) (fun r s' => exists w, s' = s <| bbg_world := w |> /\
  (forall pipe, messages_written pipe w = messages_written pipe (bbg_world s)) /\
  times_read w = times_read (bbg_world s) /\
  coordinates_read i2c w = coordinates_read i2c (bbg_world s) ++ option_list r) s.
Proof.
  unfold i2c_read_coordinates. apply wp_bind, wp_bbg_sys.
  destruct (Z.eqb_spec (ans_ret (respond (bbg_world s) (sys_read i2c sizeof_gps_coordinate))) (-1)) as [E|E];
    [|destruct (Z.eqb_spec (ans_ret (respond (bbg_world s) (sys_read i2c sizeof_gps_coordinate))) sizeof_gps_coordinate) as [E1|E1]];
    cbn [negb]; apply wp_bind, wp_bbg_log, wp_ret; eexists; (split; [reflexivity|]); (split; [done|]); (split; [done|]);
    cbn [coordinates_read option_list bbg_world set_field bbg_process_fields]; rewrite Z.eqb_refl; cbn [andb].
  - rewrite E. done.
  - by rewrite E1, Z.eqb_refl.
  - by rewrite (proj2 (Z.eqb_neq _ _) E1).
Qed.
End Generation.

Lemma event_vehicles e : e ∈ test_events ->
  (action e = START_PARKING \/ action e = END_PARKING) /\ no_nul (vehicle_number e) /\ (length (vehicle_number e) = 9)%nat.
Proof.
  assert (forallb (fun e => ((action e =? START_PARKING) || (action e =? END_PARKING)) &&
    bool_decide (NUL ∉ vehicle_number e) && (length (vehicle_number e) =? 9)%nat) test_events = true) as Hall
    by (vm_compute; reflexivity).
  intros He. pose proof (proj1 (forallb_forall _ _) Hall e (proj1 (list_elem_of_In _ _) He)) as Hc.
  apply andb_prop in Hc as [[[Hc|Hc]%orb_prop Hn]%andb_prop Hl]; apply Z.eqb_eq in Hc;
    apply bool_decide_eq_true in Hn; apply Nat.eqb_eq in Hl; (split; [by auto|by split]).
Qed.

Lemma event_request_plain e id c now : e ∈ test_events ->
  (rq_action (event_request e id c now), until_nul (rq_vehicle_number (event_request e id c now))) = plain_event e.
Proof.
  intros He. destruct (event_vehicles e He) as (_ & Hn & Hl). unfold event_request, plain_event. cbn [rq_action rq_vehicle_number].
  rewrite until_nul_copy_cstr by (done || (unfold VEHICLE_NUMBER_SIZE; lia)).
  by rewrite take_ge by (unfold VEHICLE_NUMBER_SIZE; lia).
Qed.

Lemma u64_u64_add a b : u64 (u64 a + b) = u64 (a + b).
Proof. unfold wrap_u. by rewrite Z.add_mod_idemp_l. Qed.

Section Loop.
Context `{Environment} (pipe i2c : Z).
Implicit Types s : bbg_process.

Definition ready (s : bbg_process) : Prop :=
  0 <= current_event s < TEST_EVENTS_COUNT /\ 0 <= request_id s < 2 ^ 64.

Lemma generated_world s w : ready s ->
  messages_written pipe w = messages_written pipe (bbg_world s) ->
  (exists cs, coordinates_read i2c w = coordinates_read i2c (bbg_world s) ++ cs) ->
  (exists unused, times_read w = times_read (bbg_world s) ++ unused) -> forall id,
  generated pipe i2c false s [] (s <| request_id := id |> <| bbg_world := w |>).
Proof.
  intros [He Hid] Hw [cs Hcs] [unused Ht] id. constructor; try done.
  - cbn. by rewrite Z.add_0_r, Z.mod_small.
  - cbn. by rewrite app_nil_r.
  - exists cs. by split.
  - exists unused. by split.
Qed.

Lemma generated_trans alive s1 rqs1 s2 rqs2 s3 : ready s1 ->
  generated pipe i2c true s1 rqs1 s2 -> generated pipe i2c alive s2 rqs2 s3 ->
  generated pipe i2c alive s1 (rqs1 ++ rqs2) s3.
Proof.
  intros [He Hid] [A1 A2 A3 (cs1 & A4 & A5) A6 A7 (un1 & At & An) A8] [B1 B2 B3 (cs2 & B4 & B5) B6 B7 (un2 & Bt & Bn) B8].
  specialize (A8 eq_refl). specialize (An eq_refl). subst un1.
  assert (TEST_EVENTS_COUNT = 24) as Hcount by reflexivity. constructor.
  - congruence.
  - rewrite B2, A2, length_app, Hcount, Z.add_mod_idemp_l by lia. f_equal. lia.
  - by rewrite B3, A3, fmap_app, (assoc_L (++)).
  - exists (cs1 ++ cs2). rewrite B4, A4, (assoc_L (++)). split; [done|]. apply Forall_app. split.
    + eapply Forall_impl; [exact A5|]. intros rq (e & c & now & Hev & Hc & E). exists e, c, now. split; [done|].
      split; [apply elem_of_app; by left|done].
    + eapply Forall_impl; [exact B5|]. intros rq (e & c & now & Hev & Hc & E). exists e, c, now. split; [done|].
      split; [apply elem_of_app; by right|done].
  - intros k rq Hk. apply lookup_app_Some in Hk as [Hk|[Hge Hk]]; [by apply A6|].
    apply B6 in Hk. rewrite Hk, A8, u64_u64_add. f_equal. lia.
  - rewrite fmap_app, drive_all_app, A7. exact B7.
  - exists un2. split; [|exact Bn]. by rewrite Bt, At, app_nil_r, fmap_app, <- !(assoc_L (++)).
  - intros Ha. rewrite (B8 Ha), A8, u64_u64_add, length_app. f_equal. lia.
Qed.

Lemma generated_ready s rqs s' : generated pipe i2c true s rqs s' -> ready s'.
Proof.
  intros [_ Ee _ _ _ _ _ Hn]. split; [rewrite Ee; apply Z.mod_pos_bound; reflexivity|].
  rewrite (Hn eq_refl). by apply wrap_u_range.
Qed.

Lemma generate_spec s : ready s -> wp (generate_test_message pipe i2c) (fun r s' =>
  if r =? 0 then exists rq, generated pipe i2c true s [rq] s' else generated pipe i2c false s [] s') s.
Proof.
  intros Hs. destruct (Hs) as [He Hid]. unfold generate_test_message. apply wp_bind, wp_gets.
  rewrite (proj2 (Z.leb_gt _ _)) by lia.
  destruct (lookup_lt_is_Some_2 test_events (Z.to_nat (current_event s))) as [e Hev].
  { change (length test_events) with (Z.to_nat TEST_EVENTS_COUNT). lia. }
  apply wp_bind, (wp_from_option _ e); [done|]. apply wp_bind, wp_gets, wp_bind, wp_modify.
  apply wp_bind. eapply wp_mono; [apply read_coordinates_spec|].
  intros [c|] s1 (w & -> & Hw & Ht & Hc); [|apply wp_ret; cbn [option_list] in Hc].
  2: { change (-1 =? 0) with false. cbv iota. apply generated_world; [done|apply Hw|exists []; apply Hc|exists []; by rewrite app_nil_r]. }
  pose proof (list_elem_of_lookup_2 _ _ _ Hev) as Hin. destruct (event_vehicles e Hin) as (Haction & _).
  apply wp_bind. eapply (wp_mono _ (fun m s' => m = Some (event_request e (request_id s) c (ans_ret (respond w sys_time))) /\
    s' = s <| request_id := u64 (request_id s + 1) |>
           <| bbg_world := (sys_time, respond w sys_time) :: w |>)).
  { unfold event_request. destruct Haction as [-> | ->].
    - change (START_PARKING =? START_PARKING) with true. cbv iota. by apply wp_bind, wp_bbg_call, wp_ret.
    - change (END_PARKING =? START_PARKING) with false. change (END_PARKING =? END_PARKING) with true. cbv iota.
      by apply wp_bind, wp_bbg_call, wp_ret. }
  intros m s1 [-> ->]. set (now := ans_ret (respond w sys_time)). set (rq := event_request e (request_id s) c now).
  set (w1 := (sys_time, respond w sys_time) :: w). apply wp_bind, wp_bbg_call. cbn [bbg_world set_field bbg_process_fields].
  destruct (Z.eqb_spec (ans_ret (respond w1 (sys_write pipe (encode_request rq)))) sizeof_request) as [E|E]; cbn [negb].
  - apply wp_bind, wp_bbg_log, wp_bind, wp_bbg_call_, wp_bind, wp_modify, wp_ret. change (0 =? 0) with true. cbv iota.
    exists rq. constructor.
    + done.
    + done.
    + cbn [messages_written bbg_world set_field bbg_process_fields]. rewrite Z.eqb_refl, E, Z.eqb_refl.
      cbn [andb w1 messages_written]. by rewrite Hw.
    + exists [c]. cbn [option_list] in Hc. split; [exact Hc|]. constructor; [|constructor].
      exists e, c, now. split; [done|]. split; [by apply list_elem_of_singleton|done].
    + intros [|k] rq' Hk; [|done]. injection Hk as <-. cbn. by rewrite Z.add_0_r, u64_small.
    + unfold rq. cbn [drive_all fmap list_fmap]. rewrite event_request_plain by done. by rewrite (cycle_step _ e).
    + exists []. split; [|done]. cbn [times_read w1 bbg_world set_field bbg_process_fields fmap list_fmap app].
      rewrite Ht. unfold rq, request_time, event_request. cbn [rq_action rq_parking_start_time rq_parking_end_time].
      by destruct (action e =? START_PARKING).
    + done.
  - apply wp_bind, wp_bbg_log, wp_ret. change (-1 =? 0) with false. cbv iota.
    apply (generated_world s _ Hs); [|by exists [c]|eexists; cbn [times_read bbg_world set_field bbg_process_fields w1]; by rewrite Ht].
    cbn [messages_written bbg_world set_field bbg_process_fields]. rewrite (proj2 (Z.eqb_neq _ _) E), andb_false_r, app_nil_r. apply Hw.
Qed.

Lemma generate_messages_spec n s : ready s -> wp (generate_messages n pipe i2c) (fun alive s' => exists rqs,
  (length rqs <= n)%nat /\ (alive = true -> length rqs = n) /\ generated pipe i2c alive s rqs s') s.
Proof.
  revert s. induction n as [|n IH]; intros s Hs; cbn [generate_messages].
  - apply wp_ret. exists []. split; [done|]. split; [done|]. destruct Hs. constructor; try done.
    + cbn. by rewrite Z.add_0_r, Z.mod_small.
    + cbn. by rewrite app_nil_r.
    + exists []. by rewrite app_nil_r.
    + exists []. by rewrite !app_nil_r.
    + intros _. cbn. by rewrite Z.add_0_r, u64_small.
  - apply wp_bind. eapply wp_mono; [by apply generate_spec|]. intros r s1 Hr. cbv beta in Hr. revert Hr.
    destruct (Z.eqb_spec r 0) as [->|Hne]; cbn [negb]; intros Hr.
    2: { apply wp_ret. exists []. split; [cbn; lia|]. split; [done|]. exact Hr. }
    destruct Hr as [rq Hrq]. apply wp_bind, wp_bbg_call_.
    assert (generated pipe i2c true s [rq] (s1 <| bbg_world := (sys_sleep 1000, respond (bbg_world s1) (sys_sleep 1000))
      :: bbg_world s1 |>)) as Hrq' by by destruct Hrq.
    eapply wp_mono; [apply IH|].
    { by eapply generated_ready. }
    intros alive s2 (rqs & Hlen & Hfull & Hgen). exists ([rq] ++ rqs). split; [cbn; lia|]. split.
    + intros Ha. cbn. by rewrite Hfull.
    + by eapply generated_trans.
Qed.
End Loop.

(** C22: the client's requests.  However the device, the pipe and the clock
    answer, after [n] turns of the I2C process the messages in the pipe are a
    sequence of whole requests, one for each turn while all goes well: numbered
    from 1 on, each an event of the table with a coordinate that was read from
    the device and the time the clock gave for it, and, cycle after cycle, a vehicle is only parked when it is not
    parked and only leaves when it is. *)
Theorem client_requests `{Environment} (n : nat) (pipe i2c : Z) (s : bbg_process) :
  current_event s = 0 -> request_id s = 1 ->
  wp (generate_messages n pipe i2c) (fun alive s' => exists rqs cs,
    messages_written pipe (bbg_world s') = messages_written pipe (bbg_world s) ++ (encode_request <$> rqs) /\
    coordinates_read i2c (bbg_world s') = coordinates_read i2c (bbg_world s) ++ cs /\
    (exists unused, times_read (bbg_world s') = times_read (bbg_world s) ++ (request_time <$> rqs) ++ unused) /\
    (length rqs <= n)%nat /\ (alive = true -> length rqs = n) /\
    (forall k rq, rqs !! k = Some rq -> rq_request_id rq = u64 (1 + Z.of_nat k) /\
       exists e c now, e ∈ test_events /\ c ∈ cs /\ rq = event_request e (rq_request_id rq) c now) /\
    drive_all [] ((fun rq => (rq_action rq, until_nul (rq_vehicle_number rq))) <$> rqs) =
      Some (parked_before (Z.of_nat (length rqs) `mod` TEST_EVENTS_COUNT))) s.
Proof.
  intros He Hid. eapply wp_mono.
  { apply (generate_messages_spec pipe i2c n). split; [rewrite He; by vm_compute|by rewrite Hid]. }
  intros alive s' (rqs & Hlen & Hfull & [_ G2 G3 (cs & G4 & G5) G6 G7 (unused & G8 & _) _]). exists rqs, cs.
  split; [done|]. split; [done|]. split; [by exists unused|]. split; [done|]. split; [done|]. split.
  - intros k rq Hk. split; [by rewrite (G6 k rq Hk), Hid|].
    apply (proj1 (Forall_lookup _ _) G5 k rq Hk).
  - rewrite He in G7. rewrite G2, He, Z.add_0_l in G7. exact G7.
Qed.

(** A device and a pipe that accept all calls and give what is asked for. *)
Lemma client_requests_witness :
  wp (@generate_messages (fun _ c => match c with
        | sys_read _ n => Answer n 0 (GpsSimulator.encode_coordinate (GpsSimulator.at_thousandths 39100 39300)) ∅
        | sys_write _ data => ok (Z.of_nat (length data))
        | _ => ok 100 end) 7 4 5) (fun alive s' => exists rqs cs,
    messages_written 4 (bbg_world s') = messages_written 4 [] ++ (encode_request <$> rqs) /\
    coordinates_read 5 (bbg_world s') = coordinates_read 5 [] ++ cs /\
    (exists unused, times_read (bbg_world s') = times_read [] ++ (request_time <$> rqs) ++ unused) /\
    (length rqs <= 7)%nat /\ (alive = true -> length rqs = 7%nat) /\
    (forall k rq, rqs !! k = Some rq -> rq_request_id rq = u64 (1 + Z.of_nat k) /\
       exists e c now, e ∈ test_events /\ c ∈ cs /\ rq = event_request e (rq_request_id rq) c now) /\
    drive_all [] ((fun rq => (rq_action rq, until_nul (rq_vehicle_number rq))) <$> rqs) =
      Some (parked_before (Z.of_nat (length rqs) `mod` TEST_EVENTS_COUNT))) bbg_start.
Proof. refine (client_requests 7 4 5 bbg_start _ _); reflexivity. Defined.
