(* ===== verification/BbgLife.v ===== *)
(** BbgLife: the two processes of the client from start to end: they terminate
    when their input does, and leave no descriptor open. *)

From S2P Require GpsSimulator.
From S2P Require Import Prelude Machine CLib Ieee Posix Config Logger IpcProtocol BbgClient BbgProofs.

(** Descriptors obtained and not yet closed. *)
Fixpoint descriptors (w : world) : gset Z :=
  match w with
  | [] => ∅
  | (sys_socket, a) :: w | (sys_open _ _, a) :: w =>
      if ans_ret a =? -1 then descriptors w else {[ans_ret a]} ∪ descriptors w
  | (sys_pipe, a) :: w =>
      if ans_ret a =? -1 then descriptors w
      else {[pipe_end a PIPE_READ_END]} ∪ ({[pipe_end a PIPE_WRITE_END]} ∪ descriptors w)
  | (sys_close fd, _) :: w => descriptors w ∖ {[fd]}
  | _ :: w => descriptors w
  end.

Definition is_read (c : syscall) : bool := match c with sys_read _ _ => true | _ => false end.

(** The part of a state these theorems speak about. *)
Record bview := BView {
  b_fds : gset Z;
  b_reads : nat;
  b_log : Z;
  b_config : bbg_client_config_t;
  b_event : Z;
}.

Definition view_of (s : bbg_process) : bview :=
  BView (descriptors (bbg_world s)) (calls is_read (bbg_world s)) (bbg_log_fd s) (bbg_config s) (current_event s).

Definition view_call (c : syscall) (a : answer) (v : bview) : bview :=
  BView (match c with
         | sys_socket | sys_open _ _ => if ans_ret a =? -1 then b_fds v else {[ans_ret a]} ∪ b_fds v
         | sys_pipe =>
             if ans_ret a =? -1 then b_fds v
             else {[pipe_end a PIPE_READ_END]} ∪ ({[pipe_end a PIPE_WRITE_END]} ∪ b_fds v)
         | sys_close fd => b_fds v ∖ {[fd]}
         | _ => b_fds v
         end)
    ((if is_read c then 1 else 0) + b_reads v) (b_log v) (b_config v) (b_event v).

(** What the system guarantees: new descriptors are not in use; after [n] reads
    the pipe is closed or the device stops answering; a whole response carries
    a terminated vehicle number. *)
Definition bbg_answer (n : nat) (v : bview) (c : syscall) (a : answer) : Prop :=
  match c with
  | sys_socket | sys_open _ _ => ans_ret a = -1 \/ (ans_ret a ∉ b_fds v)
  | sys_pipe => ans_ret a = -1 \/
      ((pipe_end a PIPE_READ_END ∉ b_fds v) /\ (pipe_end a PIPE_WRITE_END ∉ b_fds v) /\
       pipe_end a PIPE_READ_END <> pipe_end a PIPE_WRITE_END)
  | sys_read _ _ => (n <= b_reads v)%nat -> ans_ret a <= 0 /\ ans_errno a <> EINTR
  | sys_recv _ _ => ans_ret a = sizeof_response ->
      is_Some (cstr_of_buf (rs_vehicle_number (decode_response (ans_data a))))
  | _ => True
  end.

Definition bbg_kernel (env : Environment) (n : nat) : Prop := forall s c,
  bbg_answer n (view_of s) c (respond (bbg_world s) c).

(** The arrays of the configuration hold strings. *)
Definition strings_terminated (c : bbg_client_config_t) : Prop :=
  is_Some (cstr_of_buf (server_address c)) /\ is_Some (cstr_of_buf (tcp_log_file c)) /\
  is_Some (cstr_of_buf (i2c_log_file c)).

Section Rules.
Context `{Environment} (n : nat) (Hkernel : bbg_kernel _ n).
Implicit Types (s : bbg_process) (v : bview).

Lemma wp_sys_view v c (Q : answer -> bbg_process -> Prop) s : view_of s = v ->
  (forall a s', bbg_answer n v c a -> view_of s' = view_call c a v -> Q a s') -> wp (in_world (sys c)) Q s.
Proof using Hkernel.
  intros <- HQ. apply wp_bbg_sys, HQ; [apply Hkernel|].
  unfold view_of, view_call. cbn [bbg_world set_field bbg_process_fields]. by rewrite calls_cons.
Qed.

Lemma wp_call_view v c (Q : Z -> bbg_process -> Prop) s : view_of s = v ->
  (forall a s', bbg_answer n v c a -> view_of s' = view_call c a v -> Q (ans_ret a) s') -> wp (call c) Q s.
Proof using Hkernel.
  intros <- HQ. apply wp_bbg_call, HQ; [apply Hkernel|].
  unfold view_of, view_call. cbn [bbg_world set_field bbg_process_fields]. by rewrite calls_cons.
Qed.

Lemma wp_call_view_ v c (Q : unit -> bbg_process -> Prop) s : view_of s = v ->
  (forall a s', view_of s' = view_call c a v -> Q tt s') -> wp (call_ c) Q s.
Proof.
  intros <- HQ. apply wp_bbg_call_. eapply HQ. unfold view_of, view_call.
  cbn [bbg_world set_field bbg_process_fields]. by rewrite calls_cons.
Qed.

Lemma wp_log_view v l f (Q : unit -> bbg_process -> Prop) s : view_of s = v ->
  (forall s', view_of s' = v -> Q tt s') -> wp (in_world (sys_ (sys_log l f))) Q s.
Proof. intros <- HQ. by apply wp_bbg_log, HQ. Qed.

Definition with_fds (D : gset Z) v : bview := BView D (b_reads v) (b_log v) (b_config v) (b_event v).

Lemma view_config s v : view_of s = v -> bbg_config s = b_config v.
Proof. by intros <-. Qed.

(** A call with no effect on the view. *)
Lemma view_call_same c v : (forall a, view_call c a v = v) -> forall a s, view_of s = view_call c a v -> view_of s = v.
Proof. intros Hc a s. by rewrite Hc. Qed.

Lemma connect_spec s v : view_of s = v -> is_Some (cstr_of_buf (server_address (b_config v))) ->
  wp bbg_client_connect (fun fd s' =>
    if fd =? -1 then view_of s' = v else (fd ∉ b_fds v) /\ view_of s' = with_fds ({[fd]} ∪ b_fds v) v) s.
Proof using Hkernel.
  intros Hv [address Haddress]. unfold bbg_client_connect.
  eapply wp_bind, wp_call_view; [exact Hv|]. intros a s1 Ha Hs1. cbn [bbg_answer] in Ha.
  destruct (Z.eqb_spec (ans_ret a) (-1)) as [E|E].
  { eapply wp_bind, wp_log_view; [exact Hs1|]. intros s2 Hs2. apply wp_ret. change (-1 =? -1) with true. cbv iota.
    rewrite Hs2. unfold view_call. rewrite E. by destruct v. }
  assert (view_of s1 = with_fds ({[ans_ret a]} ∪ b_fds v) v) as Hs1'.
  { rewrite Hs1. unfold view_call. by rewrite (proj2 (Z.eqb_neq _ _) E). }
  destruct Ha as [?|Hfresh]; [done|]. revert E Hfresh Hs1'. clear Hs1. generalize (ans_ret a). clear a. intros fd E Hfresh Hs1.
  apply wp_bind, wp_gets, wp_bind. rewrite (view_config _ _ Hs1). apply (wp_from_option _ address); [done|].
  eapply wp_bind, wp_call_view; [exact Hs1|]. clear s Hv s1 Hs1. intros a s _ Hs.
  change (view_of s = with_fds ({[fd]} ∪ b_fds v) v) in Hs.
  assert (forall s, view_of s = with_fds ({[fd]} ∪ b_fds v) v -> forall l f,
    wp (in_world (sys_ (sys_log l f));; call_ (sys_close fd);; mret (-1)) (fun r s' =>
      if r =? -1 then view_of s' = v else (r ∉ b_fds v) /\ view_of s' = with_fds ({[r]} ∪ b_fds v) v) s) as Hfail.
  { clear s Hs. intros s Hs l f. eapply wp_bind, wp_log_view; [exact Hs|]. clear s Hs. intros s Hs.
    eapply wp_bind, wp_call_view_; [exact Hs|]. clear s Hs. intros a' s Hs. apply wp_ret.
    change (-1 =? -1) with true. cbv iota. rewrite Hs. unfold view_call, with_fds.
    cbn [b_fds b_reads b_log b_config b_event is_read]. destruct v as [D R L C V]; cbn in Hfresh |- *. f_equal. clear -Hfresh. set_solver. }
  destruct (negb _); [by apply Hfail|].
  eapply wp_bind, wp_call_view; [exact Hs|]. clear s Hs. intros a' s _ Hs.
  change (view_of s = with_fds ({[fd]} ∪ b_fds v) v) in Hs.
  destruct (ans_ret a' =? -1); [by apply Hfail|].
  eapply wp_bind, wp_log_view; [exact Hs|]. clear s Hs. intros s Hs. apply wp_ret.
  by rewrite (proj2 (Z.eqb_neq _ _) E).
Qed.

Lemma disconnect_spec fd s v : view_of s = with_fds ({[fd]} ∪ b_fds v) v -> fd ∉ b_fds v -> fd <> -1 ->
  wp (bbg_client_disconnect fd) (fun _ s' => view_of s' = v) s.
Proof.
  intros Hs Hfresh Hne. unfold bbg_client_disconnect. rewrite (proj2 (Z.eqb_neq _ _) Hne). cbn [negb].
  eapply wp_bind, wp_call_view_; [exact Hs|]. intros a s1 Hs1. eapply wp_log_view; [exact Hs1|].
  intros s2 ->. unfold view_call, with_fds. cbn [b_fds b_reads b_log b_config b_event is_read].
  destruct v as [D R L C V]; cbn in Hfresh |- *. f_equal. clear -Hfresh. set_solver.
Qed.

(** One request: whatever happens, its socket is closed again. *)
Lemma forward_spec bytes s v : view_of s = v -> is_Some (cstr_of_buf (server_address (b_config v))) ->
  wp (forward_request bytes) (fun _ s' => view_of s' = v) s.
Proof using Hkernel.
  intros Hs Hc. unfold forward_request. eapply wp_bind, wp_log_view; [exact Hs|]. clear s Hs. intros s Hs.
  apply wp_bind. eapply wp_mono; [by apply connect_spec|]. clear s Hs. intros fd s. cbv beta.
  destruct (Z.eqb_spec fd (-1)) as [->|Hne].
  { intros Hs. eapply wp_log_view; [exact Hs|done]. }
  intros [Hfresh Hs].
  assert (forall s l f, view_of s = with_fds ({[fd]} ∪ b_fds v) v ->
    wp (in_world (sys_ (sys_log l f));; bbg_client_disconnect fd) (fun _ s' => view_of s' = v) s) as Hleave.
  { clear s Hs. intros s l f Hs. eapply wp_bind, wp_log_view; [exact Hs|]. intros s' Hs'. by apply disconnect_spec. }
  eapply wp_bind, wp_call_view; [exact Hs|]. clear s Hs. intros a s _ Hs.
  change (view_of s = with_fds ({[fd]} ∪ b_fds v) v) in Hs.
  destruct (negb _); [by apply Hleave|].
  eapply wp_bind, wp_sys_view; [exact Hs|]. clear s Hs. intros a' s Ha Hs.
  change (view_of s = with_fds ({[fd]} ∪ b_fds v) v) in Hs. cbn [bbg_answer] in Ha.
  destruct (Z.eqb_spec (ans_ret a') sizeof_response) as [E|E]; cbn [negb]; [|by apply Hleave].
  destruct (Ha E) as [vehicle Hvehicle]. unfold report_response.
  apply wp_bind. eapply (wp_mono _ (fun _ s' => view_of s' = with_fds ({[fd]} ∪ b_fds v) v)).
  2: { intros u s' Hs'. by apply disconnect_spec. }
  destruct (_ =? START_PARKING); [|destruct (_ =? END_PARKING)].
  - apply wp_bind, (wp_from_option _ vehicle); [done|]. eapply wp_log_view; [exact Hs|done].
  - apply wp_bind, (wp_from_option _ vehicle); [done|]. eapply wp_log_view; [exact Hs|done].
  - eapply wp_log_view; [exact Hs|done].
Qed.

(** The rest of the view, when some reads were made. *)
Definition same_but_reads v v' : Prop := b_fds v' = b_fds v /\ b_log v' = b_log v /\ b_config v' = b_config v.

Lemma tcp_loop_spec fuel fd s v : (n - b_reads v < fuel)%nat -> view_of s = v ->
  is_Some (cstr_of_buf (server_address (b_config v))) ->
  wp (tcp_process_loop fuel fd) (fun _ s' => same_but_reads v (view_of s')) s.
Proof using Hkernel.
  revert s v. induction fuel as [|fuel IH]; intros s v Hfuel Hs Hc; [lia|]. cbn [tcp_process_loop].
  eapply wp_bind, wp_sys_view; [exact Hs|]. clear s Hs. intros a s Ha Hs. cbn [bbg_answer] in Ha.
  assert (same_but_reads v (view_of s)) as Hsame by by rewrite Hs.
  assert (forall l f, wp (in_world (sys_ (sys_log l f))) (fun _ s' => same_but_reads v (view_of s')) s) as Hstop.
  { intros l f. eapply wp_log_view; [reflexivity|]. by intros s' ->. }
  assert (0 < ans_ret a \/ ans_errno a = EINTR -> wp (tcp_process_loop fuel fd) (fun _ s' => same_but_reads v (view_of s')) s) as Hnext.
  { intros Hcase. eapply wp_mono; [apply (IH s (view_call (sys_read fd sizeof_request) a v)); [|exact Hs|exact Hc]|].
    - cbn [view_call b_reads is_read]. destruct (decide (n <= b_reads v)%nat) as [Hle|]; [|lia].
      destruct (Ha Hle). destruct Hcase; [lia|done].
    - intros u s'. by unfold same_but_reads. }
  destruct (Z.eqb_spec (ans_ret a) 0) as [E0|E0]; [apply Hstop|].
  destruct (Z.eqb_spec (ans_ret a) (-1)) as [E1|E1].
  { destruct (Z.eqb_spec (ans_errno a) EINTR) as [E2|E2]; [apply Hnext; by right|apply Hstop]. }
  destruct (Z.eqb_spec (ans_ret a) sizeof_request) as [E3|E3]; cbn [negb]; [|apply Hstop].
  apply wp_bind. eapply wp_mono; [by apply (forward_spec _ _ (view_of s) eq_refl); rewrite Hs|].
  intros u s' Hs'. eapply wp_mono; [apply (IH s' (view_call (sys_read fd sizeof_request) a v)); [|by rewrite Hs', Hs|exact Hc]|].
  - cbn [view_call b_reads is_read]. destruct (decide (n <= b_reads v)%nat) as [Hle|]; [|lia].
    destruct (Ha Hle). change sizeof_request with 64 in E3. lia.
  - intros u' s''. by unfold same_but_reads.
Qed.

(** The logger opens its file, and closes it. *)
Definition with_log (fd : Z) v : bview :=
  BView (if fd =? -1 then b_fds v else {[fd]} ∪ b_fds v) (b_reads v) fd (b_config v) (b_event v).

Lemma logger_init_spec path console s v : view_of s = v -> b_log v = -1 ->
  wp (in_logger (logger_init (Some path) console)) (fun r s' => exists fd,
    (fd = -1 \/ (fd ∉ b_fds v)) /\ (r =? 0) = negb (fd =? -1) /\ view_of s' = with_log fd v) s.
Proof using Hkernel.
  intros <- Hlog. cbn in Hlog.
  apply (wp_zoom (fun s => LoggerState (bbg_log_fd s) (bbg_console s) (bbg_world s))
    (fun l s => s <| bbg_log_fd := log_fd l |> <| bbg_console := console_output_enabled l |>
                  <| bbg_world := logger_world l |>)).
  unfold logger_init. apply wp_bind, wp_modify, wp_bind, wp_zoom, wp_sys_, wp_bind, wp_gets.
  cbn [log_fd set_console set_logger_world]. rewrite Hlog. change (negb (-1 =? -1)) with false. cbv iota.
  apply wp_bind, wp_ret, wp_bind, wp_zoom, wp_sysr, wp_bind, wp_modify, wp_bind, wp_zoom, wp_sys_, wp_bind, wp_gets.
  cbn [log_fd set_console set_logger_world set_log_fd logger_world].
  set (w := (sys_mutex_lock log_mutex, _) :: bbg_world s). set (a := respond w (sys_open path true)).
  pose proof (Hkernel (s <| bbg_world := w |>) (sys_open path true)) as Ha. cbn [bbg_answer bbg_world set_field bbg_process_fields] in Ha.
  change (b_fds _) with (descriptors (bbg_world s)) in Ha. fold a in Ha.
  destruct (Z.eqb_spec (ans_ret a) (-1)) as [E|E]; apply wp_ret; exists (ans_ret a); (split; [exact Ha|]); split.
  - by rewrite E.
  - unfold view_of, with_log. rewrite E. cbn. fold a. rewrite E. reflexivity.
  - by rewrite (proj2 (Z.eqb_neq _ _) E).
  - unfold view_of, with_log. cbn. fold a. by rewrite (proj2 (Z.eqb_neq _ _) E).
Qed.

Lemma logger_close_spec s v D : view_of s = v -> b_log v <> -1 -> b_fds v = {[b_log v]} ∪ D -> b_log v ∉ D ->
  wp (in_logger logger_close) (fun _ s' => view_of s' = with_fds D (with_log (-1) v)) s.
Proof.
  intros <- Hlog HD Hfresh.
  apply (wp_zoom (fun s => LoggerState (bbg_log_fd s) (bbg_console s) (bbg_world s))
    (fun l s => s <| bbg_log_fd := log_fd l |> <| bbg_console := console_output_enabled l |>
                  <| bbg_world := logger_world l |>)).
  unfold logger_close. apply wp_bind, wp_zoom, wp_sys_, wp_bind, wp_gets. cbn [b_log view_of] in *.
  cbn [log_fd set_logger_world]. rewrite (proj2 (Z.eqb_neq _ _) Hlog). cbn [negb].
  apply wp_bind, wp_bind, wp_zoom, wp_sys_, wp_modify, wp_zoom, wp_sys_.
  unfold view_of, with_fds, with_log. cbn in *. rewrite HD. f_equal. clear -Hfresh. set_solver.
Qed.

(** Closing the log file and one more descriptor. *)
Lemma finish_spec fd (r : Z) s v v0 : view_of s = v -> b_log v <> -1 -> b_fds v = {[b_log v]} ∪ b_fds v0 -> b_log v ∉ b_fds v0 ->
  wp (in_logger logger_close;; call_ (sys_close fd);; mret r) (fun r' s' => r' = r /\
    b_fds (view_of s') = b_fds v0 ∖ {[fd]} /\ b_log (view_of s') = -1) s.
Proof.
  intros Hs Hlog HD Hfresh. apply wp_bind. eapply wp_mono; [by eapply logger_close_spec|].
  intros u s1 Hs1. eapply wp_bind, wp_call_view_; [exact Hs1|]. intros a s2 Hs2. apply wp_ret. split; [done|].
  by rewrite Hs2.
Qed.

Lemma failed_logger_spec text fd v s : view_of s = v ->
  wp (complain text;; call_ (sys_close fd);; mret (-1)) (fun r s' => r = -1 /\
    b_fds (view_of s') = b_fds v ∖ {[fd]} /\ b_log (view_of s') = b_log v) s.
Proof.
  intros Hs. eapply wp_bind, wp_call_view_; [exact Hs|]. intros a s1 Hs1.
  eapply wp_bind, wp_call_view_; [exact Hs1|]. intros a' s2 Hs2. apply wp_ret. by rewrite Hs2.
Qed.

Lemma tcp_process_spec fuel fd s : (n < fuel)%nat -> bbg_log_fd s = -1 -> strings_terminated (bbg_config s) ->
  wp (tcp_process_run fuel fd) (fun r s' => (r = 0 \/ r = -1) /\
    descriptors (bbg_world s') = descriptors (bbg_world s) ∖ {[fd]} /\ bbg_log_fd s' = -1) s.
Proof using Hkernel.
  intros Hfuel Hlog (Haddr & [path Hpath] & _). unfold tcp_process_run.
  apply wp_bind, wp_gets, wp_bind, (wp_from_option _ path); [done|]. apply wp_bind.
  eapply wp_mono; [by apply (logger_init_spec _ _ s _ eq_refl)|]. intros r s1 (log & Hfresh & Hr & Hs1).
  rewrite Hr. destruct (Z.eqb_spec log (-1)) as [->|Hlog1]; cbn [negb].
  - eapply wp_mono; [by eapply failed_logger_spec|]. intros r' s2 (-> & Hfds & Hl). cbn in *. by auto.
  - destruct Hfresh as [?|Hfresh]; [done|].
    eapply wp_bind, wp_log_view; [exact Hs1|]. clear s1 Hs1. intros s1 Hs1.
    apply wp_bind. eapply wp_mono; [apply (tcp_loop_spec fuel fd s1 (with_log log (view_of s))); [lia|exact Hs1|exact Haddr]|].
    intros u s2 (Hfds & Hl & _). eapply wp_bind, wp_log_view; [reflexivity|]. intros s3 Hs3.
    eapply wp_mono; [apply (finish_spec fd 0 s3 (view_of s3) (view_of s) eq_refl)|].
    + rewrite Hs3, Hl. exact Hlog1.
    + rewrite Hs3, Hfds, Hl. cbn. by rewrite (proj2 (Z.eqb_neq _ _) Hlog1).
    + rewrite Hs3, Hl. exact Hfresh.
    + intros r' s4 (-> & Hf & Hl4). cbn in *. by auto.
Qed.

(** ** The I2C process *)
Lemma open_stm32_spec s v : view_of s = v -> wp i2c_open_stm32 (fun fd s' =>
  if fd =? -1 then view_of s' = v else (fd ∉ b_fds v) /\ view_of s' = with_fds ({[fd]} ∪ b_fds v) v) s.
Proof using Hkernel.
  intros Hv. unfold i2c_open_stm32. eapply wp_bind, wp_call_view; [exact Hv|].
  intros a s1 Ha Hs1. cbn [bbg_answer] in Ha. destruct (Z.eqb_spec (ans_ret a) (-1)) as [E|E].
  { eapply wp_bind, wp_log_view; [exact Hs1|]. intros s2 Hs2. apply wp_ret. change (-1 =? -1) with true. cbv iota.
    rewrite Hs2. unfold view_call. rewrite E. by destruct v. }
  assert (view_of s1 = with_fds ({[ans_ret a]} ∪ b_fds v) v) as Hs1'.
  { rewrite Hs1. unfold view_call. by rewrite (proj2 (Z.eqb_neq _ _) E). }
  destruct Ha as [?|Hfresh]; [done|]. revert E Hfresh Hs1'. clear Hs1. generalize (ans_ret a). clear a. intros fd E Hfresh Hs1.
  eapply wp_bind, wp_call_view; [exact Hs1|]. clear s Hv s1 Hs1. intros a s _ Hs.
  change (view_of s = with_fds ({[fd]} ∪ b_fds v) v) in Hs. destruct (_ =? -1).
  - eapply wp_bind, wp_log_view; [exact Hs|]. clear s Hs. intros s Hs.
    eapply wp_bind, wp_call_view_; [exact Hs|]. clear s Hs. intros a' s Hs. apply wp_ret.
    change (-1 =? -1) with true. cbv iota. rewrite Hs. unfold view_call, with_fds.
    cbn [b_fds b_reads b_log b_config b_event is_read].
    destruct v as [D R L C V]; cbn in Hfresh |- *. f_equal. clear -Hfresh. set_solver.
  - eapply wp_bind, wp_log_view; [exact Hs|]. clear s Hs. intros s Hs. apply wp_ret.
    by rewrite (proj2 (Z.eqb_neq _ _) E).
Qed.

(** One message costs one read, and leaves the descriptors as they were. *)
Definition generated_view v v' : Prop :=
  same_but_reads v v' /\ 0 <= b_event v' < TEST_EVENTS_COUNT /\ b_reads v' = S (b_reads v).

Lemma generate_view pipe i2c s v : view_of s = v -> 0 <= b_event v < TEST_EVENTS_COUNT ->
  wp (generate_test_message pipe i2c) (fun r s' => generated_view v (view_of s') /\
    (r = 0 -> (b_reads v < n)%nat)) s.
Proof using Hkernel.
  intros Hs He. unfold generate_test_message. apply wp_bind, wp_gets.
  replace (current_event s) with (b_event v) by by rewrite <- Hs.
  rewrite (proj2 (Z.leb_gt _ _)) by lia.
  destruct (lookup_lt_is_Some_2 test_events (Z.to_nat (b_event v))) as [e Hev].
  { change (length test_events) with (Z.to_nat TEST_EVENTS_COUNT). lia. }
  apply wp_bind, (wp_from_option _ e); [done|]. apply wp_bind, wp_gets, wp_bind, wp_modify, wp_bind.
  match goal with |- wp _ _ ?x => assert (view_of x = v) as Hs1 by done; revert Hs1; generalize x end.
  generalize (request_id s). clear s Hs. intros id s Hs.
  eapply (wp_mono _ (fun r s' => generated_view v (view_of s') /\ (is_Some r -> (b_reads v < n)%nat))).
  { unfold i2c_read_coordinates. eapply wp_bind, wp_sys_view; [exact Hs|]. clear s Hs. intros a s Ha Hs.
    cbn [bbg_answer] in Ha. assert (generated_view v (view_of s)) as Hgen by by rewrite Hs.
    destruct (_ =? -1); [|destruct (Z.eqb_spec (ans_ret a) sizeof_gps_coordinate) as [E|E]]; cbn [negb];
      eapply wp_bind, wp_log_view; (try reflexivity); intros s' Hs'; apply wp_ret; rewrite Hs'.
    - split; [done|]. by intros [].
    - split; [done|]. intros _. destruct (decide (n <= b_reads v)%nat) as [Hle|]; [|lia].
      destruct (Ha Hle). change sizeof_gps_coordinate with 8 in E. lia.
    - split; [done|]. by intros []. }
  clear s Hs. intros [c|] s [Hgen Hread].
  2: { apply wp_ret. split; [done|]. intros ?. lia. }
  specialize (Hread ltac:(by eexists)). assert (forall s', view_of s' = view_of s -> generated_view v (view_of s')) as Hkeep
    by by intros s' ->.
  apply wp_bind. eapply (wp_mono _ (fun _ s' => view_of s' = view_of s)).
  { destruct (_ =? START_PARKING); [|destruct (_ =? END_PARKING)].
    - eapply wp_bind, wp_call_view; [reflexivity|]. intros a s' _ Hs'. by apply wp_ret.
    - eapply wp_bind, wp_call_view; [reflexivity|]. intros a s' _ Hs'. by apply wp_ret.
    - eapply wp_bind, wp_log_view; [reflexivity|]. intros s' Hs'. by apply wp_ret. }
  intros [m|] s1 Hs1; [|apply wp_ret; split; [by apply Hkeep|lia]].
  eapply wp_bind, wp_call_view; [reflexivity|]. intros a s2 _ Hs2. change (view_of s2 = view_of s1) in Hs2.
  destruct (negb _).
  - eapply wp_bind, wp_log_view; [reflexivity|]. intros s3 Hs3. apply wp_ret. split; [|lia].
    apply Hkeep. by rewrite Hs3, Hs2.
  - eapply wp_bind, wp_log_view; [reflexivity|]. intros s3 Hs3.
    eapply wp_bind, wp_call_view_; [reflexivity|]. intros a' s4 Hs4. change (view_of s4 = view_of s3) in Hs4.
    apply wp_bind, wp_modify, wp_ret. split; [|done].
    assert (generated_view v (view_of s4)) as [Hsame [_ Hreads]] by (apply Hkeep; by rewrite Hs4, Hs3, Hs2).
    split; [exact Hsame|]. split; [|exact Hreads]. apply Z.mod_pos_bound. reflexivity.
Qed.

Lemma generate_all_view k pipe i2c s v : (n - b_reads v < k)%nat -> view_of s = v -> 0 <= b_event v < TEST_EVENTS_COUNT ->
  wp (generate_messages k pipe i2c) (fun alive s' => alive = false /\ same_but_reads v (view_of s')) s.
Proof using Hkernel.
  revert s v. induction k as [|k IH]; intros s v Hk Hs He; [lia|]. cbn [generate_messages].
  apply wp_bind. eapply wp_mono; [by eapply generate_view|]. intros r s1 [(Hsame & He1 & Hr1) Hread].
  destruct (Z.eqb_spec r 0) as [->|]; cbn [negb]; [|by apply wp_ret].
  specialize (Hread eq_refl). eapply wp_bind, wp_call_view_; [reflexivity|]. intros a s2 Hs2.
  change (view_of s2 = view_of s1) in Hs2. eapply wp_mono; [apply (IH s2 (view_of s1)); [lia|exact Hs2|exact He1]|].
  intros alive s3 [-> (F1 & F2 & F3)]. destruct Hsame as (G1 & G2 & G3). split; [done|]. unfold same_but_reads.
  by rewrite F1, F2, F3.
Qed.

Lemma i2c_process_spec fuel fd s : (n < fuel)%nat -> bbg_log_fd s = -1 -> strings_terminated (bbg_config s) ->
  0 <= current_event s < TEST_EVENTS_COUNT -> 
  wp (i2c_process_run fuel fd) (fun r s' => (r = 0 \/ r = -1) /\
    descriptors (bbg_world s') = descriptors (bbg_world s) ∖ {[fd]} /\ bbg_log_fd s' = -1) s.
Proof using Hkernel.
  intros Hfuel Hlog (_ & _ & [path Hpath]) He. unfold i2c_process_run.
  apply wp_bind, wp_gets, wp_bind, (wp_from_option _ path); [done|]. apply wp_bind.
  eapply wp_mono; [by apply (logger_init_spec _ _ s _ eq_refl)|]. intros r s1 (log & Hfresh & Hr & Hs1).
  rewrite Hr. destruct (Z.eqb_spec log (-1)) as [->|Hlog1]; cbn [negb].
  { eapply wp_mono; [by eapply failed_logger_spec|]. intros r' s2 (-> & Hfds & Hl). cbn in *. by auto. }
  destruct Hfresh as [?|Hfresh]; [done|].
  assert (b_fds (with_log log (view_of s)) = {[log]} ∪ b_fds (view_of s)) as Hfds.
  { cbn. by rewrite (proj2 (Z.eqb_neq _ _) Hlog1). }
  eapply wp_bind, wp_log_view; [exact Hs1|]. clear s1 Hs1. intros s1 Hs1.
  apply wp_bind. eapply wp_mono; [by apply open_stm32_spec|]. intros i2c s2. cbv beta.
  destruct (Z.eqb_spec i2c (-1)) as [->|Hi2c].
  - intros Hs2. eapply wp_bind, wp_log_view; [exact Hs2|]. intros s3 Hs3.
    eapply wp_mono; [apply (finish_spec fd (-1) s3 _ (view_of s) Hs3); [exact Hlog1|exact Hfds|exact Hfresh]|].
    intros r' s4 (-> & Hf & Hl4). cbn in *. by auto.
  - intros [Hfresh2 Hs2]. apply wp_bind.
    eapply wp_mono; [apply (generate_all_view fuel fd i2c s2 (with_fds ({[i2c]} ∪ b_fds (with_log log (view_of s))) (with_log log (view_of s))));
      [cbn; lia|exact Hs2|exact He]|].
    intros alive s3 [-> (F1 & F2 & F3)]. cbn [b_fds b_log with_fds] in F1, F2.
    eapply wp_bind, wp_log_view; [reflexivity|]. intros s4 Hs4.
    eapply wp_bind, wp_call_view_; [exact Hs4|]. intros a s5 Hs5.
    eapply wp_mono; [apply (finish_spec fd 0 s5 _ (view_of s) Hs5)|].
    + change (b_log (view_of s3) <> -1). rewrite F2. exact Hlog1.
    + change (b_fds (view_of s3) ∖ {[i2c]} = {[b_log (view_of s3)]} ∪ b_fds (view_of s)). rewrite F1, F2.
      rewrite Hfds in Hfresh2 |- *. change (b_log (with_log log (view_of s))) with log. clear -Hfresh2. set_solver.
    + change (b_log (view_of s3) ∉ b_fds (view_of s)). rewrite F2. exact Hfresh.
    + intros r' s6 (-> & Hf & Hl6). cbn in *. by auto.
Qed.
End Rules.

(** ** Configuration *)
Lemma setting_no_nul config key (unset : string) : no_nul (bs unset) ->
  no_nul (default (bs unset) (config_get_string config key (Some (bs unset)))).
Proof.
  intros Hn. unfold config_get_string. destruct (config_find_entry config key); [|exact Hn]. apply until_nul_no_nul.
Qed.

Lemma loaded_strings config c : load_bbg_client_configuration config = Some c -> strings_terminated c.
Proof.
  destruct config as [config|]; [|done]. intros [= <-]. unfold strings_terminated. cbn [server_address tcp_log_file i2c_log_file].
  assert (forall s, forallb (fun c => negb (bool_decide (c = NUL))) s = true -> no_nul s) as Hcheck.
  { intros l Hl Hin. pose proof (proj1 (forallb_forall _ _) Hl NUL (proj1 (list_elem_of_In _ _) Hin)) as Hc. done. }
  split; [|split]; (rewrite cstr_of_copy_cstr; [by eexists| |unfold BBG_CLIENT_IPV4_ADDRESS_SIZE, BBG_CLIENT_FILE_PATH_SIZE; lia]);
    apply setting_no_nul, Hcheck; reflexivity.
Qed.

(** The client's configuration.  Whatever the file says, the address and
    the two paths are stored as terminated strings in their buffers, cut to
    what fits; the port is the number of the file modulo 2^16; absent settings
    have their defaults. *)
Theorem client_configuration (config : config_t) :
  let text key unset := default (bs unset) (config_get_string (Some config) (Some (bs key)) (Some (bs unset))) in
  exists c, load_bbg_client_configuration (Some config) = Some c /\
    length (server_address c) = 16%nat /\ length (tcp_log_file c) = 256%nat /\ length (i2c_log_file c) = 256%nat /\
    cstr_of_buf (server_address c) = Some (take 15 (text "server_address" "127.0.0.1")) /\
    cstr_of_buf (tcp_log_file c) = Some (take 255 (text "tcp_log_file" "../Logs/bbg_tcp.log")) /\
    cstr_of_buf (i2c_log_file c) = Some (take 255 (text "i2c_log_file" "../Logs/bbg_i2c.log")) /\
    0 <= server_port c < 2 ^ 16 /\
    (exists k, config_get_int BBG_LONG_BITS (Some config) (Some (bs "server_port")) 5000 = server_port c + 2 ^ 16 * k).
Proof.
  cbn zeta. eexists. split; [reflexivity|]. cbn [server_address tcp_log_file i2c_log_file server_port].
  assert (forall s, forallb (fun c => negb (bool_decide (c = NUL))) s = true -> no_nul s) as Hcheck.
  { intros l Hl Hin. pose proof (proj1 (forallb_forall _ _) Hl NUL (proj1 (list_elem_of_In _ _) Hin)) as Hc. done. }
  split; [by apply length_copy_cstr; unfold BBG_CLIENT_IPV4_ADDRESS_SIZE; lia|].
  do 2 (split; [by apply length_copy_cstr; unfold BBG_CLIENT_FILE_PATH_SIZE; lia|]).
  split; [|split; [|split; [|split]]].
  - apply (cstr_of_copy_cstr 16); [|lia]. apply setting_no_nul, Hcheck. reflexivity.
  - apply (cstr_of_copy_cstr 256); [|lia]. apply setting_no_nul, Hcheck. reflexivity.
  - apply (cstr_of_copy_cstr 256); [|lia]. apply setting_no_nul, Hcheck. reflexivity.
  - by apply wrap_u_range.
  - unfold wrap_u. generalize (config_get_int BBG_LONG_BITS (Some config) (Some (bs "server_port")) 5000). intros z.
    exists (z `div` 2 ^ 16). pose proof (Z.div_mod z (2 ^ 16) ltac:(lia)). lia.
Qed.

(** ** The program *)
Section Program.
Context `{Environment} (n : nat) (Hkernel : bbg_kernel _ n).
Implicit Types (s : bbg_process) (v : bview).

Lemma wp_config_load_view path (Q : Z * option config_t -> bbg_process -> Prop) s v : view_of s = v ->
  (forall r config s', view_of s' = v -> Q (r, Some config) s') ->
  wp (in_world (config_load (Some (Config [])) (Some path))) Q s.
Proof.
  intros <- HQ. apply (wp_zoom bbg_world (fun w s => s <| bbg_world := w |>)). unfold config_load.
  apply wp_bind, wp_sys. set (a := respond _ _). destruct (ans_ret a =? 0).
  - apply wp_ret, HQ. done.
  - edestruct (config_lines_wf (config_fuel (ans_data a)) (ans_data a) []) as (r & es & -> & _);
      [unfold config_fuel; lia|unfold CONFIG_MAX_ENTRIES; cbn; lia|constructor|].
    apply wp_bind, wp_sys_, wp_ret, HQ. done.
Qed.

(** What every way out of the client leaves: the descriptors it found. *)
Definition left_clean (fds : gset Z) (r : Z) (s : bbg_process) : Prop :=
  (r = 0 \/ r = -1) /\ descriptors (bbg_world s) = fds /\ bbg_log_fd s = -1.

Lemma complain_clean text fds s : descriptors (bbg_world s) = fds -> bbg_log_fd s = -1 ->
  wp (complain text;; mret (-1)) (left_clean fds) s.
Proof.
  intros Hfds Hlog. eapply wp_bind, wp_call_view_; [reflexivity|]. intros a s2 Hs2.
  change (view_of s2 = view_of s) in Hs2. apply wp_ret. injection Hs2 as E1 _ E2 _ _.
  split; [by auto|]. split; congruence.
Qed.

Lemma client_close_spec fd (Q : unit -> bbg_process -> Prop) s :
  (forall s', descriptors (bbg_world s') = descriptors (bbg_world s) ∖ {[fd]} -> bbg_log_fd s' = bbg_log_fd s ->
    bbg_config s' = bbg_config s -> current_event s' = current_event s -> Q tt s') ->
  wp (call_ (sys_close fd)) Q s.
Proof.
  intros HQ. eapply wp_call_view_; [reflexivity|]. intros a s' Hs'. injection Hs' as E1 _ E2 E3 E4. by apply HQ.
Qed.

(** Both ends of the pipe are open after [fork]: each process closes the end it
    does not use, and its own when it is done. *)
Lemma client_forked fuel rd wr process_id fds s : (n < fuel)%nat -> bbg_log_fd s = -1 ->
  strings_terminated (bbg_config s) -> 0 <= current_event s < TEST_EVENTS_COUNT ->
  descriptors (bbg_world s) = {[rd]} ∪ ({[wr]} ∪ fds) -> (rd ∉ fds) -> (wr ∉ fds) ->
  wp (if process_id =? -1 then
        complain (bs "Failed to create child process." ++ [Byte.x0a]);;
        call_ (sys_close rd);; call_ (sys_close wr);; mret (-1)
      else if process_id =? 0 then call_ (sys_close rd);; i2c_process_run fuel wr
      else call_ (sys_close wr);; tcp_process_run fuel rd) (left_clean fds) s.
Proof using Hkernel.
  intros Hfuel Hlog Hc He Hfds F1 F2.
  destruct (process_id =? -1); [|destruct (process_id =? 0)].
  - eapply wp_bind, wp_call_view_; [reflexivity|]. intros a s1 Hs1. change (view_of s1 = view_of s) in Hs1.
    injection Hs1 as E1 _ E2 _ _. apply wp_bind, client_close_spec. intros s2 G1 G2 _ _.
    apply wp_bind, client_close_spec. intros s3 G3 G4 _ _. apply wp_ret. split; [by auto|].
    rewrite G3, G1, E1, Hfds. split; [clear -F1 F2; set_solver|congruence].
  - apply wp_bind, client_close_spec. intros s1 G1 G2 G3 G4.
    eapply wp_mono; [by apply (i2c_process_spec n Hkernel); [done| |rewrite G3|rewrite G4]; try congruence|].
    intros r s2 (Hr & Hd & Hl). split; [exact Hr|]. split; [|exact Hl].
    rewrite Hd, G1, Hfds. clear -F1 F2. set_solver.
  - apply wp_bind, client_close_spec. intros s1 G1 G2 G3 G4.
    eapply wp_mono; [by apply (tcp_process_spec n Hkernel); [done| |rewrite G3]; try congruence|].
    intros r s2 (Hr & Hd & Hl). split; [exact Hr|]. split; [|exact Hl].
    rewrite Hd, G1, Hfds. clear -F1 F2. set_solver.
Qed.

Lemma client_run_spec fuel path s : (n < fuel)%nat -> bbg_log_fd s = -1 -> 0 <= current_event s < TEST_EVENTS_COUNT ->
  wp (bbg_client_run fuel path) (left_clean (descriptors (bbg_world s))) s.
Proof using Hkernel.
  intros Hfuel Hlog He. unfold bbg_client_run. destruct path as [path|]; [|by apply complain_clean].
  eapply wp_bind, wp_config_load_view; [reflexivity|]. intros r config s1 Hs1. injection Hs1 as E1 _ E2 _ E3.
  rewrite <- E1, <- E2, <- E3 in *. clear E1 E2 E3 s.
  destruct (negb _); [by apply complain_clean|].
  destruct (load_bbg_client_configuration (Some config)) as [c|] eqn:Ec; [|by apply complain_clean].
  apply loaded_strings in Ec. apply wp_bind, wp_modify.
  eapply wp_bind, (wp_sys_view n Hkernel); [reflexivity|]. intros p s2 Hp Hs2.
  cbn [bbg_answer] in Hp. revert Hp Hs2. unfold view_call, view_of.
  cbn [b_fds b_log b_config b_event b_reads bbg_world bbg_log_fd bbg_config current_event set_field bbg_process_fields].
  destruct (Z.eqb_spec (ans_ret p) (-1)) as [E|E].
  { intros _ Hs2. injection Hs2 as G1 _ G2 _ _. apply complain_clean; congruence. }
  intros [?|(F1 & F2 & _)] Hs2; [done|]. injection Hs2 as G1 _ G2 G3 G4.
  eapply wp_bind, (wp_call_view n Hkernel); [reflexivity|]. intros f s3 _ Hs3.
  injection Hs3 as J1 _ J2 J3 J4. cbn [is_read] in *.
  apply client_forked; [done|congruence|by rewrite J3, G3|by rewrite J4, G4|by rewrite J1, G1|done|done].
Qed.
End Program.

(** C28: the client from start to end, for both processes the fork leaves.  When
    the pipe is closed, or the device stops answering, after at most [n] reads,
    the program ends with 0 or -1, and every descriptor it obtained is closed:
    sockets, log file, device and both ends of the pipe, whichever calls fail. *)
Theorem client_closes_descriptors `{Environment} (n fuel : nat) (path : option (list byte)) (s : bbg_process) :
  bbg_kernel _ n -> (n < fuel)%nat -> bbg_log_fd s = -1 -> 0 <= current_event s < TEST_EVENTS_COUNT ->
  wp (bbg_client_run fuel path) (fun r s' => (r = 0 \/ r = -1) /\
    descriptors (bbg_world s') = descriptors (bbg_world s) /\ bbg_log_fd s' = -1) s.
Proof. intros Hkernel. by apply client_run_spec. Qed.

(** ** A run *)

(** A system that answers with fresh descriptors: the first read gives a
    parked request or a coordinate, the next ones nothing, and the server
    answers with zeros. *)
Definition next_descriptor (w : world) : Z := foldr Z.max 2 (elements (descriptors w)) + 1.

Definition small_kernel (forked : Z) : Environment := fun w c =>
  let fresh := next_descriptor w in
  match c with
  | sys_socket | sys_open _ _ => ok fresh
  | sys_pipe => if fresh <? 2 ^ 30 then Answer 0 0 (le_bytes 4 fresh ++ le_bytes 4 (fresh + 1)) ∅ else failed 24
  | sys_fork => ok forked
  | sys_inet_pton _ => ok 1
  | sys_send _ data _ | sys_write _ data => ok (Z.of_nat (length data))
  | sys_read _ n =>
      if (calls is_read w =? 0)%nat then
        Answer n 0 (encode_request (event_request (event START_PARKING "12-345-67" 5) 1
          (received_coordinate (GpsSimulator.at_thousandths 39100 39300)) 100)) ∅
      else ok 0
  | sys_recv _ n => Answer n 0 (replicate (Z.to_nat n) NUL) ∅
  | _ => ok 0
  end.

Lemma below_next w fd : fd ∈ descriptors w -> fd < next_descriptor w.
Proof.
  intros Hfd%elem_of_elements. unfold next_descriptor. induction (elements (descriptors w)) as [|x l IH]; [by apply not_elem_of_nil in Hfd|].
  cbn [foldr]. apply elem_of_cons in Hfd as [->|Hfd]; [lia|]. specialize (IH Hfd). lia.
Qed.

Lemma next_descriptor_fresh w k : 0 <= k -> (next_descriptor w + k ∉ descriptors w).
Proof. intros Hk Hin%below_next. lia. Qed.

Lemma next_descriptor_pos w : 2 < next_descriptor w.
Proof.
  unfold next_descriptor. assert (2 <= foldr Z.max 2 (elements (descriptors w))); [|lia].
  induction (elements (descriptors w)); cbn [foldr]; lia.
Qed.

Lemma pipe_end_descriptor r fd fd' : 0 <= fd < 2 ^ 31 -> 0 <= fd' < 2 ^ 31 ->
  pipe_end (Answer r 0 (le_bytes 4 fd ++ le_bytes 4 fd') ∅) PIPE_READ_END = fd /\
  pipe_end (Answer r 0 (le_bytes 4 fd ++ le_bytes 4 fd') ∅) PIPE_WRITE_END = fd'.
Proof.
  intros H1 H2. unfold pipe_end. cbn [ans_data]. change (4 * PIPE_READ_END)%nat with 0%nat.
  change (4 * PIPE_WRITE_END)%nat with 4%nat. rewrite bytes_at_here by apply length_le_bytes.
  rewrite bytes_at_skip by (rewrite length_le_bytes; lia). rewrite length_le_bytes, bytes_at_end by apply length_le_bytes.
  rewrite !le_val_bytes_small by (change (256 ^ Z.of_nat 4) with (2 ^ 32); lia).
  split; apply wrap_s_small; change (2 ^ (32 - 1)) with (2 ^ 31); lia.
Qed.

Lemma small_kernel_lawful forked : bbg_kernel (small_kernel forked) 1.
Proof.
  intros s c. unfold respond, small_kernel. set (w := bbg_world s).
  pose proof (next_descriptor_fresh w 0 ltac:(lia)) as Hfresh. rewrite Z.add_0_r in Hfresh.
  pose proof (next_descriptor_pos w) as Hpos.
  destruct c; cbn [bbg_answer]; try exact I; cbn [ok ans_ret view_of b_fds b_reads]; fold w; [by right| | |by right|].
  - intros Hread. rewrite (proj2 (Nat.eqb_neq _ _)) by lia. cbn. split; [lia|done].
  - destruct (Z.ltb_spec (next_descriptor w) (2 ^ 30)) as [Hlt|Hlt]; [right|by left].
    destruct (pipe_end_descriptor 0 (next_descriptor w) (next_descriptor w + 1)) as [-> ->]; [lia..|].
    split; [exact Hfresh|]. split; [apply next_descriptor_fresh; lia|lia].
  - intros ->. vm_compute. by eexists.
Qed.

Lemma client_closes_descriptors_witness :
  wp (@bbg_client_run (small_kernel 77) 2 (Some (bs "Config/bbg_client.conf"))) (fun r s' => (r = 0 \/ r = -1) /\
    descriptors (bbg_world s') = ∅ /\ bbg_log_fd s' = -1) bbg_start /\
  wp (@bbg_client_run (small_kernel 0) 2 (Some (bs "Config/bbg_client.conf"))) (fun r s' => (r = 0 \/ r = -1) /\
    descriptors (bbg_world s') = ∅ /\ bbg_log_fd s' = -1) bbg_start.
Proof.
  split.
  - refine (@client_closes_descriptors (small_kernel 77) 1 2 _ bbg_start (small_kernel_lawful 77) _ eq_refl _); [lia|vm_compute; split; congruence].
  - refine (@client_closes_descriptors (small_kernel 0) 1 2 _ bbg_start (small_kernel_lawful 0) _ eq_refl _); [lia|vm_compute; split; congruence].
Defined.
