(* ===== verification/Scanf.v ===== *)
(** Scanf: the conversions [%d] and [%lf] of [scanf] on the unread bytes of a
    stream.  An input item is the longest prefix that is, or begins, a number;
    it is taken from the stream even when it is not a whole number and the
    conversion fails. *)

From S2P Require Import Prelude Machine CLib CNumber Ieee.

(** ** [%d] *)
Definition scan_sign (s : list byte) : bool * list byte :=
  match s with
  | c :: s' =>
      if decide (c = Byte.x2d) then (true, s') else if decide (c = Byte.x2b) then (false, s') else (false, s)
  | [] => (false, [])
  end.

(** The value is that of [strtol], of which an [int] keeps the low 32 bits. *)
Definition scan_int (long_bits : Z) (s : list byte) : option Z * list byte :=
  let '(neg, t) := scan_sign (skip_space s) in
  match t with
  | c :: _ =>
      if is_digit c then
        let '(v, rest) := scan_digits 0 t in
        let v := if neg : bool then - v else v in
        (Some (s32 (Z.max (- 2 ^ (long_bits - 1)) (Z.min (2 ^ (long_bits - 1) - 1) v))), rest)
      else (None, t)
  | [] => (None, t)
  end.

(** ** [%lf] *)
Definition to_lower (c : byte) : byte :=
  if (65 <=? byte_val c) && (byte_val c <=? 90) then byte_of_Z (byte_val c + 32) else c.

Definition digit_in (base : Z) (c : byte) : option Z :=
  if is_digit c then Some (digit_val c)
  else
    let v := byte_val (to_lower c) - 87 in
    if (base =? 16) && (10 <=? v) && (v <=? 15) then Some v else None.

(** The value of a run of digits after [acc], how many they are, and the rest. *)
Fixpoint scan_run (base acc n : Z) (s : list byte) : Z * Z * list byte :=
  match s with
  | c :: s' =>
      match digit_in base c with
      | Some d => scan_run base (base * acc + d) (n + 1) s'
      | None => (acc, n, s)
      end
  | [] => (acc, n, [])
  end.

(** [m * b^e], rounded once. *)
Definition scaled (m b e : Z) : double :=
  if 0 <=? e then double_lit (m * b ^ e) 1 else double_lit m (b ^ (- e)).

(** Digits with an optional point and an optional exponent; a digit of the
    fraction is worth [per_digit] in the exponent of [radix]. *)
Definition scan_magnitude (base radix per_digit : Z) (marker : byte) (s : list byte) : option double * list byte :=
  let '(whole, n, s) := scan_run base 0 0 s in
  let '(m, f, s) :=
    match s with
    | c :: s' => if decide (c = Byte.x2e) then scan_run base whole 0 s' else (whole, 0, s)
    | [] => (whole, 0, [])
    end in
  if n + f =? 0 then (None, s)
  else
    match s with
    | c :: s' =>
        if decide (to_lower c = marker) then
          let '(neg, s) := scan_sign s' in
          let '(e, k, s) := scan_run 10 0 0 s in
          if k =? 0 then (None, s)
          else (Some (scaled m radix ((if neg : bool then - e else e) - per_digit * f)), s)
        else (Some (scaled m radix (- (per_digit * f))), s)
    | [] => (Some (scaled m radix (- (per_digit * f))), [])
    end.

(** How many letters of [word] the stream begins with, in either case. *)
Fixpoint scan_word (word s : list byte) : nat * list byte :=
  match word, s with
  | w :: word, c :: s' =>
      if decide (to_lower c = w) then let '(n, rest) := scan_word word s' in (S n, rest) else (O, s)
  | _, _ => (O, s)
  end.

Definition is_word_char (c : byte) : bool :=
  is_digit c || ((97 <=? byte_val (to_lower c)) && (byte_val (to_lower c) <=? 122)) || (byte_val c =? 95).

Fixpoint skip_word (s : list byte) : list byte :=
  match s with
  | c :: s' => if is_word_char c then skip_word s' else s
  | [] => []
  end.

Definition scan_unsigned (s : list byte) : option double * list byte :=
  match s with
  | [] => (None, [])
  | c :: s' =>
      if decide (to_lower c = Byte.x69) then
        let '(n, rest) := scan_word (bs "infinity") s in
        ((if (n =? 3)%nat || (n =? 8)%nat then Some (S754_infinity false) else None), rest)
      else if decide (to_lower c = Byte.x6e) then
        match scan_word (bs "nan") s with
        | (3%nat, p :: rest) =>
            if decide (p = Byte.x28) then
              match skip_word rest with
              | q :: rest => if decide (q = Byte.x29) then (Some S754_nan, rest) else (None, q :: rest)
              | [] => (None, [])
              end
            else (Some S754_nan, p :: rest)
        | (n, rest) => ((if (n =? 3)%nat then Some S754_nan else None), rest)
        end
      else
        match s with
        | z :: x :: rest =>
            if decide (z = Byte.x30) then
              if decide (to_lower x = Byte.x78) then scan_magnitude 16 2 4 Byte.x70 rest
              else scan_magnitude 10 10 1 Byte.x65 s
            else scan_magnitude 10 10 1 Byte.x65 s
        | _ => scan_magnitude 10 10 1 Byte.x65 s
        end
  end.

Definition scan_double (s : list byte) : option double * list byte :=
  let '(neg, t) := scan_sign (skip_space s) in
  let '(r, rest) := scan_unsigned t in
  ((if neg : bool then SFopp else fun x => x) <$> r, rest).

(** ** Nothing is read twice *)
Lemma suffix_skip_space s : skip_space s `suffix_of` s.
Proof. induction s as [|c s IH]; cbn; [done|]. destruct (is_space c); [by apply suffix_cons_r|done]. Qed.

Lemma suffix_scan_sign s : (scan_sign s).2 `suffix_of` s.
Proof. destruct s as [|c s]; cbn; [done|]. repeat case_decide; cbn; first [done | by apply suffix_cons_r]. Qed.

Lemma suffix_scan_digits a s : (scan_digits a s).2 `suffix_of` s.
Proof.
  revert a. induction s as [|c s IH]; intros a; cbn; [done|].
  destruct (is_digit c); [by apply suffix_cons_r|done].
Qed.

Lemma suffix_scan_int w s : (scan_int w s).2 `suffix_of` s.
Proof.
  unfold scan_int. pose proof (suffix_scan_sign (skip_space s)) as H1. pose proof (suffix_skip_space s) as H2.
  destruct (scan_sign _) as [neg t]. cbn [snd] in H1. destruct t as [|c t]; [by etrans|].
  destruct (is_digit c); [|by etrans]. pose proof (suffix_scan_digits 0 (c :: t)) as H3.
  destruct (scan_digits 0 (c :: t)) as [v rest]. cbn [snd] in *. by etrans; [|etrans].
Qed.

Lemma suffix_scan_run base a n s : (scan_run base a n s).2 `suffix_of` s.
Proof.
  revert a n. induction s as [|c s IH]; intros a n; cbn; [done|].
  destruct (digit_in base c); [by apply suffix_cons_r|done].
Qed.

Lemma suffix_scan_magnitude base radix per marker s : (scan_magnitude base radix per marker s).2 `suffix_of` s.
Proof.
  unfold scan_magnitude. pose proof (suffix_scan_run base 0 0 s) as H1.
  destruct (scan_run base 0 0 s) as [[whole n] s1]. cbn [snd] in H1.
  assert (forall x : Z * Z * list byte, x.2 `suffix_of` s1 -> (let '(m, f, s) := x in
    if n + f =? 0 then (None, s)
    else match s with
    | c :: s' =>
        if decide (to_lower c = marker) then
          let '(neg, s) := scan_sign s' in
          let '(e, k, s) := scan_run 10 0 0 s in
          if k =? 0 then (None, s)
          else (Some (scaled m radix ((if neg : bool then - e else e) - per * f)), s)
        else (Some (scaled m radix (- (per * f))), s)
    | [] => (Some (scaled m radix (- (per * f))), [])
    end).2 `suffix_of` s) as Hrest.
  { intros [[m f] s2] H2. cbn [snd] in H2. destruct (n + f =? 0); [by etrans|].
    destruct s2 as [|c s2]; [by etrans|]. destruct (decide _); [|by etrans].
    pose proof (suffix_scan_sign s2) as H3. destruct (scan_sign s2) as [neg s3]. cbn [snd] in H3.
    pose proof (suffix_scan_run 10 0 0 s3) as H4. destruct (scan_run 10 0 0 s3) as [[ex k] s4]. cbn [snd] in H4.
    assert (s4 `suffix_of` s) as H5.
    { etrans; [exact H4|]. etrans; [exact H3|]. etrans; [|etrans; [exact H2|exact H1]]. by apply suffix_cons_r. }
    by destruct (k =? 0). }
  apply Hrest. destruct s1 as [|c s1]; [done|]. destruct (decide _); [|done].
  apply suffix_cons_r, suffix_scan_run.
Qed.

Lemma suffix_scan_word word s : (scan_word word s).2 `suffix_of` s.
Proof.
  revert s. induction word as [|w word IH]; intros [|c s]; cbn; try done.
  case_decide; [|done]. specialize (IH s). destruct (scan_word word s) as [n rest]. by apply suffix_cons_r.
Qed.

Lemma suffix_skip_word s : skip_word s `suffix_of` s.
Proof. induction s as [|c s IH]; cbn; [done|]. destruct (is_word_char c); [by apply suffix_cons_r|done]. Qed.

Lemma suffix_scan_unsigned s : (scan_unsigned s).2 `suffix_of` s.
Proof.
  unfold scan_unsigned. destruct s as [|c s]; [done|].
  destruct (decide _).
  { pose proof (suffix_scan_word (bs "infinity") (c :: s)) as Hw. by destruct (scan_word _ _). }
  destruct (decide _).
  { pose proof (suffix_scan_word (bs "nan") (c :: s)) as Hw. destruct (scan_word _ _) as [k rest]. cbn [snd] in Hw.
    destruct k as [|[|[|[|k]]]]; try done. destruct rest as [|p rest]; [done|]. destruct (decide _); [|done].
    pose proof (suffix_skip_word rest) as Hs. destruct (skip_word rest) as [|q rest'].
    - apply suffix_nil.
    - assert (q :: rest' `suffix_of` c :: s) as Hq by (etrans; [|exact Hw]; by apply suffix_cons_r).
      destruct (decide _); [|done]. cbn [snd]. etrans; [|exact Hq]. by apply suffix_cons_r. }
  destruct s as [|x s]; [apply suffix_scan_magnitude|].
  destruct (decide _); [|apply suffix_scan_magnitude]. destruct (decide _); [|apply suffix_scan_magnitude].
  etrans; [apply suffix_scan_magnitude|]. by do 2 apply suffix_cons_r.
Qed.

Lemma suffix_scan_double s : (scan_double s).2 `suffix_of` s.
Proof.
  unfold scan_double. pose proof (suffix_scan_sign (skip_space s)) as H1. pose proof (suffix_skip_space s) as H2.
  destruct (scan_sign _) as [neg t]. cbn [snd] in H1. pose proof (suffix_scan_unsigned t) as H3.
  destruct (scan_unsigned t) as [r rest]. cbn [snd] in *. by etrans; [|etrans].
Qed.

(** ** Reading back what [printf] wrote *)
Lemma scan_digits_stop acc l c rest : Forall (fun c => is_digit c = true) l -> is_digit c = false ->
  scan_digits acc (l ++ c :: rest) = (fold_left (fun a c => 10 * a + digit_val c) l acc, c :: rest).
Proof. intros Hl Hc. rewrite scan_digits_app by done. cbn [scan_digits]. by rewrite Hc. Qed.

Lemma scan_int_dec_of_Z w z c rest : 32 <= w <= 64 -> in_int z = true -> is_digit c = false ->
  scan_int w (dec_of_Z z ++ c :: rest) = (Some z, c :: rest).
Proof.
  intros Hw Hz Hc. unfold in_int, INT_MIN, INT_MAX in Hz.
  assert (2 ^ 31 <= 2 ^ (w - 1)) by (apply Z.pow_le_mono_r; lia).
  assert (2 ^ 31 < 10 ^ 20) by (vm_compute; done).
  unfold dec_of_Z, scan_int. destruct (Z.ltb_spec z 0) as [Hneg|Hpos].
  - destruct (dec_digits_hd 19 (- z) ltac:(lia)) as (d & l & El & Hd).
    change ((Byte.x2d :: dec_digits 20 (- z)) ++ c :: rest) with (Byte.x2d :: dec_digits 20 (- z) ++ c :: rest).
    assert (scan_sign (skip_space (Byte.x2d :: dec_digits 20 (- z) ++ c :: rest)) = (true, dec_digits 20 (- z) ++ c :: rest)) as -> by done.
    rewrite (scan_digits_stop 0 _ c rest) by first [exact Hc | apply dec_digits_all; lia].
    rewrite dec_digits_value by lia. rewrite El. cbn [app]. rewrite Hd. f_equal. f_equal.
    rewrite Z.opp_involutive. rewrite Z.min_r, Z.max_r by lia. apply s32_small. unfold in_int, INT_MIN, INT_MAX. lia.
  - destruct (dec_digits_hd 19 z ltac:(lia)) as (d & l & El & Hd).
    pose proof (digit_not_sign d Hd) as (Hs & N1 & N2 & _).
    assert (scan_sign (skip_space (dec_digits 20 z ++ c :: rest)) = (false, dec_digits 20 z ++ c :: rest)) as ->.
    { rewrite El. cbn [app skip_space]. rewrite Hs. cbn [scan_sign]. by rewrite !decide_False. }
    rewrite (scan_digits_stop 0 _ c rest) by first [exact Hc | apply dec_digits_all; lia].
    rewrite dec_digits_value by lia. rewrite El. cbn [app]. rewrite Hd. f_equal. f_equal.
    rewrite Z.min_r, Z.max_r by lia. apply s32_small. unfold in_int, INT_MIN, INT_MAX. lia.
Qed.

Example scan_int_menu : scan_int 64 (bs " 42abc") = (Some 42, bs "abc").
Proof. vm_compute. reflexivity. Qed.
Example scan_int_sign : scan_int 64 (bs "+x") = (None, bs "x").
Proof. vm_compute. reflexivity. Qed.
Example scan_double_price : scan_double (bs " 0.75 ") = (Some (double_lit 75 100), bs " ").
Proof. vm_compute. reflexivity. Qed.
Example scan_double_exponent : scan_double (bs "-12.5e+1;") = (Some (double_lit (-125) 1), bs ";").
Proof. vm_compute. reflexivity. Qed.
Example scan_double_hex : scan_double (bs "0x1.8p1 ") = (Some (double_lit 3 1), bs " ").
Proof. vm_compute. reflexivity. Qed.
Example scan_double_partial : scan_double (bs "1e+ ") = (None, bs " ").
Proof. vm_compute. reflexivity. Qed.
Example scan_double_inf : scan_double (bs "-Inf ") = (Some (S754_infinity true), bs " ").
Proof. vm_compute. reflexivity. Qed.
Example scan_double_nan : scan_double (bs "nan(x) ") = (Some S754_nan, bs " ").
Proof. vm_compute. reflexivity. Qed.
