(* ===== verification/PriceUpdater.v ===== *)
(** PriceUpdater (src/PriceUpdater): the interactive program that changes the
    cities of the parking database and tells the Database process about it. *)

From S2P Require Import Prelude Machine CLib CNumber Ieee Scanf Posix Config Logger.
From S2P Require Import Sqlite SqliteDatabase.

Definition CONFIG_FILE_PATH : list byte := bs "../Config/parking_system.conf".
Definition PRICE_UPDATER_LOG_FILE_KEY : list byte := bs "PRICE_UPDATER_LOG_FILE".
Definition ENABLE_CONSOLE_LOGGING_KEY : list byte := bs "ENABLE_CONSOLE_LOGGING".
Definition CITY_NAME_LENGTH : nat := 64.
Definition PID_FILE_PATH_SIZE : nat := 256.

(** A [long] of the Linux host has 64 bits. *)
Definition HOST_LONG_BITS : Z := 64.

(** The process: what is still to be read from standard input, the SQLite
    connection, the logger and the system. *)
Record updater `{Sqlite} := Updater {
  up_stdin : list byte;
  up_handle : Z;
  up_sqlite : sqlite;
  up_log_fd : Z;
  up_console : Z;
  up_world : world;
}.

#[export] Instance updater_fields `{Sqlite} : Fields updater := fun s =>
  Updater _ (up_stdin s) (up_handle s) (up_sqlite s) (up_log_fd s) (up_console s) (up_world s).

Definition line (text : list byte) : list byte := text ++ [Byte.x0a].

(** [s] from the character after its next newline. *)
Fixpoint after_newline (s : list byte) : list byte :=
  match s with
  | [] => []
  | c :: s => if decide (c = Byte.x0a) then s else after_newline s
  end.

Section Updater.
Context `{Environment} `{Sqlite}.

Definition in_world {A} (m : M world A) : M updater A :=
  zoom up_world (fun w s => s <| up_world := w |>) m.
Definition in_sqlite {A} (m : M database A) : M updater A :=
  zoom (fun s => DB _ (up_handle s) (up_sqlite s) (up_world s))
       (fun d s => s <| up_handle := db_handle d |> <| up_sqlite := db_sqlite d |>
                     <| up_world := db_world d |>) m.
Definition in_logger {A} (m : M logger A) : M updater A :=
  zoom (fun s => LoggerState (up_log_fd s) (up_console s) (up_world s))
       (fun l s => s <| up_log_fd := log_fd l |> <| up_console := console_output_enabled l |>
                     <| up_world := logger_world l |>) m.
Definition log_info (f : string) : M updater unit := in_world (LOG_INFO f).
Definition log_error (f : string) : M updater unit := in_world (LOG_ERROR f).
Definition call (c : syscall) : M updater Z := in_world (sysr c).
Definition call_ (c : syscall) : M updater unit := in_world (sys_ c).

(** [printf] and [fprintf(stderr, ...)], each as one write. *)
Definition print (text : list byte) : M updater unit := call_ (sys_write STDOUT_FILENO text).
Definition complain (text : list byte) : M updater unit := call_ (sys_write STDERR_FILENO text).

(** ** Standard input *)
Definition fgets_stdin (size : nat) : M updater (option (list byte)) :=
  s ← gets up_stdin;
  match fgets size s with
  | None => mret None
  | Some (l, rest) => modify (fun s => s <| up_stdin := rest |>);; mret (Some l)
  end.

Definition scanf {A} (conversion : list byte -> option A * list byte) : M updater (option A) :=
  s ← gets up_stdin;
  let '(r, rest) := conversion s in
  modify (fun s => s <| up_stdin := rest |>);;
  mret r.

Definition clear_input_buffer : M updater unit := modify (fun s => s <| up_stdin ::= after_newline |>).

Definition show_menu : M updater unit :=
  print (line []);;
  print (line (bs "====================================="));;
  print (line (bs "       Parking Price Updater"));;
  print (line (bs "====================================="));;
  print (line (bs "1. Add city"));;
  print (line (bs "2. Update city price"));;
  print (line (bs "3. Delete city"));;
  print (line (bs "4. Exit"));;
  print (line []);;
  print (bs "Select: ").

(** The name asked for at the start of each operation; [None] where the
    operation returns -1. *)
Definition read_city_name : M updater (option (list byte)) :=
  print (bs "City name: ");;
  l ← fgets_stdin CITY_NAME_LENGTH;
  match l with
  | None => log_error "Failed to read city name.";; mret None
  | Some l =>
      let text := until_nul l in
      let city := take (strcspn Byte.x0a text) text in
      if decide (city = []) then log_error "City name cannot be empty.";; mret None
      else mret (Some city)
  end.

(** A number asked for with [prompt]; [None] where the operation returns -1. *)
Definition read_number (prompt error : string) : M updater (option double) :=
  print (bs prompt);;
  r ← scanf scan_double;
  match r with
  | None => log_error error;; clear_input_buffer;; mret None
  | Some x => clear_input_buffer;; mret (Some x)
  end.

(** The rest of an operation, or its return of -1. *)
Definition given {A} (m : M updater (option A)) (f : A -> M updater Z) : M updater Z :=
  r ← m; match r with Some a => f a | None => mret (-1) end.

(** ** Operations *)
Definition add_city (p : pointer) : M updater Z :=
  if is_null p then log_error "SQLite database object is NULL.";; mret (-1)
  else
    log_info "Add city operation started.";;
    print (Byte.x0a :: line (bs "=== Add City ==="));;
    given read_city_name (fun city =>
    given (read_number "Minimum latitude: " "Invalid minimum latitude.") (fun min_latitude =>
    given (read_number "Maximum latitude: " "Invalid maximum latitude.") (fun max_latitude =>
    given (read_number "Minimum longitude: " "Invalid minimum longitude.") (fun min_longitude =>
    given (read_number "Maximum longitude: " "Invalid maximum longitude.") (fun max_longitude =>
    given (read_number "Price per minute: " "Invalid parking price.") (fun price_per_minute =>
      result ← in_sqlite (sqlite_database_add_city p (Some city) min_latitude max_latitude
                            min_longitude max_longitude price_per_minute);
      if negb (result =? 0) then log_error "Failed to add city '%s'.";; mret (-1)
      else mret 0)))))).

Definition update_city_price (p : pointer) : M updater Z :=
  if is_null p then log_error "SQLite database object is NULL.";; mret (-1)
  else
    log_info "Update city price operation started.";;
    print (Byte.x0a :: line (bs "=== Update City Price ==="));;
    given read_city_name (fun city =>
    given (read_number "New price per minute: " "Invalid parking price.") (fun price_per_minute =>
      result ← in_sqlite (sqlite_database_update_city_price p (Some city) price_per_minute);
      if negb (result =? 0) then log_error "Failed to update parking price for city '%s'.";; mret (-1)
      else mret 0)).

Definition delete_city (p : pointer) : M updater Z :=
  if is_null p then log_error "SQLite database object is NULL.";; mret (-1)
  else
    log_info "Delete city operation started.";;
    print (Byte.x0a :: line (bs "=== Delete City ==="));;
    given read_city_name (fun city =>
      result ← in_sqlite (sqlite_database_delete_city p (Some city));
      if negb (result =? 0) then log_error "Failed to delete city '%s'.";; mret (-1)
      else mret 0).

(** ** Notification; a path is a string, or NULL *)
Definition read_database_pid (pid_file_path : option (list byte)) : M updater (option Z) :=
  match pid_file_path with
  | None => log_error "Invalid function arguments.";; mret None
  | Some path =>
      file ← in_world (sys (sys_fopen path));
      if ans_ret file =? 0 then log_error "Failed to open PID file '%s'.";; mret None
      else
        match fst (scan_int HOST_LONG_BITS (ans_data file)) with
        | None => log_error "Failed to read Database PID from '%s'.";; call_ sys_fclose;; mret None
        | Some database_pid => call_ sys_fclose;; log_info "Database PID: %d.";; mret (Some database_pid)
        end
  end.

Definition notify_database (pid_file_path : option (list byte)) : M updater Z :=
  match pid_file_path with
  | None => log_error "Database PID file path is NULL.";; mret (-1)
  | Some _ =>
      database_pid ← read_database_pid pid_file_path;
      match database_pid with
      | None => mret (-1)
      | Some database_pid =>
          result ← call (sys_kill database_pid SIGUSR1);
          if negb (result =? 0) then
            log_error "Failed to send SIGUSR1 to Database process %d.";; mret (-1)
          else log_info "SIGUSR1 sent to Database process %d.";; mret 0
      end
  end.

(** ** The menu *)
Definition operation (p : pointer) (item : Z) : option (M updater Z) :=
  if item =? 1 then Some (add_city p)
  else if item =? 2 then Some (update_city_price p)
  else if item =? 3 then Some (delete_city p)
  else None.

(** The [switch]; the result says whether the loop goes on. *)
Definition select_item (pid_file_path : list byte) (item : Z) : M updater bool :=
  match operation nonnull item with
  | Some op =>
      result ← op;
      (if result =? 0 then notify_database (Some pid_file_path);; mret tt else mret tt);;
      mret true
  | None =>
      if item =? 4 then mret false
      else print (line (bs "Invalid menu item."));; mret true
  end.

(** One turn of the loop of [main]. *)
Definition menu_turn (pid_file_path : list byte) : M updater bool :=
  show_menu;;
  item ← scanf (scan_int HOST_LONG_BITS);
  match item with
  | None => print (line (bs "Invalid input."));; clear_input_buffer;; mret true
  | Some item => clear_input_buffer;; select_item pid_file_path item
  end.

Fixpoint menu_loop (fuel : nat) (pid_file_path : list byte) : M updater unit :=
  match fuel with
  | O => out_of_fuel
  | S fuel =>
      running ← menu_turn pid_file_path;
      if running : bool then menu_loop fuel pid_file_path else mret tt
  end.

(** ** Start and end *)

(** The result and, when it is 0, the string in the array [pid_file_path]. *)
Definition initialize (pid_file_path_size : nat) : M updater (Z * list byte) :=
  '(result, config) ← in_world (config_load (Some (Config [])) (Some CONFIG_FILE_PATH));
  if negb (result =? 0) then
    complain (line (bs "Failed to load configuration file: " ++ CONFIG_FILE_PATH));; mret (1, [])
  else
    match config_get_string config (Some PRICE_UPDATER_LOG_FILE_KEY) None with
    | None =>
        complain (line (bs "Configuration key '" ++ PRICE_UPDATER_LOG_FILE_KEY ++ bs "' was not found."));;
        mret (1, [])
    | Some log_file_path =>
        let console_logging_enabled := config_get_int HOST_LONG_BITS config (Some ENABLE_CONSOLE_LOGGING_KEY) 1 in
        match config_get_string config (Some (bs "DATABASE_PID_FILE")) None with
        | None => log_error "Configuration key 'DATABASE_PID_FILE' was not found.";; mret (-1, [])
        | Some configured_pid_file_path =>
            let '(pid_file_path, length) := snprintf_s pid_file_path_size configured_pid_file_path in
            if Z.of_nat pid_file_path_size <=? length then
              log_error "Database PID file path is too long.";; mret (-1, [])
            else
              result ← in_logger (logger_init (Some log_file_path) console_logging_enabled);
              if negb (result =? 0) then
                complain (line (bs "Failed to initialize logger: " ++ log_file_path));; mret (1, [])
              else
                match config_get_string config (Some (bs "DATABASE_PATH")) None with
                | None =>
                    log_error "Configuration key not found: %s";;
                    log_error "Configuration key 'DATABASE_PATH' was not found.";;
                    in_logger logger_close;; mret (1, [])
                | Some database_file_path =>
                    result ← in_sqlite (sqlite_database_open nonnull (Some database_file_path));
                    if negb (result =? 0) then
                      log_error "Failed to open SQLite database '%s'.";;
                      in_logger logger_close;; mret (1, [])
                    else mret (0, until_nul pid_file_path)
                end
        end
    end.

Definition main (fuel : nat) : M updater Z :=
  '(result, database_pid_file_path) ← initialize PID_FILE_PATH_SIZE;
  if negb (result =? 0) then mret (-1)
  else
    log_info "PriceUpdater started successfully.";;
    log_info "Configuration file loaded: %s.";;
    menu_loop fuel database_pid_file_path;;
    in_sqlite (sqlite_database_close nonnull);;
    in_logger logger_close;;
    log_info "PriceUpdater stopped successfully.";;
    mret 0.
End Updater.

(** The [main] of a process that has just started. *)
Definition updater_start `{Sqlite} (input : list byte) (q : sqlite) : updater :=
  Updater _ input 0 q (-1) 0 [].
