(* ===== verification/PriceUpdaterProofs.v ===== *)
(** PriceUpdaterProofs: what the operator's input does to the database and
    which processes are notified; when the menu ends; what the program leaves
    open. *)

From S2P Require Import Prelude Machine CLib CNumber Ieee Scanf Posix Config Logger.
From S2P Require Import Sqlite SqliteDatabase SqliteRules ParkingDatabase PriceUpdater.

(** ** The state these theorems speak about *)

(** The processes that were sent SIGUSR1, in order. *)
Definition signals_of (c : syscall) : list Z :=
  match c with sys_kill pid SIGUSR1 => [pid] | _ => [] end.
Fixpoint signals (w : world) : list Z :=
  match w with
  | [] => []
  | (c, _) :: w => signals w ++ signals_of c
  end.

Record uview `{Sqlite} := UView {
  v_stdin : list byte;
  v_handle : Z;
  v_sqlite : sqlite;
  v_log : Z;
  v_signals : list Z;
}.

Definition view_of `{Sqlite} (s : updater) : uview :=
  UView _ (up_stdin s) (up_handle s) (up_sqlite s) (up_log_fd s) (signals (up_world s)).

Definition with_stdin `{Sqlite} (i : list byte) (v : uview) : uview :=
  UView _ i (v_handle v) (v_sqlite v) (v_log v) (v_signals v).
Definition with_signals `{Sqlite} (l : list Z) (v : uview) : uview :=
  UView _ (v_stdin v) (v_handle v) (v_sqlite v) (v_log v) (v_signals v ++ l).
Definition with_database `{Sqlite} (d : database) (v : uview) : uview :=
  UView _ (v_stdin v) (db_handle d) (db_sqlite d) (v_log v) (v_signals v).
Definition with_log `{Sqlite} (fd : Z) (v : uview) : uview :=
  UView _ (v_stdin v) (v_handle v) (v_sqlite v) fd (v_signals v).

Lemma with_no_signals `{Sqlite} v : with_signals [] v = v.
Proof. destruct v. unfold with_signals. cbn. by rewrite app_nil_r. Qed.

(** ** The functions of SqliteDatabase signal nobody *)
Section Quiet.
Context `{Environment} `{Sqlite}.

Definition signalless {A} (m : M database A) : Prop := forall s,
  wlp m (fun _ s' => signals (db_world s') = signals (db_world s)) s.

Lemma signalless_ret {A} (a : A) : signalless (mret a).
Proof. done. Qed.
Lemma signalless_bind {A B} (m : M database A) (f : A -> M database B) :
  signalless m -> (forall a, signalless (f a)) -> signalless (m ≫= f).
Proof.
  intros Hm Hf s. specialize (Hm s). unfold wlp, mbind, M_bind in *. destruct (m s) as [[a s']| |]; [|done..].
  specialize (Hf a s'). unfold wlp in Hf. destruct (f a s') as [[b s'']| |]; [|done..]. congruence.
Qed.
Lemma signalless_gets {A} (f : database -> A) : signalless (gets f).
Proof. done. Qed.
Lemma signalless_log l f : signalless (zoom db_world set_db_world (sys_ (sys_log l f))).
Proof. intros s. change (signals (db_world s) ++ [] = signals (db_world s)). apply app_nil_r. Qed.
Lemma signalless_call {A} (f : sqlite -> A * sqlite) : signalless (SqliteDatabase.call f).
Proof. intros s. unfold wlp, SqliteDatabase.call, zoom. by destruct (f (db_sqlite s)). Qed.
Lemma signalless_handle h : signalless (modify (set_handle h)).
Proof. done. Qed.

Ltac signalless_go := repeat first
  [ apply signalless_ret | apply signalless_gets | apply signalless_log | apply signalless_call | apply signalless_handle
  | apply signalless_bind; [|intros]
  | match goal with
    | |- signalless (if ?b then _ else _) => destruct b
    | |- signalless (let '(_, _) := ?p in _) => destruct p
    | |- signalless (match ?x with _ => _ end) => destruct x
    | |- forall _, _ => intros
    end ].

Lemma signalless_add p city a b c d price : signalless (sqlite_database_add_city p city a b c d price).
Proof. unfold sqlite_database_add_city. signalless_go. Qed.
Lemma signalless_update p city price : signalless (sqlite_database_update_city_price p city price).
Proof. unfold sqlite_database_update_city_price. signalless_go. Qed.
Lemma signalless_delete p city : signalless (sqlite_database_delete_city p city).
Proof. unfold sqlite_database_delete_city. signalless_go. Qed.
Lemma signalless_open p file : signalless (sqlite_database_open p file).
Proof. unfold sqlite_database_open. signalless_go. Qed.
Lemma signalless_close p : signalless (sqlite_database_close p).
Proof. unfold sqlite_database_close. signalless_go. Qed.
End Quiet.

(** ** Rules *)
Section Rules.
Context `{Environment} `{Sqlite}.
Implicit Types (s : updater) (v : uview).

Lemma wp_up_sys v c (Q : answer -> updater -> Prop) s : view_of s = v ->
  (forall s', view_of s' = with_signals (signals_of c) v -> Q (respond (up_world s) c) s') -> wp (in_world (sys c)) Q s.
Proof. intros <- HQ. by apply (wp_zoom up_world (fun w s => s <| up_world := w |>)), wp_sys, HQ. Qed.

Lemma wp_up_call v c (Q : Z -> updater -> Prop) s : view_of s = v ->
  (forall r s', view_of s' = with_signals (signals_of c) v -> Q r s') -> wp (call c) Q s.
Proof. intros <- HQ. by apply (wp_zoom up_world (fun w s => s <| up_world := w |>)), wp_sysr, HQ. Qed.

Lemma wp_up_call_ v c (Q : unit -> updater -> Prop) s : view_of s = v -> signals_of c = [] ->
  (forall s', view_of s' = v -> Q tt s') -> wp (call_ c) Q s.
Proof.
  intros <- Hc HQ. apply (wp_zoom up_world (fun w s => s <| up_world := w |>)), wp_sys_, HQ.
  rewrite <- (with_no_signals (view_of s)), <- Hc. done.
Qed.

Lemma wp_up_log v l f (Q : unit -> updater -> Prop) s : view_of s = v ->
  (forall s', view_of s' = v -> Q tt s') -> wp (in_world (sys_ (sys_log l f))) Q s.
Proof. intros Hs. by apply (wp_up_call_ v (sys_log l f)). Qed.

Lemma wp_scanf {A} v (conversion : list byte -> option A * list byte) (Q : option A -> updater -> Prop) s :
  view_of s = v ->
  (forall s', view_of s' = with_stdin (conversion (v_stdin v)).2 v -> Q (conversion (v_stdin v)).1 s') ->
  wp (scanf conversion) Q s.
Proof.
  intros <- HQ. apply wp_bind, wp_gets. cbn [view_of v_stdin] in HQ.
  destruct (conversion (up_stdin s)) as [r rest]. apply wp_bind, wp_modify, wp_ret. by apply HQ.
Qed.

Lemma wp_clear v (Q : unit -> updater -> Prop) s : view_of s = v ->
  (forall s', view_of s' = with_stdin (after_newline (v_stdin v)) v -> Q tt s') -> wp clear_input_buffer Q s.
Proof. intros <- HQ. by apply wp_modify, HQ. Qed.

Lemma wp_up_sqlite {A} v (m : M database A) (P : A -> database -> Prop) (Q : A -> updater -> Prop) s :
  view_of s = v -> signalless m ->
  (forall w, wp m P (DB _ (v_handle v) (v_sqlite v) w)) ->
  (forall a d s', P a d -> view_of s' = with_database d v -> Q a s') -> wp (in_sqlite m) Q s.
Proof.
  intros <- Hq Hm HQ. specialize (Hm (up_world s)). specialize (Hq (DB _ (up_handle s) (up_sqlite s) (up_world s))).
  apply wp_zoom. eapply wp_mono; [exact (wp_wlp_conj _ _ _ _ Hm Hq)|]. intros a d [Ha Hd]. apply (HQ a d); [done|].
  unfold view_of, with_database. cbn. f_equal. exact Hd.
Qed.

(** ** Reading *)
Definition name_read (s : list byte) : option (list byte) * list byte :=
  match fgets CITY_NAME_LENGTH s with
  | None => (None, s)
  | Some (l, rest) =>
      let city := take (strcspn Byte.x0a (until_nul l)) (until_nul l) in
      ((if decide (city = []) then None else Some city), rest)
  end.

Definition number_read (s : list byte) : option double * list byte :=
  let '(r, rest) := scan_double s in (r, after_newline rest).

Lemma wp_given {A} v (m : M updater (option A)) (f : A -> M updater Z) (read : list byte -> option A * list byte)
    (Q : Z -> updater -> Prop) s : view_of s = v ->
  (forall (Q : option A -> updater -> Prop) s, view_of s = v ->
     (forall s', view_of s' = with_stdin (read (v_stdin v)).2 v -> Q (read (v_stdin v)).1 s') -> wp m Q s) ->
  (forall s', view_of s' = with_stdin (read (v_stdin v)).2 v ->
     match (read (v_stdin v)).1 with Some a => wp (f a) Q s' | None => Q (-1) s' end) ->
  wp (given m f) Q s.
Proof.
  intros Hs Hm HQ. apply wp_bind, Hm; [done|]. intros s' Hs'. specialize (HQ s' Hs').
  destruct (read (v_stdin v)).1; [done|]. by apply wp_ret.
Qed.

Lemma wp_read_name v (Q : option (list byte) -> updater -> Prop) s : view_of s = v ->
  (forall s', view_of s' = with_stdin (name_read (v_stdin v)).2 v -> Q (name_read (v_stdin v)).1 s') ->
  wp read_city_name Q s.
Proof.
  intros Hs HQ. eapply wp_bind, wp_up_call_; [exact Hs|done|]. clear s Hs. intros s Hs.
  apply wp_bind. unfold fgets_stdin. apply wp_bind, wp_gets. revert HQ. rewrite <- Hs. unfold name_read.
  cbn [view_of v_stdin]. destruct (fgets CITY_NAME_LENGTH (up_stdin s)) as [[l rest]|]; intros HQ.
  - apply wp_bind, wp_modify, wp_ret. revert HQ. cbn [fst snd]. case_decide; intros HQ.
    + eapply wp_bind, wp_up_log; [reflexivity|]. intros s' Hs'. by apply wp_ret, HQ.
    + by apply wp_ret, HQ.
  - eapply wp_bind, wp_up_log; [reflexivity|]. intros s' Hs'. by apply wp_ret, HQ.
Qed.

Lemma wp_read_number prompt error v (Q : option double -> updater -> Prop) s : view_of s = v ->
  (forall s', view_of s' = with_stdin (number_read (v_stdin v)).2 v -> Q (number_read (v_stdin v)).1 s') ->
  wp (read_number prompt error) Q s.
Proof.
  intros Hs HQ. eapply wp_bind, wp_up_call_; [exact Hs|done|]. clear s Hs. intros s Hs.
  eapply wp_bind, wp_scanf; [exact Hs|]. clear s Hs. revert HQ. unfold number_read.
  destruct (scan_double (v_stdin v)) as [[x|] rest]; cbn [fst snd]; intros HQ s Hs.
  - eapply wp_bind, wp_clear; [exact Hs|]. intros s' Hs'. by apply wp_ret, HQ.
  - eapply wp_bind, wp_up_log; [exact Hs|]. clear s Hs. intros s Hs.
    eapply wp_bind, wp_clear; [exact Hs|]. intros s' Hs'. by apply wp_ret, HQ.
Qed.
End Rules.

(** ** The operations *)
Inductive command :=
| Add (new : parking_city)
| Update (city : list byte) (price : double)
| Delete (city : list byte).

Definition read_then {A B} (p : list byte -> option A * list byte) (f : A -> list byte -> option B * list byte)
    (s : list byte) : option B * list byte :=
  match p s with (Some a, rest) => f a rest | (None, rest) => (None, rest) end.

Definition add_read : list byte -> option command * list byte :=
  read_then name_read (fun city => read_then number_read (fun a => read_then number_read (fun b =>
  read_then number_read (fun c => read_then number_read (fun d => read_then number_read (fun price rest =>
    (Some (Add (City city a b c d price)), rest))))))).
Definition update_read : list byte -> option command * list byte :=
  read_then name_read (fun city => read_then number_read (fun price rest => (Some (Update city price), rest))).
Definition delete_read : list byte -> option command * list byte :=
  read_then name_read (fun city rest => (Some (Delete city), rest)).

(** The results of a command on the tables [T]; [None] is one whose input was
    not understood. *)
Definition command_outcome `{SqliteLaws} (T : tables) (missing : bool) (c : option command) (r : Z) (T' : tables) : Prop :=
  match c with
  | None => r = -1 /\ T' = T
  | Some (Add new) => add_outcome T new r T'
  | Some (Update city price) => reprice_outcome T (negb (missing || double_lt price double_zero)) city price r T'
  | Some (Delete city) => delete_outcome T missing city r T'
  end.

(** [v'] is [v] after [c], with [rest] still to be read. *)
Record performed `{SqliteLaws} (v : uview) (c : option command) (rest : list byte) (r : Z) (v' : uview) : Prop := {
  pf_stdin : v_stdin v' = rest;
  pf_handle : v_handle v' = v_handle v;
  pf_connections : connections (v_sqlite v') = connections (v_sqlite v);
  pf_statements : statements (v_sqlite v') = statements (v_sqlite v);
  pf_log : v_log v' = v_log v;
  pf_signals : v_signals v' = v_signals v;
  pf_outcome : command_outcome (tables_of (v_sqlite v)) (v_handle v =? 0) c r (tables_of (v_sqlite v'));
  pf_result : r = 0 \/ r = -1;
}.

Section Operations.
Context `{Environment} `{SqliteLaws}.
Implicit Types (s : updater) (v : uview).

Lemma performed_nothing v rest : performed v None rest (-1) (with_stdin rest v).
Proof. by constructor; cbn; auto. Qed.

(** A call of SqliteDatabase whose specification is known, and the report. *)
Lemma wp_database_call v (m : M database Z) (c : command) text s : view_of s = v -> signalless m ->
  (forall w, wp m (fun r d => same_resources (DB _ (v_handle v) (v_sqlite v) w) d /\
     command_outcome (tables_of (v_sqlite v)) (v_handle v =? 0) (Some c) r (tables_of (db_sqlite d)))
     (DB _ (v_handle v) (v_sqlite v) w)) ->
  (forall T t r, command_outcome T (v_handle v =? 0) (Some c) r t -> r = 0 \/ r = -1) ->
  wp (result ← in_sqlite m; if negb (result =? 0) then log_error text;; mret (-1) else mret 0)
    (fun r s' => performed v (Some c) (v_stdin v) r (view_of s')) s.
Proof.
  intros Hs Hq Hm Hr. eapply wp_bind.
  apply (wp_up_sqlite v m (fun r d => same_resources (DB _ (v_handle v) (v_sqlite v) (up_world s)) d /\
    command_outcome (tables_of (v_sqlite v)) (v_handle v =? 0) (Some c) r (tables_of (db_sqlite d)))); [done|done|exact Hm|].
  intros r d s' [(E1 & E2 & E3) Ho] Hs'. cbn [db_handle db_sqlite] in E1, E2, E3. pose proof (Hr _ _ _ Ho) as Hcase.
  assert (performed v (Some c) (v_stdin v) r (view_of s')) as Hp by (rewrite Hs'; by constructor).
  destruct (Z.eqb_spec r 0) as [->|Hne]; cbn [negb]; [by apply wp_ret|].
  destruct Hcase as [|Hcase]; [done|]. rewrite Hcase in Hp.
  eapply wp_bind, wp_up_log; [reflexivity|]. intros s'' Hs''. apply wp_ret. by rewrite Hs''.
Qed.

Lemma outcome_result T missing c r t : command_outcome T missing (Some c) r t -> r = 0 \/ r = -1.
Proof. destruct c; cbn; inversion 1; auto. Qed.

(** The rest of an operation after one of its inputs. *)
Lemma performed_given {A} v (m : M updater (option A)) (f : A -> M updater Z)
    (read : list byte -> option A * list byte) (g : A -> list byte -> option command * list byte) s :
  view_of s = v ->
  (forall (Q : option A -> updater -> Prop) s, view_of s = v ->
     (forall s', view_of s' = with_stdin (read (v_stdin v)).2 v -> Q (read (v_stdin v)).1 s') -> wp m Q s) ->
  (forall a v' s', v' = with_stdin (v_stdin v') v -> view_of s' = v' ->
     wp (f a) (fun r s'' => performed v' (g a (v_stdin v')).1 (g a (v_stdin v')).2 r (view_of s'')) s') ->
  wp (given m f) (fun r s' => performed v (read_then read g (v_stdin v)).1 (read_then read g (v_stdin v)).2 r (view_of s')) s.
Proof.
  intros Hs Hm Hf. eapply wp_given; [exact Hs|exact Hm|]. intros s' Hs'. unfold read_then.
  destruct (read (v_stdin v)) as [[a|] rest]; cbn [fst snd] in *; [|rewrite Hs'; by apply performed_nothing].
  eapply wp_mono; [by apply (Hf a (with_stdin rest v) s')|]. intros r s'' [].
  by constructor.
Qed.

Lemma add_city_reads v s : view_of s = v ->
  wp (add_city nonnull) (fun r s' => performed v (add_read (v_stdin v)).1 (add_read (v_stdin v)).2 r (view_of s')) s.
Proof.
  intros Hs. unfold add_city, add_read. cbn [is_null].
  eapply wp_bind, wp_up_log; [exact Hs|]. clear s Hs. intros s Hs.
  eapply wp_bind, wp_up_call_; [exact Hs|done|]. clear s Hs. intros s Hs.
  apply performed_given; [exact Hs|intros Q s0; apply wp_read_name|]. clear s Hs. intros city v1 s E1 Hs.
  do 5 (apply performed_given; [exact Hs|intros Q s0; apply wp_read_number|]; clear s Hs; intros ? ? s ? Hs).
  cbn [fst snd]. eapply wp_database_call; [exact Hs|apply signalless_add| |intros T t r; apply outcome_result].
  intros w. apply (add_city_spec nonnull _ _ _ _ _ _ (DB _ _ _ w)).
Qed.

Lemma update_city_price_reads v s : view_of s = v ->
  wp (update_city_price nonnull) (fun r s' => performed v (update_read (v_stdin v)).1 (update_read (v_stdin v)).2 r (view_of s')) s.
Proof.
  intros Hs. unfold update_city_price, update_read. cbn [is_null].
  eapply wp_bind, wp_up_log; [exact Hs|]. clear s Hs. intros s Hs.
  eapply wp_bind, wp_up_call_; [exact Hs|done|]. clear s Hs. intros s Hs.
  apply performed_given; [exact Hs|intros Q s0; apply wp_read_name|]. clear s Hs. intros city v1 s E1 Hs.
  apply performed_given; [exact Hs|intros Q s0; apply wp_read_number|]. clear s Hs. intros price v2 s E2 Hs.
  cbn [fst snd]. eapply wp_database_call; [exact Hs|apply signalless_update| |intros T t r; apply outcome_result].
  intros w. apply (update_city_price_spec nonnull _ _ (DB _ _ _ w)).
Qed.

Lemma delete_city_reads v s : view_of s = v ->
  wp (delete_city nonnull) (fun r s' => performed v (delete_read (v_stdin v)).1 (delete_read (v_stdin v)).2 r (view_of s')) s.
Proof.
  intros Hs. unfold delete_city, delete_read. cbn [is_null].
  eapply wp_bind, wp_up_log; [exact Hs|]. clear s Hs. intros s Hs.
  eapply wp_bind, wp_up_call_; [exact Hs|done|]. clear s Hs. intros s Hs.
  apply performed_given; [exact Hs|intros Q s0; apply wp_read_name|]. clear s Hs. intros city v1 s E1 Hs.
  cbn [fst snd]. eapply wp_database_call; [exact Hs|apply signalless_delete| |intros T t r; apply outcome_result].
  intros w. apply (delete_city_spec nonnull _ (DB _ _ _ w)).
Qed.

(** ** Notification *)

(** Whenever it is opened, the file at [path] begins with the number [pid]. *)
Definition file_has_pid (path : list byte) (pid : Z) : Prop := forall w,
  ans_ret (respond w (sys_fopen path)) <> 0 /\
  (scan_int HOST_LONG_BITS (ans_data (respond w (sys_fopen path)))).1 = Some pid.

Lemma read_database_pid_spec path v s : view_of s = v ->
  wp (read_database_pid (Some path)) (fun r s' => view_of s' = v /\ forall pid, file_has_pid path pid -> r = Some pid) s.
Proof.
  intros Hs. unfold read_database_pid. apply wp_bind.
  eapply (wp_up_sys v); [exact Hs|]. intros s1 Hs1. rewrite with_no_signals in Hs1.
  set (a := respond _ _). assert (forall pid, file_has_pid path pid -> ans_ret a <> 0 /\
    (scan_int HOST_LONG_BITS (ans_data a)).1 = Some pid) as Hpid by (intros pid Hf; apply Hf).
  generalize dependent a. intros a Hpid. destruct (Z.eqb_spec (ans_ret a) 0) as [Ha|Ha].
  { eapply wp_bind, wp_up_log; [exact Hs1|]. intros s2 Hs2. apply wp_ret. split; [done|].
    intros pid Hf. by destruct (Hpid pid Hf). }
  destruct (scan_int HOST_LONG_BITS (ans_data a)).1 as [pid|] eqn:Ei.
  - eapply wp_bind, wp_up_call_; [exact Hs1|done|]. intros s2 Hs2.
    eapply wp_bind, wp_up_log; [exact Hs2|]. intros s3 Hs3. apply wp_ret. split; [done|].
    intros pid' Hf. by destruct (Hpid pid' Hf).
  - eapply wp_bind, wp_up_log; [exact Hs1|]. intros s2 Hs2.
    eapply wp_bind, wp_up_call_; [exact Hs2|done|]. intros s3 Hs3. apply wp_ret. split; [done|].
    intros pid Hf. by destruct (Hpid pid Hf).
Qed.

Lemma notify_database_spec path v s : view_of s = v ->
  wp (notify_database (Some path)) (fun _ s' => exists l, view_of s' = with_signals l v /\
    forall pid, file_has_pid path pid -> l = [pid]) s.
Proof.
  intros Hs. unfold notify_database. apply wp_bind. eapply wp_mono; [by apply read_database_pid_spec|].
  intros [pid|] s1 [Hs1 Hpid].
  - eapply wp_bind, wp_up_call; [exact Hs1|]. intros r s2 Hs2.
    assert (forall pid', file_has_pid path pid' -> signals_of (sys_kill pid SIGUSR1) = [pid']) as Hl.
    { intros pid' Hf. by injection (Hpid pid' Hf) as ->. }
    destruct (negb _); (eapply wp_bind, wp_up_log; [exact Hs2|]); intros s3 Hs3; apply wp_ret;
      exists (signals_of (sys_kill pid SIGUSR1)); by split.
  - apply wp_ret. exists []. rewrite with_no_signals. split; [done|]. intros pid Hf. by specialize (Hpid pid Hf).
Qed.

(** ** One turn of the menu *)
Inductive turn := Perform (c : option command) | Leave.

Definition perform (r : option command * list byte) : turn * list byte := (Perform r.1, r.2).

Definition turn_read (s : list byte) : turn * list byte :=
  let '(item, rest) := scan_int HOST_LONG_BITS s in
  let rest := after_newline rest in
  match item with
  | None => (Perform None, rest)
  | Some item =>
      if item =? 1 then perform (add_read rest)
      else if item =? 2 then perform (update_read rest)
      else if item =? 3 then perform (delete_read rest)
      else if item =? 4 then (Leave, rest)
      else (Perform None, rest)
  end.

(** What a turn that read [t] does. *)
Definition turned (path : list byte) (v : uview) (t : turn) (rest : list byte) (running : bool) (v' : uview) : Prop :=
  match t with
  | Leave => running = false /\ v' = with_stdin rest v
  | Perform c => running = true /\ exists r v1 l, performed v c rest r v1 /\ v' = with_signals l v1 /\
      (r <> 0 -> l = []) /\ (r = 0 -> forall pid, file_has_pid path pid -> l = [pid])
  end.

Lemma turned_nothing path v rest : turned path v (Perform None) rest true (with_stdin rest v).
Proof.
  split; [done|]. exists (-1), (with_stdin rest v), []. rewrite with_no_signals.
  split; [by apply performed_nothing|]. by split.
Qed.

Lemma operation_turn path v (op : M updater Z) (r : option command * list byte) s :
  wp op (fun n s' => performed v r.1 r.2 n (view_of s')) s ->
  wp (result ← op;
      (if result =? 0 then notify_database (Some path);; mret tt else mret tt);;
      mret true) (fun running s' => turned path v (perform r).1 (perform r).2 running (view_of s')) s.
Proof.
  intros Hop. apply wp_bind. eapply wp_mono; [exact Hop|]. intros n s1 Hp. apply wp_bind.
  destruct (Z.eqb_spec n 0) as [->|Hn].
  - apply wp_bind. eapply wp_mono; [by apply notify_database_spec|]. intros _u s2 (l & Hl & Hpid).
    apply wp_ret, wp_ret. split; [done|]. by exists 0, (view_of s1), l.
  - apply wp_ret, wp_ret. split; [done|]. exists n, (view_of s1), []. by rewrite with_no_signals.
Qed.

Lemma performed_stdin v i c rest r v' : performed (with_stdin i v) c rest r v' -> performed v c rest r v'.
Proof. intros []. by constructor. Qed.

Lemma turned_stdin path v i t rest running v' : turned path (with_stdin i v) t rest running v' -> turned path v t rest running v'.
Proof.
  destruct t as [c|]; [|done]. intros [-> (r & v1 & l & Hp & ?)]. split; [done|]. exists r, v1, l.
  split; [by eapply performed_stdin|done].
Qed.

Lemma show_menu_spec v (Q : unit -> updater -> Prop) s : view_of s = v ->
  (forall s', view_of s' = v -> Q tt s') -> wp show_menu Q s.
Proof.
  intros Hs HQ. unfold show_menu.
  do 9 (eapply wp_bind, wp_up_call_; [exact Hs|reflexivity|]; clear s Hs; intros s Hs).
  eapply wp_up_call_; [exact Hs|reflexivity|]. exact HQ.
Qed.

Lemma menu_turn_spec path v s : view_of s = v ->
  wp (menu_turn path) (fun running s' =>
    turned path v (turn_read (v_stdin v)).1 (turn_read (v_stdin v)).2 running (view_of s')) s.
Proof.
  intros Hs. unfold menu_turn, turn_read. eapply wp_bind, show_menu_spec; [exact Hs|]. clear s Hs. intros s Hs.
  eapply wp_bind, wp_scanf; [exact Hs|]. clear s Hs.
  destruct (scan_int HOST_LONG_BITS (v_stdin v)) as [[item|] rest]; cbn [fst snd]; intros s Hs.
  - eapply wp_bind, wp_clear; [exact Hs|]. clear s Hs. intros s Hs. change (view_of s = with_stdin (after_newline rest) v) in Hs.
    unfold select_item, operation.
    destruct (item =? 1); [|destruct (item =? 2); [|destruct (item =? 3); [|destruct (item =? 4)]]].
    + apply operation_turn. eapply wp_mono; [apply (add_city_reads _ s Hs)|].
      intros r s'. apply performed_stdin.
    + apply operation_turn. eapply wp_mono; [apply (update_city_price_reads _ s Hs)|].
      intros r s'. apply performed_stdin.
    + apply operation_turn. eapply wp_mono; [apply (delete_city_reads _ s Hs)|].
      intros r s'. apply performed_stdin.
    + apply wp_ret. by split.
    + eapply wp_bind, wp_up_call_; [exact Hs|done|]. intros s' Hs'. apply wp_ret. rewrite Hs'. apply turned_nothing.
  - eapply wp_bind, wp_up_call_; [exact Hs|done|]. clear s Hs. intros s Hs.
    eapply wp_bind, wp_clear; [exact Hs|]. intros s' Hs'. apply wp_ret.
    change (view_of s' = with_stdin (after_newline rest) v) in Hs'. rewrite Hs'. apply turned_nothing.
Qed.
End Operations.

(** ** Every turn takes input, as long as there is any *)
Lemma after_newline_shorter s : s <> [] -> (length (after_newline s) < length s)%nat.
Proof.
  induction s as [|c s IH]; [done|]. intros _. cbn [after_newline length]. case_decide; [lia|].
  destruct s as [|c' s]; [cbn; lia|]. specialize (IH ltac:(done)). lia.
Qed.

Lemma after_newline_le s : (length (after_newline s) <= length s)%nat.
Proof. destruct s as [|c s]; [done|]. pose proof (after_newline_shorter (c :: s) ltac:(done)). lia. Qed.

Definition takes {A} (p : list byte -> option A * list byte) : Prop := forall s, (length (p s).2 <= length s)%nat.

Lemma takes_name : takes name_read.
Proof.
  intros s. unfold name_read. destruct (fgets CITY_NAME_LENGTH s) as [[l rest]|] eqn:E; [|done].
  apply fgets_progress in E as (_ & _ & ?); [|unfold CITY_NAME_LENGTH; lia]. cbn [snd]. lia.
Qed.

Lemma takes_number : takes number_read.
Proof.
  intros s. unfold number_read. pose proof (suffix_length _ _ (suffix_scan_double s)) as Hs.
  destruct (scan_double s) as [r rest]. cbn [snd] in *. pose proof (after_newline_le rest). lia.
Qed.

Lemma takes_then {A B} (p : list byte -> option A * list byte) (f : A -> list byte -> option B * list byte) :
  takes p -> (forall a, takes (f a)) -> takes (read_then p f).
Proof.
  intros Hp Hf s. unfold read_then. specialize (Hp s). destruct (p s) as [[a|] rest]; cbn [snd] in *; [|done].
  specialize (Hf a rest). lia.
Qed.

Lemma takes_done {A} (a : option A) : takes (fun rest => (a, rest)).
Proof. intros s. cbn. lia. Qed.

#[local] Hint Resolve takes_name takes_number takes_done : parking.
#[local] Hint Extern 2 (takes (read_then _ _)) => apply takes_then; [|intros] : parking.

Lemma takes_add : takes add_read.
Proof. unfold add_read. auto 20 with parking. Qed.
Lemma takes_update : takes update_read.
Proof. unfold update_read. auto 20 with parking. Qed.
Lemma takes_delete : takes delete_read.
Proof. unfold delete_read. auto 20 with parking. Qed.

Lemma turn_read_shorter s : s <> [] -> (length (turn_read s).2 < length s)%nat.
Proof.
  intros Hs. unfold turn_read. pose proof (suffix_length _ _ (suffix_scan_int HOST_LONG_BITS s)) as Hle.
  destruct (scan_int HOST_LONG_BITS s) as [item rest]. cbn [snd] in Hle.
  assert (length (after_newline rest) < length s)%nat as Hlt.
  { destruct rest as [|c rest]; [destruct s; [done|cbn; lia]|].
    pose proof (after_newline_shorter (c :: rest) ltac:(done)). lia. }
  pose proof (takes_add (after_newline rest)). pose proof (takes_update (after_newline rest)).
  pose proof (takes_delete (after_newline rest)).
  destruct item as [item|]; [|done]. repeat (case_match; cbn [perform snd]; [lia|]). done.
Qed.

Section Menu.
Context `{Environment} `{SqliteLaws}.

Lemma turn_returns path s : exists running s', menu_turn path s = Ret (running, s') /\
  turned path (view_of s) (turn_read (up_stdin s)).1 (turn_read (up_stdin s)).2 running (view_of s').
Proof. exact (wp_returns _ _ _ (menu_turn_spec path (view_of s) s eq_refl)). Qed.

Lemma turned_rest path v t rest running v' : turned path v t rest running v' -> v_stdin v' = rest.
Proof. destruct t; cbn; [intros (_ & r & v1 & l & [] & -> & _); done|intros [_ ->]; done]. Qed.

Lemma end_of_input fuel path s : up_stdin s = [] -> menu_loop fuel path s = OutOfFuel.
Proof using Type*.
  revert s. induction fuel as [|fuel IH]; intros s Hs; [done|].
  destruct (turn_returns path s) as (running & s' & E & Ht). cbn [menu_loop]. unfold mbind at 1, M_bind at 1.
  rewrite E. pose proof (turned_rest _ _ _ _ _ _ Ht) as Hrest. rewrite Hs in Ht, Hrest. destruct Ht as [-> _]. by apply IH.
Qed.

Lemma menu_decided path n s : (length (up_stdin s) <= n)%nat ->
  (exists s', forall fuel, (length (up_stdin s) < fuel)%nat -> menu_loop fuel path s = Ret (tt, s')) \/
  (forall fuel, menu_loop fuel path s = OutOfFuel).
Proof using Type*.
  revert s. induction n as [|n IH]; intros s Hn.
  { right. intros fuel. apply end_of_input. by destruct (up_stdin s); [|cbn in Hn; lia]. }
  destruct (decide (up_stdin s = [])) as [He|He]; [right; intros fuel; by apply end_of_input|].
  destruct (turn_returns path s) as (running & s' & E & Ht). apply turned_rest in Ht.
  pose proof (turn_read_shorter _ He) as Hlt. rewrite <- Ht in Hlt. cbn [v_stdin view_of] in Hlt.
  assert (forall fuel, menu_loop (S fuel) path s = if running then menu_loop fuel path s' else Ret (tt, s')) as Hstep.
  { intros fuel. cbn [menu_loop]. unfold mbind at 1, M_bind at 1. rewrite E. by destruct running. }
  destruct running.
  - destruct (IH s' ltac:(lia)) as [[s'' Hend]|Hend]; [left; exists s''|right]; (intros [|fuel]; [done || lia|]).
    + intros Hf. rewrite Hstep. apply Hend. lia.
    + by rewrite Hstep.
  - left. exists s'. intros [|fuel]; [lia|]. intros _. apply Hstep.
Qed.
End Menu.

(** C31: the menu on any input.  Either the operator leaves it, and it returns
    within as many turns as the input has characters, or it goes on for ever,
    whatever the number of turns; no input makes it undefined.  In particular
    it never ends when the input does. *)
Theorem menu_ends_or_asks_forever `{Environment} `{SqliteLaws} (path : list byte) (s : updater) :
  ((exists s', forall fuel, (length (up_stdin s) < fuel)%nat -> menu_loop fuel path s = Ret (tt, s')) \/
   (forall fuel, menu_loop fuel path s = OutOfFuel)) /\
  (up_stdin s = [] -> forall fuel, menu_loop fuel path s = OutOfFuel).
Proof. split; [by eapply menu_decided|]. intros Hs fuel. by apply end_of_input. Qed.

(** ** What an operator types *)
Record number := Number { num_text : list byte; num_value : double }.

Inductive entry :=
| AddEntry (name : list byte) (min_latitude max_latitude min_longitude max_longitude price : number)
| UpdateEntry (name : list byte) (price : number)
| DeleteEntry (name : list byte)
| OtherEntry (item : Z).

Definition typed_entry (e : entry) : list byte :=
  match e with
  | AddEntry name a b c d price =>
      line (bs "1") ++ line name ++ line (num_text a) ++ line (num_text b) ++ line (num_text c) ++
      line (num_text d) ++ line (num_text price)
  | UpdateEntry name price => line (bs "2") ++ line name ++ line (num_text price)
  | DeleteEntry name => line (bs "3") ++ line name
  | OtherEntry item => line (dec_of_Z item)
  end.

Definition entry_command (e : entry) : option command :=
  match e with
  | AddEntry name a b c d price =>
      Some (Add (City name (num_value a) (num_value b) (num_value c) (num_value d) (num_value price)))
  | UpdateEntry name price => Some (Update name (num_value price))
  | DeleteEntry name => Some (Delete name)
  | OtherEntry _ => None
  end.

(** The text is a number of this value; the name is one line that fits. *)
Definition good_number (n : number) : Prop := forall rest,
  scan_double (num_text n ++ Byte.x0a :: rest) = (Some (num_value n), Byte.x0a :: rest).
Definition good_name (name : list byte) : Prop :=
  name <> [] /\ no_nul name /\ (Byte.x0a ∉ name) /\ (length name < CITY_NAME_LENGTH - 1)%nat.
Definition good_entry (e : entry) : Prop :=
  match e with
  | AddEntry name a b c d price => good_name name /\ Forall good_number [a; b; c; d; price]
  | UpdateEntry name price => good_name name /\ good_number price
  | DeleteEntry name => good_name name
  | OtherEntry item => in_int item = true /\ (item ∉ [1; 2; 3; 4])
  end.

Lemma app_line s rest : line s ++ rest = s ++ Byte.x0a :: rest.
Proof. unfold line. by rewrite <- (assoc_L (++)). Qed.

Lemma strcspn_app x s rest : x ∉ s -> strcspn x (s ++ x :: rest) = length s.
Proof.
  induction s as [|c s IH]; intros Hx; cbn; [by rewrite decide_True|].
  apply not_elem_of_cons in Hx as [Hc Hx]. rewrite decide_False by done. by rewrite IH.
Qed.

Lemma name_read_line name rest : good_name name -> name_read (line name ++ rest) = (Some name, rest).
Proof.
  intros (Hne & Hnul & Hnl & Hlen). unfold name_read. rewrite app_line, fgets_line by done.
  assert (no_nul (name ++ [Byte.x0a])) as Hn.
  { unfold no_nul in *. rewrite elem_of_app, list_elem_of_singleton. by intros [?|?]. }
  rewrite until_nul_id by done. rewrite strcspn_app, take_app_length by done. by rewrite decide_False.
Qed.

Lemma number_read_line n rest : good_number n -> number_read (line (num_text n) ++ rest) = (Some (num_value n), rest).
Proof. intros Hn. unfold number_read. rewrite app_line, Hn. done. Qed.

Lemma turn_read_item item s rest : scan_int HOST_LONG_BITS s = (Some item, Byte.x0a :: rest) ->
  turn_read s = if item =? 1 then perform (add_read rest)
      else if item =? 2 then perform (update_read rest)
      else if item =? 3 then perform (delete_read rest)
      else if item =? 4 then (Leave, rest)
      else (Perform None, rest).
Proof. intros Hs. unfold turn_read. by rewrite Hs. Qed.

Lemma turn_read_entry e rest : good_entry e -> turn_read (typed_entry e ++ rest) = (Perform (entry_command e), rest).
Proof.
  destruct e as [name a b c d price|name price|name|item]; cbn [good_entry typed_entry entry_command].
  - intros [Hname Hnum]. rewrite !Forall_cons in Hnum. destruct Hnum as (Ha & Hb & Hc & Hd & Hp & _).
    rewrite <- !(assoc_L (++)). erewrite (turn_read_item 1); [|reflexivity]. cbn [Z.eqb Pos.eqb].
    unfold add_read, read_then. by rewrite name_read_line, !number_read_line.
  - intros [Hname Hp]. rewrite <- !(assoc_L (++)). erewrite (turn_read_item 2); [|reflexivity]. cbn [Z.eqb Pos.eqb].
    unfold update_read, read_then. by rewrite name_read_line, number_read_line.
  - intros Hname. rewrite <- !(assoc_L (++)). erewrite (turn_read_item 3); [|reflexivity]. cbn [Z.eqb Pos.eqb].
    unfold delete_read, read_then. by rewrite name_read_line.
  - intros [Hin Hitem]. rewrite !not_elem_of_cons in Hitem. destruct Hitem as (H1 & H2 & H3 & H4 & _).
    rewrite app_line. erewrite turn_read_item; [|apply scan_int_dec_of_Z; [unfold HOST_LONG_BITS; lia|done|done]].
    by rewrite !(proj2 (Z.eqb_neq _ _)).
Qed.

(** The commands one after the other, each with its result. *)
Inductive session `{SqliteLaws} : list entry -> tables -> list Z -> tables -> Prop :=
| session_nil T : session [] T [] T
| session_cons e es T r T1 rs T2 :
    command_outcome T false (entry_command e) r T1 -> session es T1 rs T2 ->
    session (e :: es) T (r :: rs) T2.

Definition successes (rs : list Z) : nat := length (filter (fun r => r = 0) rs).

Section Session.
Context `{Environment} `{SqliteLaws}.

Lemma session_run path pid es v s rest fuel : view_of s = v -> v_handle v <> 0 -> file_has_pid path pid ->
  Forall good_entry es -> (length es < fuel)%nat ->
  v_stdin v = concat (typed_entry <$> es) ++ line (bs "4") ++ rest ->
  wp (menu_loop fuel path) (fun _ s' => exists rs, length rs = length es /\
    session es (tables_of (v_sqlite v)) rs (tables_of (up_sqlite s')) /\
    signals (up_world s') = v_signals v ++ replicate (successes rs) pid /\
    up_stdin s' = rest /\ up_handle s' = v_handle v /\ up_log_fd s' = v_log v /\
    connections (up_sqlite s') = connections (v_sqlite v) /\ statements (up_sqlite s') = statements (v_sqlite v)) s.
Proof.
  intros Hs Hh Hpid Hes. revert v s fuel Hs Hh. induction Hes as [|e es He Hes IH]; intros v s fuel Hs Hh Hfuel Hin.
  all: destruct fuel as [|fuel]; [cbn in Hfuel; lia|]; cbn [menu_loop]; apply wp_bind;
    (eapply wp_mono; [by apply menu_turn_spec|]); intros running s1 Ht; rewrite Hin in Ht.
  - rewrite (turn_read_item 4 _ rest) in Ht by reflexivity. destruct Ht as [-> Ht].
    apply wp_ret. exists []. destruct (f_equal v_signals Ht). injection Ht as E1 E2 E3 E4 E5.
    rewrite E1, E2, E3, E4. cbn [replicate successes filter list_filter length]. rewrite app_nil_r.
    split; [done|]. split; [constructor|]. done.
  - cbn [fmap list_fmap concat] in Ht. rewrite <- (assoc_L (++)), turn_read_entry in Ht by done.
    destruct Ht as [-> (r & v1 & l & Hp & Ht & Hbad & Hgood)]. destruct Hp as [P1 P2 P3 P4 P5 P6 P7 P8].
    rewrite (proj2 (Z.eqb_neq _ _) Hh) in P7. cbn [length] in Hfuel.
    eapply wp_mono; [apply (IH (view_of s1) s1 fuel eq_refl)|].
    { rewrite Ht. cbn. by rewrite P2. }
    { lia. }
    { rewrite Ht. exact P1. }
    rewrite Ht. cbn [with_signals v_sqlite v_signals v_handle v_log]. rewrite P2, P3, P4, P5, P6.
    intros _u s2 (rs & Hlen & Hsession & Hsig & F1 & F2 & F3 & F4 & F5). exists (r :: rs).
    split; [cbn; by rewrite Hlen|]. split; [by econstructor|]. split; [|done]. rewrite Hsig, <- (assoc_L (++)). f_equal.
    unfold successes. rewrite filter_cons. destruct P8 as [-> | ->].
    + rewrite decide_True by done. by rewrite (Hgood eq_refl pid Hpid).
    + rewrite decide_False by done. by rewrite Hbad.
Qed.
End Session.

(** C18: an operator's session.  What is typed is done: the commands, one after
    the other, have exactly the outcomes of the functions of SqliteDatabase for
    the names and numbers typed, a command that is no menu item does nothing,
    item 4 ends the menu with the rest of the input unread, and the Database
    process named by the PID file is signalled once for each command that
    succeeded, and for no other. *)
Theorem operator_session `{Environment} `{SqliteLaws} (path : list byte) (pid : Z) (es : list entry)
    (rest : list byte) (fuel : nat) (s : updater) :
  up_handle s <> 0 -> file_has_pid path pid -> Forall good_entry es -> (length es < fuel)%nat ->
  up_stdin s = concat (typed_entry <$> es) ++ line (bs "4") ++ rest ->
  wp (menu_loop fuel path) (fun _ s' => exists rs, length rs = length es /\
    session es (tables_of (up_sqlite s)) rs (tables_of (up_sqlite s')) /\
    signals (up_world s') = signals (up_world s) ++ replicate (successes rs) pid /\
    up_stdin s' = rest /\ up_handle s' = up_handle s /\ up_log_fd s' = up_log_fd s /\
    connections (up_sqlite s') = connections (up_sqlite s) /\ statements (up_sqlite s') = statements (up_sqlite s)) s.
Proof. intros. by apply (session_run path pid es (view_of s)). Qed.

(** ** The program *)
Section Program.
Context `{Environment} `{SqliteLaws}.
Implicit Types (s : updater) (v : uview).

Definition connected (v : uview) : Prop := connection_ok (DB _ (v_handle v) (v_sqlite v) []).

Lemma wp_up_logger {A} (m : M logger A) (Q : A -> updater -> Prop) s :
  wp m (fun a l => Q a (s <| up_log_fd := log_fd l |> <| up_console := console_output_enabled l |>
                          <| up_world := logger_world l |>)) (LoggerState (up_log_fd s) (up_console s) (up_world s)) ->
  wp (in_logger m) Q s.
Proof.
  intros Hm. by apply (wp_zoom (fun s => LoggerState (up_log_fd s) (up_console s) (up_world s))
    (fun l s => s <| up_log_fd := log_fd l |> <| up_console := console_output_enabled l |> <| up_world := logger_world l |>)).
Qed.

Lemma up_logger_init path c v s : view_of s = v -> v_log v = -1 ->
  wp (in_logger (logger_init (Some path) c)) (fun r s' => exists fd,
    view_of s' = with_log fd v /\ (r = if fd =? -1 then -1 else 0)) s.
Proof.
  intros <- Hlog. apply wp_up_logger. unfold logger_init. cbn [v_log view_of] in Hlog. rewrite Hlog.
  apply wp_bind, wp_modify, wp_bind, (wp_zoom logger_world set_logger_world), wp_sys_, wp_bind, wp_gets. cbn [log_fd set_logger_world set_console].
  change (negb (-1 =? -1)) with false. cbv iota. apply wp_bind, wp_ret.
  apply wp_bind, (wp_zoom logger_world set_logger_world), wp_sysr. set (a := respond _ _). generalize (ans_ret a) as fd. intros fd. apply wp_bind, wp_modify.
  apply wp_bind, (wp_zoom logger_world set_logger_world), wp_sys_, wp_bind, wp_gets. cbn [log_fd set_logger_world set_log_fd].
  destruct (Z.eqb_spec fd (-1)) as [->|Hfd]; apply wp_ret.
  - exists (-1). split; [|done]. unfold view_of, with_log. cbn. by rewrite !app_nil_r.
  - exists fd. rewrite (proj2 (Z.eqb_neq _ _) Hfd). split; [|done]. unfold view_of, with_log. cbn. by rewrite !app_nil_r.
Qed.

Lemma up_logger_close v s : view_of s = v -> wp (in_logger logger_close) (fun _ s' => view_of s' = with_log (-1) v) s.
Proof.
  intros <-. apply wp_up_logger. unfold logger_close.
  apply wp_bind, (wp_zoom logger_world set_logger_world), wp_sys_, wp_bind, wp_gets. cbn [log_fd set_logger_world].
  apply wp_bind. destruct (Z.eqb_spec (up_log_fd s) (-1)) as [E|E]; cbn [negb].
  - apply wp_ret, (wp_zoom logger_world set_logger_world), wp_sys_. unfold view_of, with_log. cbn. by rewrite !app_nil_r, E.
  - apply wp_bind, (wp_zoom logger_world set_logger_world), wp_sys_, wp_modify, (wp_zoom logger_world set_logger_world), wp_sys_. unfold view_of, with_log. cbn. by rewrite !app_nil_r.
Qed.

Lemma up_config_load path v s (Q : Z * option config_t -> updater -> Prop) : view_of s = v ->
  (forall r config s', view_of s' = v -> Q (r, Some config) s') ->
  wp (in_world (config_load (Some (Config [])) (Some path))) Q s.
Proof.
  intros <- HQ. apply (wp_zoom up_world (fun w s => s <| up_world := w |>)). unfold config_load.
  apply wp_bind, wp_sys. set (a := respond _ _). destruct (ans_ret a =? 0).
  - apply wp_ret, HQ. unfold view_of. cbn. by rewrite !app_nil_r.
  - edestruct (config_lines_wf (config_fuel (ans_data a)) (ans_data a) []) as (r & es & -> & _);
      [unfold config_fuel; lia|unfold CONFIG_MAX_ENTRIES; cbn; lia|constructor|].
    apply wp_bind, wp_sys_, wp_ret, HQ. unfold view_of. cbn. by rewrite !app_nil_r.
Qed.

(** Nothing open, as at the start. *)
Definition closed (v0 v : uview) : Prop :=
  v_handle v = 0 /\ connections (v_sqlite v) = ∅ /\ statements (v_sqlite v) = statements (v_sqlite v0) /\ v_log v = -1.

Lemma closed_connected v0 v : closed v0 v -> connected v.
Proof. intros (E1 & E2 & E3 & E4). split; cbn; [by rewrite E1|done]. Qed.

Lemma updater_initialize_spec n v0 v s : view_of s = v -> closed v0 v ->
  wp (initialize n) (fun r s' => if r.1 =? 0 then connected (view_of s') /\
      statements (v_sqlite (view_of s')) = statements (v_sqlite v0)
    else closed v0 (view_of s')) s.
Proof.
  intros Hs Hv. unfold initialize. eapply wp_bind, up_config_load; [exact Hs|]. clear s Hs. intros rc config s Hs.
  assert (forall (m : M updater unit) path s, view_of s = v -> (forall Q : unit -> updater -> Prop, (forall s', view_of s' = v -> Q tt s') -> wp m Q s) ->
    forall k, k <> 0 -> wp (m;; mret (k, path : list byte)) (fun r s' => if r.1 =? 0 then connected (view_of s') /\
      statements (v_sqlite (view_of s')) = statements (v_sqlite v0) else closed v0 (view_of s')) s) as Hfail.
  { clear s Hs. intros m path s Hs Hm k Hk. apply wp_bind, Hm. intros s' Hs'. apply wp_ret. cbn [fst].
    by rewrite (proj2 (Z.eqb_neq _ _) Hk), Hs'. }
  destruct (negb _); [apply Hfail; [done|intros Q; by apply wp_up_call_|done]|].
  destruct (config_get_string _ (Some PRICE_UPDATER_LOG_FILE_KEY) _) as [log|];
    [|apply Hfail; [done|intros Q; by apply wp_up_call_|done]].
  destruct (config_get_string _ _ _) as [pid|]; [|apply Hfail; [done|intros Q; by apply wp_up_log|done]].
  cbn [snprintf_s]. destruct (_ <=? _); [apply Hfail; [done|intros Q; by apply wp_up_log|done]|].
  apply wp_bind. eapply wp_mono; [apply (up_logger_init _ _ v); [done|apply Hv]|]. clear s Hs. intros r' s (fd & Hs & ->).
  destruct (Z.eqb_spec fd (-1)) as [->|Hfd]; cbn [negb Z.eqb].
  { assert (view_of s = v) as Hs'. { rewrite Hs. destruct v, Hv as (_ & _ & _ & E). cbn in E. by subst. }
    apply Hfail; [done|intros Q; by apply wp_up_call_|done]. }
  assert (forall text s v', view_of s = with_log fd v' -> closed v0 (with_log (-1) v') ->
    wp (log_error text;; in_logger logger_close;; mret (1, [] : list byte)) (fun r s' => if r.1 =? 0 then connected (view_of s') /\
      statements (v_sqlite (view_of s')) = statements (v_sqlite v0) else closed v0 (view_of s')) s) as Hlater.
  { clear s Hs. intros text s v' Hs Hc. eapply wp_bind, wp_up_log; [exact Hs|]. clear s Hs. intros s Hs.
    apply wp_bind. eapply wp_mono; [by apply (up_logger_close _ s Hs)|]. intros _u s' Hs'. apply wp_ret. cbn [fst Z.eqb].
    rewrite Hs'. exact Hc. }
  destruct (config_get_string _ _ _) as [file|].
  2: { eapply wp_bind, wp_up_log; [exact Hs|]. clear s Hs. intros s Hs. apply (Hlater _ s v Hs). by destruct Hv as (? & ? & ? & _). }
  eapply wp_bind, (wp_up_sqlite (with_log fd v) _ (fun r d => connection_ok d /\
    statements (db_sqlite d) = statements (v_sqlite v) /\ (r <> 0 -> db_handle d = v_handle v)) _ s Hs); [apply signalless_open| |].
  { intros w. eapply wp_mono; [apply open_spec; by eapply (closed_connected v0 v)|].
    intros r d (Hok & Hst & _ & Hr). split; [done|]. split; [done|]. apply Hr. }
  intros r d s' (Hok & Hst & Hr1) Hs'. destruct Hv as (V1 & V2 & V3 & V4). destruct (Z.eqb_spec r 0) as [->|Hne]; cbn [negb].
  - apply wp_ret. cbn [fst Z.eqb]. rewrite Hs'. cbn. rewrite Hst. done.
  - eapply (Hlater _ s' (with_database d v)); [by rewrite Hs'|]. pose proof (Hr1 Hne) as Eh.
    unfold closed. cbn. rewrite Eh, V1, Hst. destruct Hok as [Hc _]. rewrite Hc, Eh, V1. done.
Qed.

Lemma menu_loop_keeps fuel path s v0 : connected (view_of s) -> statements (up_sqlite s) = statements (v_sqlite v0) ->
  match menu_loop fuel path s with
  | Ret (_, s') => connected (view_of s') /\ statements (up_sqlite s') = statements (v_sqlite v0)
  | Undefined => False
  | OutOfFuel => True
  end.
Proof using Type*.
  revert s. induction fuel as [|fuel IH]; intros s Hc Hst; [done|].
  destruct (turn_returns path s) as (running & s' & E & Ht). cbn [menu_loop]. unfold mbind at 1, M_bind at 1. rewrite E.
  assert (connected (view_of s') /\ statements (up_sqlite s') = statements (v_sqlite v0)) as [Hc' Hst'].
  { change (statements (up_sqlite s')) with (statements (v_sqlite (view_of s'))).
    destruct (turn_read (up_stdin s)).1 as [c|]; cbn [turned] in Ht.
    - destruct Ht as (_ & r & v1 & l & [P1 P2 P3 P4 P5 P6 P7 P8] & -> & _). cbn [with_signals v_sqlite view_of] in *.
      unfold connected, connection_ok in *. cbn in *. by rewrite P2, P3, P4.
    - destruct Ht as [_ ->]. by cbn. }
  destruct running; [by apply IH|done].
Qed.
End Program.

(** C34: the program from start to end, on any input, configuration and
    database.  It never runs into undefined behaviour; if it ends, the result
    is 0 or -1, its connection to the database is closed with every statement
    it prepared, and so is its log file. *)
Theorem price_updater_run `{Environment} `{SqliteLaws} (fuel : nat) (input : list byte) (q : sqlite) :
  connections q = ∅ ->
  match main fuel (updater_start input q) with
  | Ret (r, s') => (r = 0 \/ r = -1) /\ up_handle s' = 0 /\ connections (up_sqlite s') = ∅ /\
      statements (up_sqlite s') = statements q /\ up_log_fd s' = -1
  | Undefined => False
  | OutOfFuel => True
  end.
Proof.
  intros Hq. set (s := updater_start input q). set (v0 := view_of s).
  assert (closed v0 v0) as Hv0 by (split; [done|]; split; [exact Hq|done]).
  destruct (wp_returns _ _ _ (updater_initialize_spec PID_FILE_PATH_SIZE v0 v0 s eq_refl Hv0)) as ([r path] & s1 & E & Hi).
  unfold main. unfold mbind at 1, M_bind at 1. rewrite E. cbn [fst] in Hi. destruct (Z.eqb_spec r 0) as [->|Hr]; cbn [negb].
  2: { destruct Hi as (F1 & F2 & F3 & F4). cbn. by auto. }
  destruct Hi as [Hc Hst].
  assert (forall s2, view_of s2 = view_of s1 -> match (menu_loop fuel path;; in_sqlite (sqlite_database_close nonnull);;
    in_logger logger_close;; log_info "PriceUpdater stopped successfully.";; mret 0) s2 with
    | Ret (r, s') => (r = 0 \/ r = -1) /\ up_handle s' = 0 /\ connections (up_sqlite s') = ∅ /\
        statements (up_sqlite s') = statements q /\ up_log_fd s' = -1
    | Undefined => False | OutOfFuel => True end) as Hrest; [|by apply Hrest; unfold view_of; cbn; rewrite !app_nil_r].
  intros s2 Hs2. pose proof (menu_loop_keeps fuel path s2 v0) as Hloop. rewrite Hs2 in Hloop.
  specialize (Hloop Hc). change (statements (up_sqlite s2)) with (statements (v_sqlite (view_of s2))) in Hloop.
  rewrite Hs2 in Hloop. specialize (Hloop Hst). unfold mbind at 1, M_bind at 1.
  destruct (menu_loop fuel path s2) as [[_u s3]| |]; [|done..]. destruct Hloop as [Hc3 Hst3].
  assert (wp (in_sqlite (sqlite_database_close nonnull);; in_logger logger_close;;
    log_info "PriceUpdater stopped successfully.";; mret 0) (fun r s' => (r = 0 \/ r = -1) /\ up_handle s' = 0 /\
    connections (up_sqlite s') = ∅ /\ statements (up_sqlite s') = statements q /\ up_log_fd s' = -1) s3) as Hm.
  { eapply wp_bind, (wp_up_sqlite (view_of s3) _ (fun _ d => connection_ok d /\
      statements (db_sqlite d) = statements (up_sqlite s3) /\ db_handle d = 0)); [done|apply signalless_close| |].
    { intros w. apply (close_spec nonnull (DB _ (up_handle s3) (up_sqlite s3) w)), Hc3. }
    intros _v d s4 ([Hc4 _] & Hst4 & Hh4) Hs4.
    apply wp_bind. eapply wp_mono; [by apply (up_logger_close _ s4 Hs4)|]. intros _w s5 Hs5.
    eapply wp_bind, wp_up_log; [exact Hs5|]. intros s6 Hs6. apply wp_ret. split; [by left|].
    rewrite Hh4 in Hc4. injection Hs6 as E1 E2 E3 E4 E5. rewrite E2, E3, E4, Hst4. done. }
  destruct (wp_returns _ _ _ Hm) as (r' & s4 & Hend & HQ). by rewrite Hend.
Qed.
