(* ===== verification/PriceUpdaterExample.v ===== *)
(** PriceUpdaterExample: the theorems on PriceUpdater at work on an SQLite
    library with one file. *)

From S2P Require Import Prelude Machine CLib CNumber Ieee Scanf Posix Config Logger.
From S2P Require Import Sqlite SqliteDatabase SqliteRules ParkingDatabase SqliteExample.
From S2P Require Import PriceUpdater PriceUpdaterProofs.

(** The files an operator's system has: the shipped configuration, and a PID
    file as the Database process writes it. *)
Definition pid_path : list byte := bs "../Database/database.pid".
Definition office : Environment := fun _ c =>
  match c with
  | sys_fopen path =>
      if decide (path = pid_path) then Answer 1 0 (dec_of_Z 4321 ++ [Byte.x0a]) ∅
      else Answer 1 0 parking_system_conf ∅
  | sys_open _ _ => ok 3
  | _ => ok 0
  end.

Lemma office_pid : @file_has_pid office pid_path 4321.
Proof. intros w. split; [done|]. vm_compute. reflexivity. Qed.

Definition seventy_five : number := Number (bs "0.75") (double_lit 75 100).
Definition from_number : number := Number (bs "50") (double_lit 50 1).
Definition to_number : number := Number (bs "5.1e1") (double_lit 51 1).

Lemma seventy_five_good : good_number seventy_five.
Proof. intros rest. reflexivity. Qed.
Lemma from_number_good : good_number from_number.
Proof. intros rest. reflexivity. Qed.
Lemma to_number_good : good_number to_number.
Proof. intros rest. reflexivity. Qed.

(** A city is added and removed again, the price of another is changed, and
    one that does not exist is asked for. *)
Definition morning : list entry :=
  [AddEntry (bs "Eilat") from_number to_number from_number to_number seventy_five;
   OtherEntry 9;
   UpdateEntry (bs "Jerusalem") seventy_five;
   UpdateEntry (bs "Atlantis") seventy_five;
   DeleteEntry (bs "Eilat")].

Definition at_desk : updater :=
  Updater _ (concat (typed_entry <$> morning) ++ line (bs "4") ++ bs "left over") 1
    (FileDb initial_tables ∅ {[1]} 0) 3 0 [].

Lemma good_nameb name : bool_decide (name <> []) && bool_decide (NUL ∉ name) && bool_decide (Byte.x0a ∉ name) &&
  (length name <? CITY_NAME_LENGTH - 1)%nat = true -> good_name name.
Proof.
  intros [[[H1 H2]%andb_prop H3]%andb_prop H4]%andb_prop.
  apply bool_decide_eq_true in H1, H2, H3. apply Nat.ltb_lt in H4. by repeat split.
Qed.

Lemma operator_session_witness :
  wp (@menu_loop office _ 6 pid_path) (fun _ s' => exists rs, length rs = 5%nat /\
    session morning (tables_of (up_sqlite at_desk)) rs (tables_of (up_sqlite s')) /\
    signals (up_world s') = signals (up_world at_desk) ++ replicate (successes rs) 4321 /\
    up_stdin s' = bs "left over" /\ up_handle s' = 1 /\ up_log_fd s' = 3 /\
    connections (up_sqlite s') = {[1]} /\ statements (up_sqlite s') = ∅) at_desk.
Proof.
  refine (@operator_session office _ _ pid_path 4321 morning (bs "left over") 6 at_desk _ office_pid _ _ eq_refl).
  - done.
  - pose proof seventy_five_good. pose proof from_number_good. pose proof to_number_good.
    repeat constructor; first [by apply good_nameb | assumption | reflexivity | apply (bool_decide_unpack _); vm_compute; exact I].
  - cbn. lia.
Defined.

(** What the session comes to on this file. *)
Example morning_run :
  match @menu_loop office _ 6 pid_path at_desk with
  | Ret (_, s') =>
      signals (up_world s') = [4321; 4321; 4321] /\ up_stdin s' = bs "left over" /\
      (price_per_minute <$> (cities (f_tables (up_sqlite s')) !! 3)) = Some (double_lit 75 100) /\
      cities (f_tables (up_sqlite s')) !! 4 = None
  | _ => False
  end.
Proof. vm_compute. repeat split; reflexivity. Qed.

Lemma menu_ends_or_asks_forever_witness :
  ((exists s', forall fuel, (length (up_stdin at_desk) < fuel)%nat -> @menu_loop office _ fuel pid_path at_desk = Ret (tt, s')) \/
   (forall fuel, @menu_loop office _ fuel pid_path at_desk = OutOfFuel)) /\
  (forall fuel, @menu_loop office _ fuel pid_path (updater_start [] (FileDb initial_tables ∅ {[1]} 0)) = OutOfFuel).
Proof.
  split; [exact (proj1 (@menu_ends_or_asks_forever office _ _ pid_path at_desk))|].
  exact (proj2 (@menu_ends_or_asks_forever office _ _ pid_path (updater_start [] (FileDb initial_tables ∅ {[1]} 0))) eq_refl).
Defined.

(** From the shipped configuration to the end, with the same input. *)
Lemma price_updater_run_witness :
  match @main office _ 6 (updater_start (up_stdin at_desk) (FileDb initial_tables ∅ ∅ 0)) with
  | Ret (r, s') => (r = 0 \/ r = -1) /\ up_handle s' = 0 /\ connections (up_sqlite s') = ∅ /\
      statements (up_sqlite s') = ∅ /\ up_log_fd s' = -1
  | Undefined => False
  | OutOfFuel => True
  end.
Proof. refine (@price_updater_run office _ _ 6 (up_stdin at_desk) (FileDb initial_tables ∅ ∅ 0) _). reflexivity. Defined.

Example whole_run :
  match @main office _ 6 (updater_start (up_stdin at_desk) (FileDb initial_tables ∅ ∅ 0)) with
  | Ret (r, s') => r = 0 /\ signals (up_world s') = [4321; 4321; 4321]
  | _ => False
  end.
Proof. vm_compute. by split. Qed.
