(* ===== verification/Signalling.v ===== *)
(** Signalling: the PID file between Database, which writes it at start-up, and
    PriceUpdater, which reads it to signal Database. *)

From S2P Require Import Prelude Machine CLib CNumber Ieee Scanf Posix Config Logger.
From S2P Require Import Sqlite SqliteDatabase SqliteRules ParkingDatabase SqliteExample.
From S2P Require Import SharedMemory SharedQueue Database DatabaseProofs PriceUpdater PriceUpdaterProofs PriceUpdaterExample.

(** ** The file

    What a history (the latest call first) leaves in the file at [path]: the
    bytes written through the descriptor it was opened with, since it was
    truncated. *)
Section File.
Variable path : list byte.

Fixpoint descriptor (w : world) : option Z :=
  match w with
  | [] => None
  | (sys_open p true, a) :: w =>
      if bool_decide (p = path) && negb (ans_ret a =? -1) then Some (ans_ret a) else descriptor w
  | (sys_close fd, _) :: w => if bool_decide (descriptor w = Some fd) then None else descriptor w
  | _ :: w => descriptor w
  end.

Fixpoint content (w : world) : option (list byte) :=
  match w with
  | [] => None
  | (sys_open p true, a) :: w => if bool_decide (p = path) && negb (ans_ret a =? -1) then Some [] else content w
  | (sys_write fd data, a) :: w =>
      if bool_decide (descriptor w = Some fd) then (fun text => text ++ take (Z.to_nat (ans_ret a)) data) <$> content w
      else content w
  | (sys_remove p, a) :: w => if bool_decide (p = path) && (ans_ret a =? 0) then None else content w
  | _ :: w => content w
  end.
End File.

Definition pid_line (pid : Z) : list byte := dec_of_Z pid ++ [Byte.x0a].

(** The disk takes every byte. *)
Definition writes_whole `{Environment} : Prop := forall w fd data,
  ans_ret (respond w (sys_write fd data)) = Z.of_nat (length data).
(** A [pid_t] is an [int]. *)
Definition pids_are_int `{Environment} : Prop := forall w, in_int (ans_ret (respond w sys_getpid)) = true.

(** ** The writer *)
Lemma content_written path data o a a1 a2 a3 a4 f w : ans_ret o <> -1 ->
  content path ((sys_close (ans_ret o), a4) :: (sys_write (ans_ret o) data, a) :: (sys_log LOG_LEVEL_INFO f, a3) ::
    (sys_getpid, a2) :: (sys_getpid, a1) :: (sys_open path true, o) :: w) = Some (take (Z.to_nat (ans_ret a)) data).
Proof.
  intros Ho%Z.eqb_neq. cbn. rewrite Ho, (bool_decide_true (path = path)) by done. cbn.
  by rewrite bool_decide_true by done.
Qed.

Lemma write_pid_file_content `{Environment} `{Sqlite} `{!OtherThreads} (s : server) : writes_whole ->
  let path := pid_file_ (this s) in
  let opened := respond (srv_world s) (sys_open path true) in
  let pid := ans_ret (respond ((sys_open path true, opened) :: srv_world s) sys_getpid) in
  wp write_pid_file (fun created s' =>
    (created = true <-> ans_ret opened <> -1) /\
    (created = true -> content path (srv_world s') = Some (pid_line pid))) s.
Proof.
  intros Hw path opened pid. unfold write_pid_file. apply wp_bind, wp_field, wp_bind, wp_call_ok. fold path opened.
  destruct (Z.eqb_spec (ans_ret opened) (-1)) as [E|E].
  { apply wp_bind, wp_log, wp_ret. by split. }
  apply wp_bind, wp_call_ok, wp_bind, wp_in_world, wp_sys_, wp_bind, wp_log.
  apply wp_bind, wp_in_world, wp_sys_, wp_bind, wp_in_world, wp_sys_, wp_ret. split; [done|]. intros _.
  etrans; [by apply content_written|]. by rewrite Hw, Nat2Z.id, firstn_all.
Qed.

(** ** The reader *)
Lemma file_with_line `{Environment} path pid : in_int pid = true ->
  (forall w, ans_ret (respond w (sys_fopen path)) <> 0 /\ ans_data (respond w (sys_fopen path)) = pid_line pid) ->
  file_has_pid path pid.
Proof.
  intros Hp Hf w. destruct (Hf w) as [Hr Hd]. split; [done|]. rewrite Hd. unfold pid_line.
  by rewrite scan_int_dec_of_Z.
Qed.

(** C25: the PID file carries the signal.  Database reports the file as written
    exactly when it could be opened; on a disk that takes every byte its content
    is then the number of the process; and an operator's session whose
    PriceUpdater finds this content signals that process, once for each command
    that succeeded, and no other. *)
Theorem database_is_signalled `{Hd : Environment} `{Sqlite} `{!OtherThreads} (s : server) :
  writes_whole -> pids_are_int ->
  let path := pid_file_ (this s) in
  wp write_pid_file (fun created s' =>
    (created = true <-> ans_ret (respond (srv_world s) (sys_open path true)) <> -1) /\
    (created = true -> exists pid w, pid = ans_ret (respond w sys_getpid) /\
      forall (Hu : Environment) (S : Sqlite) (_laws : SqliteLaws) (es : list entry) (rest : list byte) (fuel : nat)
        (u : updater),
        (forall w, ans_ret (@respond Hu w (sys_fopen path)) <> 0 /\
          content path (srv_world s') = Some (ans_data (@respond Hu w (sys_fopen path)))) ->
        up_handle u <> 0 -> Forall good_entry es -> (length es < fuel)%nat ->
        up_stdin u = concat (typed_entry <$> es) ++ line (bs "4") ++ rest ->
        wp (@menu_loop Hu S fuel path) (fun _ u' => exists rs, length rs = length es /\
          session es (tables_of (up_sqlite u)) rs (tables_of (up_sqlite u')) /\
          signals (up_world u') = signals (up_world u) ++ replicate (successes rs) pid) u)) s.
Proof.
  intros Hw Hp path. eapply wp_mono; [by apply write_pid_file_content|].
  intros created s' [Hopen Hc]. split; [exact Hopen|]. intros E. specialize (Hc E). do 2 eexists. split; [reflexivity|].
  intros Hu S laws es rest fuel u Hfile Hh Hes Hfuel Hin.
  match type of Hc with _ = Some (pid_line ?p) => assert (@file_has_pid Hu path p) as Hf end.
  { apply file_with_line; [apply Hp|]. intros w. destruct (Hfile w) as [Hr Hcont]. split; [done|].
    unfold path in *. rewrite Hc in Hcont. by injection Hcont. }
  eapply wp_mono; [by apply (session_run path _ es (view_of u) u rest fuel eq_refl Hh Hf)|].
  intros _v u' (rs & H1 & H2 & H3 & _). by exists rs.
Qed.

(** ** The shipped configuration *)
Definition basement : Environment := fun _ c =>
  match c with
  | sys_open _ _ => ok 3
  | sys_getpid => ok 4321
  | sys_write _ data => ok (Z.of_nat (length data))
  | _ => ok 0
  end.

Definition starting_server : server :=
  Server _ (new_Database <| pid_file_ := pid_path |>) [] 0 (FileDb initial_tables ∅ ∅ 0) (-1) 0 [].

(** What the operator of PriceUpdaterExample finds in the file is what was
    written. *)
Example office_reads_basement :
  match @write_pid_file basement _ starting_server with
  | Ret (created, s') => created = true /\ content pid_path (srv_world s') =
      Some (ans_data (@respond office [] (sys_fopen pid_path)))
  | _ => False
  end.
Proof. vm_compute. split; reflexivity. Qed.

Lemma database_is_signalled_witness :
  @writes_whole basement /\ @pids_are_int basement /\
  let path := pid_file_ (this starting_server) in
  wp (@write_pid_file basement _) (fun created s' =>
    (created = true <-> ans_ret (@respond basement (srv_world starting_server) (sys_open path true)) <> -1) /\
    (created = true -> exists pid w, pid = ans_ret (@respond basement w sys_getpid) /\
      forall (Hu : Environment) (S : Sqlite) (_laws : SqliteLaws) (es : list entry) (rest : list byte) (fuel : nat)
        (u : updater),
        (forall w, ans_ret (@respond Hu w (sys_fopen path)) <> 0 /\
          content path (srv_world s') = Some (ans_data (@respond Hu w (sys_fopen path)))) ->
        up_handle u <> 0 -> Forall good_entry es -> (length es < fuel)%nat ->
        up_stdin u = concat (typed_entry <$> es) ++ line (bs "4") ++ rest ->
        wp (@menu_loop Hu S fuel path) (fun _ u' => exists rs, length rs = length es /\
          session es (tables_of (up_sqlite u)) rs (tables_of (up_sqlite u')) /\
          signals (up_world u') = signals (up_world u) ++ replicate (successes rs) pid) u)) starting_server.
Proof.
  assert (@writes_whole basement) as Hw by done. assert (@pids_are_int basement) as Hp by done.
  split; [exact Hw|]. split; [exact Hp|].
  refine (@database_is_signalled basement _ (fun s => s) starting_server Hw Hp).
Defined.
