(* ===== verification/Ledger.v ===== *)
(** Ledger: a reference parking service, with one entry per parked vehicle and
    no database, and the equivalence of the Database server with it while no
    other process writes to the database and SQLite does not fail. *)

From Stdlib Require Import Floats.SpecFloat.
From S2P Require Import Prelude Machine CLib Ieee Posix IpcProtocol Sqlite SqliteDatabase SqliteRules ParkingDatabase.
From S2P Require Import Database DatabaseProofs.

#[export] Instance byte_countable : Countable byte :=
  inj_countable Byte.to_N Byte.of_N Byte.of_to_N.

(** ** Order on the floating-point numbers *)
Lemma SFleb_trans x y z : SFleb x y = true -> SFleb y z = true -> SFleb x z = true.
Proof.
  unfold SFleb, SFcompare.
  destruct x as [[]|[]| |[] mx ex], y as [[]|[]| |[] my ey], z as [[]|[]| |[] mz ez]; try done.
  all: destruct (Z.compare_spec ex ey), (Z.compare_spec ey ez), (Z.compare_spec ex ez); try done; try lia.
  all: change (Pos.compare_cont Eq ?a ?b) with (Pos.compare a b).
  all: destruct (Pos.compare_spec mx my), (Pos.compare_spec my mz), (Pos.compare_spec mx mz); try done; lia.
Qed.

(** ** The reference *)
Record stay := Stay { since : Z; rate : double }.
Abbreviation ledger := (gmap (list byte) stay).

Section Reference.
Context (C : gmap Z parking_city).

(** The city at a position. *)
Definition city_of (latitude longitude : double) : option parking_city :=
  snd <$> head (filter (fun e => city_contains e.2 latitude longitude = true) (map_to_list C)).

(** What a request answers, and the entries afterwards. *)
Definition serve (m : ledger) (rq : tcp_to_database_message_t) : ledger * database_to_tcp_message_t :=
  let v := until_nul (rq_vehicle_number rq) in
  let answer := blank_reply rq v in
  if rq_action rq =? START_PARKING then
    let answer := answer <| rs_action := ACKNOWLEDGE |> in
    match city_of (rq_latitude rq) (rq_longitude rq) with
    | None => (m, answer <| rs_status := IPC_STATUS_INVALID_REQUEST |>)
    | Some c =>
        if (rq_parking_start_time rq <=? 0) || bool_decide (is_Some (m !! v)) then
          (m, answer <| rs_status := IPC_STATUS_DATABASE_ERROR |>)
        else
          (<[v := Stay (rq_parking_start_time rq) (price_per_minute c)]> m,
           answer <| rs_status := IPC_STATUS_SUCCESS |> <| rs_parking_start_time := rq_parking_start_time rq |>)
    end
  else if rq_action rq =? END_PARKING then
    let answer := answer <| rs_action := END_PARKING |> in
    match m !! v with
    | Some a =>
        if (rq_parking_end_time rq <=? 0) || (rq_parking_end_time rq <? since a) then
          (m, answer <| rs_status := IPC_STATUS_VEHICLE_NOT_FOUND |>)
        else
          (delete v m,
           answer <| rs_status := IPC_STATUS_SUCCESS |>
             <| rs_parking_start_time := since a |> <| rs_parking_end_time := rq_parking_end_time rq |>
             <| rs_parking_duration := rq_parking_end_time rq - since a |>
             <| rs_parking_cost := parking_cost ((rq_parking_end_time rq - since a + 59) `div` 60) (rate a) |>)
    | None => (m, answer <| rs_status := IPC_STATUS_VEHICLE_NOT_FOUND |>)
    end
  else (m, answer <| rs_action := rq_action rq |> <| rs_status := IPC_STATUS_INVALID_REQUEST |>).

Fixpoint serve_all (m : ledger) (rqs : list tcp_to_database_message_t)
    : ledger * list database_to_tcp_message_t :=
  match rqs with
  | [] => (m, [])
  | rq :: rqs =>
      let '(m, rs) := serve m rq in
      let '(m, rss) := serve_all m rqs in
      (m, rs :: rss)
  end.
End Reference.

Lemma length_serve_all C m rqs : length (serve_all C m rqs).2 = length rqs.
Proof.
  revert m. induction rqs as [|rq rqs IH]; intros m; [done|]. cbn [serve_all]. destruct (serve C m rq) as [m1 rs].
  specialize (IH m1). destruct (serve_all C m1 rqs) as [m2 rss]. cbn in *. by rewrite IH.
Qed.

(** ** The cities it can work with *)
Record city_map (C : gmap Z parking_city) : Prop := {
  cm_apart : forall i j c d latitude longitude, C !! i = Some c -> C !! j = Some d ->
    city_contains c latitude longitude = true -> city_contains d latitude longitude = true -> i = j;
  cm_keys : forall i, is_Some (C !! i) -> 0 < i <= INT_MAX;
  cm_prices : forall i c, C !! i = Some c -> is_nan (price_per_minute c) = false;
}.

Lemma city_of_Some C i c latitude longitude : city_map C -> C !! i = Some c ->
  city_contains c latitude longitude = true -> city_of C latitude longitude = Some c.
Proof.
  intros [Hapart _ _] Hi Hc. unfold city_of.
  assert ((i, c) ∈ filter (fun e => city_contains e.2 latitude longitude = true) (map_to_list C)) as Hin
    by (apply list_elem_of_filter; split; [done|by apply elem_of_map_to_list]).
  destruct (filter _ _) as [|[j d] l] eqn:El; [by apply not_elem_of_nil in Hin|].
  assert ((j, d) ∈ filter (fun e => city_contains e.2 latitude longitude = true) (map_to_list C)) as Hj
    by (rewrite El; apply list_elem_of_here).
  apply list_elem_of_filter in Hj as [Hd Hj]. apply elem_of_map_to_list in Hj. cbn in Hd |- *.
  assert (i = j) as <- by by eapply Hapart. congruence.
Qed.

Lemma city_of_None C latitude longitude : (forall i c, C !! i = Some c -> city_contains c latitude longitude = false) ->
  city_of C latitude longitude = None.
Proof.
  intros Hno. unfold city_of. destruct (filter _ _) as [|[j d] l] eqn:El; [done|].
  assert ((j, d) ∈ filter (fun e => city_contains e.2 latitude longitude = true) (map_to_list C)) as Hj
    by (rewrite El; apply list_elem_of_here).
  apply list_elem_of_filter in Hj as [Hd Hj]. apply elem_of_map_to_list in Hj. cbn in Hd. by rewrite (Hno _ _ Hj) in Hd.
Qed.

Lemma contains_not_nan c latitude longitude : city_contains c latitude longitude = true ->
  is_nan latitude = false /\ is_nan longitude = false.
Proof.
  unfold city_contains. intros [[[H1 _]%andb_prop H2]%andb_prop _]%andb_prop.
  split; [destruct latitude|destruct longitude]; try done.
  - unfold double_ge, SFleb in H1. by destruct (min_latitude c).
  - unfold double_ge, SFleb in H2. by destruct (min_longitude c).
Qed.

(** Latitudes that are apart make the areas apart. *)
Lemma initial_cities_map : city_map initial_cities.
Proof.
  assert (forall i c, initial_cities !! i = Some c -> i = 1 \/ i = 2 \/ i = 3) as Hkeys.
  { unfold initial_cities. intros i c. rewrite !lookup_insert_Some. naive_solver. }
  split.
  - intros i j c d latitude longitude Hi Hj Hc Hd.
    unfold city_contains in Hc, Hd.
    apply andb_prop in Hc as [[[Hc1 Hc2]%andb_prop _]%andb_prop _]. apply andb_prop in Hd as [[[Hd1 Hd2]%andb_prop _]%andb_prop _].
    pose proof (SFleb_trans _ _ _ Hc1 Hd2) as H1. pose proof (SFleb_trans _ _ _ Hd1 Hc2) as H2. clear Hc1 Hc2 Hd1 Hd2.
    destruct (Hkeys _ _ Hi) as [-> | [-> | ->]], (Hkeys _ _ Hj) as [-> | [-> | ->]]; try done; exfalso;
      vm_compute in Hi, Hj; injection Hi as <-; injection Hj as <-; first [by vm_compute in H1|by vm_compute in H2].
  - intros i [c Hi]. unfold INT_MAX. destruct (Hkeys _ _ Hi) as [-> | [-> | ->]]; lia.
  - intros i c Hi. destruct (Hkeys _ _ Hi) as [-> | [-> | ->]]; vm_compute in Hi; by injection Hi as <-.
Qed.

(** ** The equivalence *)
Section Equivalence.
Context `{SqliteLaws} (Halone : forall t t', rely t t' -> t' = t) (Hworks : ~ sqlite_failure).
Context (C : gmap Z parking_city) (Hmap : city_map C).

Definition entry_of (x : parking_session) : stay := Stay (s_start_time x) (s_price_per_minute x).

(** The entries are the active sessions. *)
Record books (m : ledger) (T : tables) : Prop := {
  bk_cities : cities T = C;
  bk_ok : sessions_ok (sessions T);
  bk_entries : forall v a, m !! v = Some a <-> exists i x, sessions T !! i = Some x /\
    s_vehicle_number x = v /\ s_end_time x = None /\ a = entry_of x;
}.

Lemma books_parked m T v : books m T -> parked v T <-> is_Some (m !! v).
Proof.
  intros [_ _ Hb]. split.
  - intros (i & x & Hi & Hv & He). exists (entry_of x). apply Hb. by exists i, x.
  - intros [a Ha]. apply Hb in Ha as (i & x & Hi & Hv & He & _). by exists i, x.
Qed.

Lemma books_same m T T' : books m T -> cities T' = C -> sessions T' = sessions T -> books m T'.
Proof. intros [B1 B2 B3] Hc Hs. by split; rewrite ?Hs. Qed.


Lemma books_insert m T T' k x : books m T -> cities T' = C -> sessions_ok (sessions T') ->
  sessions T' = <[k := x]> (sessions T) -> sessions T !! k = None -> s_end_time x = None ->
  ~ parked (s_vehicle_number x) T -> books (<[s_vehicle_number x := entry_of x]> m) T'.
Proof.
  intros Hb Hc Hok Es Hk Hx Hfree. pose proof (bk_entries _ _ Hb) as Hent. split; [done|done|]. intros v a. rewrite Es.
  destruct (decide (s_vehicle_number x = v)) as [<-|Hv].
  - rewrite lookup_insert_eq. split.
    + intros [= <-]. exists k, x. by rewrite lookup_insert_eq.
    + intros (i & y & Hi & Hvy & Hey & ->). apply lookup_insert_Some in Hi as [[_ <-]|[_ Hi]]; [done|].
      exfalso. apply Hfree. by exists i, y.
  - rewrite lookup_insert_ne by done. rewrite Hent. split; intros (i & y & Hi & Hvy & Hey & ->).
    + exists i, y. rewrite lookup_insert_ne by (intros ->; congruence). done.
    + apply lookup_insert_Some in Hi as [[_ <-]|[_ Hi]]; [done|]. by exists i, y.
Qed.

Lemma books_delete m T T' i x e cost : books m T -> cities T' = C -> sessions_ok (sessions T') ->
  sessions T' = alter (close_session (Some e) cost) i (sessions T) -> sessions T !! i = Some x -> s_end_time x = None ->
  books (delete (s_vehicle_number x) m) T'.
Proof.
  intros Hb Hc Hok Es Hi Hx. destruct Hb as [B1 [_ Hone] Hent]. split; [done|done|]. intros v a. rewrite Es.
  destruct (decide (s_vehicle_number x = v)) as [<-|Hv].
  - rewrite lookup_delete_eq. split; [done|]. intros (j & y & Hj & Hvy & Hey & _).
    apply lookup_alter_Some in Hj as [(-> & z & Hz & ->)|[Hn Hj]]; [done|].
    by destruct (Hn (Hone _ _ _ _ Hi Hj (eq_sym Hvy) Hx Hey)).
  - rewrite lookup_delete_ne by done. rewrite Hent. split; intros (j & y & Hj & Hvy & Hey & ->).
    + exists j, y. rewrite lookup_alter_ne by (intros ->; congruence). done.
    + apply lookup_alter_Some in Hj as [(-> & z & Hz & ->)|[Hn Hj]]; [done|]. by exists j, y.
Qed.

Lemma books_session m T v i x : books m T -> latest_active v T i x -> m !! v = Some (entry_of x).
Proof. intros Hb (Hi & Hv & He & _). apply (bk_entries _ _ Hb). by exists i, x. Qed.

Lemma reply_cities m T T' : books m T -> cities_by_others T T' -> cities T' = C.
Proof using Halone. intros [Hc _ _] (t & R1 & R2). apply Halone in R1 as ->. apply Halone in R2 as ->. exact Hc. Qed.

Lemma start_reply_serve m T T' rq v rs : books m T -> cities T' = C -> sessions_ok (sessions T') ->
  until_nul (rq_vehicle_number rq) = v -> rq_action rq = START_PARKING -> start_reply rq v T T' rs ->
  (serve C m rq).2 = rs /\ books (serve C m rq).1 T'.
Proof using Halone Hworks Hmap.
  intros Hb Hc' Hok Hv Hact Hr. unfold serve. rewrite Hv, Hact. change (START_PARKING =? START_PARKING) with true. cbv iota zeta.
  pose proof (bk_cities _ _ Hb) as Hc.
  destruct Hr as [[?|(t & R & Hno)] Es|t i c R Hi Hin Hwhy Es|t i c k R Hi Hin (t' & c' & R' & Hi' & Es) Hst Hfree Hk].
  - done.
  - apply Halone in R as ->. rewrite Hc in Hno. rewrite city_of_None by done. split; [done|]. by eapply books_same.
  - apply Halone in R as ->. rewrite Hc in *. rewrite (city_of_Some _ _ _ _ _ Hmap Hi Hin).
    assert (s32 i = i) as Ei.
    { apply s32_small. unfold in_int, INT_MIN, INT_MAX. pose proof (cm_keys _ Hmap i (mk_is_Some _ _ Hi)) as Hkey.
      unfold INT_MAX in Hkey. lia. }
    assert ((rq_parking_start_time rq <=? 0) || bool_decide (is_Some (m !! v)) = true) as ->.
    { rewrite Ei in Hwhy. destruct Hwhy as [?|[Hle|[Hle|[Hp|[(t' & R' & Hn)|(t' & c' & R' & Hi' & Hnan)]]]]].
      - done.
      - pose proof (cm_keys _ Hmap i (mk_is_Some _ _ Hi)). lia.
      - apply orb_true_iff. left. lia.
      - apply orb_true_iff. right. apply bool_decide_eq_true. by apply (books_parked _ _ _ Hb).
      - apply Halone in R' as ->. rewrite Hc in Hn. congruence.
      - apply Halone in R' as ->. rewrite Hc in Hi'. destruct (contains_not_nan _ _ _ Hin) as [N1 N2].
        by rewrite N1, N2, (cm_prices _ Hmap _ _ Hi') in Hnan. }
    split; [done|]. by eapply books_same.
  - apply Halone in R as ->. apply Halone in R' as ->. rewrite Hc in *. rewrite (city_of_Some _ _ _ _ _ Hmap Hi Hin).
    assert (s32 i = i) as Ei.
    { apply s32_small. unfold in_int, INT_MIN, INT_MAX. pose proof (cm_keys _ Hmap i (mk_is_Some _ _ Hi)) as Hkey.
      unfold INT_MAX in Hkey. lia. }
    rewrite Ei in *. assert (c' = c) as -> by congruence.
    rewrite (proj2 (Z.leb_gt _ _) Hst), bool_decide_eq_false_2 by by rewrite <- (books_parked _ _ _ Hb).
    split; [done|]. eapply (books_insert m T T' k _ Hb Hc' Hok Es); [apply Hk|done|done].
Qed.

Lemma end_reply_serve m T T' rq v rs : books m T -> cities T' = C -> sessions_ok (sessions T') ->
  until_nul (rq_vehicle_number rq) = v -> rq_action rq = END_PARKING -> rq_parking_end_time rq <= LAST_END_TIME ->
  end_reply rq v T T' rs -> (serve C m rq).2 = rs /\ books (serve C m rq).1 T'.
Proof using Hworks.
  intros Hb Hc' Hok Hv Hact Hlast Hr. unfold serve. rewrite Hv, Hact.
  change (END_PARKING =? START_PARKING) with false. change (END_PARKING =? END_PARKING) with true. cbv iota zeta.
  destruct Hr as [Hwhy Es|i x minutes cost Hx Hle Hm -> Es].
  - assert (match m !! v with Some a => (rq_parking_end_time rq <=? 0) || (rq_parking_end_time rq <? since a) = true
      | None => True end) as Hno.
    { destruct (m !! v) as [a|] eqn:Em; [|done]. destruct Hwhy as [?|[Hle|[Hp|(i & x & Hx & Hlt)]]].
      - done.
      - apply orb_true_iff. left. lia.
      - destruct Hp. apply (books_parked _ _ _ Hb). by eexists.
      - rewrite (books_session _ _ _ _ _ Hb Hx) in Em. injection Em as <-. cbn. apply orb_true_iff. right. lia. }
    destruct (m !! v) as [a|] eqn:Em; [rewrite Hno|]; (split; [done|]; by eapply books_same).
  - rewrite (books_session _ _ _ _ _ Hb Hx). cbn [since rate entry_of]. destruct Hx as (Hi & Hvx & He & _).
    pose proof (all_ok _ (bk_ok _ _ Hb) i x Hi) as [Hpos _].
    rewrite (proj2 (Z.leb_gt _ _)), (proj2 (Z.ltb_ge _ _)) by lia. cbn [orb].
    rewrite parking_minutes_eq in Hm by (unfold LAST_END_TIME, INT64_MAX in *; lia).
    destruct (_ <=? _) in Hm; [|done]. injection Hm as <-. split; [done|]. rewrite <- Hvx.
    by eapply books_delete.
Qed.

Lemma reply_serve m T T' rq v rs : books m T -> good_request rq v -> reply rq v T T' rs ->
  (serve C m rq).2 = rs /\ books (serve C m rq).1 T'.
Proof using Halone Hworks Hmap.
  intros Hb [_ Hv Hlast] Hr. pose proof (reply_keeps_sessions_ok _ _ _ _ _ Hr (bk_ok _ _ Hb)) as Hok.
  apply until_nul_cstr in Hv. destruct Hr as [Hc Hr]. pose proof (reply_cities _ _ _ Hb Hc) as Hc'.
  destruct (Z.eqb_spec (rq_action rq) START_PARKING) as [Ea|Ea]; [by eapply start_reply_serve|].
  destruct (Z.eqb_spec (rq_action rq) END_PARKING) as [Ee|Ee]; [by eapply end_reply_serve|].
  destruct Hr as [-> Es]. unfold serve. rewrite Hv, !(proj2 (Z.eqb_neq _ _)) by done. split; [done|]. by eapply books_same.
Qed.

Lemma replies_serve m T T' rqs rss : books m T -> replies T rqs rss T' ->
  rss = (serve_all C m rqs).2 /\ books (serve_all C m rqs).1 T'.
Proof using Halone Hworks Hmap.
  intros Hb Hr. revert m Hb. induction Hr as [T|T T1 T2 rq rqs v rs rss Hgood Hrep Hrs IH]; intros m Hb; [done|].
  destruct (reply_serve _ _ _ _ _ _ Hb Hgood Hrep) as [E Hb1]. cbn [serve_all].
  destruct (serve C m rq) as [m1 rs1]. cbn [fst snd] in *. subst rs1. destruct (IH m1 Hb1) as [-> Hb2].
  destruct (serve_all C m1 rqs) as [m2 rss2]. done.
Qed.
End Equivalence.

(** The requests one after the other. *)
Fixpoint process_all `{Environment} `{Sqlite} `{!OtherThreads} (rqs : list tcp_to_database_message_t)
    : M server (list database_to_tcp_message_t) :=
  match rqs with
  | [] => mret []
  | rq :: rqs => rs ← process_database_request rq; rss ← process_all rqs; mret (rs :: rss)
  end.

Lemma books_initial `{SqliteLaws} : books initial_cities ∅ initial_tables.
Proof.
  assert (forall i x, sessions initial_tables !! i = Some x -> False) as Hno.
  { intros i x Hx. change (sessions initial_tables) with (∅ : gmap Z parking_session) in Hx. by rewrite lookup_empty in Hx. }
  split; [done| |].
  - split; [intros i x Hx; by edestruct Hno|]. intros i j x y Hx. by edestruct Hno.
  - intros v a. rewrite lookup_empty. split; [done|]. intros (i & x & Hx & _). by edestruct Hno.
Qed.

(** C7: the Database server is equivalent to a reference that keeps one entry,
    start and price, per parked vehicle and answers from it.  While no other
    process writes to the database and SQLite does not fail, every sequence of
    requests gets exactly the responses of the reference, all fields of them,
    and the active sessions of the database are its entries. *)
Theorem database_is_ledger `{Environment} `{SqliteLaws} `{!OtherThreads} (C : gmap Z parking_city) (m : ledger)
    (rqs : list tcp_to_database_message_t) (s : server) :
  (forall t t', rely t t' -> t' = t) -> ~ sqlite_failure -> city_map C -> srv_handle s <> 0 ->
  books C m (tables_of (srv_sqlite s)) -> Forall (fun rq => exists v, good_request rq v) rqs ->
  wp (process_all rqs) (fun rss s' =>
    rss = (serve_all C m rqs).2 /\ books C (serve_all C m rqs).1 (tables_of (srv_sqlite s')) /\ same_server s s') s.
Proof.
  intros Halone Hworks Hmap Hh Hb Hgood. revert m s Hh Hb.
  induction Hgood as [|rq rqs [v Hv] Hgood IH]; intros m s Hh Hb; cbn [process_all serve_all].
  { apply wp_ret. by split_and!. }
  assert (sessions_private) as Hpriv by (intros t t' Hr; by rewrite (Halone _ _ Hr)).
  apply wp_bind. eapply wp_mono; [apply (process_request_spec Hpriv rq v); [apply Hv|apply Hv|done|apply Hb|apply Hv]|].
  intros rs s1 [Hs Hr]. destruct (reply_serve Halone Hworks C Hmap _ _ _ _ _ _ Hb Hv Hr) as [<- Hb1].
  destruct (serve C m rq) as [m1 rs1]. cbn [fst snd] in *. apply wp_bind.
  eapply wp_mono; [apply (IH m1 s1); [by rewrite (proj1 (proj2 (proj2 Hs)))|done]|].
  intros rss s2 (-> & Hb2 & Hs2). apply wp_ret. destruct (serve_all C m1 rqs) as [m2 rss2]. split; [done|]. split; [done|].
  unfold same_server in *. intuition congruence.
Qed.
