(* ===== verification/Fleet.v ===== *)
(** Fleet: the whole system.  The requests the client makes from the
    simulator's coordinates, carried by the two servers to the parking
    database, are all answered with success. *)

From Stdlib Require Import Sorting.Sorted.
From S2P Require Import Prelude Machine CLib Ieee Posix IpcProtocol Sqlite SqliteDatabase SqliteRules ParkingDatabase.
From S2P Require Import Database DatabaseProofs Ledger.
From S2P Require GpsSimulator.
From S2P Require Import BbgClient BbgProofs.

(** ** What stays true of the calls a client has made *)
Section History.
Context `{Environment} (I : world -> Prop).
Hypothesis (Hstep : forall w c, I w -> I ((c, respond w c) :: w)).

Definition keeps {A} (m : M bbg_process A) : Prop := forall s,
  I (bbg_world s) -> wlp m (fun _ s' => I (bbg_world s')) s.

Lemma keeps_ret {A} (a : A) : keeps (mret a).
Proof. by intros s Hs. Qed.
Lemma keeps_undef {A} : keeps (@undef bbg_process A).
Proof. by intros s Hs. Qed.
Lemma keeps_bind {A B} (m : M bbg_process A) (f : A -> M bbg_process B) :
  keeps m -> (forall a, keeps (f a)) -> keeps (m ≫= f).
Proof.
  intros Hm Hf s Hs. specialize (Hm s Hs). unfold wlp, mbind, M_bind in *. destruct (m s) as [[a s']| |]; [|done..].
  exact (Hf a s' Hm).
Qed.
Lemma keeps_gets {A} (f : bbg_process -> A) : keeps (gets f).
Proof. by intros s Hs. Qed.
Lemma keeps_modify (f : bbg_process -> bbg_process) : (forall s, bbg_world (f s) = bbg_world s) -> keeps (modify f).
Proof. intros Hf s Hs. cbn. by rewrite Hf. Qed.
Lemma keeps_sys c : keeps (in_world (sys c)).
Proof using Hstep. intros s Hs. apply (Hstep _ c Hs). Qed.
Lemma keeps_sysr c : keeps (call c).
Proof using Hstep. intros s Hs. apply (Hstep _ c Hs). Qed.
Lemma keeps_sys_ c : keeps (in_world (sys_ c)).
Proof using Hstep. intros s Hs. apply (Hstep _ c Hs). Qed.

Ltac keeps_go := repeat first
  [ apply keeps_ret | apply keeps_undef | apply keeps_gets | apply keeps_sys | apply keeps_sysr | apply keeps_sys_
  | apply keeps_modify; intros; reflexivity
  | apply keeps_bind; [|intros]
  | match goal with
    | |- keeps (if ?b then _ else _) => destruct b
    | |- keeps (match ?x with _ => _ end) => destruct x
    end ].

Lemma keeps_generate pipe i2c : keeps (generate_test_message pipe i2c).
Proof using Hstep. unfold generate_test_message, i2c_read_coordinates, from_option_undef. keeps_go. Qed.

Lemma keeps_generate_messages n pipe i2c : keeps (generate_messages n pipe i2c).
Proof using Hstep.
  induction n as [|n IH]; cbn [generate_messages]; [apply keeps_ret|].
  apply keeps_bind; [apply keeps_generate|]. intros r. keeps_go. apply IH.
Qed.
End History.

(** The times that the charge is defined for. *)
Definition time_in_range (t : Z) : Prop := 0 < t <= LAST_END_TIME.

(** The clock gives times in that range, and never goes back. *)
Definition clock_advances (env : Environment) : Prop := forall w, Forall time_in_range (times_read w) ->
  let now := s64 (ans_ret (respond w sys_time)) in
  time_in_range now /\ forall t, t ∈ times_read w -> t <= now.

(** A whole read of the device gives a coordinate of the simulator. *)
Definition simulator_answers (env : Environment) (i2c : Z) : Prop := forall w n,
  ans_ret (respond w (sys_read i2c n)) = sizeof_gps_coordinate ->
  exists c, c ∈ GpsSimulator.gps_coordinates /\ ans_data (respond w (sys_read i2c n)) = GpsSimulator.encode_coordinate c.

Definition simulated (c : gps_coordinate_t) : Prop := exists d, d ∈ GpsSimulator.gps_coordinates /\ c = received_coordinate d.

Record client_history (i2c : Z) (w : world) : Prop := {
  ch_sorted : StronglySorted Z.le (times_read w);
  ch_range : Forall time_in_range (times_read w);
  ch_coordinates : Forall simulated (coordinates_read i2c w);
}.

Lemma sorted_snoc l t : StronglySorted Z.le l -> (forall x, x ∈ l -> x <= t) -> StronglySorted Z.le (l ++ [t]).
Proof.
  induction 1 as [|x l Hl IH Hx]; intros Ht; [by repeat constructor|]. cbn. constructor.
  - apply IH. intros y Hy. apply Ht. by apply list_elem_of_further.
  - apply Forall_app. split; [done|]. constructor; [|done]. apply Ht, list_elem_of_here.
Qed.

Lemma client_history_step `{Environment} i2c w c : clock_advances _ -> simulator_answers _ i2c ->
  client_history i2c w -> client_history i2c ((c, respond w c) :: w).
Proof.
  intros Hclock Hsim [H1 H2 H3]. split.
  - destruct c; try exact H1. cbn [times_read]. apply sorted_snoc; [done|]. by apply Hclock.
  - destruct c; try exact H2. cbn [times_read]. apply Forall_app. split; [done|]. constructor; [by apply Hclock|done].
  - destruct c; try exact H3. rename fd into dev, n into k.
    cbn [coordinates_read]. apply Forall_app. split; [done|].
    destruct (Z.eqb_spec dev i2c) as [->|]; [|done]. cbn [andb].
    destruct (Z.eqb_spec (ans_ret (respond w (sys_read i2c k))) sizeof_gps_coordinate) as [E|]; [|done].
    constructor; [|done]. destruct (Hsim _ _ E) as (d & Hd & ->). exists d. split; [done|]. by apply decode_sent_coordinate.
Qed.

(** ** The reference serves every request of such a sequence *)
Record in_step (m : ledger) (L : list (list byte)) (now : Z) : Prop := {
  is_domain : forall v, is_Some (m !! v) <-> v ∈ L;
  is_since : forall v a, m !! v = Some a -> since a <= now;
}.

Definition plain_request (rq : tcp_to_database_message_t) : Z * list byte :=
  (rq_action rq, until_nul (rq_vehicle_number rq)).
Definition granted (rs : database_to_tcp_message_t) : Prop := rs_status rs = IPC_STATUS_SUCCESS.

Lemma serve_granted C m L now rq L' : in_step m L now -> drive L (plain_request rq) = Some L' ->
  now <= request_time rq -> 0 < request_time rq -> is_Some (city_of C (rq_latitude rq) (rq_longitude rq)) ->
  granted (serve C m rq).2 /\ in_step (serve C m rq).1 L' (request_time rq).
Proof.
  intros [Hdom Hsince] Hdrive Hnow Hpos [c Hc]. unfold serve. rewrite Hc.
  unfold drive, plain_request, request_time in *. cbn [fst snd] in Hdrive.
  set (v := until_nul (rq_vehicle_number rq)) in *.
  destruct (rq_action rq =? START_PARKING).
  - destruct (bool_decide_reflect (v ∈ L)) as [|Hv]; [done|]. injection Hdrive as <-.
    rewrite (proj2 (Z.leb_gt _ _) Hpos), bool_decide_eq_false_2 by by rewrite Hdom. cbn [orb fst snd].
    split; [done|]. split.
    + intros u. rewrite lookup_insert_is_Some, Hdom, elem_of_app, list_elem_of_singleton.
      destruct (decide (v = u)) as [->|]; naive_solver.
    + intros u a. rewrite lookup_insert_Some. intros [[_ <-]|[_ Ha]]; [done|]. specialize (Hsince _ _ Ha). lia.
  - destruct (rq_action rq =? END_PARKING); [|done].
    destruct (bool_decide_reflect (v ∈ L)) as [Hv|]; [|done]. injection Hdrive as <-.
    apply Hdom in Hv as [a Ha]. rewrite Ha. pose proof (Hsince _ _ Ha).
    rewrite (proj2 (Z.leb_gt _ _) Hpos), (proj2 (Z.ltb_ge _ _)) by lia. cbn [orb fst snd]. split; [done|]. split.
    + intros u. rewrite lookup_delete_is_Some, Hdom, list_elem_of_filter. naive_solver.
    + intros u b. rewrite lookup_delete_Some. intros [_ Hb]. specialize (Hsince _ _ Hb). lia.
Qed.

Lemma serve_all_granted C rqs m L now : in_step m L now -> is_Some (drive_all L (plain_request <$> rqs)) ->
  StronglySorted Z.le (now :: (request_time <$> rqs)) -> Forall (fun t => 0 < t) (request_time <$> rqs) ->
  Forall (fun rq => is_Some (city_of C (rq_latitude rq) (rq_longitude rq))) rqs ->
  Forall granted (serve_all C m rqs).2.
Proof.
  revert m L now. induction rqs as [|rq rqs IH]; intros m L now Hm Hdrive Hsorted Hpos Hcity; [done|].
  cbn [fmap list_fmap drive_all] in *. destruct (drive L (plain_request rq)) as [L'|] eqn:Ed; [|by destruct Hdrive].
  apply Forall_cons in Hpos as [Hp Hpos], Hcity as [Hc Hcity].
  apply StronglySorted_inv in Hsorted as [Hsorted Hnow]. apply Forall_cons in Hnow as [Hnow _].
  destruct (serve_granted C m L now rq L' Hm Ed Hnow Hp Hc) as [Hg Hm']. cbn [serve_all].
  destruct (serve C m rq) as [m1 rs]. cbn [fst snd] in *. specialize (IH m1 L' _ Hm' Hdrive Hsorted Hpos Hcity).
  destruct (serve_all C m1 rqs) as [m2 rss]. by constructor.
Qed.

(** ** The client's requests are such a sequence *)
Lemma simulated_in_city c : simulated c ->
  is_Some (city_of initial_cities (double_of_float (latitude c)) (double_of_float (longitude c))) /\
  valid_double (double_of_float (latitude c)) = true /\ valid_double (double_of_float (longitude c)) = true.
Proof.
  assert (forallb (fun d => let c := received_coordinate d in
    bool_decide (is_Some (city_of initial_cities (double_of_float (latitude c)) (double_of_float (longitude c)))) &&
    valid_double (double_of_float (latitude c)) && valid_double (double_of_float (longitude c)))
    GpsSimulator.gps_coordinates = true) as Hall by (vm_compute; reflexivity).
  intros (d & Hd & ->). pose proof (proj1 (forallb_forall _ _) Hall d (proj1 (list_elem_of_In _ _) Hd)) as Hc.
  apply andb_prop in Hc as [[Hc%bool_decide_eq_true H1]%andb_prop H2]. exact (conj Hc (conj H1 H2)).
Qed.

Lemma event_request_good e id c now : e ∈ test_events -> simulated c -> 0 <= id < 2 ^ 64 -> s64 now <= LAST_END_TIME ->
  good_request (event_request e id c now) (vehicle_number e).
Proof.
  intros He Hc Hid Hnow. destruct (event_vehicles e He) as (Ha & Hnul & Hlen). destruct (simulated_in_city c Hc) as (_ & V1 & V2).
  assert (- 2 ^ 63 <= s64 now < 2 ^ 63) as Hs by (apply (wrap_s_range 64); lia).
  split; [split|..]; cbn [event_request rq_request_id rq_action rq_vehicle_number rq_latitude rq_longitude
    rq_parking_start_time rq_parking_end_time]; try done.
  - destruct Ha as [-> | ->]; by vm_compute.
  - apply length_copy_cstr. unfold VEHICLE_NUMBER_SIZE. lia.
  - destruct (_ =? _); lia.
  - destruct (_ =? _); lia.
  - rewrite cstr_of_copy_cstr by (done || (unfold VEHICLE_NUMBER_SIZE; lia)).
    by rewrite take_ge by (unfold VEHICLE_NUMBER_SIZE; lia).
  - destruct (_ =? _); [by vm_compute|done].
Qed.

(** A sequence of requests the reference serves, and the servers accept. *)
Record fleet (rqs : list tcp_to_database_message_t) : Prop := {
  fl_good : Forall (fun rq => exists v, good_request rq v) rqs;
  fl_ids : forall k rq, rqs !! k = Some rq -> rq_request_id rq = u64 (1 + Z.of_nat k);
  fl_granted : Forall granted (serve_all initial_cities ∅ rqs).2;
}.

Section Client.
Context `{Environment} (pipe i2c : Z) (Hclock : clock_advances _) (Hsim : simulator_answers _ i2c).

Lemma generated_fleet alive s rqs s' : current_event s = 0 -> request_id s = 1 -> times_read (bbg_world s) = [] ->
  coordinates_read i2c (bbg_world s) = [] -> generated pipe i2c alive s rqs s' -> client_history i2c (bbg_world s') -> fleet rqs.
Proof using.
  intros He Hid Ht0 Hc0 [_ G2 _ (cs & G4 & G5) G6 G7 (unused & G8 & _) _] [H1 H2 H3].
  rewrite Ht0 in G8. rewrite Hc0 in G4. cbn [app] in G4, G8. rewrite G8 in H1, H2. rewrite G4 in H3.
  apply Forall_app in H2 as [H2 _]. rewrite Forall_fmap in H2.
  assert (forall rq, rq ∈ rqs -> exists e c now, e ∈ test_events /\ simulated c /\
    rq = event_request e (rq_request_id rq) c now) as Hrq.
  { intros rq Hin. destruct (proj1 (Forall_forall _ _) G5 rq Hin) as (e & c & now & Hev & Hc & E). exists e, c, now.
    split; [done|]. split; [by apply (proj1 (Forall_forall _ _) H3)|done]. }
  split.
  - apply Forall_forall. intros rq Hin. destruct (Hrq rq Hin) as (e & c & now & Hev & Hc & E).
    exists (vehicle_number e). rewrite E. apply event_request_good; [done|done| |].
    + apply list_elem_of_lookup in Hin as [k Hk]. rewrite (G6 k rq Hk). by apply wrap_u_range.
    + pose proof (proj1 (Forall_forall _ _) H2 rq Hin) as [_ Hlast]. cbn in Hlast. rewrite E in Hlast.
      unfold request_time, event_request in Hlast. cbn [rq_action rq_parking_start_time rq_parking_end_time] in Hlast.
      by destruct (action e =? START_PARKING).
  - intros k rq Hk. by rewrite (G6 k rq Hk), Hid.
  - apply (serve_all_granted _ _ ∅ [] 0).
    + split; [|done]. intros v. rewrite lookup_empty. split; [by intros []|by intros ?%not_elem_of_nil].
    + rewrite He in G7. change (parked_before 0) with (@nil (list byte)) in G7. by eexists.
    + constructor; [|].
      * clear -H1. induction (request_time <$> rqs) as [|t l IH]; [constructor|]. cbn in H1.
        apply StronglySorted_inv in H1 as [H1 Hf]. constructor; [by apply IH|]. by apply Forall_app in Hf as [Hf _].
      * rewrite Forall_fmap. eapply Forall_impl; [exact H2|]. cbn. unfold time_in_range. lia.
    + rewrite Forall_fmap. eapply Forall_impl; [exact H2|]. cbn. unfold time_in_range. lia.
    + apply Forall_forall. intros rq Hin. destruct (Hrq rq Hin) as (e & c & now & Hev & Hc & E). rewrite E.
      by apply simulated_in_city.
Qed.

Lemma client_fleet n s : current_event s = 0 -> request_id s = 1 -> bbg_world s = [] ->
  wp (generate_messages n pipe i2c) (fun alive s' => exists rqs, fleet rqs /\ (alive = true -> length rqs = n) /\
    messages_written pipe (bbg_world s') = encode_request <$> rqs) s.
Proof using Hclock Hsim.
  intros He Hid Hw. eapply wp_mono.
  { apply wp_wlp_conj; [apply (generate_messages_spec pipe i2c n); split; [rewrite He; by vm_compute|by rewrite Hid]|].
    apply (keeps_generate_messages (client_history i2c)); [intros w c; by apply client_history_step|].
    rewrite Hw. split; constructor. }
  intros alive s' [(rqs & Hlen & Hfull & Hgen) Hhist]. exists rqs. split; [|split; [done|]].
  - eapply generated_fleet; [exact He|exact Hid| | |exact Hgen|exact Hhist]; by rewrite Hw.
  - rewrite (gn_written _ _ _ _ _ _ Hgen), Hw. done.
Qed.
End Client.
