(* ===== verification/EndToEnd.v ===== *)
(** EndToEnd: the two servers, and the whole system with the client, against
    the reference of Ledger. *)

From S2P Require Import Prelude Machine CLib Posix IpcProtocol SharedMemory SharedQueue.
From S2P Require Import Sqlite SqliteDatabase SqliteRules ParkingDatabase.
From S2P Require Import Database DatabaseProofs Ledger Fleet.
From S2P Require Import TcpServer TcpSockets TcpMessages System.
From S2P Require BbgClient BbgProofs.

Section Servers.
Context `{SqliteLaws} (Et Ed : Environment) (Ot : TcpServer.OtherThreads) (Od : Database.OtherThreads).
Context (tq1 tq2 dq1 dq2 : SharedQueue) (ts1 ts2 ds1 ds2 : Z) (limit fuel : nat) (sent0 : Z -> list byte).
Context (Halone : forall t t', rely t t' -> t' = t) (Hworks : ~ sqlite_failure).

Lemma servers_deliver_reference C m T0 s0 s R : city_map C -> books C m T0 ->
  system_assumptions Et Ed Ot Od ts1 ts2 ds1 ds2 limit fuel ->
  represents Et tq1 tq2 dq1 dq2 ts1 ts2 ds1 ds2 T0 sent0 (Flow [] [] [] [] []) [] [] s0 ->
  system_run Et Ed Ot Od fuel s0 R s ->
  wp (system_rounds Et Ed Ot Od fuel (drain (length R))) (fun _ s' =>
    pending_requests_ (TcpServer.this (sys_tcp s')) = ∅ /\
    books C (serve_all C m R.*2).1 (tables_of (srv_sqlite (sys_db s'))) /\
    forall fd, ~ @send_failure Et fd ->
      sent_on fd (tcp_world (sys_tcp s')) = sent0 fd ++ responses_to fd R (serve_all C m R.*2).2) s.
Proof using Halone Hworks.
  intros Hmap Hb Ha Hinit Hrun. eapply wp_mono; [by eapply delivers_spec|].
  intros _u s' (rss & Hr & Hp & Hsent).
  destruct (replies_serve Halone Hworks C Hmap _ _ _ _ _ Hb Hr) as [-> Hb']. by split.
Qed.
End Servers.

(** C6: the two servers together are the reference.  From any start on a
    database whose active sessions are the entries [m], and any interleaving of
    arrivals and rounds of their threads, once the threads have had their turns
    each client socket that can be sent to has been sent exactly the responses
    of the reference to the requests that came from it, in order. *)
Theorem servers_are_reference `{SqliteLaws} (Et Ed : Environment) (Ot : TcpServer.OtherThreads)
    (Od : Database.OtherThreads) (tq1 tq2 dq1 dq2 : SharedQueue) (ts1 ts2 ds1 ds2 : Z) (limit fuel : nat)
    (sent0 : Z -> list byte) (C : gmap Z parking_city) (m : ledger) (T0 : tables) (s0 s : system)
    (R : list (Z * tcp_to_database_message_t)) :
  (forall t t', rely t t' -> t' = t) -> ~ sqlite_failure -> city_map C -> books C m T0 ->
  system_assumptions Et Ed Ot Od ts1 ts2 ds1 ds2 limit fuel ->
  represents Et tq1 tq2 dq1 dq2 ts1 ts2 ds1 ds2 T0 sent0 (Flow [] [] [] [] []) [] [] s0 ->
  system_run Et Ed Ot Od fuel s0 R s ->
  wp (system_rounds Et Ed Ot Od fuel (drain (length R))) (fun _ s' =>
    pending_requests_ (TcpServer.this (sys_tcp s')) = ∅ /\
    books C (serve_all C m R.*2).1 (tables_of (srv_sqlite (sys_db s'))) /\
    forall fd, ~ @send_failure Et fd ->
      sent_on fd (tcp_world (sys_tcp s')) = sent0 fd ++ responses_to fd R (serve_all C m R.*2).2) s.
Proof. intros Halone Hworks Hmap Hb Ha Hinit Hrun. by eapply (servers_deliver_reference Et Ed Ot Od _ _ _ _ _ _ _ _ _ _ _ Halone Hworks). Qed.

(** C5: the whole system.  A client of the simulator, started afresh, writes in
    [n] turns (fewer only if a call of its own fails) a sequence of requests
    the servers accept, numbered from 1; and whenever the servers, on a fresh
    database, have received exactly these requests, one connection after the
    other or many at once, they deliver one response to each, and every one of
    them reports success. *)
Theorem fleet_is_served `{SqliteLaws} (Ec : Environment) (n : nat) (pipe i2c : Z) (c : BbgClient.bbg_process) :
  (forall t t', rely t t' -> t' = t) -> ~ sqlite_failure ->
  @clock_advances Ec -> @simulator_answers Ec i2c ->
  BbgClient.current_event c = 0 -> BbgClient.request_id c = 1 -> BbgClient.bbg_world c = [] ->
  wp (@BbgClient.generate_messages Ec n pipe i2c) (fun alive c' => exists rqs,
    (alive = true -> length rqs = n) /\
    BbgProofs.messages_written pipe (BbgClient.bbg_world c') = encode_request <$> rqs /\
    Forall (fun rq => exists v, good_request rq v) rqs /\
    (forall k rq, rqs !! k = Some rq -> rq_request_id rq = u64 (1 + Z.of_nat k)) /\
    forall Et Ed Ot Od tq1 tq2 dq1 dq2 ts1 ts2 ds1 ds2 limit fuel sent0 s0 s R,
      system_assumptions Et Ed Ot Od ts1 ts2 ds1 ds2 limit fuel ->
      represents Et tq1 tq2 dq1 dq2 ts1 ts2 ds1 ds2 initial_tables sent0 (Flow [] [] [] [] []) [] [] s0 ->
      system_run Et Ed Ot Od fuel s0 R s -> R.*2 = rqs ->
      wp (system_rounds Et Ed Ot Od fuel (drain (length R))) (fun _ s' => exists rss,
        length rss = length rqs /\ Forall granted rss /\
        forall fd, ~ @send_failure Et fd ->
          sent_on fd (tcp_world (sys_tcp s')) = sent0 fd ++ responses_to fd R rss) s) c.
Proof.
  intros Halone Hworks Hclock Hsim He Hid Hw.
  eapply wp_mono; [by apply (client_fleet pipe i2c Hclock Hsim n)|].
  intros alive c' (rqs & [F1 F2 F3] & Hfull & Hmsgs). exists rqs. do 4 (split; [done|]).
  intros Et Ed Ot Od tq1 tq2 dq1 dq2 ts1 ts2 ds1 ds2 limit fuel sent0 s0 s R Ha Hinit Hrun <-.
  eapply wp_mono; [eapply (servers_deliver_reference Et Ed Ot Od _ _ _ _ _ _ _ _ _ _ _ Halone Hworks _ _ _ _ _ _
    initial_cities_map books_initial); eassumption|].
  intros _u s' (_ & _ & Hsent). exists (serve_all initial_cities ∅ R.*2).2. split; [|by split].
  apply length_serve_all.
Qed.
