(* ===== verification/EndToEndExample.v ===== *)
(** EndToEndExample: the equivalences with the reference at work on concrete
    processes. *)

From S2P Require Import Prelude Machine CLib Ieee Posix IpcProtocol SharedMemory SharedQueue.
From S2P Require Import Sqlite SqliteDatabase SqliteRules ParkingDatabase SqliteExample.
From S2P Require Import Database DatabaseProofs DatabaseExample Ledger Fleet.
From S2P Require Import TcpServer TcpSockets TcpMessages System TcpExample EndToEnd.
From S2P Require GpsSimulator BbgClient BbgProofs.

Lemma example_alone : forall t t', rely t t' -> t' = t.
Proof. by intros t t' ->. Qed.

Lemma seeded_books : books initial_cities ∅ (tables_of (db_sqlite seeded)).
Proof. exact books_initial. Qed.

Lemma both_good : Forall (fun rq => exists v, good_request rq v) [arrival; departure].
Proof. repeat constructor; exists car; [exact arrival_good|exact departure_good]. Qed.

(** The reference answers as the server of [arrival_departure_replies] does. *)
Example reference_replies :
  (fun rs => (rs_status rs, rs_action rs, rs_parking_duration rs, rs_parking_cost rs)) <$>
    (serve_all initial_cities ∅ [arrival; departure]).2 =
  [(IPC_STATUS_SUCCESS, ACKNOWLEDGE, 0, double_zero); (IPC_STATUS_SUCCESS, END_PARKING, 61, double_lit 1 1)].
Proof. vm_compute. reflexivity. Qed.

Lemma database_is_ledger_witness :
  wp (@process_all quiet_env _ _ [arrival; departure]) (fun rss s' =>
    rss = (serve_all initial_cities ∅ [arrival; departure]).2 /\
    books initial_cities (serve_all initial_cities ∅ [arrival; departure]).1 (tables_of (srv_sqlite s')) /\
    same_server (process serving_object [] 1) s') (process serving_object [] 1).
Proof.
  refine (@database_is_ledger quiet_env _ _ _ initial_cities ∅ [arrival; departure] (process serving_object [] 1)
    _ _ _ _ _ _).
  - exact example_alone.
  - exact example_reliable.
  - exact initial_cities_map.
  - discriminate.
  - exact seeded_books.
  - exact both_good.
Defined.

Lemma servers_are_reference_witness :
  wp (system_rounds sending_client sem_env tcp_alone alone 65 (drain (length [(5, arrival)]))) (fun _ s' =>
    pending_requests_ (TcpServer.this (sys_tcp s')) = ∅ /\
    books initial_cities (serve_all initial_cities ∅ [(5, arrival)].*2).1 (tables_of (srv_sqlite (sys_db s'))) /\
    forall fd, ~ @send_failure sending_client fd ->
      sent_on fd (tcp_world (sys_tcp s')) =
        [] ++ responses_to fd [(5, arrival)] (serve_all initial_cities ∅ [(5, arrival)].*2).2) after_arrival.
Proof.
  refine (@servers_are_reference _ _ sending_client sem_env tcp_alone alone request_queue_object response_queue_object
    request_queue_object response_queue_object 3 3 3 3 0 65 (fun _ => []) initial_cities ∅
    (tables_of (srv_sqlite (sys_db idle_system))) idle_system after_arrival [(5, arrival)] _ _ _ _ _ _ _).
  - exact example_alone.
  - exact example_reliable.
  - exact initial_cities_map.
  - exact seeded_books.
  - exact sending_client_assumptions.
  - exact idle_system_represents.
  - exact arrival_run.
Defined.

(** A device that gives a coordinate of the simulator and a clock that goes on
    from its last answer. *)
Definition fleet_env : Environment := fun w c =>
  match c with
  | sys_read _ n => Answer n 0 (GpsSimulator.encode_coordinate (GpsSimulator.at_thousandths 10100 10150)) ∅
  | sys_write _ data => ok (Z.of_nat (length data))
  | sys_time => ok (foldr Z.max 1000 (BbgProofs.times_read w))
  | _ => ok 0
  end.

Lemma foldr_max_from a l : a <= foldr Z.max a l /\ (forall t, t ∈ l -> t <= foldr Z.max a l) /\
  forall b, a <= b -> Forall (fun t => t <= b) l -> foldr Z.max a l <= b.
Proof.
  induction l as [|x l (IH1 & IH2 & IH3)]; cbn [foldr]; [by split_and!; [|intros ? ?%not_elem_of_nil|]|].
  split_and!; [lia| |].
  - intros t [->|Ht]%elem_of_cons; [lia|]. specialize (IH2 t Ht). lia.
  - intros b Hb [Hx Hl]%Forall_cons. specialize (IH3 b Hb Hl). lia.
Qed.

Lemma fleet_clock_advances : @clock_advances fleet_env.
Proof.
  intros w Hw. cbn zeta. change (ans_ret (respond w sys_time)) with (foldr Z.max 1000 (BbgProofs.times_read w)).
  destruct (foldr_max_from 1000 (BbgProofs.times_read w)) as (F1 & F2 & F3).
  assert (foldr Z.max 1000 (BbgProofs.times_read w) <= LAST_END_TIME) as Hle.
  { apply F3; [by vm_compute|]. eapply Forall_impl; [exact Hw|]. by intros t []. }
  rewrite wrap_s_small by (change (2 ^ (64 - 1)) with (2 ^ 63); unfold LAST_END_TIME, INT64_MAX in *; lia).
  split; [split; lia|exact F2].
Qed.

Lemma fleet_simulator_answers : @simulator_answers fleet_env 5.
Proof. intros w n _. exists (GpsSimulator.at_thousandths 10100 10150). split; [|done]. left. Qed.

Lemma fleet_is_served_witness :
  wp (@BbgClient.generate_messages fleet_env 7 4 5) (fun alive c' => exists rqs,
    (alive = true -> length rqs = 7%nat) /\
    BbgProofs.messages_written 4 (BbgClient.bbg_world c') = encode_request <$> rqs /\
    Forall (fun rq => exists v, good_request rq v) rqs /\
    (forall k rq, rqs !! k = Some rq -> rq_request_id rq = u64 (1 + Z.of_nat k)) /\
    forall Et Ed Ot Od tq1 tq2 dq1 dq2 ts1 ts2 ds1 ds2 limit fuel sent0 s0 s R,
      system_assumptions Et Ed Ot Od ts1 ts2 ds1 ds2 limit fuel ->
      represents Et tq1 tq2 dq1 dq2 ts1 ts2 ds1 ds2 initial_tables sent0 (Flow [] [] [] [] []) [] [] s0 ->
      system_run Et Ed Ot Od fuel s0 R s -> R.*2 = rqs ->
      wp (system_rounds Et Ed Ot Od fuel (drain (length R))) (fun _ s' => exists rss,
        length rss = length rqs /\ Forall granted rss /\
        forall fd, ~ @send_failure Et fd ->
          sent_on fd (tcp_world (sys_tcp s')) = sent0 fd ++ responses_to fd R rss) s) BbgClient.bbg_start.
Proof.
  refine (@fleet_is_served _ _ fleet_env 7 4 5 BbgClient.bbg_start _ _ _ _ _ _ _).
  - exact example_alone.
  - exact example_reliable.
  - exact fleet_clock_advances.
  - exact fleet_simulator_answers.
  - reflexivity.
  - reflexivity.
  - reflexivity.
Defined.
